(* ===== verification/_CoqProject ===== *)
-Q . S2P
Prelude.v
GoStd.v
GoNet.v
K8s.v
ApiTypes.v
Kube.v
Json.v
DeepCopy.v
DeepCopyTypes.v
Hypervisor.v
Generator.v
CpuSet.v
Goroutines.v
Expectations.v
VmValidate.v
VmMutate.v
PodBuild.v
PodBuildProofs.v
VmController.v
VmControllerProofs.v
ReplicaSet.v
ReplicaSetProofs.v
Migration.v
Prerunner.v
PrerunnerProofs.v
PodContract.v
NodeUtil.v
Daemon.v
DaemonProofs.v
Cgroup.v
CgroupProofs.v
KubectlVirt.v
Clientset.v
FakeClientset.v
Informers.v
DevicePlugin.v
Console.v
ConsoleProofs.v
HypervisorContract.v
Wiring.v
System.v
Cluster.v
StartUp.v
ShutDown.v
Rendezvous.v
Schemes.v
