(* ===== verification/Prelude.v ===== *)
(** * A verification of Virtink

    Virtink runs cloud-hypervisor virtual machines on Kubernetes.  A user creates
    [VirtualMachine], [VirtualMachineMigration] and [VirtualMachineReplicaSet] objects;
    admission webhooks default and validate them; the VM controller gives a VM a pod and
    follows it; the daemon of each node boots the VM in the pod's hypervisor, carries out power
    actions, hotplugs volumes and moves VMs between nodes; the migration controller claims a VM
    for a migration; the replica set controller keeps a number of VMs.  All of them meet in the
    API server, mostly in the status of the stored VM.  Around them: the pre-runner, which runs in
    the VM's pod before the hypervisor, sets up its network and writes its configuration; the
    device plugin, which offers /dev/kvm and /dev/net/tun of a node to pods; the consoles, for
    which the API server passes connections on to the daemon of the VM's node; the kubectl
    plugin, which asks for power actions through the generated clientset; the binaries that wire
    the parts together; and the generators and generated code that the parts are built with.

    ** The files

    Foundations.
    - [Prelude]: Go errors, panics, programs over external calls ([prog]) with their execution
      ([run], and [exec] in an environment) and a weakest precondition ([wp]) over environments,
      machine integers, tactics.
    - [GoStd], [GoNet]: what the sources use of Go's strings, strconv, filepath and net packages
      (IP and CIDR parsing and printing, masks, MAC addresses, splitting of host and port).
    - [K8s]: object metadata, and the Kubernetes libraries as the class [K8s] of operations
      with the laws [QuantityLaws] and [MetaLaws] that the theorems rely on; [k8s_concrete] is an
      instance that satisfies the laws and that the witnesses run.
    - [ApiTypes]: pkg/apis/virt/v1alpha1/types.go.  [Kube]: pods, the calls to the API server
      ([kubeE]), pkg/volumeutil, base64.
    - [Json]: encoding/json on structs described by their fields, with one proof that all of
      them read what they write.
    - [Goroutines]: goroutines under a wait group, for every schedule, with a proof rule.
    - [DeepCopy]: Go values with pointers, slices and maps in a heap, the statements that deep
      copies are generated from, and one proof that a checked list of statements copies deeply.

    Components, each a translation followed by its theorems (in a file of its own where they
    are many).
    - [CpuSet]: pkg/cpuset/cpuset.go.
    - [Expectations]: pkg/controller/expectations/expectations.go; the class
      [ControllerExpectationsInterface] with [ExpectationsLaws] is what a controller relies on.
    - [VmValidate], [VmMutate]: the validating and mutating webhooks of pkg/controller/vm_webhook.go.
    - [PodBuild], [PodBuildProofs]: buildVMPod and buildTargetVMPod of
      pkg/controller/vm_controller.go.
    - [VmController], [VmControllerProofs]: the rest of pkg/controller/vm_controller.go.
    - [ReplicaSet], [ReplicaSetProofs]: pkg/controller/vmrs_controller.go, vmrs_webhook.go and
      controller_utils.go.
    - [Migration]: pkg/controller/vmm_controller.go and vmm_webhook.go.
    - [Prerunner], [PrerunnerProofs]: cmd/virt-prerunner/main.go, with the fields of the
      hypervisor's configuration that it sets.  [PodContract]: what the pod builder promises to it.
    - [Daemon], [DaemonProofs]: pkg/daemon/vm_controller.go.
    - [Hypervisor]: pkg/cloudhypervisor/client.go, all types and operations.
      [HypervisorContract]: the configuration on its way from the pre-runner through the daemon
      to the hypervisor, and to the console server.
    - [Cgroup], [CgroupProofs]: the device managers of pkg/daemon/cgroup, which [Daemon] calls.
    - [KubectlVirt]: cmd/kubectl-virt/main.go.
    - [DeepCopyTypes]: every struct of pkg/apis and its functions in the two
      zz_generated.deepcopy.go.
    - [Clientset]: pkg/generated/clientset, the typed clients, their fakes and the constructors, and
      [KubectlVirt] on top of them.  [FakeClientset]: the fake clientset with its tracker, over the
      class [Testing] of client-go with its laws [TestingLaws].  [Informers]: pkg/generated/informers and pkg/generated/listers.
    - [Generator]: cmd/cloud-hypervisor-client-gen/main.go, which printed the source of [Hypervisor].
    - [Wiring]: cmd/virt-controller/main.go, cmd/virt-daemon/main.go, pkg/apiserver and the set-up
      methods of controllers and webhooks.
    - [NodeUtil]: pkg/daemon/pid, the relays of pkg/daemon/tcpproxy, pkg/tlsutil.
    - [Schemes]: the register.go files of pkg/apis and pkg/generated and the init functions of the
      binaries and the API server.
    - [DevicePlugin]: pkg/daemon/deviceplugin/deviceplugin.go.
    - [Console], [ConsoleProofs]: pkg/apiserver/registry/subresources/console and
      pkg/daemon/console_server.go.

    Compositions.
    - [System]: the VM controller, the migration controller and the daemons on one stored VM.
    - [Cluster]: a VM, its pod and its hypervisor between the VM controller, the kubelet and the
      daemons, which take turns and whose calls may fail, with the rule by which rounds of turns make
      progress.  [StartUp]: the way of a new VM to the phase Running.  [ShutDown]: the way of a deleted
      VM to its end.
    - [Rendezvous]: the daemons and relays of the two nodes of a migration on one network.

    ** How the code is modelled

    A pure Go function is a function.  One that can panic returns an [outcome], one that can
    fail a [result] or an [option goerror].  A function that talks to the outside is a [prog]
    over a signature of calls: [kubeE] for the API server, [rsE] for the replica set controller
    (API server, clock, scheduler, and the shared expectations), [nodeE] for a node (API server,
    files, processes, hypervisors, relays), [preE] for the pre-runner (environment, links, routes,
    commands, files), [cgE] for cgroups, [conE] and [pumpE] for consoles, [virtE] for the kubectl
    plugin, [httpE] for the hypervisor's client, [dpE] for the device plugin, whose goroutines are a
    step relation, [wireE] for the manager of a binary, [restE], [fakeE] and [cacheE] for client-go,
    [sysE] for sockets and certificates, [schemeE] for schemes.  Nothing is assumed of the answers unless an
    environment says so: a theorem about a controller is a [wp] statement whose environment
    lists the requests that are [allowed] at each moment and the [answers] that may come, so that
    it holds for every behaviour of the rest of the world, errors included.  Functions that
    change an object through a pointer take it and return it.  Aliasing is modelled where it can
    be seen: the maps that [MutateVM] lets requests and limits share ([VmMutate.rstore]), the
    maps of the VM that its pod shares ([PodBuild.shared_vm]), the heap of the deep copies and the
    expectations, which goroutines and watches change concurrently.  What Go leaves open in the
    generator (the order of a map, the order of equal elements after a sort) is the class
    [Generator.Runtime].

    ** What is shown

    - Admission: a create or update request is admitted exactly when an independent
      specification of well-formed VMs and permitted updates holds; defaulting is idempotent, does
      not observe its aliasing, keeps MAC addresses, and yields VMs that are admitted.
    - VM controller: no panic, only life-cycle steps of the status; pods in use and migration
      targets are never deleted, garbage exactly is; the finalizer outlives the pods; a VM is handed
      to a daemon only with its pod running and its volumes attached.
    - Pods: every mount has its volume; a migration target avoids the source's node; the
      pre-runner finds each disk at a path that the pod provides.
    - Pre-runner: it ends with success unless a call fails, with a configuration that matches
      the VM; a masqueraded network has the addresses it should and touches nothing else.
    - Hypervisor: each operation of the client is one request, whose status decides; the
      document the pre-runner writes is the one the hypervisor gets, and says the same to every
      reader.
    - Consoles: a request reaches the daemon of the VM's node, which accepts it for that VM only;
      messages are copied in order and none is lost before an error.
    - cgroups, kubectl plugin, device plugin: which rule decides about a device, which VMs a
      command patches, which devices are offered and allocated.
    - Replica sets: scaling never overshoots under any interleaving, waits for expectations, and
      counts what it created; expectations are met exactly when the awaited events came.
    - Migrations and daemons: claims, roles, the hand-over of the VM to its target, which
      hypervisor requests are made when, and when a daemon cannot panic.
    - Deep copies: every generated copy, except of what holds a VM's spec, is equal to the original and
      shares nothing with it; the copy of a spec shares exactly its sidecars.
    - Clientset and informers: a fake client asks what the real one asks, and a fake clientset gives
      back the objects it was made with; the kubectl plugin's
      requests are reads and status patches of its namespace; a factory has one informer per type,
      which runs at most once.
    - Generator: the generated client depends on the document only; a schema's type name spells the
      type that the typing rules give it.
    - Binaries: a manager starts only when it is complete, and the exit status tells whether a
      call failed.
    - CPU sets: printed lists are read back, and the inputs on which the parser ends are known exactly.
    - System: the three programs refine one transition system, whose reachable states keep
      the invariants the parts rely on; at most one node boots a VM.
    - Start and end: whatever the order of turns and the failures in between, a new VM runs after
      eight rounds without a failure, on one pod and booted once, and a VM that is deleted at any
      moment is gone with its pod after five.
    - Migration traffic: the source's hypervisor sends to the socket on which the target's receives.
    - Schemes: a client knows the kind of every object it is asked for, under one name each.
    - Defects: theorems that state what the code does where it fails (a wait group that goes
      negative, a secret mounted into the wrong container, a nil cgroup manager, a parser that
      does not end, an address count that overflows, a phase that is never left, device numbers
      read in the wrong base, a device that stays allowed, a lost socket path, a health channel
      that is never made, a console file that leaves its pod, a resume that is never sent, slices
      that a deep copy shares, a migration webhook without a client, a server that is stopped before
      it is made, a certificate pool that may be empty, an IPv6 address that is never dialed).

    ** Bounds

    Loops over slices are structural.  [CpuSet.Parse] takes fuel for each range: 2^64
    rounds are enough for every range that ends, and a range up to the largest [int] exhausts every
    fuel ([CpuSet.Parse_terminates]).
    [Goroutines.group] takes fuel for the steps of a group; [group_fuel] gives each goroutine
    more steps than its program has, and the theorems show that it is not exhausted.
    The copy loops of [Console] take fuel for their passes, and their theorems hold for each.
    [Strconv.format_digits] has 20 digits, enough for 64 bits.  [Daemon.PollImmediate] polls once
    at once and once per interval.  Integers keep the width of the source ([u32], [i64], ...)
    wherever they can leave it.  A turn of [Cluster] is one reconciliation; the rounds of
    [StartUp.vm_starts] and [ShutDown.vm_goes] are the lengths of the longest ways, one round for each
    step that an actor has to make.

    ** What is left out or simplified

    Nil and empty slices are not distinguished, except in deep copies.  [sort.Slice] is a stable merge
    sort; outside of [Generator] Go maps are iterated in one order.  JSON documents are values, not text, and their keys match exactly; where no struct of
    the repository is concerned, encoding, like the CDI populated test, is a parameter or a call.  A create call that answers an error created nothing.  [reflect.DeepEqual] of a
    status and a pointer to its copy is false, as in Go, so statuses are always written.  Watches
    and field indexes are the functions that compute requests and keys, not the machinery that
    delivers them.

    The bytes a file, a terminal or a socket delivers are answers of calls.  The hypervisor's
    configuration has the fields the pre-runner sets; the others are zero.

    [strings.Title] is modelled on ASCII strings.  A binary starts after its flags were parsed; the
    goroutine of the API server may end the process later.  A reconciler is set up with the client,
    scheme and recorder of its manager, which are not told apart.

    In [Cluster] turns do not overlap, the VM has no hotplug volumes and no migration, its claims and
    network attachments are there, its finalizer is the only one, and no pod is evicted or becomes
    Unknown; [System] is about VMs with volumes and migrations, and about every interleaving of the status updates.

    Not modelled, as no code of the repository does it: the copying between the connections of the
    migration relays (a proxy library, whose Start is a parameter), the object tracker and the
    discovery client (client-go), the bookkeeping of schemes (apimachinery), the template and the
    network access of the generator.  The mocks and the tests are left out. *)

From stdpp Require Import base gmap strings list sets fin_maps.
From Stdlib Require Import ZArith Lia.

(** ** Go values, errors and panics *)

(** The result of a [ctrl.Request] reconciliation: [ctrl.Result].  Durations are
    counted in seconds, the finest unit the sources use. *)
Record Result := mkResult { Requeue : bool; RequeueAfter : Z }.

Definition emptyResult : Result := {| Requeue := false; RequeueAfter := 0 |}.

(** A Go [error].  [ErrMsg] is [errors.New] or a format without an error
    argument, [ErrFmt] is [fmt.Errorf] with [%s] (the cause is only printed),
    [ErrWrap] is [fmt.Errorf] with [%w] (the cause is kept in the chain that
    [errors.As] walks), [ErrReconcile] is the [reconcileError] value of
    pkg/controller/errors.go and [ErrAPI] an error of the API server. *)
Inductive apiReason := ReasonNotFound | ReasonConflict | ReasonNamespaceTerminating | ReasonOther.

Inductive goerror : Type :=
| ErrMsg (msg : string)
| ErrFmt (msg : string) (cause : goerror)
| ErrWrap (msg : string) (cause : goerror)
| ErrReconcile (r : Result)
| ErrAPI (why : apiReason) (msg : string).

#[export] Instance apiReason_eq_dec : EqDecision apiReason.
Proof. solve_decision. Defined.
#[export] Instance Result_eq_dec : EqDecision Result.
Proof. solve_decision. Defined.
#[export] Instance goerror_eq_dec : EqDecision goerror.
Proof. solve_decision. Defined.

(** [errors.As(err, &reconcileError{})]: walk the [%w] chain. *)
Fixpoint as_reconcileError (e : goerror) : option Result :=
  match e with
  | ErrReconcile r => Some r
  | ErrWrap _ c => as_reconcileError c
  | _ => None
  end.

(** [apierrors.IsNotFound], [apierrors.IsConflict] and
    [apierrors.HasStatusCause(err, NamespaceTerminatingCause)] look through the
    same chain. *)
Fixpoint api_reason (e : goerror) : option apiReason :=
  match e with
  | ErrAPI r _ => Some r
  | ErrWrap _ c => api_reason c
  | _ => None
  end.

Definition IsNotFound (e : goerror) : bool := bool_decide (api_reason e = Some ReasonNotFound).
Definition IsConflict (e : goerror) : bool := bool_decide (api_reason e = Some ReasonConflict).
Definition IsNamespaceTerminating (e : goerror) : bool :=
  bool_decide (api_reason e = Some ReasonNamespaceTerminating).

(** [client.IgnoreNotFound]. *)
Definition IgnoreNotFound (e : option goerror) : option goerror :=
  match e with
  | Some e' => if IsNotFound e' then None else Some e'
  | None => None
  end.

(** A Go call that returns a value or an error. *)
Inductive result (A : Type) : Type :=
| Ok (a : A)
| Err (e : goerror).
Arguments Ok {A} a.
Arguments Err {A} e.

(** A Go function body: it returns, or it panics. *)
Inductive outcome (A : Type) : Type :=
| Returned (a : A)
| Panicked (why : string).
Arguments Returned {A} a.
Arguments Panicked {A} why.

#[export] Instance Returned_inj A : Inj (=) (=) (@Returned A).
Proof. by intros ?? [= ->]. Qed.
#[export] Instance Ok_inj A : Inj (=) (=) (@Ok A).
Proof. by intros ?? [= ->]. Qed.

Definition outcome_bind {A B} (o : outcome A) (f : A → outcome B) : outcome B :=
  match o with
  | Returned a => f a
  | Panicked w => Panicked w
  end.

(** ** Programs over external calls

    The parts of virtink that talk to the API server, to cloud-hypervisor or to
    the node's operating system are programs over a signature [E] of calls: the
    code outside the repository appears as a call, and what it answers is the
    environment's choice. *)
Inductive prog (E : Type → Type) (A : Type) : Type :=
| Ret (a : A)
| Call {X : Type} (e : E X) (k : X → prog E A)
| Crash (why : string).
Arguments Ret {E A} a.
Arguments Call {E A X} e k.
Arguments Crash {E A} why.

(** Programs are kept in lists (goroutines): this places them, once for all files, below the
    universe of the list functor that the map and bind notations of lists use. *)
Definition progs (E : Type → Type) (A : Type) : Type := (list : Type → Type) (prog E A).

Fixpoint pbind {E A B} (p : prog E A) (f : A → prog E B) : prog E B :=
  match p with
  | Ret a => f a
  | Call e k => Call e (λ x, pbind (k x) f)
  | Crash w => Crash w
  end.

Definition call {E X} (e : E X) : prog E X := Call e Ret.

Declare Scope go_scope.
Delimit Scope go_scope with go.

Notation "'let!' x := p 'in' q" := (pbind p (λ x, q))
  (at level 10, x pattern, p at level 100, q at level 200) : go_scope.
(** [x, err := p; if err != nil { return err }]. *)
Definition tbind {E A B} (p : prog E (result A)) (f : A → prog E (result B)) : prog E (result B) :=
  pbind p (λ r, match r with Ok a => f a | Err e => Ret (Err e) end).
(** [if err := p; err != nil { return err }]. *)
Definition check {E} (p : prog E (option goerror)) : prog E (result unit) :=
  pbind p (λ o, Ret (match o with Some e => Err e | None => Ok tt end)).

Notation "'try!' x := p 'in' q" := (tbind p (λ x, q))
  (at level 10, x pattern, p at level 100, q at level 200) : go_scope.
Notation "p ;;; q" := (pbind p (λ _, q))
  (at level 100, right associativity) : go_scope.
Notation "'let?' x := p 'in' q" := (outcome_bind p (λ x, q))
  (at level 10, x pattern, p at level 100, q at level 200) : go_scope.

(** *** Executing a program against a handler *)

Definition handler (E : Type → Type) (W : Type) := ∀ X, E X → W → X * W.

Fixpoint run {E A W} (h : handler E W) (p : prog E A) (w : W) : outcome A * W :=
  match p with
  | Ret a => (Returned a, w)
  | Call e k => let '(x, w') := h _ e w in run h (k x) w'
  | Crash why => (Panicked why, w)
  end.

(** *** Reasoning about every execution

    An [env] says which calls are [allowed] in a world, which [answers] the
    environment may give, and whether the statement tolerates a panic.  [wp env p w Q]
    states: whatever the environment answers, [p] only makes allowed calls, panics
    only if [may_panic] holds, and returns a value and a world that satisfy [Q]. *)
Record env (E : Type → Type) (W : Type) := mkEnv {
  allowed : ∀ X, E X → W → Prop;
  answers : ∀ X, E X → W → X → W → Prop;
  may_panic : Prop
}.
Arguments mkEnv {E W} _ _ _.
Arguments allowed {E W} _ {X} _ _.
Arguments answers {E W} _ {X} _ _ _ _.
Arguments may_panic {E W} _.

Section WP.
Context {E : Type → Type} {W : Type} (en : env E W).

Fixpoint wp {A} (p : prog E A) (w : W) (Q : A → W → Prop) : Prop :=
  match p with
  | Ret a => Q a w
  | Call e k => allowed en e w ∧ ∀ x w', answers en e w x w' → wp (k x) w' Q
  | Crash _ => may_panic en
  end.

Lemma wp_ret {A} (a : A) w (Q : A → W → Prop) : Q a w → wp (Ret a) w Q.
Proof. done. Qed.

Lemma wp_call {A X} (e : E X) (k : X → prog E A) w Q :
  allowed en e w →
  (∀ x w', answers en e w x w' → wp (k x) w' Q) →
  wp (Call e k) w Q.
Proof. done. Qed.

Lemma wp_mono {A} (p : prog E A) w (Q Q' : A → W → Prop) :
  (∀ a w', Q a w' → Q' a w') → wp p w Q → wp p w Q'.
Proof.
  intros HQ. revert w. induction p as [a|X e k IH|why]; intros w; simpl; auto.
  intros [? Hk]. split; auto.
Qed.

Lemma wp_bind {A B} (p : prog E A) (f : A → prog E B) w Q :
  wp p w (λ a w', wp (f a) w' Q) ↔ wp (pbind p f) w Q.
Proof.
  revert w. induction p as [a|X e k IH|why]; intros w; simpl; [done| |done].
  split; intros [? Hk]; (split; [done|]); intros x w' Hx; apply IH; auto.
Qed.

Lemma wp_seq {A B} (p : prog E A) (f : A → prog E B) w Q :
  wp p w (λ a w', wp (f a) w' Q) → wp (pbind p f) w Q.
Proof. apply wp_bind. Qed.

Lemma wp_and {A} (p : prog E A) w (Q Q' : A → W → Prop) :
  wp p w Q → wp p w Q' → wp p w (λ a w', Q a w' ∧ Q' a w').
Proof.
  revert w. induction p as [a|X e k IH|why]; intros w; simpl; [done| |done].
  intros [? H1] [_ H2]. split; auto.
Qed.

(** A call that is allowed wherever [I] holds, and after which [I] holds. *)
Definition ok_call (I : W → Prop) {X} (e : E X) : Prop :=
  ∀ w, I w → allowed en e w ∧ ∀ x w', answers en e w x w' → I w'.

Lemma wp_ok (I : W → Prop) {A X} (e : E X) (k : X → prog E A) w Q :
  ok_call I e → I w → (∀ x w', I w' → wp (k x) w' Q) → wp (Call e k) w Q.
Proof. intros He Hw Hk. destruct (He w Hw) as [Ha Hx]. split; [done|]. eauto. Qed.

(** Sequences that stop at the first error. *)
Lemma wp_try {A B} (p : prog E (result A)) (f : A → prog E (result B)) w Q (R : result A → W → Prop) :
  wp p w R → (∀ a w', R (Ok a) w' → wp (f a) w' Q) → (∀ e w', R (Err e) w' → Q (Err e) w') → wp (tbind p f) w Q.
Proof.
  intros Hp Hf He. apply wp_seq. eapply wp_mono; [|exact Hp]. intros [a|e] w' Hr; [by apply Hf|by apply He].
Qed.
Lemma wp_check (p : prog E (option goerror)) w Q :
  wp p w (λ o w', Q (match o with Some e => Err e | None => Ok tt end) w') → wp (check p) w Q.
Proof. intros Hp. by apply wp_seq. Qed.

(** A handler that stays within the environment reaches the postcondition. *)
Definition conforms (h : handler E W) : Prop :=
  ∀ X (e : E X) w, allowed en e w → match h X e w with (x, w') => answers en e w x w' end.

Lemma wp_run {A} (h : handler E W) (p : prog E A) w Q :
  conforms h → ¬ may_panic en → wp p w Q → ∃ a w', run h p w = (Returned a, w') ∧ Q a w'.
Proof.
  intros Hh Hp. revert w. induction p as [a|X e k IH|why]; intros w; simpl.
  - eauto.
  - intros [Ha Hk]. specialize (Hh X e w Ha). destruct (h X e w) as [x w'] eqn:Eh.
    apply IH, Hk, Hh.
  - done.
Qed.
End WP.

(** *** Executions as a relation: one way the environment may answer *)
Inductive exec {E W A} (en : env E W) : prog E A → W → outcome A → W → Prop :=
| exec_ret a w : exec en (Ret a) w (Returned a) w
| exec_crash why w : exec en (Crash why) w (Panicked why) w
| exec_call X (e : E X) k w x w1 o w2 :
    answers en e w x w1 → exec en (k x) w1 o w2 → exec en (Call e k) w o w2.

Lemma wp_exec {E W A} (en : env E W) (p : prog E A) w Q o w' :
  ¬ may_panic en → wp en p w Q → exec en p w o w' → ∃ a, o = Returned a ∧ Q a w'.
Proof.
  intros Hn Hp He. induction He as [a w|why w|X e k w x w1 o w2 Hx He IH]; [by exists a|done|].
  apply IH. by apply (proj2 Hp).
Qed.

(** What a conforming handler does in allowed calls is an execution. *)
Lemma run_exec {E W A} (en : env E W) (h : handler E W) (p : prog E A) w Q :
  conforms en h → wp en p w Q → exec en p w (fst (run h p w)) (snd (run h p w)).
Proof.
  intros Hh. revert w. induction p as [a|X e k IH|why]; intros w; simpl; [constructor| |constructor].
  intros [Ha Hk]. specialize (Hh X e w Ha). destruct (h X e w) as [x w1]. eapply exec_call; [done|]. by apply IH, Hk.
Qed.

(** An environment that allows more and answers less proves as much. *)
Lemma wp_weaken {E W} (en en' : env E W) {A} (p : prog E A) w Q :
  (∀ X (e : E X) w, allowed en e w → allowed en' e w) →
  (∀ X (e : E X) w x w', answers en' e w x w' → answers en e w x w') → (may_panic en → may_panic en') →
  wp en p w Q → wp en' p w Q.
Proof.
  intros Ha Hx Hp. revert w. induction p as [a|X e k IH|why]; intros w; simpl; [done| |done].
  intros [? Hk]. split; auto.
Qed.

Lemma run_pbind {E A B W} (h : handler E W) (p : prog E A) (f : A → prog E B) w :
  run h (pbind p f) w =
    match run h p w with
    | (Returned a, w') => run h (f a) w'
    | (Panicked why, w') => (Panicked why, w')
    end.
Proof.
  revert w. induction p as [a|X e k IH|why]; intros w; simpl; auto.
  destruct (h X e w). apply IH.
Qed.

(** Errors with more context. *)
Definition map_err {A} (f : goerror → goerror) (r : result A) : result A :=
  match r with Ok a => Ok a | Err e => Err (f e) end.

(** ** Machine integers *)

Open Scope Z_scope.

Definition u8 (z : Z) : Z := z `mod` 2 ^ 8.
Definition u32 (z : Z) : Z := z `mod` 2 ^ 32.
Definition u64 (z : Z) : Z := z `mod` 2 ^ 64.
(** Two's complement: Go's [int32], and [int] and [int64] on a 64-bit target. *)
Definition i32 (z : Z) : Z := (z + 2 ^ 31) `mod` 2 ^ 32 - 2 ^ 31.
Definition i64 (z : Z) : Z := (z + 2 ^ 63) `mod` 2 ^ 64 - 2 ^ 63.

Lemma u32_range z : 0 ≤ u32 z < 2 ^ 32.
Proof. apply Z.mod_pos_bound. lia. Qed.
Lemma u32_small z : 0 ≤ z < 2 ^ 32 → u32 z = z.
Proof. apply Z.mod_small. Qed.
Lemma i64_range z : - 2 ^ 63 ≤ i64 z < 2 ^ 63.
Proof. unfold i64. pose proof (Z.mod_pos_bound (z + 2 ^ 63) (2 ^ 64)). lia. Qed.
Lemma i64_small z : - 2 ^ 63 ≤ z < 2 ^ 63 → i64 z = z.
Proof. intros. unfold i64. rewrite Z.mod_small; lia. Qed.
Lemma i32_small z : - 2 ^ 31 ≤ z < 2 ^ 31 → i32 z = z.
Proof. intros. unfold i32. rewrite Z.mod_small; lia. Qed.

(** ** Automation *)

Create HintDb virtink.
#[export] Hint Resolve wp_ret u32_range i64_range : virtink.

(** Destruct the scrutinee of a [match] in the goal or in a hypothesis. *)
Ltac case_goal :=
  match goal with
  | |- context [match ?x with _ => _ end] => destruct x eqn:?
  end.
Ltac case_hyp H :=
  match type of H with
  | context [match ?x with _ => _ end] => destruct x eqn:?
  end.
Ltac bools :=
  repeat match goal with
  | H : _ && _ = true |- _ => apply andb_true_iff in H; destruct H
  | H : _ || _ = false |- _ => apply orb_false_iff in H; destruct H
  | H : negb _ = true |- _ => apply negb_true_iff in H
  | H : negb _ = false |- _ => apply negb_false_iff in H
  | H : bool_decide _ = true |- _ => apply bool_decide_eq_true in H
  | H : bool_decide _ = false |- _ => apply bool_decide_eq_false in H
  | H : (_ =? _) = true |- _ => apply Z.eqb_eq in H
  | H : (_ =? _) = false |- _ => apply Z.eqb_neq in H
  | H : (_ <? _) = true |- _ => apply Z.ltb_lt in H
  | H : (_ <? _) = false |- _ => apply Z.ltb_ge in H
  | H : (_ <=? _) = true |- _ => apply Z.leb_le in H
  | H : (_ <=? _) = false |- _ => apply Z.leb_gt in H
  end.

(** One step through a [wp] goal: a returned value, a call (its permission is left to prove and
    its answer is introduced), a case distinction, or the first part of a sequence. *)
Ltac wp_step :=
  lazymatch goal with
  | |- wp _ (Ret _) _ _ => cbn [wp]
  | |- wp _ (pbind (Ret _) _) _ _ => cbn [pbind]
  | |- wp _ (pbind (call _) _) _ _ => cbn [pbind call]
  | |- wp _ (call _) _ _ => unfold call
  | |- wp _ (Call _ _) _ _ => apply wp_call; [|intros ? ? ?]
  | |- wp _ (Crash _) _ _ => cbn [wp]
  | |- wp _ (pbind (match ?x with _ => _ end) _) _ _ => destruct x eqn:?
  | |- wp _ (match ?x with _ => _ end) _ _ => destruct x eqn:?
  | |- wp _ (pbind (pbind _ _) _) _ _ => apply wp_seq
  | |- wp _ (let _ := _ in _) _ _ => cbv zeta
  end.

(** Use a lemma for the first part of a sequence. *)
Ltac wp_use H := apply wp_seq; eapply wp_mono; [|eapply H].

(** [lia] on goals with division or modulo by a constant. *)
Ltac lia_div := Z.to_euclidean_division_equations; lia.
