(* ===== verification/GoStd.v ===== *)
(** * The Go standard library functions virtink calls

    [strings], [strconv], [net] and [sort], as far as the sources use them.
    A Go string is a [string], a byte is a [Z] between 0 and 255 and a byte
    slice is a [list Z]. *)

From stdpp Require Import base gmap strings list sets fin_maps sorting.
From Stdlib Require Import ZArith Lia Ascii.
From S2P Require Import Prelude.
Open Scope Z_scope.

Definition code (c : ascii) : Z := Z.of_N (N_of_ascii c).
Definition chr (z : Z) : ascii := ascii_of_N (Z.to_N z).

(** ** Package strings *)
Module Strings.

(** [strings.Split(s, sep)] for a separator of one byte. *)
Fixpoint Split (sep : ascii) (s : string) : list string :=
  match s with
  | EmptyString => [EmptyString]
  | String a r =>
      if decide (a = sep) then EmptyString :: Split sep r
      else match Split sep r with
           | h :: t => String a h :: t
           | [] => [String a EmptyString]
           end
  end.

(** [strings.Cut], which is also [strings.SplitN(s, sep, 2)]: the text before the
    first separator, and the text after it when there is one. *)
Fixpoint Cut (sep : ascii) (s : string) : string * option string :=
  match s with
  | EmptyString => (EmptyString, None)
  | String a r =>
      if decide (a = sep) then (EmptyString, Some r)
      else let '(b, t) := Cut sep r in (String a b, t)
  end.

Fixpoint Join (l : list string) (sep : string) : string :=
  match l with
  | [] => EmptyString
  | [s] => s
  | s :: l' => (s +:+ sep +:+ Join l' sep)%string
  end.

Definition is_space (c : ascii) : bool :=
  bool_decide (code c ∈ [9; 10; 11; 12; 13; 32]).

Fixpoint TrimLeftFunc (f : ascii → bool) (s : string) : string :=
  match s with
  | EmptyString => EmptyString
  | String a r => if f a then TrimLeftFunc f r else s
  end.

Fixpoint TrimRightFunc (f : ascii → bool) (s : string) : string :=
  match s with
  | EmptyString => EmptyString
  | String a r =>
      match TrimRightFunc f r with
      | EmptyString => if f a then EmptyString else String a EmptyString
      | r' => String a r'
      end
  end.

(** [strings.TrimSpace] on ASCII text. *)
Definition TrimSpace (s : string) : string := TrimRightFunc is_space (TrimLeftFunc is_space s).

Fixpoint HasPrefix (s p : string) : bool :=
  match p, s with
  | EmptyString, _ => true
  | String a p', String b s' => if decide (a = b) then HasPrefix s' p' else false
  | String _ _, EmptyString => false
  end.

Fixpoint Contains (s sub : string) : bool :=
  HasPrefix s sub ||
  match s with
  | EmptyString => false
  | String _ s' => Contains s' sub
  end.

Lemma Split_nonempty sep s : Split sep s ≠ [].
Proof. destruct s as [|a r]; simpl; [done|]. case_decide; [done|]. by destruct (Split sep r). Qed.

Lemma Join_Split sep s : Join (Split sep s) (String sep EmptyString) = s.
Proof.
  induction s as [|a r IH]; [done|]. simpl.
  pose proof (Split_nonempty sep r) as Hne.
  case_decide; subst; destruct (Split sep r) as [|h t]; try done.
  - change (String sep (Join (h :: t) (String sep EmptyString)) = String sep r). by rewrite IH.
  - rewrite <-IH. by destruct t.
Qed.

Lemma Cut_spec sep s :
  match Cut sep s with
  | (b, None) => s = b
  | (b, Some t) => s = (b +:+ String sep t)%string
  end.
Proof.
  induction s as [|a r IH]; simpl; [done|].
  case_decide; [by subst|]. destruct (Cut sep r) as [b [t|]]; by rewrite IH.
Qed.

(** *** Text without a separator *)

Fixpoint lacks (sep : ascii) (s : string) : Prop :=
  match s with EmptyString => True | String a r => a ≠ sep ∧ lacks sep r end.

Lemma Cut_lacks sep s : lacks sep s → Cut sep s = (s, None).
Proof. induction s as [|a r IH]; simpl; [done|]. intros [? ?]. by rewrite decide_False, IH. Qed.

Lemma Cut_app sep s t : lacks sep s → Cut sep (s +:+ String sep t) = (s, Some t).
Proof.
  induction s as [|a r IH]; intros Hs.
  - simpl. by rewrite decide_True.
  - destruct Hs as [? ?]. change (String a r +:+ String sep t)%string with (String a (r +:+ String sep t)%string).
    simpl. by rewrite decide_False, IH.
Qed.

Lemma Split_lacks sep s : lacks sep s → Split sep s = [s].
Proof. induction s as [|a r IH]; simpl; [done|]. intros [? ?]. by rewrite decide_False, IH. Qed.

Lemma Split_app sep s t : lacks sep s → Split sep (s +:+ String sep t) = s :: Split sep t.
Proof.
  induction s as [|a r IH]; intros Hs.
  - simpl. by rewrite decide_True.
  - destruct Hs as [? ?]. change (String a r +:+ String sep t)%string with (String a (r +:+ String sep t)%string).
    simpl. by rewrite decide_False, IH.
Qed.

Lemma Split_Join sep l :
  l ≠ [] → Forall (lacks sep) l → Split sep (Join l (String sep EmptyString)) = l.
Proof.
  induction l as [|s l IH]; [done|]. intros _. rewrite Forall_cons. intros [Hs Hl].
  destruct l as [|s' l]; [by apply Split_lacks|].
  change (Join (s :: s' :: l) (String sep EmptyString)) with (s +:+ String sep (Join (s' :: l) (String sep EmptyString)))%string.
  by rewrite Split_app, IH.
Qed.

Lemma lacks_app sep s t : lacks sep s → lacks sep t → lacks sep (s +:+ t).
Proof. induction s as [|a r IH]; [done|]. intros [? ?] ?. split; [done|by apply IH]. Qed.

Lemma append_assoc (a b c : string) : ((a +:+ b) +:+ c = a +:+ (b +:+ c))%string.
Proof.
  induction a as [|x a IH]; [done|].
  change (String x ((a +:+ b) +:+ c) = String x (a +:+ b +:+ c))%string. by rewrite IH.
Qed.

Lemma length_append (a b : string) : String.length (a +:+ b) = (String.length a + String.length b)%nat.
Proof. induction a as [|x a IH]; [done|]. change (S (String.length (a +:+ b)) = S (String.length a + String.length b)). by rewrite IH. Qed.

Lemma lacks_substring sep s n m : lacks sep s → lacks sep (String.substring n m s).
Proof.
  revert n m. induction s as [|c s IH]; intros n m Hs; [by destruct n, m|]. destruct Hs as [Hc Hs].
  destruct n as [|n]; [destruct m as [|m]; [done|]; split; [done|by apply IH]|by apply IH].
Qed.

Lemma TrimRightFunc_keeps f s c : f c = false → TrimRightFunc f (s +:+ String c EmptyString) = (s +:+ String c EmptyString)%string.
Proof.
  intros Hc. induction s as [|a s IH].
  - change (TrimRightFunc f (String c EmptyString) = String c EmptyString). simpl. by rewrite Hc.
  - change (TrimRightFunc f (String a (s +:+ String c EmptyString)) = String a (s +:+ String c EmptyString)).
    cbn [TrimRightFunc]. rewrite IH. by destruct s.
Qed.

End Strings.

(** ** Package strconv *)
Module Strconv.

(** The value of a digit in a base up to 36. *)
Definition digit_val (c : ascii) : option Z :=
  let z := code c in
  if (48 <=? z) && (z <=? 57) then Some (z - 48)
  else if (97 <=? z) && (z <=? 122) then Some (z - 97 + 10)
  else if (65 <=? z) && (z <=? 90) then Some (z - 65 + 10)
  else None.

Fixpoint ParseDigits (base : Z) (s : string) (acc : Z) : option Z :=
  match s with
  | EmptyString => Some acc
  | String c r =>
      match digit_val c with
      | Some d => if d <? base then ParseDigits base r (acc * base + d) else None
      | None => None
      end
  end.

(** [strconv.ParseInt(s, base, bitSize)] for an explicit base: [None] is
    [ErrSyntax] or [ErrRange]. *)
Definition ParseInt (base bitSize : Z) (s : string) : option Z :=
  let '(neg, body) :=
    match s with
    | String c r => if decide (c = "-"%char) then (true, r)
                    else if decide (c = "+"%char) then (false, r) else (false, s)
    | EmptyString => (false, EmptyString)
    end in
  match body with
  | EmptyString => None
  | _ =>
      match ParseDigits base body 0 with
      | None => None
      | Some un =>
          let cutoff := 2 ^ (bitSize - 1) in
          if negb neg && (cutoff <=? un) then None
          else if neg && (cutoff <? un) then None
          else Some (if neg then - un else un)
      end
  end.

Definition Atoi (s : string) : option Z := ParseInt 10 64 s.

(** The decimal digits of a natural number; [fuel] bounds the digits, and 20
    are enough for every 64-bit value. *)
Fixpoint format_digits (fuel : nat) (z : Z) (acc : string) : string :=
  match fuel with
  | O => acc
  | S f =>
      let acc' := String (chr (48 + z `mod` 10)) acc in
      if z / 10 =? 0 then acc' else format_digits f (z / 10) acc'
  end.

(** [strconv.FormatInt(z, 10)], which is also [%d]. *)
Definition FormatInt (z : Z) : string :=
  if z <? 0 then String "-"%char (format_digits 20 (- z) EmptyString)
  else format_digits 20 z EmptyString.

Lemma digit_val_range c d : digit_val c = Some d → 0 ≤ d < 36.
Proof. unfold digit_val. intros H. repeat case_hyp H; simplify_eq; bools; lia. Qed.

Lemma ParseDigits_nonneg base s acc n :
  0 ≤ base → 0 ≤ acc → ParseDigits base s acc = Some n → 0 ≤ n.
Proof.
  intros Hb. revert acc. induction s as [|c r IH]; simpl; intros acc Ha H; [by simplify_eq|].
  destruct (digit_val c) as [d|] eqn:Ed; [|done]. apply digit_val_range in Ed.
  destruct (d <? base); [|done]. eapply IH; [|done]. nia.
Qed.

Lemma ParseInt_range base bits s n :
  0 ≤ base → 0 < bits → ParseInt base bits s = Some n → - 2 ^ (bits - 1) ≤ n < 2 ^ (bits - 1).
Proof.
  intros Hb Hbits. unfold ParseInt.
  set (p := match s with String c r => _ | EmptyString => _ end). destruct p as [neg body].
  destruct body as [|c r]; [done|].
  destruct (ParseDigits base (String c r) 0) as [un|] eqn:E; [|done].
  apply ParseDigits_nonneg in E; [|lia..].
  intros H. assert (0 < 2 ^ (bits - 1)) by (apply Z.pow_pos_nonneg; lia).
  destruct neg; simpl in H; repeat case_hyp H; simplify_eq; bools; lia.
Qed.

(** *** Printing and parsing *)

Definition digit_char (c : ascii) : Prop := 48 ≤ code c ≤ 57.

Fixpoint digits (s : string) : Prop :=
  match s with EmptyString => True | String c r => digit_char c ∧ digits r end.

Lemma code_chr z : 0 ≤ z < 256 → code (chr z) = z.
Proof. intros Hz. unfold code, chr. rewrite N_ascii_embedding by lia. lia. Qed.

Lemma digit_chr d : 0 ≤ d < 10 → digit_char (chr (48 + d)) ∧ digit_val (chr (48 + d)) = Some d.
Proof.
  intros Hd. unfold digit_char, digit_val. rewrite code_chr by lia. split; [lia|].
  rewrite (proj2 (Z.leb_le _ _)), (proj2 (Z.leb_le _ _)) by lia. simpl. f_equal. lia.
Qed.

Lemma format_digits_spec fuel z acc :
  0 ≤ z < 10 ^ Z.of_nat fuel → digits acc →
  ParseDigits 10 (format_digits fuel z acc) 0 = ParseDigits 10 acc z ∧ digits (format_digits fuel z acc) ∧
  (fuel ≠ O → format_digits fuel z acc ≠ EmptyString).
Proof.
  revert z acc. induction fuel as [|f IH]; intros z acc Hz Hacc.
  { change (10 ^ Z.of_nat 0) with 1 in Hz. assert (z = 0) as -> by lia. done. }
  rewrite Nat2Z.inj_succ, Z.pow_succ_r in Hz by lia. simpl.
  pose proof (Z.mod_pos_bound z 10). destruct (digit_chr (z `mod` 10)) as [Hc Hv]; [lia|].
  destruct (z / 10 =? 0) eqn:E; bools.
  - simpl. rewrite Hv. split_and!; try done. rewrite (proj2 (Z.ltb_lt _ _)) by lia. f_equal. lia_div.
  - destruct (IH (z / 10) (String (chr (48 + z `mod` 10)) acc)) as (E1 & E2 & E3).
    + split; [lia_div|]. apply Z.div_lt_upper_bound; lia.
    + done.
    + rewrite E1. split_and!; [|done|].
      * simpl. rewrite Hv, (proj2 (Z.ltb_lt _ _)) by lia. f_equal. lia_div.
      * intros _. destruct f; [|by apply E3]. change (10 ^ Z.of_nat 0) with 1 in Hz. lia_div.
Qed.

Lemma FormatInt_digits z : 0 ≤ z < 2 ^ 63 → digits (FormatInt z) ∧ FormatInt z ≠ EmptyString.
Proof.
  intros Hz. unfold FormatInt. rewrite (proj2 (Z.ltb_ge _ _)) by lia.
  destruct (format_digits_spec 20 z EmptyString) as (_ & ? & Hne); [simpl; lia|done|]. split; [done|by apply Hne].
Qed.

Lemma ParseInt_digits bits s :
  digits s → s ≠ EmptyString →
  ParseInt 10 bits s =
    match ParseDigits 10 s 0 with
    | Some un => if 2 ^ (bits - 1) <=? un then None else Some un
    | None => None
    end.
Proof.
  destruct s as [|c r]; [done|]. intros [Hc _] _. unfold ParseInt.
  rewrite !decide_False by (intros ->; unfold digit_char in Hc; vm_compute in Hc; destruct Hc; done).
  destruct (ParseDigits 10 (String c r) 0); [|done]. simpl. by destruct (_ <=? _).
Qed.

(** [Atoi] reads back what [FormatInt] prints. *)
Lemma Atoi_FormatInt z : 0 ≤ z < 2 ^ 63 → Atoi (FormatInt z) = Some z.
Proof.
  intros Hz. destruct (FormatInt_digits z Hz) as [Hd Hne]. unfold Atoi. rewrite ParseInt_digits by done.
  unfold FormatInt. rewrite (proj2 (Z.ltb_ge _ _)) by lia.
  destruct (format_digits_spec 20 z EmptyString) as (-> & _ & _); [simpl; lia|done|].
  simpl ParseDigits. cbv iota. by rewrite (proj2 (Z.leb_gt _ _)) by lia.
Qed.

Lemma Atoi_FormatInt_neg z : - 2 ^ 63 ≤ z < 0 → Atoi (FormatInt z) = Some z.
Proof.
  intros Hz. unfold FormatInt. rewrite (proj2 (Z.ltb_lt _ _)) by lia.
  destruct (format_digits_spec 20 (- z) EmptyString) as (E & _ & Hne); [simpl; lia|done|]. specialize (Hne ltac:(done)).
  unfold Atoi, ParseInt. rewrite decide_True by done. destruct (format_digits 20 (- z) EmptyString); [done|].
  rewrite E. simpl ParseDigits. cbv iota. simpl negb. simpl andb. cbv iota.
  rewrite (proj2 (Z.ltb_ge _ _)) by lia. f_equal. lia.
Qed.

Lemma Atoi_FormatInt_all z : - 2 ^ 63 ≤ z < 2 ^ 63 → Atoi (FormatInt z) = Some z.
Proof. intros Hz. destruct (decide (z < 0)); [apply Atoi_FormatInt_neg|apply Atoi_FormatInt]; lia. Qed.

Lemma digits_lacks c s : digits s → ¬ digit_char c → Strings.lacks c s.
Proof. intros Hs Hc. induction s as [|a r IH]; [done|]. destruct Hs. split; [congruence|auto]. Qed.

End Strconv.

(** ** Package path/filepath *)

(** [filepath.Clean]: empty and [.] components go, a [..] removes the component before it;
    [out] holds the components so far, the last one first. *)
Definition clean_component (rooted : bool) (out : list string) (c : string) : list string :=
  if bool_decide (c = "") || bool_decide (c = ".") then out
  else if bool_decide (c = "..") then
    match out with
    | [] => if rooted then [] else [".."]
    | h :: t => if bool_decide (h = "..") then ".." :: out else t
    end
  else c :: out.
Definition Clean (path : string) : string :=
  let rooted := Strings.HasPrefix path "/" in
  let out := rev (foldl (clean_component rooted) [] (Strings.Split "/"%char path)) in
  if rooted then ("/" +:+ Strings.Join out "/")%string
  else match out with [] => "." | _ => Strings.Join out "/" end.

(** [filepath.Join]. *)
Fixpoint JoinPath (l : list string) : string :=
  match l with
  | [] => ""
  | e :: l' => if bool_decide (e = "") then JoinPath l' else Clean (Strings.Join l "/")
  end.

Example JoinPath_examples :
  JoinPath ["/mnt"; "data"; "disk.img"] = "/mnt/data/disk.img" ∧ JoinPath [""; "a/"; ""; "./b//"] = "a/b" ∧
  JoinPath ["/hotplug-volumes"; "../x"] = "/x" ∧ JoinPath ["a"; "../.."] = "..".
Proof. done. Qed.

(** One component of a path, which [Clean] keeps. *)
Definition path_element (n : string) : Prop := Strings.lacks "/"%char n ∧ n ≠ "" ∧ n ≠ "." ∧ n ≠ "..".

Lemma clean_component_element rooted out n : path_element n → clean_component rooted out n = n :: out.
Proof. intros (_ & H0 & H1 & H2). unfold clean_component. by rewrite !bool_decide_eq_false_2 by done. Qed.

Lemma clean_component_parent rooted out n : path_element n → clean_component rooted (n :: out) ".." = out.
Proof. intros (_ & _ & _ & H2). unfold clean_component. simpl. by rewrite bool_decide_eq_false_2. Qed.

(** A string that ends in a suffix of three characters or more is no dot. *)
Lemma path_element_suffix s t :
  Strings.lacks "/"%char s → Strings.lacks "/"%char t → (3 ≤ String.length t)%nat → path_element (s +:+ t)%string.
Proof.
  intros Hs Ht Hl. split; [by apply Strings.lacks_app|].
  assert (H : ∀ u, (String.length u < 3)%nat → (s +:+ t)%string ≠ u).
  { intros u Hu E. apply (f_equal String.length) in E. rewrite Strings.length_append in E. lia. }
  split_and!; apply H; simpl; lia.
Qed.
