(* ===== verification/GoNet.v ===== *)
(** * Package net: IP addresses, CIDR blocks and MAC addresses

    The parsing and masking functions of Go's [net] (and the [net/netip] parser
    they call) that the admission webhooks and virt-prerunner rely on. *)

From stdpp Require Import base gmap strings list sets fin_maps.
From Stdlib Require Import ZArith Lia Ascii.
From S2P Require Import Prelude GoStd.
Open Scope Z_scope.

(** ** Addresses *)

Abbreviation IP := (list Z) (only parsing).
Abbreviation HardwareAddr := (list Z) (only parsing).

Record IPNet := mkIPNet { IPNet_IP : list Z; IPNet_Mask : list Z }.

#[export] Instance IPNet_eq_dec : EqDecision IPNet.
Proof. solve_decision. Defined.

Definition byte_ok (b : Z) : Prop := 0 ≤ b < 256.

Definition hex_val (c : ascii) : option Z :=
  match Strconv.digit_val c with
  | Some d => if d <? 16 then Some d else None
  | None => None
  end.

(** [netip.parseIPv4Fields]: four decimal octets without leading zeros. *)
Fixpoint parseIPv4Fields (s : string) (val : Z) (digLen : nat) (fields : list Z) : option (list Z) :=
  match s with
  | EmptyString => if (length fields <? 3)%nat then None else Some (fields ++ [val])
  | String c r =>
      if (48 <=? code c) && (code c <=? 57) then
        if (digLen =? 1)%nat && (val =? 0) then None
        else
          let v := val * 10 + (code c - 48) in
          if 255 <? v then None else parseIPv4Fields r v (S digLen) fields
      else if decide (c = "."%char) then
        if (digLen =? 0)%nat || bool_decide (r = EmptyString) then None
        else if (length fields =? 3)%nat then None
        else parseIPv4Fields r 0 0%nat (fields ++ [val])
      else None
  end.

(** The hexadecimal digits of one IPv6 group: its value, its number of digits
    and the rest; [None] when a fifth digit follows. *)
Fixpoint hex_group (s : string) (off : nat) (acc : Z) : option (Z * nat * string) :=
  match s with
  | EmptyString => Some (acc, off, s)
  | String c r =>
      match hex_val c with
      | Some d => if (3 <? off)%nat then None else hex_group r (S off) (acc * 16 + d)
      | None => Some (acc, off, s)
      end
  end.

(** The loop of [netip.parseIPv6].  Each iteration but the last adds a group of two bytes,
    so eight units of fuel bring [ip] to the sixteen bytes at which the Go loop
    stops. *)
Fixpoint parseIPv6_loop (fuel : nat) (s : string) (ip : list Z) (ellipsis : option nat)
    : option (string * list Z * option nat) :=
  match fuel with
  | O => Some (s, ip, ellipsis)
  | S f =>
      match hex_group s 0 0 with
      | None => None
      | Some (acc, off, rest) =>
          if (off =? 0)%nat then None
          else
            let ip' := ip ++ [acc / 256; acc `mod` 256] in
            match rest with
            | EmptyString => Some (EmptyString, ip', ellipsis)
            | String c s1 =>
                if decide (c = "."%char) then
                  if bool_decide (ellipsis = None) && negb (length ip =? 12)%nat then None
                  else if (16 <? length ip + 4)%nat then None
                  else match parseIPv4Fields s 0 0%nat [] with
                       | Some f4 => Some (EmptyString, ip ++ f4, ellipsis)
                       | None => None
                       end
                else if decide (c = ":"%char) then
                  match s1 with
                  | EmptyString => None
                  | String c2 s2 =>
                      if decide (c2 = ":"%char) then
                        match ellipsis with
                        | Some _ => None
                        | None =>
                            match s2 with
                            | EmptyString => Some (EmptyString, ip', Some (length ip'))
                            | _ => parseIPv6_loop f s2 ip' (Some (length ip'))
                            end
                        end
                      else parseIPv6_loop f s1 ip' ellipsis
                  end
                else None
            end
      end
  end.

Definition expand_ellipsis (ip : list Z) (ellipsis : option nat) : option (list Z) :=
  if (length ip <? 16)%nat then
    match ellipsis with
    | None => None
    | Some e => Some (take e ip ++ replicate (16 - length ip) 0 ++ drop e ip)
    end
  else match ellipsis with
       | Some _ => None
       | None => Some ip
       end.

(** An address of [netip]: its bytes, four or sixteen, and its zone. *)
Record Addr := mkAddr { Addr_bytes : list Z; Addr_zone : string }.

Definition parseIPv6 (inp : string) : option Addr :=
  let '(s, z) := Strings.Cut "%" inp in
  match z with
  | Some EmptyString => None
  | _ =>
      let zone := default EmptyString z in
      let '(s, ellipsis) :=
        match s with
        | String ":" (String ":" r) => (r, Some 0%nat)
        | _ => (s, None)
        end in
      if bool_decide (ellipsis = Some 0%nat) && bool_decide (s = EmptyString)
      then Some (mkAddr (replicate 16 0) zone)
      else
        match parseIPv6_loop 8 s [] ellipsis with
        | Some (EmptyString, ip, ell) => (λ b, mkAddr b zone) <$> expand_ellipsis ip ell
        | _ => None
        end
  end.

(** [netip.ParseAddr]: the first of [.], [:] and [%] decides. *)
Fixpoint ParseAddr_scan (inp s : string) : option Addr :=
  match s with
  | EmptyString => None
  | String c r =>
      if decide (c = "."%char) then (λ b, mkAddr b EmptyString) <$> parseIPv4Fields inp 0 0%nat []
      else if decide (c = ":"%char) then parseIPv6 inp
      else if decide (c = "%"%char) then None
      else ParseAddr_scan inp r
  end.

Definition ParseAddr (s : string) : option Addr := ParseAddr_scan s s.

Definition BitLen (a : Addr) : Z := 8 * Z.of_nat (length (Addr_bytes a)).

Definition v4InV6Prefix : list Z := replicate 10 0 ++ [255; 255].

(** [Addr.As16]. *)
Definition As16 (a : Addr) : list Z :=
  if (length (Addr_bytes a) =? 4)%nat then v4InV6Prefix ++ Addr_bytes a else Addr_bytes a.

(** ** Masks *)

Definition mask_byte (n : Z) : Z := 255 - Z.shiftr 255 n.

(** The loop of [net.CIDRMask(ones, bits)] over [l = bits/8] bytes. *)
Fixpoint CIDRMask_loop (l : nat) (n : Z) : list Z :=
  match l with
  | O => []
  | S l' => if 8 <=? n then 255 :: CIDRMask_loop l' (n - 8) else mask_byte n :: CIDRMask_loop l' 0
  end.

Definition CIDRMask (ones bits : Z) : list Z := CIDRMask_loop (Z.to_nat (bits / 8)) ones.

(** Leading one bits of a byte, and the bits left over: [for v&0x80 != 0]. *)
Fixpoint leading_ones (fuel : nat) (v : Z) (n : Z) : Z * Z :=
  match fuel with
  | O => (n, v)
  | S f => if Z.land v 128 =? 0 then (n, v) else leading_ones f (u8 (Z.shiftl v 1)) (n + 1)
  end.

(** [simpleMaskLength]; [None] is the [-1] of a mask that is not canonical. *)
Fixpoint simpleMaskLength (mask : list Z) (n : Z) : option Z :=
  match mask with
  | [] => Some n
  | v :: r =>
      if v =? 255 then simpleMaskLength r (n + 8)
      else
        let '(n', v') := leading_ones 8 v n in
        if negb (v' =? 0) then None
        else if forallb (Z.eqb 0) r then Some n' else None
  end.

(** [IPMask.Size]. *)
Definition Mask_Size (m : list Z) : Z * Z :=
  match simpleMaskLength m 0 with
  | Some ones => (ones, 8 * Z.of_nat (length m))
  | None => (0, 0)
  end.

Definition allFF (b : list Z) : bool := forallb (Z.eqb 255) b.

(** [IP.Mask]; [None] is Go's nil result. *)
Definition IP_Mask (ip mask : list Z) : option (list Z) :=
  let mask := if (length mask =? 16)%nat && (length ip =? 4)%nat && allFF (take 12 mask)
              then drop 12 mask else mask in
  let ip := if (length mask =? 4)%nat && (length ip =? 16)%nat && bool_decide (take 12 ip = v4InV6Prefix)
            then drop 12 ip else ip in
  if (length ip =? length mask)%nat then Some (zip_with Z.land ip mask) else None.

(** [IP.To4]. *)
Definition To4 (ip : list Z) : option (list Z) :=
  if (length ip =? 4)%nat then Some ip
  else if (length ip =? 16)%nat && bool_decide (take 12 ip = v4InV6Prefix) then Some (drop 12 ip)
  else None.

Definition networkNumberAndMask (n : IPNet) : option (list Z * list Z) :=
  let ip := match To4 (IPNet_IP n) with
            | Some x => Some x
            | None => if (length (IPNet_IP n) =? 16)%nat then Some (IPNet_IP n) else None
            end in
  match ip with
  | None => None
  | Some ip =>
      let m := IPNet_Mask n in
      if (length m =? 4)%nat then (if (length ip =? 4)%nat then Some (ip, m) else None)
      else if (length m =? 16)%nat then Some (ip, if (length ip =? 4)%nat then drop 12 m else m)
      else None
  end.

(** [IPNet.Contains]. *)
Definition Contains (n : IPNet) (ip : list Z) : bool :=
  let ip := default ip (To4 ip) in
  match networkNumberAndMask n with
  | None => (length ip =? 0)%nat
  | Some (nn, m) => bool_decide (length ip = length nn) && bool_decide (zip_with Z.land nn m = zip_with Z.land ip m)
  end.

(** [net.ParseCIDR]: the address and the network, or an error. *)
Definition ParseCIDR (s : string) : option (list Z * IPNet) :=
  match Strings.Cut "/" s with
  | (addr, Some mask) =>
      match ParseAddr addr, mask with
      | Some a, String _ _ =>
          match Addr_zone a, Strconv.ParseDigits 10 mask 0 with
          | EmptyString, Some n =>
              if BitLen a <? n then None
              else
                let m := CIDRMask n (BitLen a) in
                (λ ip, (As16 a, mkIPNet ip m)) <$> IP_Mask (As16 a) m
          | _, _ => None
          end
      | _, _ => None
      end
  | (_, None) => None
  end.

(** ** Well-formedness of what the parsers return *)

Lemma land_byte_r x m : byte_ok m → byte_ok (Z.land x m).
Proof.
  unfold byte_ok. intros Hm.
  replace m with (Z.land m (Z.ones 8)) by (rewrite Z.land_ones by lia; apply Z.mod_small; simpl; lia).
  rewrite Z.land_assoc, Z.land_ones by lia. apply Z.mod_pos_bound. lia.
Qed.

Lemma parseIPv4Fields_wf s val digLen fields out :
  byte_ok val → Forall byte_ok fields → (length fields ≤ 3)%nat →
  parseIPv4Fields s val digLen fields = Some out →
  length out = 4%nat ∧ Forall byte_ok out.
Proof.
  revert val digLen fields.
  induction s as [|c r IH]; simpl; intros val dl fields Hv Hf Hl H.
  - case_hyp H; [done|]. simplify_eq. apply Nat.ltb_ge in Heqb.
    rewrite length_app. simpl. split; [lia|]. apply Forall_app. auto.
  - repeat case_hyp H; try done; bools.
    + apply IH in H; auto. unfold byte_ok in *. lia.
    + apply Nat.eqb_neq in Heqb1. apply IH in H; auto; [by unfold byte_ok|..].
      * apply Forall_app. auto.
      * rewrite length_app. simpl. lia.
Qed.

Lemma hex_val_range c d : hex_val c = Some d → 0 ≤ d < 16.
Proof.
  unfold hex_val. destruct (Strconv.digit_val c) eqn:E; [|done].
  apply Strconv.digit_val_range in E. case_goal; intros; simplify_eq; bools; lia.
Qed.

Lemma hex_group_wf s off acc v off' rest :
  0 ≤ acc < 16 ^ Z.of_nat off → (off ≤ 4)%nat →
  hex_group s off acc = Some (v, off', rest) → 0 ≤ v < 65536.
Proof.
  revert off acc. induction s as [|c r IH]; simpl; intros off acc Ha Ho H.
  - simplify_eq. split; [lia|]. apply Z.lt_le_trans with (16 ^ Z.of_nat off'); [lia|].
    change 65536 with (16 ^ 4). apply Z.pow_le_mono_r; lia.
  - destruct (hex_val c) as [d|] eqn:Ed.
    + apply hex_val_range in Ed. destruct (3 <? off)%nat eqn:E; [done|]. apply Nat.ltb_ge in E.
      apply IH in H; [done| |lia]. rewrite Nat2Z.inj_succ, Z.pow_succ_r by lia. nia.
    + simplify_eq. split; [lia|]. apply Z.lt_le_trans with (16 ^ Z.of_nat off'); [lia|].
      change 65536 with (16 ^ 4). apply Z.pow_le_mono_r; lia.
Qed.

Lemma group_bytes_ok v : 0 ≤ v < 65536 → Forall byte_ok [v / 256; v `mod` 256].
Proof.
  intros. repeat constructor; try apply Z.mod_pos_bound; try lia.
  - apply Z.div_pos; lia.
  - apply Z.div_lt_upper_bound; lia.
Qed.

Lemma parseIPv6_loop_wf fuel s ip ell s' ip' ell' :
  (length ip + 2 * fuel = 16)%nat → Forall byte_ok ip →
  (∀ e, ell = Some e → (e ≤ length ip)%nat) →
  parseIPv6_loop fuel s ip ell = Some (s', ip', ell') →
  (length ip' ≤ 16)%nat ∧ Forall byte_ok ip' ∧ (∀ e, ell' = Some e → (e ≤ length ip')%nat).
Proof.
  revert s ip ell. induction fuel as [|f IH]; intros s ip ell Hl Hok He; cbn [parseIPv6_loop].
  { intros. simplify_eq. repeat split; auto; lia. }
  destruct (hex_group s 0 0) as [[[acc off] rest]|] eqn:Eg; [|done].
  apply hex_group_wf in Eg; [|simpl; lia..].
  destruct (off =? 0)%nat; [done|].
  assert (Hok' : Forall byte_ok (ip ++ [acc / 256; acc `mod` 256]))
    by (apply Forall_app; split; [done|by apply group_bytes_ok]).
  assert (Hl' : length (ip ++ [acc / 256; acc `mod` 256]) = (length ip + 2)%nat)
    by (rewrite length_app; simpl; lia).
  intros H. repeat case_hyp H; simplify_eq; try done.
  - rewrite Hl'. repeat split; auto; [lia|]. intros e ->. specialize (He _ eq_refl). lia.
  - apply parseIPv4Fields_wf in Heqo as [H4 Hb]; [|unfold byte_ok; lia|done|simpl; lia].
    apply Nat.ltb_ge in Heqb0. rewrite length_app, H4. repeat split; [lia| |].
    + by apply Forall_app.
    + intros e ->. specialize (He _ eq_refl). lia.
  - rewrite Hl'. repeat split; auto; [lia|]. intros e ?. simplify_eq. lia.
  - apply IH in H; auto; [lia|]. intros e ?. simplify_eq. lia.
  - apply IH in H; auto; [lia|]. intros e ->. specialize (He _ eq_refl). lia.
Qed.

Lemma zeros_ok k : Forall byte_ok (replicate k 0).
Proof. apply Forall_replicate. unfold byte_ok. lia. Qed.

Lemma parseIPv6_wf s a :
  parseIPv6 s = Some a → length (Addr_bytes a) = 16%nat ∧ Forall byte_ok (Addr_bytes a).
Proof.
  unfold parseIPv6. destruct (Strings.Cut "%" s) as [s0 z].
  set (p := match s0 with String ":" (String ":" r) => _ | _ => _ end).
  assert (Hp : ∀ e, snd p = Some e → (e ≤ 0)%nat).
  { intros e. subst p. repeat case_goal; simpl; intros; simplify_eq; lia. }
  destruct p as [s1 ell]. simpl in Hp. clear s0.
  intros H.
  assert (Hcore : ∀ zone,
    (if bool_decide (ell = Some 0%nat) && bool_decide (s1 = EmptyString)
      then Some (mkAddr (replicate 16 0) zone)
      else match parseIPv6_loop 8 s1 [] ell with
           | Some (EmptyString, ip, ell) => (λ b, mkAddr b zone) <$> expand_ellipsis ip ell
           | _ => None end) = Some a →
    length (Addr_bytes a) = 16%nat ∧ Forall byte_ok (Addr_bytes a)).
  { intros zone. case_goal; [intros; simplify_eq; split; [done|apply zeros_ok]|].
    destruct (parseIPv6_loop 8 s1 [] ell) as [[[s2 ip] ell']|] eqn:El; [|done].
    apply parseIPv6_loop_wf in El as (Hl & Hok & He); [|done|done|done].
    destruct s2; [|done]. unfold expand_ellipsis.
    destruct (length ip <? 16)%nat eqn:E16.
    - apply Nat.ltb_lt in E16. destruct ell' as [e|]; [|done]. simpl. intros; simplify_eq. simpl.
      specialize (He _ eq_refl). rewrite !length_app, length_take, length_replicate, length_drop.
      split; [lia|]. apply Forall_app; split; [by apply Forall_take|].
      apply Forall_app; split; [apply zeros_ok|by apply Forall_drop].
    - apply Nat.ltb_ge in E16. destruct ell'; [done|]. simpl. intros; simplify_eq. simpl. split; [lia|done]. }
  destruct z as [[|]|]; [done| |]; eapply Hcore, H.
Qed.

Lemma ParseAddr_wf s a :
  ParseAddr s = Some a →
  (length (Addr_bytes a) = 4%nat ∨ length (Addr_bytes a) = 16%nat) ∧ Forall byte_ok (Addr_bytes a).
Proof.
  unfold ParseAddr. generalize s at 1. intros inp.
  induction s as [|c r IH]; simpl; [done|]. intros H.
  repeat case_hyp H; try done; auto.
  - destruct (parseIPv4Fields inp 0 0 []) eqn:E4; simplify_eq/=.
    apply parseIPv4Fields_wf in E4 as [? ?]; [auto|unfold byte_ok; lia|done|simpl; lia].
  - apply parseIPv6_wf in H as [? ?]. auto.
Qed.

(** *** Masks *)

Lemma CIDRMask_loop_length l n : length (CIDRMask_loop l n) = l.
Proof. revert n. induction l as [|l IH]; intros n; simpl; [done|]. case_goal; simpl; by rewrite IH. Qed.

Lemma CIDRMask_length ones bits : length (CIDRMask ones bits) = Z.to_nat (bits / 8).
Proof. apply CIDRMask_loop_length. Qed.

(** A property of every prefix length of the two address families, by computation. *)
Lemma prefix_lengths (P : Z → Z → bool) :
  forallb (λ n, P (Z.of_nat n) 32) (seq 0 33) = true →
  forallb (λ n, P (Z.of_nat n) 128) (seq 0 129) = true →
  ∀ ones bits, bits = 32 ∨ bits = 128 → 0 ≤ ones ≤ bits → P ones bits = true.
Proof.
  intros H4 H6 ones bits [-> | ->] Ho; [rewrite forallb_forall in H4|rewrite forallb_forall in H6].
  - specialize (H4 (Z.to_nat ones)). rewrite in_seq, Z2Nat.id in H4 by lia. apply H4. lia.
  - specialize (H6 (Z.to_nat ones)). rewrite in_seq, Z2Nat.id in H6 by lia. apply H6. lia.
Qed.

Lemma Mask_Size_CIDRMask ones bits :
  bits = 32 ∨ bits = 128 → 0 ≤ ones ≤ bits → Mask_Size (CIDRMask ones bits) = (ones, bits).
Proof.
  intros Hb Ho. apply (bool_decide_eq_true (Mask_Size (CIDRMask ones bits) = (ones, bits))).
  revert ones bits Hb Ho.
  apply (prefix_lengths (λ o b, bool_decide (Mask_Size (CIDRMask o b) = (o, b)))); vm_compute; reflexivity.
Qed.

Lemma CIDRMask_bytes ones bits :
  bits = 32 ∨ bits = 128 → 0 ≤ ones ≤ bits → Forall byte_ok (CIDRMask ones bits).
Proof.
  intros Hb Ho. apply Forall_forall. intros x Hx.
  pose (f := λ o b, forallb (λ x, (0 <=? x) && (x <? 256)) (CIDRMask o b)).
  assert (Hf : f ones bits = true).
  { apply prefix_lengths; [vm_compute; reflexivity|vm_compute; reflexivity|done|done]. }
  unfold f in Hf. rewrite forallb_forall in Hf. specialize (Hf x (proj1 (list_elem_of_In _ _) Hx)).
  bools. by unfold byte_ok.
Qed.

Lemma IP_Mask_v4 b m :
  length b = 4%nat → length m = 4%nat → IP_Mask (v4InV6Prefix ++ b) m = Some (zip_with Z.land b m).
Proof.
  intros Hb Hm. destruct b as [|b0 [|b1 [|b2 [|b3 [|]]]]]; try done.
  by destruct m as [|m0 [|m1 [|m2 [|m3 [|]]]]].
Qed.

Lemma IP_Mask_v6 ip m :
  length ip = 16%nat → length m = 16%nat → IP_Mask ip m = Some (zip_with Z.land ip m).
Proof. intros Hi Hm. unfold IP_Mask. by rewrite Hm, Hi; cbn; rewrite ?Hm, ?Hi; cbn; rewrite ?Hm, ?Hi. Qed.

(** What a CIDR block parses to: a canonical mask of one of the two families,
    and the masked address in the family's length. *)
Record cidr_block (n : IPNet) (ones bits : Z) (ip : list Z) : Prop := {
  cb_bits : bits = 32 ∨ bits = 128;
  cb_ones : 0 ≤ ones ≤ bits;
  cb_mask : IPNet_Mask n = CIDRMask ones bits;
  cb_len : length ip = Z.to_nat (bits / 8);
  cb_bytes : Forall byte_ok ip;
  cb_ip : IPNet_IP n = zip_with Z.land ip (CIDRMask ones bits)
}.

Lemma ParseCIDR_block s addr n :
  ParseCIDR s = Some (addr, n) → ∃ ones bits ip, cidr_block n ones bits ip.
Proof.
  unfold ParseCIDR. destruct (Strings.Cut "/" s) as [as_ [[|c mask]|]]; [by destruct (ParseAddr as_)| |done].
  destruct (ParseAddr as_) as [a|] eqn:Ea; [|done]. apply ParseAddr_wf in Ea as [Hlen Hok].
  destruct (Addr_zone a); [|done].
  destruct (Strconv.ParseDigits 10 (String c mask) 0) as [z|] eqn:Ed; [|done].
  apply Strconv.ParseDigits_nonneg in Ed; [|lia..].
  destruct (BitLen a <? z) eqn:Eb; [done|]. bools.
  assert (Hbits : BitLen a = 32 ∨ BitLen a = 128) by (unfold BitLen; destruct Hlen as [-> | ->]; auto).
  assert (Ez : Z.to_nat (BitLen a / 8) = length (Addr_bytes a))
    by (unfold BitLen; rewrite Z.mul_comm, Z.div_mul by lia; lia).
  intros H. exists z, (BitLen a), (Addr_bytes a).
  assert (Hm : length (CIDRMask z (BitLen a)) = length (Addr_bytes a)) by (by rewrite CIDRMask_length).
  assert (Hip : IP_Mask (As16 a) (CIDRMask z (BitLen a)) =
                Some (zip_with Z.land (Addr_bytes a) (CIDRMask z (BitLen a)))).
  { unfold As16. destruct Hlen as [Hlen|Hlen]; rewrite Hlen in *; simpl.
    - by apply IP_Mask_v4.
    - by apply IP_Mask_v6. }
  rewrite Hip in H. simplify_eq/=. split; simpl; auto; lia.
Qed.

(** ** MAC addresses *)

Fixpoint string_drop (n : nat) (s : string) : string :=
  match n, s with
  | O, _ => s
  | S n', String _ r => string_drop n' r
  | S _, EmptyString => EmptyString
  end.

(** [xtoi2(s, e)]: two hexadecimal digits, followed by [e] when anything follows. *)
Definition xtoi2 (s : string) (e : ascii) : option Z :=
  match s with
  | String a (String b r) =>
      let sep_ok := match r with EmptyString => true | String c _ => bool_decide (c = e) end in
      match hex_val a, hex_val b with
      | Some h, Some l => if sep_ok then Some (h * 16 + l) else None
      | _, _ => None
      end
  | _ => None
  end.

Fixpoint mac_pairs (n : nat) (s : string) (sep : ascii) : option (list Z) :=
  match n with
  | O => Some []
  | S n' =>
      match xtoi2 s sep with
      | Some b => cons b <$> mac_pairs n' (string_drop 3 s) sep
      | None => None
      end
  end.

Fixpoint mac_quads (n : nat) (s : string) : option (list Z) :=
  match n with
  | O => Some []
  | S n' =>
      match xtoi2 (String.substring 0 2 s) zero, xtoi2 (string_drop 2 s) "."%char with
      | Some a, Some b => (λ l, a :: b :: l) <$> mac_quads n' (string_drop 5 s)
      | _, _ => None
      end
  end.

(** [net.ParseMAC]. *)
Definition ParseMAC (s : string) : option (list Z) :=
  let len := Z.of_nat (String.length s) in
  if len <? 14 then None
  else
    match String.get 2 s, String.get 4 s with
    | Some c2, Some c4 =>
        if bool_decide (c2 = ":"%char) || bool_decide (c2 = "-"%char) then
          if negb ((len + 1) `mod` 3 =? 0) then None
          else
            let n := (len + 1) / 3 in
            if bool_decide (n ∈ [6; 8; 20]) then mac_pairs (Z.to_nat n) s c2 else None
        else if bool_decide (c4 = "."%char) then
          if negb ((len + 1) `mod` 5 =? 0) then None
          else
            let n := 2 * (len + 1) / 5 in
            if bool_decide (n ∈ [6; 8; 20]) then mac_quads (Z.to_nat (n / 2)) s else None
        else None
    | _, _ => None
    end.

Definition hex_char (d : Z) : ascii := if d <? 10 then chr (48 + d) else chr (87 + d).

(** [HardwareAddr.String]. *)
Fixpoint MAC_String (b : list Z) : string :=
  match b with
  | [] => EmptyString
  | x :: r =>
      String (hex_char (x / 16)) (String (hex_char (x `mod` 16))
        match r with
        | [] => EmptyString
        | _ => String ":" (MAC_String r)
        end)
  end.

Lemma hex_val_char d : 0 ≤ d < 16 → hex_val (hex_char d) = Some d.
Proof.
  intros Hd. assert (H : ∀ n : nat, (n < 16)%nat → hex_val (hex_char (Z.of_nat n)) = Some (Z.of_nat n)).
  { intros n Hn. do 16 (destruct n as [|n]; [reflexivity|]). lia. }
  rewrite <-(Z2Nat.id d) by lia. apply H. lia.
Qed.

Lemma xtoi2_hex b r e :
  byte_ok b → (r = EmptyString ∨ ∃ t, r = String e t) →
  xtoi2 (String (hex_char (b / 16)) (String (hex_char (b `mod` 16)) r)) e = Some b.
Proof.
  unfold byte_ok. intros Hb Hr. simpl.
  pose proof (Z.mod_pos_bound b 16 ltac:(lia)). pose proof (Z.div_mod b 16 ltac:(lia)).
  assert (0 ≤ b / 16 < 16) by lia.
  rewrite !hex_val_char by lia.
  destruct Hr as [-> | [t ->]]; simpl; [|rewrite bool_decide_eq_true_2 by done]; f_equal; lia.
Qed.

Lemma mac_pairs_String b : Forall byte_ok b → mac_pairs (length b) (MAC_String b) ":" = Some b.
Proof.
  induction 1 as [|x r Hx Hr IH]; [done|]. cbn [length mac_pairs MAC_String].
  rewrite xtoi2_hex; [|done|destruct r; eauto].
  destruct r as [|y r']; [done|]. cbn [string_drop]. by rewrite IH.
Qed.

Lemma MAC_String_length x r : String.length (MAC_String (x :: r)) = (3 * length r + 2)%nat.
Proof.
  revert x. induction r as [|y r IH]; intros x; [done|].
  change (String.length (MAC_String (x :: y :: r))) with (3 + String.length (MAC_String (y :: r)))%nat.
  rewrite IH. simpl. lia.
Qed.

(** A hardware address of six, eight or twenty bytes reads back as itself. *)
Lemma ParseMAC_String b :
  Forall byte_ok b → length b ∈ [6; 8; 20]%nat → ParseMAC (MAC_String b) = Some b.
Proof.
  intros Hb Hlen. pose proof (mac_pairs_String b Hb) as Hp.
  assert (Hl : Z.of_nat (String.length (MAC_String b)) + 1 = 3 * Z.of_nat (length b)).
  { destruct b as [|x r]; [set_solver|]. rewrite MAC_String_length. simpl. lia. }
  assert (H6 : (6 ≤ length b)%nat) by set_solver by lia.
  destruct b as [|x [|y [|w r]]]; try (simpl in H6; lia).
  unfold ParseMAC. rewrite Hl.
  replace (Z.of_nat (String.length (MAC_String (x :: y :: w :: r))) <? 14) with false
    by (symmetry; apply Z.ltb_ge; lia).
  cbn [String.get MAC_String]. rewrite bool_decide_eq_true_2 by done. cbn [orb].
  rewrite (Z.mul_comm 3), Z.mod_mul, Z.div_mul by lia. cbn [Z.eqb negb].
  rewrite Nat2Z.id. rewrite bool_decide_eq_true_2; [exact Hp|].
  revert Hlen. rewrite !list_elem_of_In. simpl. lia.
Qed.

(** ** Printing *)

(** [hexString]. *)
Definition hexString (b : list Z) : string :=
  String.concat "" (map (λ x, String (hex_char (x / 16)) (String (hex_char (x `mod` 16)) EmptyString)) b).

(** [netip.appendHex]: a 16-bit group without leading zeros. *)
Definition group_hex (v : Z) : string :=
  let digit (d : Z) := String (hex_char ((v / 16 ^ d) `mod` 16)) EmptyString in
  let digit_if (d : Z) := if 16 ^ d <=? v then digit d else EmptyString in
  String.concat "" [digit_if 3; digit_if 2; digit_if 1; digit 0].

Fixpoint groups (b : list Z) : list Z :=
  match b with
  | h :: l :: r => h * 256 + l :: groups r
  | _ => []
  end.

Fixpoint leading_zeros (g : list Z) : nat :=
  match g with
  | x :: r => if x =? 0 then S (leading_zeros r) else O
  | [] => O
  end.

(** The first longest run of zero groups, of two groups or more: its start and its length. *)
Fixpoint zero_run (i : nat) (g : list Z) (best : nat * nat) : nat * nat :=
  match g with
  | [] => best
  | _ :: r =>
      let l := leading_zeros g in
      zero_run (S i) r (if (2 <=? l)%nat && (best.2 <? l)%nat then (i, l) else best)
  end.

(** [Addr.string6]. *)
Definition string6 (b : list Z) : string :=
  let g := groups b in
  let '(start, len) := zero_run 0 g (O, O) in
  let print l := Strings.Join (map group_hex l) ":" in
  if (len =? 0)%nat then print g else (print (take start g) +:+ "::" +:+ print (drop (start + len) g))%string.

(** [IP.String] and [IPNet.String]. *)
Definition IP_String (ip : list Z) : string :=
  match ip with
  | [] => "<nil>"
  | _ =>
      match To4 ip with
      | Some p4 => Strings.Join (map Strconv.FormatInt p4) "."
      | None => if (length ip =? 16)%nat then string6 ip else ("?" +:+ hexString ip)%string
      end
  end.

Definition IPNet_String (n : IPNet) : string :=
  match networkNumberAndMask n with
  | None => "<nil>"
  | Some (nn, m) =>
      (IP_String nn +:+ "/" +:+
       match simpleMaskLength m 0 with
       | Some l => Strconv.FormatInt l
       | None => hexString m
       end)%string
  end.

Definition printed (cidr : string) : option string := IPNet_String ∘ snd <$> ParseCIDR cidr.

Example IPNet_String_examples :
  printed "10.0.2.9/30" = Some "10.0.2.8/30" ∧ printed "fd00:0:0:1::5/64" = Some "fd00:0:0:1::/64" ∧
  printed "::/0" = Some "::/0" ∧ printed "1:0:0:2:0:0:0:3/128" = Some "1:0:0:2::3/128".
Proof. done. Qed.

(** ** [net.SplitHostPort], with which an address that is dialed is taken apart *)

Definition has_byte (c : ascii) (s : string) : bool := match snd (Strings.Cut c s) with Some _ => true | None => false end.

(** A host in brackets may hold colons; any other host may not. *)
Definition SplitHostPort (hostport : string) : option (string * string) :=
  match hostport with
  | String "["%char rest =>
      match Strings.Cut "]"%char rest with
      | (host, Some (String ":"%char port)) =>
          if has_byte "["%char host || has_byte "["%char port || has_byte "]"%char port || has_byte ":"%char port then None
          else Some (host, port)
      | _ => None
      end
  | _ =>
      match Strings.Split ":"%char hostport with
      | [host; port] => if has_byte "["%char hostport || has_byte "]"%char hostport then None else Some (host, port)
      | _ => None
      end
  end.

Example SplitHostPort_examples :
  SplitHostPort "10.0.0.7:4242" = Some ("10.0.0.7", "4242") ∧ SplitHostPort "[fd00::7]:4242" = Some ("fd00::7", "4242") ∧
  SplitHostPort "fd00::7:4242" = None ∧ SplitHostPort "10.0.0.7" = None ∧ SplitHostPort "[fd00::7]" = None.
Proof. done. Qed.

Lemma has_byte_lacks c s : Strings.lacks c s → has_byte c s = false.
Proof. intros Hs. unfold has_byte. by rewrite Strings.Cut_lacks. Qed.

(** A host without colons and brackets is found again. *)
Lemma SplitHostPort_plain host port :
  (∀ c, c = ":"%char ∨ c = "["%char ∨ c = "]"%char → Strings.lacks c host ∧ Strings.lacks c port) →
  SplitHostPort (host +:+ ":" +:+ port) = Some (host, port).
Proof.
  intros Hc. set (s := (host +:+ ":" +:+ port)%string).
  assert (Hsplit : Strings.Split ":"%char s = [host; port]).
  { subst s. change (":" +:+ port)%string with (String ":"%char port). rewrite Strings.Split_app, Strings.Split_lacks; [done|apply Hc; auto..]. }
  assert (Hl : ∀ c, c = "["%char ∨ c = "]"%char → Strings.lacks c s).
  { intros c Hb. subst s. destruct (Hc c ltac:(tauto)). apply Strings.lacks_app; [done|]. change (":" +:+ port)%string with (String ":"%char port).
    split; [by destruct Hb as [-> | ->]|done]. }
  assert (Hnb : has_byte "["%char s || has_byte "]"%char s = false) by (rewrite !has_byte_lacks; auto).
  unfold SplitHostPort. destruct s as [|a r] eqn:Es; [done|]. specialize (Hl "["%char (or_introl eq_refl)) as [Ha _].
  rewrite Hsplit, Hnb. by destruct a as [[] [] [] [] [] [] [] []].
Qed.

Lemma Split_two sep s t : ∃ x y l, Strings.Split sep (s +:+ String sep t) = x :: y :: l.
Proof.
  induction s as [|c s IH].
  - change ("" +:+ String sep t)%string with (String sep t). simpl. rewrite decide_True by done.
    destruct (Strings.Split sep t) as [|y l] eqn:E; [by apply Strings.Split_nonempty in E|]. eauto.
  - change (String c s +:+ String sep t)%string with (String c (s +:+ String sep t)). destruct IH as (x & y & l & E).
    simpl. rewrite E. case_decide; eauto.
Qed.

(** Without brackets, a host with a colon in it is refused. *)
Lemma SplitHostPort_colon a b port :
  Strings.lacks "["%char (a +:+ ":" +:+ b) → Strings.lacks ":"%char a → SplitHostPort ((a +:+ ":" +:+ b) +:+ ":" +:+ port) = None.
Proof.
  intros Hb Ha. assert (E : ((a +:+ ":" +:+ b) +:+ ":" +:+ port)%string = (a +:+ String ":"%char (b +:+ String ":"%char port))%string)
    by (by rewrite Strings.append_assoc).
  rewrite E. clear E. destruct (Split_two ":"%char b port) as (y & z & l & Es). apply (Strings.Split_app ":"%char _ (b +:+ String ":"%char port)) in Ha as Hs.
  rewrite Es in Hs. unfold SplitHostPort. destruct (a +:+ String ":"%char (b +:+ String ":"%char port))%string as [|c r] eqn:E; [done|]. rewrite Hs.
  assert (Hc : c ≠ "["%char) by (destruct a as [|c' a]; injection E as <- _; [done|by destruct Hb]).
  by destruct c as [[] [] [] [] [] [] [] []].
Qed.
