(* ===== verification/K8s.v ===== *)
(** * The Kubernetes API as virtink sees it

    The types of k8s.io/api and k8s.io/apimachinery are not part of the
    repository.  Where virtink only passes a value through (probes, tolerations,
    node affinities) its type is a parameter; [resource.Quantity] is a parameter
    with the operations virtink calls and, in [QuantityLaws], the documented
    facts its correctness rests on.  Where virtink reads or writes fields the
    struct is a record of those fields. *)

From stdpp Require Import base gmap strings list sets fin_maps.
From Stdlib Require Import ZArith Lia.
From S2P Require Import Prelude GoStd.
Open Scope Z_scope.

(** ** Object metadata *)

(** [metav1.Time]: seconds since the zero time. *)
Abbreviation Time := Z (only parsing).

(** [metav1.Time.IsZero] on a pointer. *)
Definition Time_IsZero (t : option Z) : bool :=
  match t with Some z => z =? 0 | None => true end.

Record OwnerReference := mkOwnerReference {
  or_APIVersion : string;
  or_Kind : string;
  or_Name : string;
  or_UID : string;
  or_Controller : option bool;
  or_BlockOwnerDeletion : option bool
}.

Record ObjectMeta := mkObjectMeta {
  om_Name : string;
  om_GenerateName : string;
  om_Namespace : string;
  om_UID : string;
  om_ResourceVersion : string;
  om_Generation : Z;
  om_CreationTimestamp : Z;
  om_DeletionTimestamp : option Z;
  om_Labels : option (gmap string string);
  om_Annotations : option (gmap string string);
  om_OwnerReferences : list OwnerReference;
  om_Finalizers : list string
}.

Definition emptyMeta : ObjectMeta :=
  mkObjectMeta "" "" "" "" "" 0 0 None None None [] [].

(** [metav1.Condition]. *)
Record Condition := mkCondition {
  c_Type : string;
  c_Status : string;
  c_ObservedGeneration : Z;
  c_LastTransitionTime : Z;
  c_Reason : string;
  c_Message : string
}.

Definition ConditionTrue : string := "True".
Definition ConditionFalse : string := "False".

(** [types.NamespacedName]. *)
Record NamespacedName := mkNN { nn_Namespace : string; nn_Name : string }.

(** [NamespacedName.String], and the key [client.ObjectKeyFromObject(o).String()]. *)
Definition NN_String (n : NamespacedName) : string := (nn_Namespace n +:+ "/" +:+ nn_Name n)%string.
Definition ObjectKey (m : ObjectMeta) : NamespacedName := mkNN (om_Namespace m) (om_Name m).

#[export] Instance OwnerReference_eq_dec : EqDecision OwnerReference.
Proof. solve_decision. Defined.
#[export] Instance ObjectMeta_eq_dec : EqDecision ObjectMeta.
Proof. solve_decision. Defined.
#[export] Instance Condition_eq_dec : EqDecision Condition.
Proof. solve_decision. Defined.
#[export] Instance NamespacedName_eq_dec : EqDecision NamespacedName.
Proof. solve_decision. Defined.

Definition set_DeletionTimestamp (t : option Z) (m : ObjectMeta) : ObjectMeta :=
  let '(mkObjectMeta n g ns u rv gen ct _ l a o f) := m in mkObjectMeta n g ns u rv gen ct t l a o f.
Definition set_Labels (l : option (gmap string string)) (m : ObjectMeta) : ObjectMeta :=
  let '(mkObjectMeta n g ns u rv gen ct dt _ a o f) := m in mkObjectMeta n g ns u rv gen ct dt l a o f.
Definition set_Annotations (a : option (gmap string string)) (m : ObjectMeta) : ObjectMeta :=
  let '(mkObjectMeta n g ns u rv gen ct dt l _ o f) := m in mkObjectMeta n g ns u rv gen ct dt l a o f.
Definition set_Finalizers (f : list string) (m : ObjectMeta) : ObjectMeta :=
  let '(mkObjectMeta n g ns u rv gen ct dt l a o _) := m in mkObjectMeta n g ns u rv gen ct dt l a o f.
Definition set_NameNamespace (n ns : string) (m : ObjectMeta) : ObjectMeta :=
  let '(mkObjectMeta _ g _ u rv gen ct dt l a o f) := m in mkObjectMeta n g ns u rv gen ct dt l a o f.
Definition set_OwnerReferences (o : list OwnerReference) (m : ObjectMeta) : ObjectMeta :=
  let '(mkObjectMeta n g ns u rv gen ct dt l a _ f) := m in mkObjectMeta n g ns u rv gen ct dt l a o f.

(** ** Parameters: types of the Kubernetes libraries *)

Class K8s := {
  Quantity : Type;
  Quantity_eq_dec :: EqDecision Quantity;
  (** the zero value [resource.Quantity{}] *)
  q_zero : Quantity;
  (** [resource.ParseQuantity]; [resource.MustParse] panics on [None] *)
  ParseQuantity : string → option Quantity;
  (** [resource.NewQuantity(v, resource.DecimalSI)] *)
  NewQuantity : Z → Quantity;
  q_IsZero : Quantity → bool;
  q_Value : Quantity → Z;
  q_Cmp : Quantity → Quantity → comparison;
  q_Add : Quantity → Quantity → Quantity;
  q_String : Quantity → string;
  Probe : Type;
  Probe_eq_dec :: EqDecision Probe;
  Toleration : Type;
  Toleration_eq_dec :: EqDecision Toleration;
  NodeAffinity : Type;
  NodeAffinity_eq_dec :: EqDecision NodeAffinity;
  PodAffinity : Type;
  PodAffinity_eq_dec :: EqDecision PodAffinity;
  (** a [corev1.PodAffinityTerm] a user wrote *)
  AffinityTerm : Type;
  AffinityTerm_eq_dec :: EqDecision AffinityTerm;
  (** the fields of a user's [corev1.Container] virtink does not touch *)
  ContainerRest : Type;
  ContainerRest_eq_dec :: EqDecision ContainerRest;
  (** the sources of a user's [corev1.Volume] virtink does not name *)
  OtherVolumeSource : Type;
  OtherVolumeSource_eq_dec :: EqDecision OtherVolumeSource;
  (** a [metav1.LabelSelector] and [metav1.LabelSelectorAsSelector] *)
  LabelSelector : Type;
  LabelSelector_eq_dec :: EqDecision LabelSelector;
  LabelSelectorAsSelector : option LabelSelector → result (gmap string string → bool);
  (** [labels.Set(ls).AsSelectorPreValidated().Matches(set)] *)
  SetMatches : gmap string string → gmap string string → bool;
  (** [metav1.GetControllerOf] *)
  GetControllerOf : ObjectMeta → option OwnerReference;
  (** [controllerutil.SetControllerReference(owner, controlled, scheme)]; the owner's
      group version and kind come from the scheme *)
  SetControllerReference : string → string → ObjectMeta → ObjectMeta → result ObjectMeta;
  (** [meta.SetStatusCondition] at a given time, [meta.FindStatusCondition] *)
  SetStatusCondition : Z → list Condition → Condition → list Condition;
  FindStatusCondition : list Condition → string → option Condition;
  (** [controllerutil.ContainsFinalizer], [AddFinalizer], [RemoveFinalizer] *)
  ContainsFinalizer : ObjectMeta → string → bool;
  AddFinalizer : ObjectMeta → string → ObjectMeta;
  RemoveFinalizer : ObjectMeta → string → ObjectMeta
}.

(** [metav1.IsControlledBy]. *)
Definition IsControlledBy `{K8s} (obj owner : ObjectMeta) : bool :=
  match GetControllerOf obj with
  | Some ref => bool_decide (or_UID ref = om_UID owner)
  | None => false
  end.

(** [meta.IsStatusConditionTrue]. *)
Definition IsStatusConditionTrue `{K8s} (cs : list Condition) (ty : string) : bool :=
  match FindStatusCondition cs ty with
  | Some c => bool_decide (c_Status c = ConditionTrue)
  | None => false
  end.

Definition q_Equal `{K8s} (a b : Quantity) : bool := bool_decide (q_Cmp a b = Eq).

(** [resource.MustParse]. *)
Definition MustParse `{K8s} (s : string) : outcome Quantity :=
  match ParseQuantity s with
  | Some q => Returned q
  | None => Panicked "cannot parse quantity"
  end.

(** The documented behaviour of quantities: each has an exact amount, counted in
    billionths (the finest scale a quantity has); [IsZero], [Cmp] and [Add] work on the
    amount, and [Value] is the amount in units when it is whole and fits
    an [int64].  The binary suffixes are powers of 1024. *)
Class QuantityLaws (K : K8s) := {
  amount : Quantity → Z;
  q_zero_spec : amount q_zero = 0;
  q_IsZero_spec q : q_IsZero q = (amount q =? 0);
  q_Cmp_spec a b : q_Cmp a b = (amount a ?= amount b);
  q_Add_spec a b : amount (q_Add a b) = amount a + amount b;
  q_Value_spec q v : amount q = v * 10 ^ 9 → - 2 ^ 63 ≤ v < 2 ^ 63 → q_Value q = v;
  q_Value_pos q : amount q < 2 ^ 63 * 10 ^ 9 → (0 <? q_Value q) = (0 <? amount q);
  NewQuantity_spec v : amount (NewQuantity v) = v * 10 ^ 9;
  Parse_int z : - 2 ^ 63 ≤ z < 2 ^ 63 → ∃ q, ParseQuantity (Strconv.FormatInt z) = Some q ∧ amount q = z * 10 ^ 9;
  Parse_256Mi : ∃ q, ParseQuantity "256Mi" = Some q ∧ amount q = 256 * 2 ^ 20 * 10 ^ 9;
  Parse_1Gi : ∃ q, ParseQuantity "1Gi" = Some q ∧ amount q = 2 ^ 30 * 10 ^ 9;
  Parse_2Mi : ∃ q, ParseQuantity "2Mi" = Some q ∧ amount q = 2 * 2 ^ 20 * 10 ^ 9
}.

(** The documented behaviour of the apimachinery helpers. *)
Class MetaLaws (K : K8s) := {
  GetControllerOf_Some m r :
    GetControllerOf m = Some r → r ∈ om_OwnerReferences m ∧ or_Controller r = Some true;
  GetControllerOf_nil m : om_OwnerReferences m = [] → GetControllerOf m = None;
  GetControllerOf_owners m m' :
    om_OwnerReferences m = om_OwnerReferences m' → GetControllerOf m = GetControllerOf m';
  SetControllerReference_Ok av kind owner m m' :
    SetControllerReference av kind owner m = Ok m' →
    (∃ r, GetControllerOf m' = Some r ∧ or_UID r = om_UID owner ∧ or_Kind r = kind ∧
          or_APIVersion r = av ∧ or_Name r = om_Name owner) ∧
    set_OwnerReferences (om_OwnerReferences m) m' = m;
  SetControllerReference_free av kind owner m :
    om_Namespace owner = om_Namespace m → GetControllerOf m = None →
    ∃ m', SetControllerReference av kind owner m = Ok m';
  Find_Set_same t cs c :
    ∃ c', FindStatusCondition (SetStatusCondition t cs c) (c_Type c) = Some c' ∧
          c_Type c' = c_Type c ∧ c_Status c' = c_Status c ∧ c_Reason c' = c_Reason c ∧ c_Message c' = c_Message c;
  Find_Set_other t cs c ty :
    ty ≠ c_Type c → FindStatusCondition (SetStatusCondition t cs c) ty = FindStatusCondition cs ty;
  ContainsFinalizer_spec m f : ContainsFinalizer m f = bool_decide (f ∈ om_Finalizers m);
  AddFinalizer_spec m f : ∃ l, AddFinalizer m f = set_Finalizers l m ∧ ∀ x, x ∈ l ↔ x = f ∨ x ∈ om_Finalizers m;
  RemoveFinalizer_spec m f : ∃ l, RemoveFinalizer m f = set_Finalizers l m ∧ ∀ x, x ∈ l ↔ x ≠ f ∧ x ∈ om_Finalizers m
}.

(** A concrete instance, for evaluation: a quantity is its amount, numbers are
    plain decimal integers with an optional suffix. *)
Definition parse_amount (s : string) : option Z :=
  let suffixes := [("Gi", 2 ^ 30); ("Mi", 2 ^ 20); ("Ki", 2 ^ 10)] in
  let try_suffix (p : string * Z) : option Z :=
    let '(suf, mult) := p in
    let n := (String.length s - String.length suf)%nat in
    if decide (String.substring n (String.length suf) s = suf)
    then match Strconv.Atoi (String.substring 0 n s) with
         | Some v => Some (v * mult * 10 ^ 9)
         | None => None
         end
    else None in
  match Strconv.Atoi s with
  | Some v => Some (v * 10 ^ 9)
  | None => fold_right (λ p acc, match try_suffix p with Some v => Some v | None => acc end) None suffixes
  end.

Definition ceil_unit (a : Z) : Z :=
  if a <? 0 then - ((- a + (10 ^ 9 - 1)) / 10 ^ 9) else (a + (10 ^ 9 - 1)) / 10 ^ 9.

Fixpoint find_controller (l : list OwnerReference) : option OwnerReference :=
  match l with
  | [] => None
  | r :: l' => if decide (or_Controller r = Some true) then Some r else find_controller l'
  end.

Fixpoint set_condition (now : Z) (cs : list Condition) (c : Condition) : list Condition :=
  match cs with
  | [] => [mkCondition (c_Type c) (c_Status c) (c_ObservedGeneration c)
             (if c_LastTransitionTime c =? 0 then now else c_LastTransitionTime c) (c_Reason c) (c_Message c)]
  | x :: cs' =>
      if decide (c_Type x = c_Type c) then
        mkCondition (c_Type c) (c_Status c) (c_ObservedGeneration c)
          (if decide (c_Status x = c_Status c) then c_LastTransitionTime x
           else if c_LastTransitionTime c =? 0 then now else c_LastTransitionTime c)
          (c_Reason c) (c_Message c) :: cs'
      else x :: set_condition now cs' c
  end.

Definition k8s_concrete : K8s := {|
  Quantity := Z; Quantity_eq_dec := _; q_zero := 0;
  ParseQuantity := parse_amount; NewQuantity v := v * 10 ^ 9;
  q_IsZero q := q =? 0; q_Value := ceil_unit; q_Cmp := Z.compare; q_Add := Z.add;
  q_String q := Strconv.FormatInt (ceil_unit q);
  Probe := string; Probe_eq_dec := _; Toleration := string; Toleration_eq_dec := _;
  NodeAffinity := string; NodeAffinity_eq_dec := _;
  PodAffinity := string; PodAffinity_eq_dec := _; AffinityTerm := string; AffinityTerm_eq_dec := _;
  ContainerRest := unit; ContainerRest_eq_dec := _;
  OtherVolumeSource := string; OtherVolumeSource_eq_dec := _;
  LabelSelector := gmap string string; LabelSelector_eq_dec := _;
  LabelSelectorAsSelector o :=
    Ok match o with
       | Some sel => λ ls, bool_decide (map_Forall (λ k v, ls !! k = Some v) sel)
       | None => λ _, false
       end;
  SetMatches ls set := bool_decide (map_Forall (λ k v, set !! k = Some v) ls);
  GetControllerOf m := find_controller (om_OwnerReferences m);
  SetControllerReference av kind owner m :=
    match find_controller (om_OwnerReferences m) with
    | None =>
        Ok (set_OwnerReferences (om_OwnerReferences m ++
          [mkOwnerReference av kind (om_Name owner) (om_UID owner) (Some true) (Some true)]) m)
    | Some r =>
        if decide (or_UID r = om_UID owner ∧ or_Kind r = kind ∧ or_APIVersion r = av ∧ or_Name r = om_Name owner)
        then Ok m else Err (ErrMsg "already owned")
    end;
  SetStatusCondition := set_condition;
  FindStatusCondition cs ty := head (filter (λ c, c_Type c = ty) cs);
  ContainsFinalizer m f := bool_decide (f ∈ om_Finalizers m);
  AddFinalizer m f := if decide (f ∈ om_Finalizers m) then m else set_Finalizers (om_Finalizers m ++ [f]) m;
  RemoveFinalizer m f := set_Finalizers (filter (λ x, x ≠ f) (om_Finalizers m)) m
|}.

Lemma ceil_unit_whole v : ceil_unit (v * 10 ^ 9) = v.
Proof. unfold ceil_unit. change (10 ^ 9) with 1000000000. destruct (_ <? 0) eqn:E; bools; lia_div. Qed.

Lemma ceil_unit_pos q : (0 <? ceil_unit q) = (0 <? q).
Proof.
  unfold ceil_unit. change (10 ^ 9) with 1000000000. apply eq_true_iff_eq. rewrite !Z.ltb_lt.
  destruct (q <? 0) eqn:E; bools; lia_div.
Qed.

Definition k8s_concrete_laws : QuantityLaws k8s_concrete.
Proof.
  refine (Build_QuantityLaws k8s_concrete (λ q, q) _ _ _ _ _ _ _ _ _ _ _); try done.
  - simpl. intros q v -> _. apply ceil_unit_whole.
  - simpl. intros q _. apply ceil_unit_pos.
  - simpl. intros z Hz. exists (z * 10 ^ 9). unfold parse_amount. by rewrite Strconv.Atoi_FormatInt_all.
  - eexists. split; [vm_compute; reflexivity|reflexivity].
  - eexists. split; [vm_compute; reflexivity|reflexivity].
  - eexists. split; [vm_compute; reflexivity|reflexivity].
Defined.

Lemma find_controller_Some l r : find_controller l = Some r → r ∈ l ∧ or_Controller r = Some true.
Proof.
  induction l as [|x l IH]; simpl; [done|]. case_decide; intros; simplify_eq.
  - split; [left|done].
  - destruct IH; [done|]. split; [by right|done].
Qed.

Lemma find_controller_app l1 l2 :
  find_controller l1 = None → find_controller (l1 ++ l2) = find_controller l2.
Proof. induction l1 as [|x l IH]; simpl; [done|]. case_decide; [done|]. apply IH. Qed.

Lemma set_Finalizers_id m : set_Finalizers (om_Finalizers m) m = m.
Proof. by destruct m. Qed.

Lemma find_set_condition now cs c :
  ∃ c', head (filter (λ x, c_Type x = c_Type c) (set_condition now cs c)) = Some c' ∧
        c_Type c' = c_Type c ∧ c_Status c' = c_Status c ∧ c_Reason c' = c_Reason c ∧ c_Message c' = c_Message c.
Proof.
  induction cs as [|x cs IH]; simpl.
  - rewrite filter_cons_True by done. by eexists.
  - case_decide as E.
    + rewrite filter_cons_True by done. by eexists.
    + by rewrite filter_cons_False.
Qed.

Lemma find_set_condition_other now cs c ty :
  ty ≠ c_Type c →
  head (filter (λ x, c_Type x = ty) (set_condition now cs c)) = head (filter (λ x, c_Type x = ty) cs).
Proof.
  intros Hne. induction cs as [|x cs IH]; simpl.
  - rewrite filter_cons_False; [done|]. simpl. congruence.
  - case_decide as E.
    + rewrite !filter_cons_False; [done|congruence|simpl; congruence].
    + rewrite !filter_cons. case_decide; [done|exact IH].
Qed.

Definition k8s_concrete_meta : MetaLaws k8s_concrete.
Proof.
  refine (Build_MetaLaws k8s_concrete _ _ _ _ _ _ _ _ _ _); simpl.
  - intros m r. apply find_controller_Some.
  - by intros m ->.
  - by intros m m' ->.
  - intros av kind owner m m'. destruct (find_controller (om_OwnerReferences m)) as [r|] eqn:E.
    + case_decide; [|done]. intros. simplify_eq. split; [naive_solver|by destruct m'].
    + intros. simplify_eq. destruct m. simpl in *. split; [|done].
      rewrite find_controller_app by done. simpl. eauto 10.
  - intros av kind owner m _ ->. eauto.
  - apply find_set_condition.
  - apply find_set_condition_other.
  - done.
  - intros m f. case_decide.
    + exists (om_Finalizers m). rewrite set_Finalizers_id. split; [done|]. set_solver.
    + eexists. split; [done|]. set_solver.
  - intros m f. eexists. split; [done|]. intros x. rewrite list_elem_of_filter. set_solver.
Defined.
