(* ===== verification/ApiTypes.v ===== *)
(** * The API types of pkg/apis/virt/v1alpha1/types.go

    One record per struct and one inductive type per string enumeration.  The
    constructor [..Unset] is the empty string of an absent field; the
    enumerations with a [kubebuilder:validation:Enum] marker have no other value. *)

From stdpp Require Import base gmap strings list sets fin_maps.
From Stdlib Require Import ZArith Lia.
From S2P Require Import Prelude GoStd K8s.
Open Scope Z_scope.

(** ** Enumerations *)

Inductive RunPolicy :=
| RunPolicyUnset | RunPolicyAlways | RunPolicyRerunOnFailure | RunPolicyOnce | RunPolicyManual | RunPolicyHalted.

Inductive VirtualMachinePhase :=
| VirtualMachinePhaseUnset | VirtualMachinePending | VirtualMachineScheduling | VirtualMachineScheduled
| VirtualMachineRunning | VirtualMachineSucceeded | VirtualMachineFailed | VirtualMachineUnknown.

Inductive VirtualMachinePowerAction :=
| VirtualMachinePowerActionUnset | VirtualMachinePowerOn | VirtualMachinePowerOff | VirtualMachineShutdown
| VirtualMachineReset | VirtualMachineReboot | VirtualMachinePause | VirtualMachineResume.

Inductive VirtualMachineMigrationPhase :=
| VirtualMachineMigrationPhaseUnset | VirtualMachineMigrationPending | VirtualMachineMigrationScheduling
| VirtualMachineMigrationScheduled | VirtualMachineMigrationTargetReady | VirtualMachineMigrationRunning
| VirtualMachineMigrationSent | VirtualMachineMigrationSucceeded | VirtualMachineMigrationFailed.

(** [VolumePhase] carries no validation marker, so a stored status may hold any text. *)
Inductive VolumePhase :=
| VolumePhaseUnset | VolumePending | VolumeAttachedToNode | VolumeMountedToPod | VolumeReady | VolumeDetaching
| VolumePhaseOther (s : string).

Definition VirtualMachineMigratable : string := "Migratable".
Definition VirtualMachineReady : string := "Ready".

#[export] Instance RunPolicy_eq_dec : EqDecision RunPolicy.
Proof. solve_decision. Defined.
#[export] Instance VirtualMachinePhase_eq_dec : EqDecision VirtualMachinePhase.
Proof. solve_decision. Defined.
#[export] Instance VirtualMachinePowerAction_eq_dec : EqDecision VirtualMachinePowerAction.
Proof. solve_decision. Defined.
#[export] Instance VirtualMachineMigrationPhase_eq_dec : EqDecision VirtualMachineMigrationPhase.
Proof. solve_decision. Defined.
#[export] Instance VolumePhase_eq_dec : EqDecision VolumePhase.
Proof. solve_decision. Defined.

(** ** The instance *)

Record CPU := mkCPU { Sockets : Z; CoresPerSocket : Z; DedicatedCPUPlacement : bool }.

Record Hugepages := mkHugepages { PageSize : string }.

Record Kernel := mkKernel { Kernel_Image : string; Kernel_ImagePullPolicy : string; Cmdline : string }.

Record Console := mkConsole { Console_Mode : string; Console_File : string; Console_Socket : string; Console_IOMMU : bool }.

Record Disk := mkDisk { Disk_Name : string; ReadOnly : option bool }.

Record FileSystem := mkFileSystem { FileSystem_Name : string }.

Record InterfaceMasquerade := mkMasquerade { CIDR : string }.

Record InterfaceVDPA := mkVDPA { VDPA_NumQueues : Z; VDPA_IOMMU : bool }.

Record InterfaceBindingMethod := mkBinding {
  Bridge : option unit;
  Masquerade : option InterfaceMasquerade;
  SRIOV : option unit;
  VDPA : option InterfaceVDPA;
  VhostUser : option unit
}.

Record Interface := mkInterface {
  Interface_Name : string;
  MAC : string;
  Binding : InterfaceBindingMethod
}.

(** ** Volumes and networks *)

Record ContainerDiskVolumeSource := mkContainerDisk {
  ContainerDisk_Image : string; ContainerDisk_ImagePullPolicy : string }.

Record CloudInitVolumeSource := mkCloudInit {
  UserData : string; UserDataBase64 : string; UserDataSecretName : string;
  NetworkData : string; NetworkDataBase64 : string; NetworkDataSecretName : string }.

Record PersistentVolumeClaimVolumeSource := mkPVCSource { PVC_Hotpluggable : bool; ClaimName : string }.

Record DataVolumeVolumeSource := mkDVSource { DV_Hotpluggable : bool; VolumeName : string }.

Record MultusNetworkSource := mkMultus { NetworkName : string }.

Record NetworkSource := mkNetworkSource { Pod_ : option unit; Multus : option MultusNetworkSource }.

Record Network := mkNetwork { Network_Name : string; Network_Source : NetworkSource }.

(** ** Status *)

Record HotplugVolumeStatus := mkHotplugVolumeStatus { VolumePodName : string; VolumePodUID : string }.

Record VolumeStatus := mkVolumeStatus {
  VolumeStatus_Name : string;
  VolumeStatus_Phase : VolumePhase;
  HotplugVolume : option HotplugVolumeStatus
}.

Record VirtualMachineStatusMigration := mkStatusMigration {
  Migration_UID : string;
  Migration_Phase : VirtualMachineMigrationPhase;
  TargetNodeName : string;
  TargetNodeIP : string;
  TargetNodePort : Z;
  TargetVMPodName : string;
  TargetVMPodUID : string;
  TargetVolumePodUID : string
}.

Record VirtualMachineStatus := mkVMStatus {
  Phase : VirtualMachinePhase;
  VMPodName : string;
  VMPodUID : string;
  NodeName : string;
  PowerAction : VirtualMachinePowerAction;
  Migration : option VirtualMachineStatusMigration;
  Conditions : list Condition;
  VolumeStatuses : list VolumeStatus
}.

Definition emptyVMStatus : VirtualMachineStatus :=
  mkVMStatus VirtualMachinePhaseUnset "" "" "" VirtualMachinePowerActionUnset None [] [].

#[export] Instance CPU_eq_dec : EqDecision CPU.
Proof. solve_decision. Defined.
#[export] Instance Hugepages_eq_dec : EqDecision Hugepages.
Proof. solve_decision. Defined.
#[export] Instance Kernel_eq_dec : EqDecision Kernel.
Proof. solve_decision. Defined.
#[export] Instance Console_eq_dec : EqDecision Console.
Proof. solve_decision. Defined.
#[export] Instance Disk_eq_dec : EqDecision Disk.
Proof. solve_decision. Defined.
#[export] Instance FileSystem_eq_dec : EqDecision FileSystem.
Proof. solve_decision. Defined.
#[export] Instance InterfaceMasquerade_eq_dec : EqDecision InterfaceMasquerade.
Proof. solve_decision. Defined.
#[export] Instance InterfaceVDPA_eq_dec : EqDecision InterfaceVDPA.
Proof. solve_decision. Defined.
#[export] Instance InterfaceBindingMethod_eq_dec : EqDecision InterfaceBindingMethod.
Proof. solve_decision. Defined.
#[export] Instance Interface_eq_dec : EqDecision Interface.
Proof. solve_decision. Defined.
#[export] Instance ContainerDiskVolumeSource_eq_dec : EqDecision ContainerDiskVolumeSource.
Proof. solve_decision. Defined.
#[export] Instance CloudInitVolumeSource_eq_dec : EqDecision CloudInitVolumeSource.
Proof. solve_decision. Defined.
#[export] Instance PersistentVolumeClaimVolumeSource_eq_dec : EqDecision PersistentVolumeClaimVolumeSource.
Proof. solve_decision. Defined.
#[export] Instance DataVolumeVolumeSource_eq_dec : EqDecision DataVolumeVolumeSource.
Proof. solve_decision. Defined.
#[export] Instance MultusNetworkSource_eq_dec : EqDecision MultusNetworkSource.
Proof. solve_decision. Defined.
#[export] Instance NetworkSource_eq_dec : EqDecision NetworkSource.
Proof. solve_decision. Defined.
#[export] Instance Network_eq_dec : EqDecision Network.
Proof. solve_decision. Defined.
#[export] Instance HotplugVolumeStatus_eq_dec : EqDecision HotplugVolumeStatus.
Proof. solve_decision. Defined.
#[export] Instance VolumeStatus_eq_dec : EqDecision VolumeStatus.
Proof. solve_decision. Defined.
#[export] Instance VirtualMachineStatusMigration_eq_dec : EqDecision VirtualMachineStatusMigration.
Proof. solve_decision. Defined.
#[export] Instance VirtualMachineStatus_eq_dec : EqDecision VirtualMachineStatus.
Proof. solve_decision. Defined.

(** ** The parts of a spec that hold Kubernetes types *)

Section Spec.
Context `{K8s}.

Record Memory := mkMemory { Size : Quantity; Memory_Hugepages : option Hugepages }.

Record Instance_ := mkInstance {
  Instance_CPU : CPU;
  Instance_Memory : Memory;
  Instance_Kernel : option Kernel;
  Instance_Console : option Console;
  Instance_Serial : option Console;
  Disks : list Disk;
  FileSystems : list FileSystem;
  Interfaces : list Interface
}.

Record ContainerRootfsVolumeSource := mkContainerRootfs {
  ContainerRootfs_Image : string; ContainerRootfs_ImagePullPolicy : string; ContainerRootfs_Size : Quantity }.

Record VolumeSource := mkVolumeSource {
  ContainerDisk : option ContainerDiskVolumeSource;
  CloudInit : option CloudInitVolumeSource;
  ContainerRootfs : option ContainerRootfsVolumeSource;
  PersistentVolumeClaim : option PersistentVolumeClaimVolumeSource;
  DataVolume : option DataVolumeVolumeSource
}.

Record Volume := mkVolume { Volume_Name : string; Volume_Source : VolumeSource }.

(** [corev1.ResourceList] and [corev1.ResourceRequirements]; a nil map is [None]. *)
Record ResourceRequirements := mkResources {
  Limits : option (gmap string Quantity);
  Requests : option (gmap string Quantity)
}.

(** [corev1.Affinity]: virtink reads and extends the required pod anti-affinity
    terms; [PodAntiAffinity] holds them and whether the list was nil. *)
Inductive PodAffinityTerm :=
| UserTerm (t : AffinityTerm)
| LabelTerm (matchLabels : gmap string string) (topologyKey : string).

Record PodAntiAffinity := mkPodAntiAffinity {
  RequiredTerms : option (list PodAffinityTerm);
  PreferredTerms : list AffinityTerm
}.

Inductive NodeAffinityTerms :=
| UserNodeAffinity (a : NodeAffinity)
| HostnameIn (values : list string).

Record Affinity := mkAffinity {
  Affinity_Node : option NodeAffinityTerms;
  Affinity_Pod : option PodAffinity;
  Affinity_PodAnti : option PodAntiAffinity
}.

(** [corev1.VolumeSource], [corev1.Volume] and the fields of [corev1.Container]
    virtink fills in. *)
Inductive PodVolumeSource :=
| EmptyDir (medium : string)
| SecretSource (secretName : string)
| PVCVolume (claimName : string)
| HostPath (path : string)
| OtherSource (s : OtherVolumeSource).

Record PodVolume := mkPodVolume { PodVolume_Name : string; PodVolume_Source : PodVolumeSource }.

Record VolumeMount := mkVolumeMount { vm_Name : string; MountPath : string; MountPropagation : option string }.

Record VolumeDevice := mkVolumeDevice { vd_Name : string; DevicePath : string }.

Inductive EnvValue := EnvLiteral (v : string) | EnvFieldRef (fieldPath : string).

Record EnvVar := mkEnvVar { Env_Name : string; Env_Value : EnvValue }.

Record SecurityContext := mkSecurityContext { Capabilities : list string; Privileged : option bool }.

Record Container := mkContainer {
  Container_Name : string;
  Image : string;
  ImagePullPolicy : string;
  Command : list string;
  Args : list string;
  Env : list EnvVar;
  Resources : ResourceRequirements;
  VolumeMounts : list VolumeMount;
  VolumeDevices : list VolumeDevice;
  Container_SecurityContext : option SecurityContext;
  LivenessProbe : option Probe;
  ReadinessProbe : option Probe;
  Container_Rest : option ContainerRest
}.

Record VirtualMachineSpec := mkVMSpec {
  Spec_NodeSelector : option (gmap string string);
  Spec_Affinity : option Affinity;
  Spec_Tolerations : list Toleration;
  Spec_Resources : ResourceRequirements;
  Spec_LivenessProbe : option Probe;
  Spec_ReadinessProbe : option Probe;
  Spec_RunPolicy : RunPolicy;
  Spec_Instance : Instance_;
  Volumes : list Volume;
  Networks : list Network;
  Sidecars : list Container;
  SidecarVolumes : list PodVolume
}.

Record VirtualMachine := mkVM {
  vm_meta : ObjectMeta;
  Spec : VirtualMachineSpec;
  Status : VirtualMachineStatus
}.

(** ** Decidable equality: [reflect.DeepEqual] on these values *)

#[export] Instance Memory_eq_dec : EqDecision Memory.
Proof. solve_decision. Defined.
#[export] Instance Instance_eq_dec : EqDecision Instance_.
Proof. solve_decision. Defined.
#[export] Instance ContainerRootfsVolumeSource_eq_dec : EqDecision ContainerRootfsVolumeSource.
Proof. solve_decision. Defined.
#[export] Instance VolumeSource_eq_dec : EqDecision VolumeSource.
Proof. solve_decision. Defined.
#[export] Instance Volume_eq_dec : EqDecision Volume.
Proof. solve_decision. Defined.
#[export] Instance ResourceRequirements_eq_dec : EqDecision ResourceRequirements.
Proof. solve_decision. Defined.
#[export] Instance PodAffinityTerm_eq_dec : EqDecision PodAffinityTerm.
Proof. solve_decision. Defined.
#[export] Instance PodAntiAffinity_eq_dec : EqDecision PodAntiAffinity.
Proof. solve_decision. Defined.
#[export] Instance NodeAffinityTerms_eq_dec : EqDecision NodeAffinityTerms.
Proof. solve_decision. Defined.
#[export] Instance Affinity_eq_dec : EqDecision Affinity.
Proof. solve_decision. Defined.
#[export] Instance PodVolumeSource_eq_dec : EqDecision PodVolumeSource.
Proof. solve_decision. Defined.
#[export] Instance PodVolume_eq_dec : EqDecision PodVolume.
Proof. solve_decision. Defined.
#[export] Instance VolumeMount_eq_dec : EqDecision VolumeMount.
Proof. solve_decision. Defined.
#[export] Instance VolumeDevice_eq_dec : EqDecision VolumeDevice.
Proof. solve_decision. Defined.
#[export] Instance EnvValue_eq_dec : EqDecision EnvValue.
Proof. solve_decision. Defined.
#[export] Instance EnvVar_eq_dec : EqDecision EnvVar.
Proof. solve_decision. Defined.
#[export] Instance SecurityContext_eq_dec : EqDecision SecurityContext.
Proof. solve_decision. Defined.
#[export] Instance Container_eq_dec : EqDecision Container.
Proof. solve_decision. Defined.
#[export] Instance VirtualMachineSpec_eq_dec : EqDecision VirtualMachineSpec.
Proof. solve_decision. Defined.
#[export] Instance VirtualMachine_eq_dec : EqDecision VirtualMachine.
Proof. solve_decision. Defined.

(** ** Methods of types.go *)

Definition IsHotpluggable (v : Volume) : bool :=
  match PersistentVolumeClaim (Volume_Source v) with Some p => PVC_Hotpluggable p | None => false end
  || match DataVolume (Volume_Source v) with Some d => DV_Hotpluggable d | None => false end.

Definition PVCName (v : Volume) : string :=
  match PersistentVolumeClaim (Volume_Source v), DataVolume (Volume_Source v) with
  | Some p, _ => ClaimName p
  | None, Some d => VolumeName d
  | None, None => ""
  end.

(** ** Field updates *)

Definition set_Status (s : VirtualMachineStatus) (v : VirtualMachine) : VirtualMachine :=
  mkVM (vm_meta v) (Spec v) s.
Definition set_Spec (s : VirtualMachineSpec) (v : VirtualMachine) : VirtualMachine :=
  mkVM (vm_meta v) s (Status v).
Definition set_meta (m : ObjectMeta) (v : VirtualMachine) : VirtualMachine :=
  mkVM m (Spec v) (Status v).

Definition set_RunPolicy (r : RunPolicy) (s : VirtualMachineSpec) : VirtualMachineSpec :=
  let '(mkVMSpec ns af to re lp rp _ i v n sc sv) := s in mkVMSpec ns af to re lp rp r i v n sc sv.
Definition set_Resources (r : ResourceRequirements) (s : VirtualMachineSpec) : VirtualMachineSpec :=
  let '(mkVMSpec ns af to _ lp rp p i v n sc sv) := s in mkVMSpec ns af to r lp rp p i v n sc sv.
Definition set_Instance (i : Instance_) (s : VirtualMachineSpec) : VirtualMachineSpec :=
  let '(mkVMSpec ns af to re lp rp p _ v n sc sv) := s in mkVMSpec ns af to re lp rp p i v n sc sv.
Definition set_Volumes (v : list Volume) (s : VirtualMachineSpec) : VirtualMachineSpec :=
  let '(mkVMSpec ns af to re lp rp p i _ n sc sv) := s in mkVMSpec ns af to re lp rp p i v n sc sv.

Definition set_CPU (c : CPU) (i : Instance_) : Instance_ :=
  let '(mkInstance _ m k co se d f n) := i in mkInstance c m k co se d f n.
Definition set_Memory (m : Memory) (i : Instance_) : Instance_ :=
  let '(mkInstance c _ k co se d f n) := i in mkInstance c m k co se d f n.
Definition set_Interfaces (n : list Interface) (i : Instance_) : Instance_ :=
  let '(mkInstance c m k co se d f _) := i in mkInstance c m k co se d f n.
Definition set_Disks (d : list Disk) (i : Instance_) : Instance_ :=
  let '(mkInstance c m k co se _ f n) := i in mkInstance c m k co se d f n.

End Spec.

Definition set_Phase (p : VirtualMachinePhase) (s : VirtualMachineStatus) : VirtualMachineStatus :=
  let '(mkVMStatus _ n u nn a m c v) := s in mkVMStatus p n u nn a m c v.
Definition set_VMPodName (n : string) (s : VirtualMachineStatus) : VirtualMachineStatus :=
  let '(mkVMStatus p _ u nn a m c v) := s in mkVMStatus p n u nn a m c v.
Definition set_VMPodUID (u : string) (s : VirtualMachineStatus) : VirtualMachineStatus :=
  let '(mkVMStatus p n _ nn a m c v) := s in mkVMStatus p n u nn a m c v.
Definition set_NodeName (nn : string) (s : VirtualMachineStatus) : VirtualMachineStatus :=
  let '(mkVMStatus p n u _ a m c v) := s in mkVMStatus p n u nn a m c v.
Definition set_PowerAction (a : VirtualMachinePowerAction) (s : VirtualMachineStatus) : VirtualMachineStatus :=
  let '(mkVMStatus p n u nn _ m c v) := s in mkVMStatus p n u nn a m c v.
Definition set_Migration (m : option VirtualMachineStatusMigration) (s : VirtualMachineStatus) : VirtualMachineStatus :=
  let '(mkVMStatus p n u nn a _ c v) := s in mkVMStatus p n u nn a m c v.
Definition set_Conditions (c : list Condition) (s : VirtualMachineStatus) : VirtualMachineStatus :=
  let '(mkVMStatus p n u nn a m _ v) := s in mkVMStatus p n u nn a m c v.
Definition set_VolumeStatuses (v : list VolumeStatus) (s : VirtualMachineStatus) : VirtualMachineStatus :=
  let '(mkVMStatus p n u nn a m c _) := s in mkVMStatus p n u nn a m c v.

(** ** Migrations and replica sets *)

Definition SchemeGroupVersion : string := "virt.virtink.smartx.com/v1alpha1".

Record VirtualMachineMigrationStatus := mkVMMStatus {
  VMM_Phase : VirtualMachineMigrationPhase;
  SourceNodeName : string;
  VMM_TargetNodeName : string
}.

Record VirtualMachineMigration := mkVMM {
  vmm_meta : ObjectMeta;
  VMName : string;
  vmm_Status : VirtualMachineMigrationStatus
}.

Record VirtualMachineReplicaSetCondition := mkRSCondition {
  rc_Type : string;
  rc_Status : string;
  rc_LastProbeTime : Z;
  rc_LastTransitionTime : Z;
  rc_Reason : string;
  rc_Message : goerror
}.

Record VirtualMachineReplicaSetStatus := mkRSStatus {
  rs_Replicas : Z;
  rs_ReadyReplicas : Z;
  rs_AvailableReplicas : Z;
  rs_ObservedGeneration : Z;
  rs_Conditions : list VirtualMachineReplicaSetCondition
}.

Definition VirtualMachineReplicaSetReplicaFailure : string := "ReplicaFailure".
Definition VirtualMachineReplicaSetPaused : string := "ReplicaPaused".

#[export] Instance VirtualMachineMigrationStatus_eq_dec : EqDecision VirtualMachineMigrationStatus.
Proof. solve_decision. Defined.
#[export] Instance VirtualMachineMigration_eq_dec : EqDecision VirtualMachineMigration.
Proof. solve_decision. Defined.
#[export] Instance VirtualMachineReplicaSetCondition_eq_dec : EqDecision VirtualMachineReplicaSetCondition.
Proof. solve_decision. Defined.
#[export] Instance VirtualMachineReplicaSetStatus_eq_dec : EqDecision VirtualMachineReplicaSetStatus.
Proof. solve_decision. Defined.

Section ReplicaSetTypes.
Context `{K8s}.

Record VirtualMachineTemplateSpec := mkTemplate { Template_meta : ObjectMeta; Template_Spec : VirtualMachineSpec }.

(** [Selector] is nil or a label selector; [Template] may be nil. *)
Record VirtualMachineReplicaSetSpec := mkRSSpec {
  Replicas : option Z;
  Paused : bool;
  Selector : option LabelSelector;
  Template : option VirtualMachineTemplateSpec
}.

Record VirtualMachineReplicaSet := mkVMRS {
  vmrs_meta : ObjectMeta;
  vmrs_Spec : VirtualMachineReplicaSetSpec;
  vmrs_Status : VirtualMachineReplicaSetStatus
}.

#[export] Instance VirtualMachineTemplateSpec_eq_dec : EqDecision VirtualMachineTemplateSpec.
Proof. solve_decision. Defined.
#[export] Instance VirtualMachineReplicaSetSpec_eq_dec : EqDecision VirtualMachineReplicaSetSpec.
Proof. solve_decision. Defined.
#[export] Instance VirtualMachineReplicaSet_eq_dec : EqDecision VirtualMachineReplicaSet.
Proof. solve_decision. Defined.

End ReplicaSetTypes.
