(* ===== verification/Kube.v ===== *)
(** * Pods, volume claims and the calls to the API server; pkg/volumeutil

    [kubeE] lists the requests the controllers and the daemon make to the API server and
    to the libraries that do so for them.  A component whose calls include them is an
    instance of [HasKube]; code that several components use, such as
    pkg/volumeutil/volumeutil.go, is written against that class. *)

From stdpp Require Import base gmap strings list sets fin_maps sorting.
From Stdlib Require Import ZArith Lia Ascii.
From S2P Require Import Prelude GoStd K8s ApiTypes.
Open Scope Z_scope.

(** ** Pods and claims ([corev1], the fields virtink uses) *)

Inductive PodPhase := PodPhaseUnset | PodPending | PodRunning | PodSucceeded | PodFailed | PodUnknown.
#[export] Instance PodPhase_eq_dec : EqDecision PodPhase.
Proof. solve_decision. Defined.

Record PodCondition := mkPodCondition { pc_Type : string; pc_Status : string; pc_Reason : string; pc_Message : string }.
#[export] Instance PodCondition_eq_dec : EqDecision PodCondition.
Proof. solve_decision. Defined.

(** [containerStatuses[i].containerID], for the daemon. *)
Record ContainerStatus := mkContainerStatus { cs_Name : string; cs_ContainerID : string }.
#[export] Instance ContainerStatus_eq_dec : EqDecision ContainerStatus.
Proof. solve_decision. Defined.

Record PodStatus := mkPodStatus {
  PodStatus_Phase : PodPhase;
  PodStatus_Conditions : list PodCondition;
  PodIP : string;
  ContainerStatuses : list ContainerStatus
}.
#[export] Instance PodStatus_eq_dec : EqDecision PodStatus.
Proof. solve_decision. Defined.
Definition emptyPodStatus : PodStatus := mkPodStatus PodPhaseUnset [] "" [].

Section Types.
Context `{K8s}.

Record PodSpec := mkPodSpec {
  Pod_NodeName : string;
  Pod_HostNetwork : bool;
  Pod_NodeSelector : option (gmap string string);
  Pod_Tolerations : list Toleration;
  Pod_Affinity : option Affinity;
  Pod_InitContainers : list Container;
  Pod_Containers : list Container;
  Pod_Volumes : list PodVolume
}.

Record Pod := mkPod { pod_meta : ObjectMeta; pod_Spec : PodSpec; pod_Status : PodStatus }.

Record PersistentVolumeClaim_ := mkPVC { pvc_meta : ObjectMeta; VolumeMode : option string; pvc_Phase : string }.

(** [netv1.NetworkAttachmentDefinition]. *)
Record NetworkAttachmentDefinition := mkNAD { nad_Annotations : gmap string string; nad_Config : string }.

#[export] Instance PodSpec_eq_dec : EqDecision PodSpec.
Proof. solve_decision. Defined.
#[export] Instance Pod_eq_dec : EqDecision Pod.
Proof. solve_decision. Defined.

(** The zero [corev1.Pod], which a failed [Get] leaves behind. *)
Definition emptyPod : Pod := mkPod emptyMeta (mkPodSpec "" false None [] None [] [] []) emptyPodStatus.

Definition set_pod_meta (m : ObjectMeta) (p : Pod) : Pod := mkPod m (pod_Spec p) (pod_Status p).

(** ** The calls *)

Inductive kubeE : Type → Type :=
| GetVM (key : NamespacedName) : kubeE (result VirtualMachine)
| GetVMM (key : NamespacedName) : kubeE (result VirtualMachineMigration)
| GetPod (key : NamespacedName) : kubeE (result Pod)
| GetPVC_ (key : NamespacedName) : kubeE (result PersistentVolumeClaim_)
| GetNAD (key : NamespacedName) : kubeE (result NetworkAttachmentDefinition)
(** [cdiv1beta1.IsPopulated] with a getter for the data volume of this key *)
| IsPopulated (pvc : PersistentVolumeClaim_) (dv : NamespacedName) : kubeE (result bool)
| ListPods (namespace : string) : kubeE (result (list Pod))
(** pods whose [vmUID] index holds the UID *)
| ListVMPods (uid : string) : kubeE (result (list Pod))
| ListVMs (namespace : string) : kubeE (result (list VirtualMachine))
(** migrations whose [.metadata.uid] index holds the UID *)
| ListVMMs (uid : string) : kubeE (result (list VirtualMachineMigration))
| CreatePod (pod : Pod) : kubeE (option goerror)
| DeletePod (pod : Pod) : kubeE (option goerror)
(** [Update]: the object the server returns replaces the argument *)
| UpdateVM (vm : VirtualMachine) : kubeE (result VirtualMachine)
| UpdateVMStatus (vm : VirtualMachine) : kubeE (option goerror)
| UpdateVMMStatus (vmm : VirtualMachineMigration) : kubeE (option goerror)
(** [names.SimpleNameGenerator.GenerateName] *)
| GenerateName (base : string) : kubeE string
(** [Recorder.Eventf] *)
| Eventf (about : ObjectMeta) (type reason : string) : kubeE unit
| Now : kubeE Z.

Class HasKube (E : Type → Type) := kube_in : ∀ X, kubeE X → E X.
#[export] Instance kube_self : HasKube kubeE := λ X e, e.

Definition kube {E} `{HasKube E} {X} (e : kubeE X) : prog E X := call (kube_in X e).

(** ** pkg/volumeutil/volumeutil.go *)

Section VolumeUtil.
Context {E : Type → Type} `{HasKube E}.

Definition PersistentVolumeBlock : string := "Block".
Definition ClaimPending : string := "Pending".

(** [GetPVC]: [Ok None] when the claim does not exist. *)
Definition GetPVC (namespace : string) (volume : Volume) : prog E (result (option PersistentVolumeClaim_)) :=
  let pvcName :=
    match PersistentVolumeClaim (Volume_Source volume), DataVolume (Volume_Source volume) with
    | Some p, _ => ClaimName p
    | None, Some d => VolumeName d
    | None, None => ""
    end in
  if decide (pvcName = "") then Ret (Err (ErrMsg "volume is not on a PVC"))
  else
    (let! r := kube (GetPVC_ (mkNN namespace pvcName)) in
     match r with
     | Ok pvc => Ret (Ok (Some pvc))
     | Err e => if IsNotFound e then Ret (Ok None) else Ret (Err e)
     end)%go.

Definition IsBlock (namespace : string) (volume : Volume) : prog E (result bool) :=
  (let! r := GetPVC namespace volume in
   match r with
   | Err e => Ret (Err e)
   | Ok None => Ret (Err (ErrMsg "pvc not found"))
   | Ok (Some pvc) => Ret (Ok (bool_decide (VolumeMode pvc = Some PersistentVolumeBlock)))
   end)%go.

Definition IsReady (namespace : string) (volume : Volume) : prog E (result bool) :=
  match DataVolume (Volume_Source volume) with
  | None => Ret (Ok true)
  | Some dv =>
      (let! r := GetPVC namespace volume in
       match r with
       | Err e => Ret (Err e)
       | Ok None => Ret (Ok false)
       | Ok (Some pvc) => kube (IsPopulated pvc (mkNN namespace (VolumeName dv)))
       end)%go
  end.

End VolumeUtil.
End Types.

(** [base64.StdEncoding.EncodeToString]. *)
Module Base64.

Definition alphabet : string := "ABCDEFGHIJKLMNOPQRSTUVWXYZabcdefghijklmnopqrstuvwxyz0123456789+/".

Definition digit (z : Z) : ascii :=
  match String.get (Z.to_nat z) alphabet with Some c => c | None => "="%char end.

Fixpoint encode (s : string) : string :=
  match s with
  | EmptyString => EmptyString
  | String a EmptyString =>
      let n := code a * 2 ^ 16 in
      String (digit (n / 2 ^ 18)) (String (digit ((n / 2 ^ 12) `mod` 64)) (String "="%char (String "="%char EmptyString)))
  | String a (String b EmptyString) =>
      let n := code a * 2 ^ 16 + code b * 2 ^ 8 in
      String (digit (n / 2 ^ 18)) (String (digit ((n / 2 ^ 12) `mod` 64))
        (String (digit ((n / 2 ^ 6) `mod` 64)) (String "="%char EmptyString)))
  | String a (String b (String c r)) =>
      let n := code a * 2 ^ 16 + code b * 2 ^ 8 + code c in
      String (digit (n / 2 ^ 18)) (String (digit ((n / 2 ^ 12) `mod` 64))
        (String (digit ((n / 2 ^ 6) `mod` 64)) (String (digit (n `mod` 64)) (encode r))))
  end.

Example encode_hello : encode "hello" = "aGVsbG8=".
Proof. vm_compute. reflexivity. Qed.

End Base64.
