(* ===== verification/Json.v ===== *)
(** * Package encoding/json

    The JSON values that Go's encoder makes of the structs of the sources, and the structs that
    its decoder makes of JSON values.  A codec of a Go type is a [Json]; those of structs are
    built from the descriptions of their fields, so that one proof shows that all of them read
    what they write ([struct_lawful]), and which fields a smaller struct sees ([dec_other]).

    The text of a document is not modelled, only its value.  A key is matched exactly, and the
    last of several equal keys counts; Go would also take a key that differs in case, and would
    merge equal keys whose values are objects. *)

From stdpp Require Import base strings list.
From Stdlib Require Import ZArith Lia Ascii.
From S2P Require Import Prelude GoStd.
Open Scope Z_scope.

Inductive json :=
| JNull
| JBool (b : bool)
| JNum (z : Z)
| JStr (s : string)
| JArr (l : list json)
| JObj (l : list (string * json)).

(** How a Go type is encoded and decoded: its zero value, the test of [omitempty], and the
    values that survive (integers of the type's width, strings that are valid UTF-8, of which
    the ASCII strings are used here). *)
Record Json (A : Type) := mkJson {
  zero : A;
  isEmptyValue : A → bool;
  enc : A → json;
  dec : json → result A;
  valid : A → Prop
}.
Arguments mkJson {A} _ _ _ _ _.
Arguments zero {A} _.
Arguments isEmptyValue {A} _ _.
Arguments enc {A} _ _.
Arguments dec {A} _ _.
Arguments valid {A} _ _.

(** What a type's codec promises to those of the types that contain it. *)
Record lawful {A} (J : Json A) : Prop := {
  lawful_empty : ∀ x, isEmptyValue J x = true → x = zero J;
  lawful_roundtrip : ∀ x, valid J x → dec J (enc J x) = Ok x
}.

Create HintDb json.

Definition typeError {A} : result A := Err (ErrMsg "json: cannot unmarshal").

(** ** Basic types *)

Definition json_bool : Json bool :=
  mkJson false negb JBool (λ j, match j with JBool b => Ok b | JNull => Ok false | _ => typeError end) (λ _, True).

(** A signed integer of [w] bits. *)
Definition json_int (w : Z) : Json Z :=
  mkJson 0 (λ z, z =? 0) JNum
    (λ j, match j with
          | JNum z => if (- 2 ^ (w - 1) <=? z) && (z <? 2 ^ (w - 1)) then Ok z else typeError
          | JNull => Ok 0
          | _ => typeError end)
    (λ z, - 2 ^ (w - 1) ≤ z < 2 ^ (w - 1)).

Fixpoint ascii_string (s : string) : Prop :=
  match s with EmptyString => True | String c r => code c < 128 ∧ ascii_string r end.
Definition json_string : Json string :=
  mkJson "" (λ s, bool_decide (s = "")) JStr (λ j, match j with JStr s => Ok s | JNull => Ok "" | _ => typeError end) ascii_string.

(** A value of type [interface{}]: itself.  A number is a [float64], which is exact up to 2^53. *)
Fixpoint small_numbers (j : json) : Prop :=
  match j with
  | JNum z => - 2 ^ 53 ≤ z ≤ 2 ^ 53
  | JArr l => (fix all l := match l with [] => True | j :: l' => small_numbers j ∧ all l' end) l
  | JObj l => (fix all l := match l with [] => True | (_, j) :: l' => small_numbers j ∧ all l' end) l
  | _ => True
  end.
Definition json_any : Json json :=
  mkJson JNull (λ j, match j with JNull => true | _ => false end) (λ j, j) Ok small_numbers.

(** ** Pointers, slices and maps *)

Definition json_ptr {A} (J : Json A) : Json (option A) :=
  mkJson None (λ x, match x with Some _ => false | None => true end)
    (λ x, match x with Some a => enc J a | None => JNull end)
    (λ j, match j with JNull => Ok None | _ => match dec J j with Ok a => Ok (Some a) | Err e => Err e end end)
    (λ x, match x with Some a => valid J a | None => True end).

Fixpoint dec_all {A} (J : Json A) (l : list json) : result (list A) :=
  match l with
  | [] => Ok []
  | j :: l' =>
      match dec J j with
      | Err e => Err e
      | Ok a => match dec_all J l' with Ok r => Ok (a :: r) | Err e => Err e end
      end
  end.
Definition is_nil {A} (l : list A) : bool := match l with [] => true | _ => false end.

(** The empty slice is nil, which is encoded as null. *)
Definition json_slice {A} (J : Json A) : Json (list A) :=
  mkJson [] is_nil (λ l, match l with [] => JNull | _ => JArr (map (enc J) l) end)
    (λ j, match j with JArr l => dec_all J l | JNull => Ok [] | _ => typeError end)
    (Forall (valid J)).

(** A map with its keys in increasing order, as the encoder writes them. *)
Definition json_map {A} (J : Json A) : Json (list (string * A)) :=
  mkJson [] is_nil
    (λ m, match m with [] => JNull | _ => JObj (map (λ '(k, a), (k, enc J a)) m) end)
    (λ j, match j with
          | JObj l => match dec_all J (map snd l) with Ok r => Ok (zip (map fst l) r) | Err e => Err e end
          | JNull => Ok []
          | _ => typeError end)
    (Forall (λ '(_, a), valid J a)).

(** ** Structs *)

(** The fields of a struct in their order: key, [omitempty], and type. *)
Inductive fields : Type → Type :=
| no_fields : fields unit
| field {A B} (key : string) (omitempty : bool) (J : Json A) (rest : fields B) : fields (A * B).

Fixpoint keys {T} (d : fields T) : list string :=
  match d with no_fields => [] | field k _ _ r => k :: keys r end.

Fixpoint zeros {T} (d : fields T) : T :=
  match d with no_fields => tt | field _ _ J r => (zero J, zeros r) end.

Fixpoint enc_fields {T} (d : fields T) : T → list (string * json) :=
  match d with
  | no_fields => λ _, []
  | field k o J r => λ '(x, t), (if o && isEmptyValue J x then [] else [(k, enc J x)]) ++ enc_fields r t
  end.

(** The value of a key: the last one counts. *)
Fixpoint assoc (k : string) (l : list (string * json)) : option json :=
  match l with
  | [] => None
  | (k', j) :: l' =>
      match assoc k l' with
      | Some j' => Some j'
      | None => if bool_decide (k = k') then Some j else None
      end
  end.

Definition dec_field {A} (J : Json A) (v : option json) : result A :=
  match v with Some j => dec J j | None => Ok (zero J) end.

(** Keys that are no fields are ignored, fields without a key keep their zero value. *)
Fixpoint dec_fields {T} (d : fields T) (o : list (string * json)) : result T :=
  match d with
  | no_fields => Ok tt
  | field k _ J r =>
      match dec_field J (assoc k o) with
      | Err e => Err e
      | Ok x => match dec_fields r o with Ok t => Ok (x, t) | Err e => Err e end
      end
  end.

Fixpoint valid_fields {T} (d : fields T) : T → Prop :=
  match d with
  | no_fields => λ _, True
  | field _ _ J r => λ '(x, t), valid J x ∧ valid_fields r t
  end.

(** A struct [R] with the fields [d]. *)
Definition json_struct {R T} (d : fields T) (to : R → T) (from : T → R) : Json R :=
  mkJson (from (zeros d)) (λ _, false) (λ r, JObj (enc_fields d (to r)))
    (λ j, match j with
          | JObj o => match dec_fields d o with Ok t => Ok (from t) | Err e => Err e end
          | JNull => Ok (from (zeros d))
          | _ => typeError end)
    (λ r, valid_fields d (to r)).

(** ** Every codec reads what it writes *)

Lemma json_bool_lawful : lawful json_bool.
Proof. split; [by intros []|done]. Qed.
Lemma json_int_lawful w : lawful (json_int w).
Proof.
  split; simpl; intros x Hx; [by apply Z.eqb_eq|].
  rewrite (proj2 (Z.leb_le _ _)), (proj2 (Z.ltb_lt _ _)) by lia. done.
Qed.
Lemma json_string_lawful : lawful json_string.
Proof. split; [|done]. simpl. intros x Hx. by apply bool_decide_eq_true in Hx. Qed.
Lemma json_any_lawful : lawful json_any.
Proof. split; [by intros []|done]. Qed.

Lemma json_ptr_lawful {A} (J : Json A) : (∀ x, enc J x ≠ JNull) → lawful J → lawful (json_ptr J).
Proof.
  intros Hn [_ Hr]. split; [by intros []|]. intros [x|] Hx; [|done]. simpl in *. specialize (Hn x).
  rewrite Hr by done. by destruct (enc J x).
Qed.

Lemma dec_all_enc {A} (J : Json A) l : lawful J → Forall (valid J) l → dec_all J (map (enc J) l) = Ok l.
Proof. intros [_ Hr]. induction 1 as [|x l Hx _ IH]; [done|]. simpl. by rewrite Hr, IH. Qed.

Lemma json_slice_lawful {A} (J : Json A) : lawful J → lawful (json_slice J).
Proof. intros HJ. split; [by intros []|]. intros [|x l] Hx; [done|]. by apply (dec_all_enc J (x :: l)). Qed.

Lemma json_map_lawful {A} (J : Json A) : lawful J → lawful (json_map J).
Proof.
  intros HJ. split; [by intros []|]. intros m Hm. assert (Hv : Forall (valid J) (map snd m)).
  { apply Forall_map. eapply Forall_impl; [exact Hm|]. by intros []. }
  assert (E : map snd (map (λ '(k, a), (k, enc J a)) m) = map (enc J) (map snd m)).
  { rewrite !map_map. apply map_ext. by intros []. }
  assert (E' : map fst (map (λ '(k, a), (k, enc J a)) m) = map fst m).
  { rewrite !map_map. apply map_ext. by intros []. }
  destruct m as [|e m]; [done|]. set (m' := e :: m) in *.
  change (dec (json_map J) (JObj (map (λ '(k, a), (k, enc J a)) m')) = Ok m'). cbn [dec json_map].
  rewrite E, E', dec_all_enc by done. f_equal. clear. induction m' as [|[k a] m' IH]; [done|]. cbn. by rewrite IH.
Qed.

(** *** Structs *)

Fixpoint lawful_fields {T} (d : fields T) : Prop :=
  match d with
  | no_fields => True
  | field k _ J r => lawful J ∧ k ∉ keys r ∧ lawful_fields r
  end.

Lemma assoc_app k l l' : assoc k (l ++ l') = match assoc k l' with Some j => Some j | None => assoc k l end.
Proof. induction l as [|[k' j] l IH]; simpl; [by destruct (assoc k l')|]. rewrite IH. by destruct (assoc k l'). Qed.

Lemma assoc_other {T} (d : fields T) t k : k ∉ keys d → assoc k (enc_fields d t) = None.
Proof.
  induction d as [|A B k' o J r IH]; [done|]. destruct t as [x t]. simpl. intros Hk. rewrite not_elem_of_cons in Hk.
  rewrite assoc_app, IH by tauto. destruct (o && isEmptyValue J x); [done|]. simpl. by rewrite bool_decide_eq_false_2 by tauto.
Qed.

(** An object may begin with entries whose keys are no fields. *)
Lemma dec_enc_fields {T} (d : fields T) t o :
  lawful_fields d → valid_fields d t → (∀ k, k ∈ keys d → assoc k o = None) →
  dec_fields d (o ++ enc_fields d t) = Ok t.
Proof.
  revert o. induction d as [|A B k om J r IH]; intros o; [by destruct t|]. destruct t as [x t]. simpl.
  intros (HJ & Hk & Hr) [Hx Ht] Ho. assert (Hok : assoc k o = None) by (apply Ho; left).
  set (mine := if om && isEmptyValue J x then [] else [(k, enc J x)]).
  assert (E : dec_field J (assoc k (o ++ mine ++ enc_fields r t)) = Ok x).
  { rewrite !assoc_app, assoc_other by done. unfold mine. destruct (om && isEmptyValue J x) eqn:Eo; simpl.
    - rewrite Hok. apply andb_true_iff in Eo as [_ Eo]. simpl. by rewrite (lawful_empty J HJ x).
    - rewrite bool_decide_eq_true_2 by done. by apply lawful_roundtrip. }
  rewrite E, (app_assoc o), IH; [done..|]. intros k' Hk'. rewrite assoc_app, (Ho k') by (by right).
  unfold mine. destruct (om && isEmptyValue J x); [done|]. simpl. rewrite bool_decide_eq_false_2; [done|]. by intros ->.
Qed.

Lemma struct_lawful {R T} (d : fields T) (to : R → T) from :
  (∀ r, from (to r) = r) → lawful_fields d → lawful (json_struct d to from).
Proof.
  intros Hiso Hd. split; [done|]. intros r Hr. simpl in *.
  pose proof (dec_enc_fields d (to r) [] Hd Hr) as E. simpl in E. rewrite E; [by rewrite Hiso|done].
Qed.

Lemma struct_ptr_lawful {R T} (d : fields T) (to : R → T) from : lawful (json_struct d to from) → lawful (json_ptr (json_struct d to from)).
Proof. intros H. by apply json_ptr_lawful. Qed.

(** Closes [lawful_fields] of a concrete struct whose parts are known to be lawful. *)
#[export] Hint Resolve json_bool_lawful json_int_lawful json_string_lawful json_any_lawful : json.
#[export] Hint Resolve json_slice_lawful json_map_lawful json_ptr_lawful : json.
#[export] Hint Extern 2 (∀ x, enc (json_struct _ _ _) x ≠ JNull) => by intros : json.
Ltac lawful_struct :=
  apply struct_lawful; [by intros []|]; repeat (split; [solve [auto 8 with json]|split; [apply (bool_decide_unpack _); by vm_compute|]]); exact I.
