(* ===== verification/DeepCopy.v ===== *)
(** * Deep copies (pkg/apis/.../zz_generated.deepcopy.go)

    Go's memory as far as the API types use it: structs are values that contain their fields,
    while pointers, slices and maps refer to cells that other values may share.  A [DeepCopyInto]
    function is the list of the fields it treats after [*out = *in], each with what it does to
    the field; [copy] runs it on a heap.

    [deep_copies] says what a copy promises: the original is left alone, the copy has the same
    contents, and nothing that can be reached from the copy existed before.  [copies] compares a
    function with the fields of its type, and [copy_sound] shows that this check is enough, so
    that the functions of [DeepCopyTypes] are checked by computation. *)

From stdpp Require Import base gmap strings list sets fin_maps fin_map_dom.
From S2P Require Import Prelude.

(** ** Types, values and the heap *)

(** A Go type: its references.  [TLib] is a struct of a Kubernetes package. *)
Inductive gotype :=
| TBase
| TPtr (t : gotype)
| TSlice (t : gotype)
| TMap (t : gotype)
| TStruct (l : list (string * gotype))
| TLib (name : string).

(** A value: numbers, strings and the like, a nil reference, a reference, or a struct. *)
Inductive gval :=
| VBase (s : string)
| VNil
| VRef (l : nat)
| VStruct (l : list (string * gval)).

(** What a pointer, a slice and a map with string keys refer to. *)
Inductive cell :=
| CPtr (v : gval)
| CArr (l : list gval)
| CMap (l : list (string * gval)).

Abbreviation heap := (gmap nat cell).

Fixpoint get_field {A} (n : string) (l : list (string * A)) : option A :=
  match l with
  | [] => None
  | (m, x) :: l' => if decide (n = m) then Some x else get_field n l'
  end.

Definition set_field {A} (n : string) (y : A) (l : list (string * A)) : list (string * A) :=
  map (λ '(m, x), if decide (n = m) then (m, y) else (m, x)) l.

(** ** The statements of a copy *)

(** What is done to a field or an element:
    - [Flat]: an assignment, [**out = **in] or [copy(out, in)];
    - [Ptr]: [if in.F != nil { out.F = new(T); ... }], and [Slice] and [Map] likewise with [make],
      where the argument is what is done to what is referred to;
    - [Fields]: a [DeepCopyInto] of the repository, as its statements about fields;
    - [Lib]: [DeepCopyInto] or [DeepCopy] of a Kubernetes type. *)
Inductive copier :=
| Flat
| Ptr (c : copier)
| Slice (c : copier)
| Map (c : copier)
| Fields (l : list (string * copier))
| Lib (name : string).

(** A function that copies a value; [None] is a panic. *)
Abbreviation copyfun := (gval → heap → option (gval * heap)).

(** The loop over the elements. *)
Fixpoint copy_all (run : copyfun) (l : list gval) (h : heap) : option (list gval * heap) :=
  match l with
  | [] => Some ([], h)
  | v :: l' =>
      match run v h with
      | None => None
      | Some (v', h1) =>
          match copy_all run l' h1 with
          | None => None
          | Some (r, h2) => Some (v' :: r, h2)
          end
      end
  end.

(** The statements about fields: each reads the field of [in] and writes that of [out]. *)
Fixpoint copy_fields (l : list (string * copyfun)) (input out : list (string * gval)) (h : heap)
    : option (gval * heap) :=
  match l with
  | [] => Some (VStruct out, h)
  | (f, run) :: l' =>
      match get_field f input with
      | None => None
      | Some v =>
          match run v h with
          | None => None
          | Some (v', h1) => copy_fields l' input (set_field f v' out) h1
          end
      end
  end.

Section Copy.
Context (lib_copy : string → copyfun).

(** New cells start with what [*out = *in] puts there. *)
Fixpoint copy (c : copier) (v : gval) (h : heap) : option (gval * heap) :=
  match c with
  | Flat => Some (v, h)
  | Ptr c =>
      match v with
      | VNil => Some (VNil, h)
      | VRef l =>
          match h !! l with
          | Some (CPtr x) =>
              let l' := fresh (dom h) in
              match copy c x (<[l' := CPtr x]> h) with
              | Some (y, h1) => Some (VRef l', <[l' := CPtr y]> h1)
              | None => None
              end
          | _ => None
          end
      | _ => None
      end
  | Slice c =>
      match v with
      | VNil => Some (VNil, h)
      | VRef l =>
          match h !! l with
          | Some (CArr xs) =>
              let l' := fresh (dom h) in
              match copy_all (copy c) xs (<[l' := CArr xs]> h) with
              | Some (ys, h1) => Some (VRef l', <[l' := CArr ys]> h1)
              | None => None
              end
          | _ => None
          end
      | _ => None
      end
  | Map c =>
      match v with
      | VNil => Some (VNil, h)
      | VRef l =>
          match h !! l with
          | Some (CMap xs) =>
              let l' := fresh (dom h) in
              match copy_all (copy c) xs.*2 (<[l' := CMap xs]> h) with
              | Some (ys, h1) => Some (VRef l', <[l' := CMap (zip xs.*1 ys)]> h1)
              | None => None
              end
          | _ => None
          end
      | _ => None
      end
  | Fields l =>
      match v with
      | VStruct fs => copy_fields (map (λ '(f, c), (f, copy c)) l) fs fs h
      | _ => None
      end
  | Lib n => lib_copy n v h
  end.

(** [DeepCopy] of a type whose [DeepCopyInto] is [c]: nil for nil, or a new struct. *)
Definition DeepCopy (c : copier) : copyfun := copy (Ptr c).
End Copy.

(** ** The contents of a value, and the cells it refers to *)

Inductive tree :=
| Leaf (v : gval)
| Nil
| PtrTo (t : tree)
| Array (l : list tree)
| Dict (keys : list string) (l : list tree)
| Rec (l : list (string * tree)).

Section Lists.
Context {A B : Type}.
(** All of the results, or none. *)
Fixpoint traverse (f : A → option B) (l : list A) : option (list B) :=
  match l with
  | [] => Some []
  | x :: l' => match f x, traverse f l' with Some y, Some r => Some (y :: r) | _, _ => None end
  end.
End Lists.

(** The fields of a struct against their types. *)
Fixpoint zip_fields {A B} (l : list (string * (A → option B))) (fs : list (string * A)) : option (list (string * B)) :=
  match l, fs with
  | [], [] => Some []
  | (n, f) :: l', (m, x) :: fs' =>
      if decide (n = m) then
        match f x, zip_fields l' fs' with Some y, Some r => Some ((n, y) :: r) | _, _ => None end
      else None
  | _, _ => None
  end.

(** [contents t h v] is [None] when [v] is no value of type [t] in the heap. *)
Fixpoint contents (t : gotype) (h : heap) (v : gval) : option tree :=
  match t with
  | TBase => Some (Leaf v)
  | TPtr t =>
      match v with
      | VNil => Some Nil
      | VRef l => match h !! l with Some (CPtr x) => PtrTo <$> contents t h x | _ => None end
      | _ => None
      end
  | TSlice t =>
      match v with
      | VNil => Some Nil
      | VRef l => match h !! l with Some (CArr xs) => Array <$> traverse (contents t h) xs | _ => None end
      | _ => None
      end
  | TMap t =>
      match v with
      | VNil => Some Nil
      | VRef l => match h !! l with Some (CMap xs) => Dict xs.*1 <$> traverse (contents t h) xs.*2 | _ => None end
      | _ => None
      end
  | TStruct ts =>
      match v with
      | VStruct fs => Rec <$> zip_fields (map (λ '(n, t), (n, contents t h)) ts) fs
      | _ => None
      end
  | TLib _ => None
  end.

Fixpoint reach_fields {A} (l : list (string * (A → list nat))) (fs : list (string * A)) : list nat :=
  match l, fs with
  | (_, f) :: l', (_, x) :: fs' => f x ++ reach_fields l' fs'
  | _, _ => []
  end.

Fixpoint reach (t : gotype) (h : heap) (v : gval) : list nat :=
  match t with
  | TBase | TLib _ => []
  | TPtr t =>
      match v with VRef l => l :: match h !! l with Some (CPtr x) => reach t h x | _ => [] end | _ => [] end
  | TSlice t =>
      match v with VRef l => l :: match h !! l with Some (CArr xs) => xs ≫= reach t h | _ => [] end | _ => [] end
  | TMap t =>
      match v with VRef l => l :: match h !! l with Some (CMap xs) => xs.*2 ≫= reach t h | _ => [] end | _ => [] end
  | TStruct ts =>
      match v with VStruct fs => reach_fields (map (λ '(n, t), (n, reach t h)) ts) fs | _ => [] end
  end.

(** What a copy promises. *)
Definition deep_copies (run : copyfun) (t : gotype) : Prop :=
  ∀ h v tr, contents t h v = Some tr → ∃ v' h',
    run v h = Some (v', h') ∧ h ⊆ h' ∧ contents t h' v' = Some tr ∧ ∀ l, l ∈ reach t h' v' → l ∉ dom h.

(** ** The check *)

(** No references. *)
Fixpoint flat (t : gotype) : bool :=
  match t with
  | TBase => true
  | TStruct l => forallb (λ '(_, t), flat t) l
  | _ => false
  end.

(** The statements about fields of a struct: all of them are about fields and copy them, and the
    fields without one have no references. *)
Definition distinct (l : list string) : bool := bool_decide (NoDup l).
Fixpoint copies (c : copier) (t : gotype) : bool :=
  match c, t with
  | Flat, _ => flat t
  | Ptr c, TPtr t | Slice c, TSlice t | Map c, TMap t => copies c t
  | Fields l, TStruct ts =>
      distinct ts.*1 && distinct l.*1 &&
      (fix each (l : list (string * copier)) : bool :=
         match l with
         | [] => true
         | (f, c) :: l' => match get_field f ts with Some t => copies c t | None => false end && each l'
         end) l &&
      forallb (λ '(n, t), bool_decide (n ∈ l.*1) || flat t) ts
  | Lib n, TLib m => bool_decide (n = m)
  | _, _ => false
  end.

(** The type with the structs of the Kubernetes packages filled in. *)
Fixpoint resolve (lib_type : string → gotype) (t : gotype) : gotype :=
  match t with
  | TBase => TBase
  | TPtr t => TPtr (resolve lib_type t)
  | TSlice t => TSlice (resolve lib_type t)
  | TMap t => TMap (resolve lib_type t)
  | TStruct l => TStruct (map (λ '(n, t), (n, resolve lib_type t)) l)
  | TLib n => lib_type n
  end.

(** ** Induction over types and statements *)

Section Induction.
Context (P : gotype → Prop) (Hbase : P TBase) (Hptr : ∀ t, P t → P (TPtr t)) (Hslice : ∀ t, P t → P (TSlice t))
  (Hmap : ∀ t, P t → P (TMap t)) (Hstruct : ∀ l, Forall (λ p, P p.2) l → P (TStruct l)) (Hlib : ∀ n, P (TLib n)).
Fixpoint gotype_induction (t : gotype) : P t :=
  match t with
  | TBase => Hbase
  | TPtr t => Hptr t (gotype_induction t)
  | TSlice t => Hslice t (gotype_induction t)
  | TMap t => Hmap t (gotype_induction t)
  | TStruct l => Hstruct l ((fix all l : Forall (λ p, P p.2) l :=
      match l with [] => Forall_nil_2 _ | p :: l' => Forall_cons_2 _ p l' (gotype_induction p.2) (all l') end) l)
  | TLib n => Hlib n
  end.
End Induction.

Section CopierInduction.
Context (P : copier → Prop) (Hflat : P Flat) (Hptr : ∀ c, P c → P (Ptr c)) (Hslice : ∀ c, P c → P (Slice c))
  (Hmap : ∀ c, P c → P (Map c)) (Hfields : ∀ l, Forall (λ p, P p.2) l → P (Fields l)) (Hlib : ∀ n, P (Lib n)).
Fixpoint copier_induction (c : copier) : P c :=
  match c with
  | Flat => Hflat
  | Ptr c => Hptr c (copier_induction c)
  | Slice c => Hslice c (copier_induction c)
  | Map c => Hmap c (copier_induction c)
  | Fields l => Hfields l ((fix all l : Forall (λ p, P p.2) l :=
      match l with [] => Forall_nil_2 _ | p :: l' => Forall_cons_2 _ p l' (copier_induction p.2) (all l') end) l)
  | Lib n => Hlib n
  end.
End CopierInduction.

(** ** Fields *)

Lemma get_field_map {A B} (f : A → B) n l : get_field n (map (λ '(m, x), (m, f x)) l) = f <$> get_field n l.
Proof. induction l as [|[m x] l IH]; [done|]. simpl. by case_decide. Qed.

Lemma map_names {A B} (f : A → B) (l : list (string * A)) : (map (λ '(m, x), (m, f x)) l).*1 = l.*1.
Proof. induction l as [|[m x] l IH]; [done|]. simpl. f_equal. exact IH. Qed.

Lemma get_field_in {A} n (l : list (string * A)) x : get_field n l = Some x → (n, x) ∈ l.
Proof. induction l as [|[m y] l IH]; [done|]. simpl. case_decide; [intros [= ->]; subst; left|right; auto]. Qed.

Lemma in_names {A} n (l : list (string * A)) x : (n, x) ∈ l → n ∈ l.*1.
Proof. intros Hx. apply list_elem_of_fmap. by exists (n, x). Qed.

Lemma get_field_some {A} n (l : list (string * A)) : n ∈ l.*1 → is_Some (get_field n l).
Proof.
  induction l as [|[m y] l IH]; simpl; [by rewrite elem_of_nil|]. rewrite elem_of_cons. case_decide; [done|]. intros [?|?]; [done|auto].
Qed.

Lemma in_get_field {A} n (l : list (string * A)) x : NoDup l.*1 → (n, x) ∈ l → get_field n l = Some x.
Proof.
  induction l as [|[m y] l IH]; simpl; [by rewrite elem_of_nil|]. rewrite NoDup_cons, elem_of_cons. intros [Hm Hl] [[= -> ->]|Hx].
  - by rewrite decide_True.
  - rewrite decide_False; [by apply IH|]. intros ->. apply Hm. by eapply in_names.
Qed.

Lemma set_field_names {A} n (y : A) l : (set_field n y l).*1 = l.*1.
Proof. induction l as [|[m x] l IH]; [done|]. simpl. case_decide; simpl; f_equal; exact IH. Qed.

Lemma get_set_field {A} n m (y : A) l :
  get_field n (set_field m y l) = if decide (n = m) then const y <$> get_field n l else get_field n l.
Proof.
  unfold set_field. induction l as [|[k x] l IH]; [by case_decide|]. simpl. destruct (decide (m = k)) as [->|Hk]; simpl.
  - destruct (decide (n = k)); [done|exact IH].
  - destruct (decide (n = k)) as [->|]; [by rewrite decide_False by done|exact IH].
Qed.

(** A struct has contents when each field has. *)
Lemma zip_fields_spec {A B} (l : list (string * (A → option B))) fs r :
  NoDup l.*1 →
  zip_fields l fs = Some r ↔ fs.*1 = l.*1 ∧ r.*1 = l.*1 ∧
    ∀ n f, get_field n l = Some f → ∃ x y, get_field n fs = Some x ∧ get_field n r = Some y ∧ f x = Some y.
Proof.
  revert fs r. induction l as [|[n f] l IH]; intros fs r; simpl.
  { intros _. destruct fs as [|[m x] fs]; [|by split; [|intros [? _]]]. split; [intros [= <-]; split_and!; done|].
    intros (_ & Hr & _). by destruct r. }
  intros [Hn Hd]%NoDup_cons. destruct fs as [|[m x] fs]; [by split; [|intros [? _]]|]. simpl. split.
  - destruct (decide (n = m)) as [<-|]; [|done]. destruct (f x) as [y|] eqn:Ef; [|done].
    destruct (zip_fields l fs) as [r'|] eqn:Er; [|done]. intros [= <-]. apply IH in Er as (H1 & H2 & H3); [|done].
    simpl. split_and!; [f_equal; exact H1|f_equal; exact H2|]. intros k g. case_decide; [|apply H3]. intros [= <-]. eauto.
  - intros ([= <- Hfs] & Hr & Hall). rewrite decide_True by done. destruct r as [|[k y] r]; [done|]. simplify_eq/=.
    destruct (Hall m f) as (x' & y' & Hx & Hy & Hf); [by rewrite decide_True|]. rewrite decide_True in Hx by done. rewrite decide_True in Hy by done.
    simplify_eq. rewrite Hf. assert (E : zip_fields l fs = Some r).
    { apply IH; [done|]. split_and!; [done..|]. intros k g Hk. assert (k ≠ m).
      { intros ->. apply Hn. by eapply in_names, get_field_in. }
      destruct (Hall k g) as (x0 & y0 & Hx' & Hy' & Hf'); [by rewrite decide_False|].
      rewrite decide_False in Hx' by done. rewrite decide_False in Hy' by done. eauto. }
    by rewrite E.
Qed.

Lemma elem_of_reach_fields {A} (l : list (string * (A → list nat))) fs a :
  NoDup l.*1 → fs.*1 = l.*1 →
  a ∈ reach_fields l fs ↔ ∃ n f x, get_field n l = Some f ∧ get_field n fs = Some x ∧ a ∈ f x.
Proof.
  revert fs. induction l as [|[n f] l IH]; intros fs; simpl.
  { intros _ Hfs. destruct fs; [|done]. rewrite elem_of_nil. naive_solver. }
  intros [Hn Hd]%NoDup_cons Hfs. destruct fs as [|[m x] fs]; [done|]. injection Hfs as -> Hfs. simpl. rewrite elem_of_app, IH by done. split.
  - intros [Ha|(k & g & y & Hk & Hy & Ha)]; [exists n, f, x; by rewrite !decide_True|].
    exists k, g, y. assert (k ≠ n); [|by rewrite !decide_False].
    intros ->. by eapply Hn, in_names, get_field_in.
  - intros (k & g & y & Hk & Hy & Ha). destruct (decide (k = n)); simplify_eq; [by left|right; by exists k, g, y].
Qed.

(** ** What the contents depend on *)

Lemma traverse_Forall2 {A B} (f : A → option B) l r : traverse f l = Some r ↔ Forall2 (λ x y, f x = Some y) l r.
Proof.
  revert r. induction l as [|x l IH]; intros r; simpl.
  { split; [intros [= <-]; constructor|]. by intros ->%Forall2_nil_inv_l. }
  split.
  - destruct (f x) as [y|] eqn:Ef; [|done]. destruct (traverse f l) as [r'|]; [|done]. intros [= <-].
    constructor; [done|by apply IH].
  - intros (y & r' & Hy & Hr & ->)%Forall2_cons_inv_l. by rewrite Hy, (proj2 (IH r')).
Qed.

(** Contents and reach are the same in a heap that agrees on what is reached. *)
Definition local (t : gotype) : Prop := ∀ h h' v tr,
  contents t h v = Some tr → (∀ l, l ∈ reach t h v → h !! l = h' !! l) →
  contents t h' v = Some tr ∧ reach t h' v = reach t h v.

Lemma local_elements t h h' xs trs :
  local t → traverse (contents t h) xs = Some trs → (∀ l, l ∈ xs ≫= reach t h → h !! l = h' !! l) →
  traverse (contents t h') xs = Some trs ∧ xs ≫= reach t h' = xs ≫= reach t h.
Proof.
  intros Ht. revert trs. induction xs as [|x xs IH]; intros trs; [done|]. cbn [traverse mbind list_bind].
  destruct (contents t h x) as [tr|] eqn:Ex; [|done]. destruct (traverse _ xs) as [r|] eqn:Er; [|done].
  intros [= <-] Ha. destruct (Ht h h' x tr Ex) as [-> ->]; [intros l Hl; apply Ha, elem_of_app; by left|].
  destruct (IH r eq_refl) as [-> E]; [intros l Hl; apply Ha, elem_of_app; by right|]. split; [done|]. by f_equal.
Qed.

Lemma contents_local t : local t.
Proof.
  induction t as [|t IH|t IH|t IH|ts IH|n] using gotype_induction; intros h h' v tr; simpl.
  - intros [= <-] _. done.
  - destruct v as [|s|l|]; try done. destruct (h !! l) as [[x| |]|] eqn:El; try done.
    intros Hc Ha. rewrite <-(Ha l), El by left. destruct (contents t h x) as [tx|] eqn:Ex; [|done].
    destruct (IH h h' x tx Ex) as [-> ->]; [|done]. intros a Hl. apply Ha. by right.
  - destruct v as [|s|l|]; try done. destruct (h !! l) as [[|xs|]|] eqn:El; try done.
    intros Hc Ha. rewrite <-(Ha l), El by left. destruct (traverse (contents t h) xs) as [r|] eqn:Ex; [|done].
    destruct (local_elements t h h' xs r IH Ex) as [-> ->]; [|done]. intros a Hl. apply Ha. by right.
  - destruct v as [|s|l|]; try done. destruct (h !! l) as [[| |xs]|] eqn:El; try done.
    intros Hc Ha. rewrite <-(Ha l), El by left. destruct (traverse (contents t h) xs.*2) as [r|] eqn:Ex; [|done].
    destruct (local_elements t h h' xs.*2 r IH Ex) as [-> ->]; [|done]. intros a Hl. apply Ha. by right.
  - destruct v as [| | |fs]; try done. intros Hc Ha.
    assert (E : ∀ r, zip_fields (map (λ '(n, t), (n, contents t h)) ts) fs = Some r →
      zip_fields (map (λ '(n, t), (n, contents t h')) ts) fs = Some r ∧
      reach_fields (map (λ '(n, t), (n, reach t h')) ts) fs = reach_fields (map (λ '(n, t), (n, reach t h)) ts) fs).
    { clear Hc. revert fs Ha. induction IH as [|[n t] ts Ht _ IHl]; intros fs Ha r; [by destruct fs|].
      destruct fs as [|[m x] fs]; [done|]. simpl in *. case_decide; [|done].
      destruct (contents t h x) as [tx|] eqn:Ex; [|done]. destruct (zip_fields _ fs) as [r'|] eqn:Er; [|done]. intros [= <-].
      destruct (Ht h h' x tx Ex) as [-> ->]; [intros a Hl; apply Ha, elem_of_app; by left|].
      destruct (IHl fs (λ a Hl, Ha a (proj2 (elem_of_app _ _ _) (or_intror Hl))) r' Er) as [-> E]. by rewrite E. }
    destruct (zip_fields _ fs) as [r|]; [|done]. destruct (E r eq_refl) as [-> ->]. done.
  - done.
Qed.

(** What is reached exists. *)
Lemma reach_dom t h v tr l : contents t h v = Some tr → l ∈ reach t h v → l ∈ dom h.
Proof.
  assert (Hel : ∀ t h xs r, (∀ v tr, contents t h v = Some tr → l ∈ reach t h v → l ∈ dom h) →
    traverse (contents t h) xs = Some r → l ∈ xs ≫= reach t h → l ∈ dom h).
  { intros t' h' xs r Ht. revert r. induction xs as [|x xs IH]; intros r; cbn [traverse mbind list_bind]; [by rewrite elem_of_nil|].
    destruct (contents t' h' x) eqn:Ex; [|done]. destruct (traverse _ xs) eqn:Er; [|done]. rewrite elem_of_app. naive_solver. }
  revert v tr. induction t as [|t IH|t IH|t IH|ts IH|n] using gotype_induction; intros v tr; simpl; [by rewrite elem_of_nil|..].
  - destruct v as [|s|a|]; try by rewrite elem_of_nil. destruct (h !! a) as [[x| |]|] eqn:El; try done.
    destruct (contents t h x) eqn:Ex; [|done]. rewrite elem_of_cons. intros _ [->|Hl]; [by eapply elem_of_dom_2|by eapply IH].
  - destruct v as [|s|a|]; try by rewrite elem_of_nil. destruct (h !! a) as [[|xs|]|] eqn:El; try done.
    destruct (traverse _ xs) eqn:Ex; [|done]. rewrite elem_of_cons. intros _ [->|Hl]; [by eapply elem_of_dom_2|by eapply Hel].
  - destruct v as [|s|a|]; try by rewrite elem_of_nil. destruct (h !! a) as [[| |xs]|] eqn:El; try done.
    destruct (traverse _ _) eqn:Ex; [|done]. rewrite elem_of_cons. intros _ [->|Hl]; [by eapply elem_of_dom_2|by eapply Hel].
  - destruct v as [| | |fs]; try by rewrite elem_of_nil.
    destruct (zip_fields _ fs) as [r|] eqn:Er; [|done]. intros _. clear tr. revert fs r Er.
    induction IH as [|[n t] ts Ht _ IHl]; intros fs r; [by destruct fs; rewrite elem_of_nil|].
    destruct fs as [|[m x] fs]; [done|]. simpl. case_decide; [|done]. destruct (contents t h x) eqn:Ex; [|done].
    destruct (zip_fields _ fs) eqn:Er; [|done]. rewrite elem_of_app. intros _ [Hl|Hl]; [by eapply Ht|by eapply IHl].
  - by rewrite elem_of_nil.
Qed.

Lemma contents_mono t h h' v tr :
  h ⊆ h' → contents t h v = Some tr → contents t h' v = Some tr ∧ reach t h' v = reach t h v.
Proof.
  intros Hh Hc. apply contents_local; [done|]. intros l Hl. apply reach_dom with (1 := Hc), elem_of_dom in Hl as [c El].
  rewrite El. symmetry. by eapply lookup_weaken.
Qed.

Lemma flat_contents t h h' v : flat t = true → contents t h' v = contents t h v ∧ reach t h v = [].
Proof.
  revert v. induction t as [|t IH|t IH|t IH|ts IH|n] using gotype_induction; intros v; simpl; try done.
  intros Hf. destruct v as [| | |fs]; try done.
  assert (E : zip_fields (map (λ '(n, t), (n, contents t h')) ts) fs = zip_fields (map (λ '(n, t), (n, contents t h)) ts) fs ∧
    reach_fields (map (λ '(n, t), (n, reach t h)) ts) fs = []).
  { revert fs Hf. induction IH as [|[n t] ts Ht _ IHl]; intros fs; [by destruct fs|]. simpl in *. rewrite andb_true_iff. intros [H1 H2].
    destruct fs as [|[m x] fs]; [done|]. destruct (Ht x H1) as [-> ->], (IHl fs H2) as [-> ->]. done. }
  destruct E as [-> ->]. done.
Qed.

Lemma flat_resolve lib t : flat t = true → resolve lib t = t.
Proof.
  induction t as [|t IH|t IH|t IH|ts IH|n] using gotype_induction; simpl; try done. intros Hf. f_equal.
  induction IH as [|[n t] ts Ht _ IHl]; [done|]. simpl in *. apply andb_true_iff in Hf as [H1 H2]. rewrite Ht, IHl by done. done.
Qed.

(** ** The check is enough *)

(** A cell is allocated, the copy goes on, and the cell is filled in. *)
Lemma allocated (h h1 : heap) l c c' :
  l ∉ dom h → <[l := c]> h ⊆ h1 →
  h ⊆ <[l := c']> h1 ∧ ∀ a, a ∉ dom (<[l := c]> h) → h1 !! a = <[l := c']> h1 !! a.
Proof.
  intros Hl Hh. split.
  - apply insert_subseteq_r; [by apply not_elem_of_dom|]. etrans; [|exact Hh]. by apply insert_subseteq, not_elem_of_dom.
  - intros a Ha. rewrite dom_insert in Ha. rewrite lookup_insert_ne; [done|]. set_solver.
Qed.

Lemma copy_all_sound run t xs h trs :
  deep_copies run t → traverse (contents t h) xs = Some trs → ∃ ys h',
    copy_all run xs h = Some (ys, h') ∧ h ⊆ h' ∧ traverse (contents t h') ys = Some trs ∧
    ∀ l, l ∈ ys ≫= reach t h' → l ∉ dom h.
Proof.
  intros Hrun. revert h trs. induction xs as [|x xs IH]; intros h trs; cbn [traverse].
  { intros [= <-]. exists [], h. split_and!; [done..|]. intros l. by rewrite elem_of_nil. }
  destruct (contents t h x) as [tr|] eqn:Ex; [|done]. destruct (traverse _ xs) as [r|] eqn:Er; [|done]. intros [= <-].
  destruct (Hrun h x tr Ex) as (y & h1 & E1 & Hh1 & Hy & Hf1).
  apply (local_elements t h h1) in Er as [Er _]; [|apply contents_local|].
  2:{ intros l Hl. assert (l ∈ dom h) as [c Hc]%elem_of_dom; [|by rewrite Hc, (lookup_weaken _ _ _ _ Hc Hh1)].
      apply list_elem_of_bind in Hl as (z & Hl & Hz). apply traverse_Forall2 in Er.
      apply list_elem_of_lookup in Hz as [i Hi]. destruct (Forall2_lookup_l _ _ _ _ _ Er Hi) as (tz & _ & Hc).
      by eapply reach_dom. }
  destruct (IH h1 r Er) as (ys & h2 & E2 & Hh2 & Hys & Hf2). exists (y :: ys), h2. cbn [copy_all traverse mbind list_bind].
  destruct (contents_mono t h1 h2 y tr Hh2 Hy) as [Hy2 Hr2]. rewrite E1, E2, Hy2, Hys, Hr2. split_and!; [done|by etrans|done|].
  intros l [Hl|Hl]%elem_of_app; [by apply Hf1|]. intros Hd. apply (Hf2 l Hl). by apply (subseteq_dom h h1).
Qed.

Lemma copy_fields_sound (ts : list (string * gotype)) h fs r l :
  NoDup ts.*1 → zip_fields (map (λ '(n, t), (n, contents t h)) ts) fs = Some r →
  Forall (λ '(f, run), ∃ t, get_field f ts = Some t ∧ deep_copies run t) l →
  (∀ n t, get_field n ts = Some t → n ∈ l.*1 ∨ flat t = true) →
  ∃ fs' h', copy_fields l fs fs h = Some (VStruct fs', h') ∧ h ⊆ h' ∧
    zip_fields (map (λ '(n, t), (n, contents t h')) ts) fs' = Some r ∧
    ∀ a, a ∈ reach_fields (map (λ '(n, t), (n, reach t h')) ts) fs' → a ∉ dom h.
Proof.
  intros Hd Hz Hl Hflat.
  apply zip_fields_spec in Hz as (Hfs & Hr & Hall); [|by rewrite map_names]. rewrite map_names in Hfs, Hr.
  assert (Hin : ∀ n t, get_field n ts = Some t → ∃ x tr, get_field n fs = Some x ∧ get_field n r = Some tr ∧ contents t h x = Some tr).
  { intros n t Hn. apply Hall. by rewrite get_field_map, Hn. }
  assert (Hgo : ∀ out hc, out.*1 = ts.*1 → h ⊆ hc →
    (∀ n t, get_field n ts = Some t → ∃ x tr, get_field n out = Some x ∧ get_field n r = Some tr ∧ contents t hc x = Some tr ∧
       (n ∈ l.*1 ∨ ∀ a, a ∈ reach t hc x → a ∉ dom h)) →
    ∃ fs' h', copy_fields l fs out hc = Some (VStruct fs', h') ∧ h ⊆ h' ∧ fs'.*1 = ts.*1 ∧
      ∀ n t, get_field n ts = Some t → ∃ x tr, get_field n fs' = Some x ∧ get_field n r = Some tr ∧ contents t h' x = Some tr ∧
       ∀ a, a ∈ reach t h' x → a ∉ dom h).
  { clear Hflat Hall. induction Hl as [|[f run] l (t & Hft & Hrun) _ IH]; intros out hc Ho Hh Hinv; simpl.
    { exists out, hc. split_and!; [done..|]. intros n t Hn. destruct (Hinv n t Hn) as (x & tr & ? & ? & ? & [[]%elem_of_nil|?]).
      by exists x, tr. }
    destruct (Hin f t Hft) as (v & tr & -> & Htr & Hc). destruct (contents_mono t h hc v tr Hh Hc) as [Hc' _].
    destruct (Hrun hc v tr Hc') as (v' & h1 & -> & Hh1 & Hv' & Hfresh). apply IH; [by rewrite set_field_names|by etrans|].
    intros n t' Hn. destruct (Hinv n t' Hn) as (x & trn & Hx & Hrn & Hcn & Hdone). rewrite get_set_field. case_decide as Hnf.
    - subst n. simplify_eq. rewrite Hx. eexists v', _. split_and!; [done..|]. right. intros a Ha Hda. apply (Hfresh a Ha).
      by apply (subseteq_dom h hc).
    - destruct (contents_mono t' hc h1 x trn Hh1 Hcn) as [Hc1 Hr1]. exists x, trn. rewrite Hr1. split_and!; [done..|].
      destruct Hdone as [[Hd'|Hd']%elem_of_cons|Hd']; [done|by left|by right]. }
  destruct (Hgo fs h Hfs ltac:(done)) as (fs' & h' & E & Hh & Hfs' & Hall').
  { intros n t Hn. destruct (Hin n t Hn) as (x & tr & ? & ? & Hc). exists x, tr. split_and!; [done..|].
    destruct (Hflat n t Hn) as [?|Hft]; [by left|right]. destruct (flat_contents t h h x Hft) as [_ ->]. intros a. by rewrite elem_of_nil. }
  exists fs', h'. split_and!; [done..| |].
  - apply zip_fields_spec; rewrite ?map_names; [done|]. split_and!; [done..|]. intros n g. rewrite get_field_map.
    destruct (get_field n ts) as [t|] eqn:En; [|done]. intros [= <-]. destruct (Hall' n t En) as (x & tr & ? & ? & ? & _). by exists x, tr.
  - intros a Ha. apply elem_of_reach_fields in Ha as (n & g & x & Hg & Hx & Ha); [|by rewrite ?map_names..].
    rewrite get_field_map in Hg. destruct (get_field n ts) as [t|] eqn:En; [|done]. simplify_eq/=.
    destruct (Hall' n t En) as (x' & tr & Hx' & _ & _ & Hf). simplify_eq. by apply Hf.
Qed.

(** The copy of a cell with the values [xs]. *)
Lemma cell_sound run t h xs trs (mk : list gval → cell) :
  deep_copies run t → traverse (contents t h) xs = Some trs → let l := fresh (dom h) in
  ∃ ys h1, copy_all run xs (<[l := mk xs]> h) = Some (ys, h1) ∧ h ⊆ <[l := mk ys]> h1 ∧
    traverse (contents t (<[l := mk ys]> h1)) ys = Some trs ∧
    (∀ a, a ∈ l :: (ys ≫= reach t (<[l := mk ys]> h1)) → a ∉ dom h) ∧ length ys = length xs.
Proof.
  intros Hrun Hxs l. assert (Hl : l ∉ dom h) by apply is_fresh.
  assert (Hxs0 : traverse (contents t (<[l := mk xs]> h)) xs = Some trs).
  { apply traverse_Forall2. apply traverse_Forall2 in Hxs. eapply Forall2_impl; [exact Hxs|]. intros x tr Hx.
    apply (contents_mono t h); [by apply insert_subseteq, not_elem_of_dom|done]. }
  destruct (copy_all_sound run t xs _ trs Hrun Hxs0) as (ys & h1 & E & Hh1 & Hys & Hf). exists ys, h1.
  destruct (allocated h h1 l (mk xs) (mk ys) Hl Hh1) as [Hh2 Hsame].
  destruct (local_elements t h1 (<[l := mk ys]> h1) ys trs) as [Hys2 Hr2]; [apply contents_local|done|by auto|].
  rewrite Hr2. split_and!; [done..| |].
  - intros a [->|Ha]%elem_of_cons; [done|]. specialize (Hf a Ha). rewrite dom_insert in Hf. set_solver.
  - apply traverse_Forall2, Forall2_length in Hys. apply traverse_Forall2, Forall2_length in Hxs. congruence.
Qed.

(** The Kubernetes packages: their types, and that their own copies are deep. *)
Class Library := {
  lib_type : string → gotype;
  lib_copy : string → copyfun;
  lib_copies n : deep_copies (lib_copy n) (lib_type n)
}.

Section Soundness.
Context {L : Library}.

Lemma each_copied l ts :
  Forall (λ p, ∀ t, copies p.2 t = true → deep_copies (copy lib_copy p.2) (resolve lib_type t)) l →
  (fix each (l : list (string * copier)) : bool :=
     match l with
     | [] => true
     | (f, c) :: l' => match get_field f ts with Some t => copies c t | None => false end && each l'
     end) l = true →
  Forall (λ '(f, run), ∃ t, get_field f (map (λ '(n, t), (n, resolve lib_type t)) ts) = Some t ∧ deep_copies run t)
    (map (λ '(f, c), (f, copy lib_copy c)) l).
Proof.
  induction 1 as [|[f c] l Hc _ IH]; [constructor|]. rewrite andb_true_iff. intros [H1 H2]. simpl in *. constructor; [|by apply IH].
  rewrite get_field_map. destruct (get_field f ts) as [t|]; [|done]. exists (resolve lib_type t). split; [done|by apply Hc].
Qed.

Lemma fields_sound l t :
  Forall (λ p, ∀ t, copies p.2 t = true → deep_copies (copy lib_copy p.2) (resolve lib_type t)) l →
  copies (Fields l) t = true → deep_copies (copy lib_copy (Fields l)) (resolve lib_type t).
Proof.
  intros IH Hc h v tr. destruct t as [| | | |ts|]; try done. simpl in Hc. rewrite !andb_true_iff in Hc. destruct Hc as [[[Hd _] He] Hflat].
  apply bool_decide_eq_true in Hd. simpl. destruct v as [| | |fs]; try done.
  destruct (zip_fields _ fs) as [r|] eqn:Er; [|done]. intros [= <-].
  destruct (copy_fields_sound (map (λ '(n, t), (n, resolve lib_type t)) ts) h fs r (map (λ '(f, c), (f, copy lib_copy c)) l))
    as (fs' & h' & E & Hh & Hz & Hf); [|done|by apply each_copied| |].
  - by rewrite map_names.
  - intros n t. rewrite get_field_map. destruct (get_field n ts) as [t0|] eqn:En; [|done]. intros [= <-].
    rewrite map_names. apply get_field_in, list_elem_of_In in En. rewrite forallb_forall in Hflat. specialize (Hflat _ En).
    simpl in Hflat. apply orb_true_iff in Hflat as [Hn|Hn]; [left; by apply bool_decide_eq_true in Hn|right]. by rewrite flat_resolve.
  - exists (VStruct fs'), h'. by rewrite Hz.
Qed.

(** A function that the check accepts for a type makes deep copies of its values. *)
Lemma copy_sound c t : copies c t = true → deep_copies (copy lib_copy c) (resolve lib_type t).
Proof.
  revert t. induction c as [|c IH|c IH|c IH|l IH|n] using copier_induction; intros t Hc.
  - intros h v tr Hv. assert (Hf : flat t = true) by (by destruct t). rewrite flat_resolve in * by done. exists v, h.
    split_and!; [done..|]. destruct (flat_contents t h h v Hf) as [_ ->]. intros a. by rewrite elem_of_nil.
  - destruct t as [|t| | | |]; try done. intros h v tr. simpl. destruct v as [| |a|]; try done.
    { intros [= <-]. exists VNil, h. split_and!; [done..|]. intros a. by rewrite elem_of_nil. }
    destruct (h !! a) as [[x| |]|] eqn:Ea; try done. destruct (contents _ h x) as [tx|] eqn:Ex; [|done]. intros [= <-].
    destruct (cell_sound (copy lib_copy c) (resolve lib_type t) h [x] [tx] (λ l, CPtr (default VNil (head l))))
      as (ys & h1 & E & Hh & Hys & Hf & Hlen); [by apply IH|by cbn; rewrite Ex|].
    destruct ys as [|y [|]]; try done. cbn in E, Hys, Hf, Hh. destruct (copy lib_copy c x _) as [[y' h1']|]; simplify_eq.
    eexists _, _. split_and!; [done..| |]; simpl; rewrite lookup_insert_eq; [by destruct (contents _ _ y); simplify_eq/=|].
    by rewrite app_nil_r in Hf.
  - destruct t as [| |t| | |]; try done. intros h v tr. simpl. destruct v as [| |a|]; try done.
    { intros [= <-]. exists VNil, h. split_and!; [done..|]. intros a. by rewrite elem_of_nil. }
    destruct (h !! a) as [[|xs|]|] eqn:Ea; try done. destruct (traverse _ xs) as [txs|] eqn:Ex; [|done]. intros [= <-].
    destruct (cell_sound (copy lib_copy c) (resolve lib_type t) h xs txs CArr) as (ys & h1 & -> & Hh & Hys & Hf & _); [by apply IH|done|].
    eexists _, _. split_and!; [done..| |]; simpl; rewrite lookup_insert_eq; [by rewrite Hys|done].
  - destruct t as [| | |t| |]; try done. intros h v tr. simpl. destruct v as [| |a|]; try done.
    { intros [= <-]. exists VNil, h. split_and!; [done..|]. intros a. by rewrite elem_of_nil. }
    destruct (h !! a) as [[| |xs]|] eqn:Ea; try done. destruct (traverse _ xs.*2) as [txs|] eqn:Ex; [|done]. intros [= <-].
    assert (Hz : zip xs.*1 xs.*2 = xs) by apply zip_fst_snd.
    destruct (cell_sound (copy lib_copy c) (resolve lib_type t) h xs.*2 txs (λ l, CMap (zip xs.*1 l)))
      as (ys & h1 & E & Hh & Hys & Hf & Hlen); [by apply IH|done|]. rewrite Hz in E. rewrite E. rewrite length_fmap in Hlen.
    eexists _, _. split_and!; [done..| |]; simpl; rewrite lookup_insert_eq, snd_zip by (rewrite length_fmap; lia);
      [rewrite fst_zip by (rewrite length_fmap; lia); by rewrite Hys|done].
  - by apply fields_sound.
  - destruct t as [| | | | |m]; try done. simpl in Hc. apply bool_decide_eq_true in Hc as ->. apply lib_copies.
Qed.
End Soundness.
