(* ===== verification/DeepCopyTypes.v ===== *)
(** * The deep copies of the API types

    The structs of pkg/apis/virt/v1alpha1/types.go and pkg/apis/subresources/v1alpha1/types.go by
    their references, and the functions of the two zz_generated.deepcopy.go by their statements.
    Times, whose only reference is to an immutable location, are structs of a package like any
    other: their copy promises what the others' do. *)

From stdpp Require Import base gmap strings list sets fin_maps.
From S2P Require Import Prelude DeepCopy.

(** [metav1.TypeMeta]. *)
Definition TypeMeta_type : gotype := TStruct [("Kind", TBase); ("APIVersion", TBase)].

(** ** Types and their [DeepCopyInto] *)

Definition CPU_type : gotype := TStruct [
    ("Sockets", TBase); ("CoresPerSocket", TBase); ("DedicatedCPUPlacement", TBase)].
Definition CPU_DeepCopyInto : copier := Fields [].

Definition Hugepages_type : gotype := TStruct [("PageSize", TBase)].
Definition Hugepages_DeepCopyInto : copier := Fields [].

Definition Memory_type : gotype := TStruct [
    ("Size", TLib "resource.Quantity"); ("Hugepages", TPtr Hugepages_type)].
Definition Memory_DeepCopyInto : copier := Fields [
    ("Size", Lib "resource.Quantity"); ("Hugepages", Ptr Flat)].

Definition Kernel_type : gotype := TStruct [("Image", TBase); ("ImagePullPolicy", TBase); ("Cmdline", TBase)].
Definition Kernel_DeepCopyInto : copier := Fields [].

Definition Console_type : gotype := TStruct [
    ("Mode", TBase); ("File", TBase); ("Socket", TBase); ("IOMMU", TBase)].
Definition Console_DeepCopyInto : copier := Fields [].

Definition Disk_type : gotype := TStruct [("Name", TBase); ("ReadOnly", TPtr TBase)].
Definition Disk_DeepCopyInto : copier := Fields [("ReadOnly", Ptr Flat)].

Definition FileSystem_type : gotype := TStruct [("Name", TBase)].
Definition FileSystem_DeepCopyInto : copier := Fields [].

Definition InterfaceBridge_type : gotype := TStruct [].
Definition InterfaceBridge_DeepCopyInto : copier := Fields [].

Definition InterfaceMasquerade_type : gotype := TStruct [("CIDR", TBase)].
Definition InterfaceMasquerade_DeepCopyInto : copier := Fields [].

Definition InterfaceSRIOV_type : gotype := TStruct [].
Definition InterfaceSRIOV_DeepCopyInto : copier := Fields [].

Definition InterfaceVDPA_type : gotype := TStruct [("NumQueues", TBase); ("IOMMU", TBase)].
Definition InterfaceVDPA_DeepCopyInto : copier := Fields [].

Definition InterfaceVhostUser_type : gotype := TStruct [].
Definition InterfaceVhostUser_DeepCopyInto : copier := Fields [].

Definition InterfaceBindingMethod_type : gotype := TStruct [
    ("Bridge", TPtr InterfaceBridge_type); ("Masquerade", TPtr InterfaceMasquerade_type);
    ("SRIOV", TPtr InterfaceSRIOV_type); ("VDPA", TPtr InterfaceVDPA_type);
    ("VhostUser", TPtr InterfaceVhostUser_type)].
Definition InterfaceBindingMethod_DeepCopyInto : copier := Fields [
    ("Bridge", Ptr Flat); ("Masquerade", Ptr Flat); ("SRIOV", Ptr Flat); ("VDPA", Ptr Flat); ("VhostUser", Ptr Flat)].

Definition Interface_type : gotype := TStruct [
    ("Name", TBase); ("MAC", TBase); ("InterfaceBindingMethod", InterfaceBindingMethod_type)].
Definition Interface_DeepCopyInto : copier := Fields [
    ("InterfaceBindingMethod", InterfaceBindingMethod_DeepCopyInto)].

Definition Instance_type : gotype := TStruct [
    ("CPU", CPU_type); ("Memory", Memory_type); ("Kernel", TPtr Kernel_type); ("Console", TPtr Console_type);
    ("Serial", TPtr Console_type); ("Disks", TSlice Disk_type); ("FileSystems", TSlice FileSystem_type);
    ("Interfaces", TSlice Interface_type)].
Definition Instance_DeepCopyInto : copier := Fields [
    ("CPU", Flat); ("Memory", Memory_DeepCopyInto); ("Kernel", Ptr Flat); ("Console", Ptr Flat);
    ("Serial", Ptr Flat); ("Disks", Slice Disk_DeepCopyInto); ("FileSystems", Slice Flat);
    ("Interfaces", Slice Interface_DeepCopyInto)].

Definition ContainerDiskVolumeSource_type : gotype := TStruct [("Image", TBase); ("ImagePullPolicy", TBase)].
Definition ContainerDiskVolumeSource_DeepCopyInto : copier := Fields [].

Definition CloudInitVolumeSource_type : gotype := TStruct [
    ("UserData", TBase); ("UserDataBase64", TBase); ("UserDataSecretName", TBase); ("NetworkData", TBase);
    ("NetworkDataBase64", TBase); ("NetworkDataSecretName", TBase)].
Definition CloudInitVolumeSource_DeepCopyInto : copier := Fields [].

Definition ContainerRootfsVolumeSource_type : gotype := TStruct [
    ("Image", TBase); ("ImagePullPolicy", TBase); ("Size", TLib "resource.Quantity")].
Definition ContainerRootfsVolumeSource_DeepCopyInto : copier := Fields [("Size", Lib "resource.Quantity")].

Definition PersistentVolumeClaimVolumeSource_type : gotype := TStruct [
    ("Hotpluggable", TBase); ("ClaimName", TBase)].
Definition PersistentVolumeClaimVolumeSource_DeepCopyInto : copier := Fields [].

Definition DataVolumeVolumeSource_type : gotype := TStruct [("Hotpluggable", TBase); ("VolumeName", TBase)].
Definition DataVolumeVolumeSource_DeepCopyInto : copier := Fields [].

Definition VolumeSource_type : gotype := TStruct [
    ("ContainerDisk", TPtr ContainerDiskVolumeSource_type); ("CloudInit", TPtr CloudInitVolumeSource_type);
    ("ContainerRootfs", TPtr ContainerRootfsVolumeSource_type);
    ("PersistentVolumeClaim", TPtr PersistentVolumeClaimVolumeSource_type);
    ("DataVolume", TPtr DataVolumeVolumeSource_type)].
Definition VolumeSource_DeepCopyInto : copier := Fields [
    ("ContainerDisk", Ptr Flat); ("CloudInit", Ptr Flat);
    ("ContainerRootfs", Ptr ContainerRootfsVolumeSource_DeepCopyInto); ("PersistentVolumeClaim", Ptr Flat);
    ("DataVolume", Ptr Flat)].

Definition Volume_type : gotype := TStruct [("Name", TBase); ("VolumeSource", VolumeSource_type)].
Definition Volume_DeepCopyInto : copier := Fields [("VolumeSource", VolumeSource_DeepCopyInto)].

Definition PodNetworkSource_type : gotype := TStruct [].
Definition PodNetworkSource_DeepCopyInto : copier := Fields [].

Definition MultusNetworkSource_type : gotype := TStruct [("NetworkName", TBase)].
Definition MultusNetworkSource_DeepCopyInto : copier := Fields [].

Definition NetworkSource_type : gotype := TStruct [
    ("Pod", TPtr PodNetworkSource_type); ("Multus", TPtr MultusNetworkSource_type)].
Definition NetworkSource_DeepCopyInto : copier := Fields [("Pod", Ptr Flat); ("Multus", Ptr Flat)].

Definition Network_type : gotype := TStruct [("Name", TBase); ("NetworkSource", NetworkSource_type)].
Definition Network_DeepCopyInto : copier := Fields [("NetworkSource", NetworkSource_DeepCopyInto)].

Definition VirtualMachineSpec_type : gotype := TStruct [
    ("NodeSelector", TMap TBase); ("Affinity", TPtr (TLib "corev1.Affinity"));
    ("Tolerations", TSlice (TLib "corev1.Toleration")); ("Resources", TLib "corev1.ResourceRequirements");
    ("LivenessProbe", TPtr (TLib "corev1.Probe")); ("ReadinessProbe", TPtr (TLib "corev1.Probe"));
    ("RunPolicy", TBase); ("Instance", Instance_type); ("Volumes", TSlice Volume_type);
    ("Networks", TSlice Network_type); ("Sidecars", TSlice (TLib "corev1.Container"));
    ("SidecarVolumes", TSlice (TLib "corev1.Volume"))].
Definition VirtualMachineSpec_DeepCopyInto : copier := Fields [
    ("NodeSelector", Map Flat); ("Affinity", Ptr (Lib "corev1.Affinity"));
    ("Tolerations", Slice (Lib "corev1.Toleration")); ("Resources", Lib "corev1.ResourceRequirements");
    ("LivenessProbe", Ptr (Lib "corev1.Probe")); ("ReadinessProbe", Ptr (Lib "corev1.Probe"));
    ("Instance", Instance_DeepCopyInto); ("Volumes", Slice Volume_DeepCopyInto);
    ("Networks", Slice Network_DeepCopyInto)].

Definition VirtualMachineStatusMigration_type : gotype := TStruct [
    ("UID", TBase); ("Phase", TBase); ("TargetNodeName", TBase); ("TargetNodeIP", TBase); ("TargetNodePort", TBase);
    ("TargetVMPodName", TBase); ("TargetVMPodUID", TBase); ("TargetVolumePodUID", TBase)].
Definition VirtualMachineStatusMigration_DeepCopyInto : copier := Fields [].

Definition HotplugVolumeStatus_type : gotype := TStruct [("VolumePodName", TBase); ("VolumePodUID", TBase)].
Definition HotplugVolumeStatus_DeepCopyInto : copier := Fields [].

Definition VolumeStatus_type : gotype := TStruct [
    ("Name", TBase); ("Phase", TBase); ("HotplugVolume", TPtr HotplugVolumeStatus_type)].
Definition VolumeStatus_DeepCopyInto : copier := Fields [("HotplugVolume", Ptr Flat)].

Definition VirtualMachineStatus_type : gotype := TStruct [
    ("Phase", TBase); ("VMPodName", TBase); ("VMPodUID", TBase); ("NodeName", TBase); ("PowerAction", TBase);
    ("Migration", TPtr VirtualMachineStatusMigration_type); ("Conditions", TSlice (TLib "metav1.Condition"));
    ("VolumeStatus", TSlice VolumeStatus_type)].
Definition VirtualMachineStatus_DeepCopyInto : copier := Fields [
    ("Migration", Ptr Flat); ("Conditions", Slice (Lib "metav1.Condition"));
    ("VolumeStatus", Slice VolumeStatus_DeepCopyInto)].

Definition VirtualMachine_type : gotype := TStruct [
    ("TypeMeta", TypeMeta_type); ("ObjectMeta", TLib "metav1.ObjectMeta"); ("Spec", VirtualMachineSpec_type);
    ("Status", VirtualMachineStatus_type)].
Definition VirtualMachine_DeepCopyInto : copier := Fields [
    ("TypeMeta", Flat); ("ObjectMeta", Lib "metav1.ObjectMeta"); ("Spec", VirtualMachineSpec_DeepCopyInto);
    ("Status", VirtualMachineStatus_DeepCopyInto)].

Definition VirtualMachineList_type : gotype := TStruct [
    ("TypeMeta", TypeMeta_type); ("ListMeta", TLib "metav1.ListMeta"); ("Items", TSlice VirtualMachine_type)].
Definition VirtualMachineList_DeepCopyInto : copier := Fields [
    ("TypeMeta", Flat); ("ListMeta", Lib "metav1.ListMeta"); ("Items", Slice VirtualMachine_DeepCopyInto)].

Definition VirtualMachineMigrationSpec_type : gotype := TStruct [("VMName", TBase)].
Definition VirtualMachineMigrationSpec_DeepCopyInto : copier := Fields [].

Definition VirtualMachineMigrationStatus_type : gotype := TStruct [
    ("Phase", TBase); ("SourceNodeName", TBase); ("TargetNodeName", TBase)].
Definition VirtualMachineMigrationStatus_DeepCopyInto : copier := Fields [].

Definition VirtualMachineMigration_type : gotype := TStruct [
    ("TypeMeta", TypeMeta_type); ("ObjectMeta", TLib "metav1.ObjectMeta");
    ("Spec", VirtualMachineMigrationSpec_type); ("Status", VirtualMachineMigrationStatus_type)].
Definition VirtualMachineMigration_DeepCopyInto : copier := Fields [
    ("TypeMeta", Flat); ("ObjectMeta", Lib "metav1.ObjectMeta"); ("Spec", Flat); ("Status", Flat)].

Definition VirtualMachineMigrationList_type : gotype := TStruct [
    ("TypeMeta", TypeMeta_type); ("ListMeta", TLib "metav1.ListMeta");
    ("Items", TSlice VirtualMachineMigration_type)].
Definition VirtualMachineMigrationList_DeepCopyInto : copier := Fields [
    ("TypeMeta", Flat); ("ListMeta", Lib "metav1.ListMeta"); ("Items", Slice VirtualMachineMigration_DeepCopyInto)].

Definition VirtualMachineTemplateSpec_type : gotype := TStruct [
    ("ObjectMeta", TLib "metav1.ObjectMeta"); ("Spec", VirtualMachineSpec_type)].
Definition VirtualMachineTemplateSpec_DeepCopyInto : copier := Fields [
    ("ObjectMeta", Lib "metav1.ObjectMeta"); ("Spec", VirtualMachineSpec_DeepCopyInto)].

Definition VirtualMachineReplicaSetSpec_type : gotype := TStruct [
    ("Replicas", TPtr TBase); ("Paused", TBase); ("Selector", TPtr (TLib "metav1.LabelSelector"));
    ("Template", TPtr VirtualMachineTemplateSpec_type)].
Definition VirtualMachineReplicaSetSpec_DeepCopyInto : copier := Fields [
    ("Replicas", Ptr Flat); ("Selector", Ptr (Lib "metav1.LabelSelector"));
    ("Template", Ptr VirtualMachineTemplateSpec_DeepCopyInto)].

Definition VirtualMachineReplicaSetCondition_type : gotype := TStruct [
    ("Type", TBase); ("Status", TBase); ("LastProbeTime", TLib "metav1.Time");
    ("LastTransitionTime", TLib "metav1.Time"); ("Reason", TBase); ("Message", TBase)].
Definition VirtualMachineReplicaSetCondition_DeepCopyInto : copier := Fields [
    ("LastProbeTime", Lib "metav1.Time"); ("LastTransitionTime", Lib "metav1.Time")].

Definition VirtualMachineReplicaSetStatus_type : gotype := TStruct [
    ("Replicas", TBase); ("ReadyReplicas", TBase); ("AvailableReplicas", TBase); ("ObservedGeneration", TBase);
    ("Conditions", TSlice VirtualMachineReplicaSetCondition_type)].
Definition VirtualMachineReplicaSetStatus_DeepCopyInto : copier := Fields [
    ("Conditions", Slice VirtualMachineReplicaSetCondition_DeepCopyInto)].

Definition VirtualMachineReplicaSet_type : gotype := TStruct [
    ("TypeMeta", TypeMeta_type); ("ObjectMeta", TLib "metav1.ObjectMeta");
    ("Spec", VirtualMachineReplicaSetSpec_type); ("Status", VirtualMachineReplicaSetStatus_type)].
Definition VirtualMachineReplicaSet_DeepCopyInto : copier := Fields [
    ("TypeMeta", Flat); ("ObjectMeta", Lib "metav1.ObjectMeta");
    ("Spec", VirtualMachineReplicaSetSpec_DeepCopyInto); ("Status", VirtualMachineReplicaSetStatus_DeepCopyInto)].

Definition VirtualMachineReplicaSetList_type : gotype := TStruct [
    ("TypeMeta", TypeMeta_type); ("ListMeta", TLib "metav1.ListMeta");
    ("Items", TSlice VirtualMachineReplicaSet_type)].
Definition VirtualMachineReplicaSetList_DeepCopyInto : copier := Fields [
    ("TypeMeta", Flat); ("ListMeta", Lib "metav1.ListMeta"); ("Items", Slice VirtualMachineReplicaSet_DeepCopyInto)].

Definition VirtualMachineConsoleOptions_type : gotype := TStruct [
    ("TypeMeta", TypeMeta_type); ("Type", TBase)].
Definition VirtualMachineConsoleOptions_DeepCopyInto : copier := Fields [("TypeMeta", Flat)].

Definition TerminalSize_type : gotype := TStruct [("Width", TBase); ("Height", TBase)].
Definition TerminalSize_DeepCopyInto : copier := Fields [].

(** ** [DeepCopy] and [DeepCopyObject] *)

(** [if c := in.DeepCopy(); c != nil { return c }; return nil]: a nil pointer becomes a nil
    interface. *)
Definition DeepCopyObject (run : copyfun) : copyfun := λ v h,
  match run v h with
  | Some (VNil, h') => Some (VNil, h')
  | Some (c, h') => Some (c, h')
  | None => None
  end.

Section Functions.
Context {L : Library}.
Definition CPU_DeepCopy : copyfun := DeepCopy lib_copy CPU_DeepCopyInto.
Definition Hugepages_DeepCopy : copyfun := DeepCopy lib_copy Hugepages_DeepCopyInto.
Definition Memory_DeepCopy : copyfun := DeepCopy lib_copy Memory_DeepCopyInto.
Definition Kernel_DeepCopy : copyfun := DeepCopy lib_copy Kernel_DeepCopyInto.
Definition Console_DeepCopy : copyfun := DeepCopy lib_copy Console_DeepCopyInto.
Definition Disk_DeepCopy : copyfun := DeepCopy lib_copy Disk_DeepCopyInto.
Definition FileSystem_DeepCopy : copyfun := DeepCopy lib_copy FileSystem_DeepCopyInto.
Definition InterfaceBridge_DeepCopy : copyfun := DeepCopy lib_copy InterfaceBridge_DeepCopyInto.
Definition InterfaceMasquerade_DeepCopy : copyfun := DeepCopy lib_copy InterfaceMasquerade_DeepCopyInto.
Definition InterfaceSRIOV_DeepCopy : copyfun := DeepCopy lib_copy InterfaceSRIOV_DeepCopyInto.
Definition InterfaceVDPA_DeepCopy : copyfun := DeepCopy lib_copy InterfaceVDPA_DeepCopyInto.
Definition InterfaceVhostUser_DeepCopy : copyfun := DeepCopy lib_copy InterfaceVhostUser_DeepCopyInto.
Definition InterfaceBindingMethod_DeepCopy : copyfun := DeepCopy lib_copy InterfaceBindingMethod_DeepCopyInto.
Definition Interface_DeepCopy : copyfun := DeepCopy lib_copy Interface_DeepCopyInto.
Definition Instance_DeepCopy : copyfun := DeepCopy lib_copy Instance_DeepCopyInto.
Definition ContainerDiskVolumeSource_DeepCopy : copyfun := DeepCopy lib_copy ContainerDiskVolumeSource_DeepCopyInto.
Definition CloudInitVolumeSource_DeepCopy : copyfun := DeepCopy lib_copy CloudInitVolumeSource_DeepCopyInto.
Definition ContainerRootfsVolumeSource_DeepCopy : copyfun := DeepCopy lib_copy ContainerRootfsVolumeSource_DeepCopyInto.
Definition PersistentVolumeClaimVolumeSource_DeepCopy : copyfun := DeepCopy lib_copy PersistentVolumeClaimVolumeSource_DeepCopyInto.
Definition DataVolumeVolumeSource_DeepCopy : copyfun := DeepCopy lib_copy DataVolumeVolumeSource_DeepCopyInto.
Definition VolumeSource_DeepCopy : copyfun := DeepCopy lib_copy VolumeSource_DeepCopyInto.
Definition Volume_DeepCopy : copyfun := DeepCopy lib_copy Volume_DeepCopyInto.
Definition PodNetworkSource_DeepCopy : copyfun := DeepCopy lib_copy PodNetworkSource_DeepCopyInto.
Definition MultusNetworkSource_DeepCopy : copyfun := DeepCopy lib_copy MultusNetworkSource_DeepCopyInto.
Definition NetworkSource_DeepCopy : copyfun := DeepCopy lib_copy NetworkSource_DeepCopyInto.
Definition Network_DeepCopy : copyfun := DeepCopy lib_copy Network_DeepCopyInto.
Definition VirtualMachineSpec_DeepCopy : copyfun := DeepCopy lib_copy VirtualMachineSpec_DeepCopyInto.
Definition VirtualMachineStatusMigration_DeepCopy : copyfun := DeepCopy lib_copy VirtualMachineStatusMigration_DeepCopyInto.
Definition HotplugVolumeStatus_DeepCopy : copyfun := DeepCopy lib_copy HotplugVolumeStatus_DeepCopyInto.
Definition VolumeStatus_DeepCopy : copyfun := DeepCopy lib_copy VolumeStatus_DeepCopyInto.
Definition VirtualMachineStatus_DeepCopy : copyfun := DeepCopy lib_copy VirtualMachineStatus_DeepCopyInto.
Definition VirtualMachine_DeepCopy : copyfun := DeepCopy lib_copy VirtualMachine_DeepCopyInto.
Definition VirtualMachineList_DeepCopy : copyfun := DeepCopy lib_copy VirtualMachineList_DeepCopyInto.
Definition VirtualMachineMigrationSpec_DeepCopy : copyfun := DeepCopy lib_copy VirtualMachineMigrationSpec_DeepCopyInto.
Definition VirtualMachineMigrationStatus_DeepCopy : copyfun := DeepCopy lib_copy VirtualMachineMigrationStatus_DeepCopyInto.
Definition VirtualMachineMigration_DeepCopy : copyfun := DeepCopy lib_copy VirtualMachineMigration_DeepCopyInto.
Definition VirtualMachineMigrationList_DeepCopy : copyfun := DeepCopy lib_copy VirtualMachineMigrationList_DeepCopyInto.
Definition VirtualMachineTemplateSpec_DeepCopy : copyfun := DeepCopy lib_copy VirtualMachineTemplateSpec_DeepCopyInto.
Definition VirtualMachineReplicaSetSpec_DeepCopy : copyfun := DeepCopy lib_copy VirtualMachineReplicaSetSpec_DeepCopyInto.
Definition VirtualMachineReplicaSetCondition_DeepCopy : copyfun := DeepCopy lib_copy VirtualMachineReplicaSetCondition_DeepCopyInto.
Definition VirtualMachineReplicaSetStatus_DeepCopy : copyfun := DeepCopy lib_copy VirtualMachineReplicaSetStatus_DeepCopyInto.
Definition VirtualMachineReplicaSet_DeepCopy : copyfun := DeepCopy lib_copy VirtualMachineReplicaSet_DeepCopyInto.
Definition VirtualMachineReplicaSetList_DeepCopy : copyfun := DeepCopy lib_copy VirtualMachineReplicaSetList_DeepCopyInto.
Definition VirtualMachineConsoleOptions_DeepCopy : copyfun := DeepCopy lib_copy VirtualMachineConsoleOptions_DeepCopyInto.
Definition TerminalSize_DeepCopy : copyfun := DeepCopy lib_copy TerminalSize_DeepCopyInto.
Definition VirtualMachine_DeepCopyObject : copyfun := DeepCopyObject VirtualMachine_DeepCopy.
Definition VirtualMachineList_DeepCopyObject : copyfun := DeepCopyObject VirtualMachineList_DeepCopy.
Definition VirtualMachineMigration_DeepCopyObject : copyfun := DeepCopyObject VirtualMachineMigration_DeepCopy.
Definition VirtualMachineMigrationList_DeepCopyObject : copyfun := DeepCopyObject VirtualMachineMigrationList_DeepCopy.
Definition VirtualMachineReplicaSet_DeepCopyObject : copyfun := DeepCopyObject VirtualMachineReplicaSet_DeepCopy.
Definition VirtualMachineReplicaSetList_DeepCopyObject : copyfun := DeepCopyObject VirtualMachineReplicaSetList_DeepCopy.
Definition VirtualMachineConsoleOptions_DeepCopyObject : copyfun := DeepCopyObject VirtualMachineConsoleOptions_DeepCopy.
End Functions.

(** All of them. *)
Definition api_copies : list (string * copier * gotype) := [
    ("CPU", CPU_DeepCopyInto, CPU_type); ("Hugepages", Hugepages_DeepCopyInto, Hugepages_type);
    ("Memory", Memory_DeepCopyInto, Memory_type); ("Kernel", Kernel_DeepCopyInto, Kernel_type);
    ("Console", Console_DeepCopyInto, Console_type); ("Disk", Disk_DeepCopyInto, Disk_type);
    ("FileSystem", FileSystem_DeepCopyInto, FileSystem_type);
    ("InterfaceBridge", InterfaceBridge_DeepCopyInto, InterfaceBridge_type);
    ("InterfaceMasquerade", InterfaceMasquerade_DeepCopyInto, InterfaceMasquerade_type);
    ("InterfaceSRIOV", InterfaceSRIOV_DeepCopyInto, InterfaceSRIOV_type);
    ("InterfaceVDPA", InterfaceVDPA_DeepCopyInto, InterfaceVDPA_type);
    ("InterfaceVhostUser", InterfaceVhostUser_DeepCopyInto, InterfaceVhostUser_type);
    ("InterfaceBindingMethod", InterfaceBindingMethod_DeepCopyInto, InterfaceBindingMethod_type);
    ("Interface", Interface_DeepCopyInto, Interface_type); ("Instance", Instance_DeepCopyInto, Instance_type);
    ("ContainerDiskVolumeSource", ContainerDiskVolumeSource_DeepCopyInto, ContainerDiskVolumeSource_type);
    ("CloudInitVolumeSource", CloudInitVolumeSource_DeepCopyInto, CloudInitVolumeSource_type);
    ("ContainerRootfsVolumeSource", ContainerRootfsVolumeSource_DeepCopyInto, ContainerRootfsVolumeSource_type);
    ("PersistentVolumeClaimVolumeSource", PersistentVolumeClaimVolumeSource_DeepCopyInto, PersistentVolumeClaimVolumeSource_type);
    ("DataVolumeVolumeSource", DataVolumeVolumeSource_DeepCopyInto, DataVolumeVolumeSource_type);
    ("VolumeSource", VolumeSource_DeepCopyInto, VolumeSource_type); ("Volume", Volume_DeepCopyInto, Volume_type);
    ("PodNetworkSource", PodNetworkSource_DeepCopyInto, PodNetworkSource_type);
    ("MultusNetworkSource", MultusNetworkSource_DeepCopyInto, MultusNetworkSource_type);
    ("NetworkSource", NetworkSource_DeepCopyInto, NetworkSource_type);
    ("Network", Network_DeepCopyInto, Network_type);
    ("VirtualMachineSpec", VirtualMachineSpec_DeepCopyInto, VirtualMachineSpec_type);
    ("VirtualMachineStatusMigration", VirtualMachineStatusMigration_DeepCopyInto, VirtualMachineStatusMigration_type);
    ("HotplugVolumeStatus", HotplugVolumeStatus_DeepCopyInto, HotplugVolumeStatus_type);
    ("VolumeStatus", VolumeStatus_DeepCopyInto, VolumeStatus_type);
    ("VirtualMachineStatus", VirtualMachineStatus_DeepCopyInto, VirtualMachineStatus_type);
    ("VirtualMachine", VirtualMachine_DeepCopyInto, VirtualMachine_type);
    ("VirtualMachineList", VirtualMachineList_DeepCopyInto, VirtualMachineList_type);
    ("VirtualMachineMigrationSpec", VirtualMachineMigrationSpec_DeepCopyInto, VirtualMachineMigrationSpec_type);
    ("VirtualMachineMigrationStatus", VirtualMachineMigrationStatus_DeepCopyInto, VirtualMachineMigrationStatus_type);
    ("VirtualMachineMigration", VirtualMachineMigration_DeepCopyInto, VirtualMachineMigration_type);
    ("VirtualMachineMigrationList", VirtualMachineMigrationList_DeepCopyInto, VirtualMachineMigrationList_type);
    ("VirtualMachineTemplateSpec", VirtualMachineTemplateSpec_DeepCopyInto, VirtualMachineTemplateSpec_type);
    ("VirtualMachineReplicaSetSpec", VirtualMachineReplicaSetSpec_DeepCopyInto, VirtualMachineReplicaSetSpec_type);
    ("VirtualMachineReplicaSetCondition", VirtualMachineReplicaSetCondition_DeepCopyInto, VirtualMachineReplicaSetCondition_type);
    ("VirtualMachineReplicaSetStatus", VirtualMachineReplicaSetStatus_DeepCopyInto, VirtualMachineReplicaSetStatus_type);
    ("VirtualMachineReplicaSet", VirtualMachineReplicaSet_DeepCopyInto, VirtualMachineReplicaSet_type);
    ("VirtualMachineReplicaSetList", VirtualMachineReplicaSetList_DeepCopyInto, VirtualMachineReplicaSetList_type);
    ("VirtualMachineConsoleOptions", VirtualMachineConsoleOptions_DeepCopyInto, VirtualMachineConsoleOptions_type);
    ("TerminalSize", TerminalSize_DeepCopyInto, TerminalSize_type)].

(** The types that contain the spec of a VM. *)
Definition with_vm_spec : list string :=
  ["VirtualMachineSpec"; "VirtualMachine"; "VirtualMachineList"; "VirtualMachineTemplateSpec";
   "VirtualMachineReplicaSetSpec"; "VirtualMachineReplicaSet"; "VirtualMachineReplicaSetList"].

(** The check accepts all the others, and none of these. *)
Lemma api_copies_checked :
  forallb (λ '(n, c, t), Bool.eqb (copies c t) (negb (bool_decide (n ∈ with_vm_spec)))) api_copies = true.
Proof. by vm_compute. Qed.

(** The fields of a VM's spec, and the statements about them. *)
Definition spec_fields : list (string * gotype) := match VirtualMachineSpec_type with TStruct l => l | _ => [] end.
Definition spec_copiers : list (string * copier) := match VirtualMachineSpec_DeepCopyInto with Fields l => l | _ => [] end.

(** ** Independence of copies *)

(** A copy and its original have the same contents, and whatever is written to the cells of
    one, the contents of the other stay. *)
Definition independent (run : copyfun) (t : gotype) : Prop :=
  ∀ h v tr, contents t h v = Some tr → ∃ v' h', run v h = Some (v', h') ∧
    contents t h' v = Some tr ∧ contents t h' v' = Some tr ∧
    (∀ h'', (∀ l, l ∉ reach t h' v' → h'' !! l = h' !! l) → contents t h'' v = Some tr) ∧
    (∀ h'', (∀ l, l ∉ reach t h' v → h'' !! l = h' !! l) → contents t h'' v' = Some tr).

Lemma deep_copies_independent run t : deep_copies run t → independent run t.
Proof.
  intros Hrun h v tr Hv. destruct (Hrun h v tr Hv) as (v' & h' & E & Hh & Hv' & Hf). exists v', h'.
  destruct (contents_mono t h h' v tr Hh Hv) as [Hv1 Hr]. split_and!; [done..| |]; intros h'' Hw.
  - apply (contents_local t h'); [done|]. intros l Hl. symmetry. apply Hw. intros Hl'. apply (Hf l Hl'). rewrite Hr in Hl.
    by eapply reach_dom.
  - apply (contents_local t h'); [done|]. intros l Hl. symmetry. apply Hw. rewrite Hr. intros Hl'. apply (Hf l Hl).
    by eapply reach_dom.
Qed.

Section Theorems.
Context {L : Library}.

(** C20: [DeepCopy] of every API type that does not contain the spec of a VM, on every value of
    the type in memory, nil included, ends without a panic and returns a copy that is
    independent of the original, provided that the copies of the Kubernetes packages are. *)
Theorem api_copies_independent n c t :
  (n, c, t) ∈ api_copies → n ∉ with_vm_spec → independent (DeepCopy lib_copy c) (TPtr (resolve lib_type t)).
Proof.
  intros Hin Hn. pose proof api_copies_checked as Hall. rewrite forallb_forall in Hall.
  specialize (Hall _ (proj1 (list_elem_of_In _ _) Hin)). cbv beta iota in Hall. rewrite bool_decide_eq_false_2 in Hall by done.
  apply deep_copies_independent. apply (copy_sound (Ptr c) (TPtr t)). simpl. by apply eqb_prop in Hall.
Qed.

(** ** Fields that are only assigned *)

(** The fields [names] are left to [*out = *in]: their references are values. *)
Definition assign (names : list string) (ts : list (string * gotype)) : list (string * gotype) :=
  map (λ '(n, t), (n, if decide (n ∈ names) then TBase else t)) ts.

Lemma get_assign names n ts :
  get_field n (assign names ts) = (λ t, if decide (n ∈ names) then TBase else t) <$> get_field n ts.
Proof. unfold assign. induction ts as [|[m t] ts IH]; [done|]. simpl. destruct (decide (n = m)) as [->|]; [done|exact IH]. Qed.

Lemma assign_names names ts : (assign names ts).*1 = ts.*1.
Proof. unfold assign. induction ts as [|[n t] ts IH]; [done|]. simpl. f_equal. exact IH. Qed.

(** The contents of a struct by those of its fields. *)
Lemma struct_contents ts h fs tr :
  NoDup ts.*1 →
  contents (resolve lib_type (TStruct ts)) h (VStruct fs) = Some tr ↔ ∃ r, tr = Rec r ∧ fs.*1 = ts.*1 ∧ r.*1 = ts.*1 ∧
    ∀ n t, get_field n ts = Some t →
      ∃ x y, get_field n fs = Some x ∧ get_field n r = Some y ∧ contents (resolve lib_type t) h x = Some y.
Proof.
  intros Hd. cbn [resolve contents]. set (l := map _ (map _ ts)).
  assert (Hl : l = map (λ '(n, t), (n, contents (resolve lib_type t) h)) ts).
  { unfold l. rewrite map_map. apply map_ext. by intros []. }
  assert (Hz : ∀ r, zip_fields l fs = Some r ↔ fs.*1 = ts.*1 ∧ r.*1 = ts.*1 ∧ ∀ n t, get_field n ts = Some t →
      ∃ x y, get_field n fs = Some x ∧ get_field n r = Some y ∧ contents (resolve lib_type t) h x = Some y).
  { intros r. rewrite zip_fields_spec, Hl, map_names by (by rewrite Hl, map_names). split; intros (H1 & H2 & H3); (split_and!; [done..|]).
    - intros n t Hn. apply H3. by rewrite get_field_map, Hn.
    - intros n f. rewrite get_field_map. destruct (get_field n ts) as [t|] eqn:En; [|done]. intros [= <-]. by apply H3. }
  split.
  - destruct (zip_fields l fs) as [r|] eqn:Er; [|done]. intros [= <-]. exists r. split; [done|by apply Hz].
  - intros (r & -> & Hr). by rewrite (proj2 (Hz r) Hr).
Qed.

Lemma struct_reach ts h fs a n t x :
  NoDup ts.*1 → fs.*1 = ts.*1 → get_field n ts = Some t → get_field n fs = Some x → a ∈ reach (resolve lib_type t) h x →
  a ∈ reach (resolve lib_type (TStruct ts)) h (VStruct fs).
Proof.
  intros Hd Hfs Hn Hx Ha. cbn [resolve reach]. apply elem_of_reach_fields; rewrite ?map_names; [done..|].
  exists n, (reach (resolve lib_type t) h), x. by rewrite !get_field_map, Hn.
Qed.

(** A function that treats all the fields with references but [names]. *)
Lemma shares_fields names l ts h fs tr :
  NoDup ts.*1 → copies (Fields l) (TStruct (assign names ts)) = true →
  contents (resolve lib_type (TStruct ts)) h (VStruct fs) = Some tr →
  ∃ fs' h', copy lib_copy (Fields l) (VStruct fs) h = Some (VStruct fs', h') ∧ h ⊆ h' ∧
    contents (resolve lib_type (TStruct ts)) h' (VStruct fs') = Some tr ∧
    ∀ n t x, get_field n ts = Some t → get_field n fs' = Some x →
      if decide (n ∈ names) then get_field n fs = Some x else ∀ a, a ∈ reach (resolve lib_type t) h' x → a ∉ dom h.
Proof.
  intros Hd Hc Hv. apply struct_contents in Hv as (r & -> & Hfs & Hr & Hall); [|done].
  set (r' := map (λ '(n, y), (n, if decide (n ∈ names) then Leaf (default VNil (get_field n fs)) else y)) r).
  assert (Hr' : ∀ n y, get_field n r = Some y →
    get_field n r' = Some (if decide (n ∈ names) then Leaf (default VNil (get_field n fs)) else y)).
  { intros n y. unfold r'. clear. induction r as [|[m z] r IH]; [done|]. simpl. destruct (decide (n = m)) as [->|]; [by intros [= ->]|exact IH]. }
  assert (Hw : contents (resolve lib_type (TStruct (assign names ts))) h (VStruct fs) = Some (Rec r')).
  { apply struct_contents; [by rewrite assign_names|]. exists r'. rewrite assign_names. split_and!; [done..| |].
    - unfold r'. rewrite <-Hr. clear. induction r as [|[m z] r IH]; [done|]. simpl. f_equal. exact IH.
    - intros n t0. rewrite get_assign. destruct (get_field n ts) as [t|] eqn:En; [|done]. intros [= <-].
      destruct (Hall n t En) as (x & y & Hx & Hy & Hc'). eexists x, _. rewrite (Hr' n y Hy), Hx. split_and!; [done..|]. by case_decide. }
  destruct (copy_sound (Fields l) (TStruct (assign names ts)) Hc h (VStruct fs) (Rec r') Hw) as (v' & h' & E & Hh & Hv' & Hf).
  destruct v' as [| | |fs']; try done. exists fs', h'.
  apply struct_contents in Hv' as (r2 & [= <-] & Hfs' & _ & Hall'); [|by rewrite assign_names]. rewrite assign_names in Hfs'.
  assert (Hn : ∀ n t, get_field n ts = Some t → ∃ x x' y, get_field n fs = Some x ∧ get_field n fs' = Some x' ∧
    get_field n r = Some y ∧ contents (resolve lib_type t) h x = Some y ∧
    if decide (n ∈ names) then x' = x else contents (resolve lib_type t) h' x' = Some y).
  { intros n t En. destruct (Hall n t En) as (x & y & Hx & Hy & Hc'). specialize (Hr' n y Hy).
    destruct (Hall' n (if decide (n ∈ names) then TBase else t)) as (x' & y' & Hx' & Hy' & Hc2); [by rewrite get_assign, En|].
    exists x, x', y. rewrite Hx in Hr'. split_and!; [done..|]. rewrite Hr' in Hy'. injection Hy' as <-.
    case_decide; [by injection Hc2|done]. }
  split_and!; [done..| |].
  - apply struct_contents; [done|]. exists r. split_and!; [done..|]. intros n t En.
    destruct (Hn n t En) as (x & x' & y & Hx & Hx' & Hy & Hc' & Hd'). exists x', y. split_and!; [done..|].
    case_decide; [subst x'; by eapply contents_mono|done].
  - intros n t x0 En Hx0. destruct (Hn n t En) as (x & x' & y & Hx & Hx' & Hy & Hc' & Hd'). simplify_eq. case_decide as Hin; [by subst|].
    intros a Ha. apply Hf. eapply (struct_reach (assign names ts) _ _ _ n t); [by rewrite assign_names..| |done|done].
    rewrite get_assign, En. simpl. by rewrite decide_False.
Qed.

(** C21: the copy of a VM's spec has the contents of the original and is new in all of its
    fields but two: the sidecar containers and their volumes are not copied, so that the copy
    and the original share their arrays and every write to an element of one is seen in the
    other. *)
Theorem sidecars_shared h fs tr :
  contents (resolve lib_type VirtualMachineSpec_type) h (VStruct fs) = Some tr →
  ∃ fs' h', copy lib_copy VirtualMachineSpec_DeepCopyInto (VStruct fs) h = Some (VStruct fs', h') ∧ h ⊆ h' ∧
    contents (resolve lib_type VirtualMachineSpec_type) h' (VStruct fs') = Some tr ∧
    get_field "Sidecars" fs' = get_field "Sidecars" fs ∧ get_field "SidecarVolumes" fs' = get_field "SidecarVolumes" fs ∧
    ∀ n t x, get_field n spec_fields = Some t → n ∉ ["Sidecars"; "SidecarVolumes"] → get_field n fs' = Some x →
      ∀ a, a ∈ reach (resolve lib_type t) h' x → a ∉ dom h.
Proof.
  intros Hv. destruct (shares_fields ["Sidecars"; "SidecarVolumes"] spec_copiers spec_fields h fs tr)
    as (fs' & h' & E & Hh & Hc & Hn); [apply (bool_decide_unpack _); by vm_compute|by vm_compute|done|].
  exists fs', h'. pose proof Hc as Hnames. apply struct_contents in Hnames as (_ & _ & Hnames & _); [|apply (bool_decide_unpack _); by vm_compute].
  assert (Hshared : ∀ n t, n ∈ ["Sidecars"; "SidecarVolumes"] → get_field n spec_fields = Some t → get_field n fs' = get_field n fs).
  { intros n t Hin Ht. destruct (get_field_some n fs') as [x Hx]; [rewrite Hnames; by eapply in_names, get_field_in|].
    specialize (Hn n t x Ht Hx). rewrite decide_True in Hn by done. congruence. }
  split_and!; [done..| | |].
  - by eapply (Hshared "Sidecars"); [left|vm_compute].
  - by eapply (Hshared "SidecarVolumes"); [right; left|vm_compute].
  - intros n t x Ht Hin Hx. specialize (Hn n t x Ht Hx). by rewrite decide_False in Hn.
Qed.
End Theorems.

(** ** Witnesses *)

(** Packages without references, and packages in which a container has a list of arguments and
    a quantity a pointer to its digits. *)
#[local] Instance plain_library : Library.
Proof.
  refine {| lib_type _ := TBase; lib_copy _ v h := Some (v, h) |}.
  intros n h v tr Hv. exists v, h. split_and!; [done..|]. intros l. by rewrite elem_of_nil.
Defined.

Definition sample_lib (n : string) : copier * gotype :=
  if decide (n = "corev1.Container") then (Fields [("Args", Slice Flat)], TStruct [("Name", TBase); ("Args", TSlice TBase)])
  else if decide (n = "resource.Quantity") then (Fields [("d", Ptr Flat)], TStruct [("d", TPtr TBase); ("s", TBase)])
  else (Flat, TBase).
#[local] Instance sample_library : Library.
Proof.
  refine {| lib_type n := (sample_lib n).2; lib_copy n := copy (lib_copy (Library := plain_library)) (sample_lib n).1 |}.
  intros n. assert (E : resolve (lib_type (Library := plain_library)) (sample_lib n).2 = (sample_lib n).2).
  { unfold sample_lib. by repeat case_decide. }
  rewrite <-E. apply copy_sound. unfold sample_lib. by repeat case_decide.
Defined.

(** The zero value of a type. *)
Fixpoint zero_value (t : gotype) : gval :=
  match t with
  | TBase | TLib _ => VBase ""
  | TPtr _ | TSlice _ | TMap _ => VNil
  | TStruct l => VStruct (map (λ '(n, t), (n, zero_value t)) l)
  end.

Lemma api_copies_independent_witness :
  independent (DeepCopy lib_copy Disk_DeepCopyInto) (TPtr Disk_type) ∧
  ∃ v h, DeepCopy lib_copy Disk_DeepCopyInto (VRef 0)
    {[ 0%nat := CPtr (VStruct [("Name", VBase "root"); ("ReadOnly", VRef 1)]); 1%nat := CPtr (VBase "true") ]} = Some (v, h) ∧ v ≠ VRef 0.
Proof.
  split; [|by eexists _, _].
  apply (api_copies_independent "Disk" Disk_DeepCopyInto Disk_type); [|apply (bool_decide_unpack _); by vm_compute].
  unfold api_copies. repeat first [apply list_elem_of_here|apply list_elem_of_further].
Defined.

Definition sample_spec : list (string * gval) :=
  match zero_value (resolve lib_type VirtualMachineSpec_type) with VStruct l => set_field "Sidecars" (VRef 0) l | _ => [] end.

Lemma sidecars_shared_witness :
  ∃ fs' h', copy lib_copy VirtualMachineSpec_DeepCopyInto (VStruct sample_spec)
      {[ 0%nat := CArr [zero_value (lib_type "corev1.Container")] ]} = Some (VStruct fs', h') ∧
    get_field "Sidecars" fs' = Some (VRef 0).
Proof.
  edestruct (sidecars_shared {[ 0%nat := CArr [zero_value (lib_type "corev1.Container")] ]} sample_spec)
    as (fs' & h' & E & _ & _ & Hs & _); [by vm_compute|]. exists fs', h'. split; [exact E|]. by rewrite Hs.
Defined.
