(* ===== verification/Hypervisor.v ===== *)
(** * The hypervisor's client (pkg/cloudhypervisor/client.go)

    The types of cloud-hypervisor's API with their JSON encoding, and the operations, each of
    which makes one HTTP request on the hypervisor's socket.

    A type is a record with the fields of the struct, named after it; its codec lists the
    struct's tags in order.  Pointers are options, slices lists, maps lists of pairs. *)

From stdpp Require Import base strings list.
From Stdlib Require Import ZArith Lia.
From S2P Require Import Prelude GoStd Json.
Open Scope Z_scope.

(** ** Types *)

Record BalloonConfig := mkBalloonConfig {
  BalloonConfig_DeflateOnOom : bool;
  BalloonConfig_FreePageReporting : bool;
  BalloonConfig_Size : Z }.
Definition BalloonConfig_json : Json BalloonConfig :=
  json_struct
    (field "deflate_on_oom" true json_bool
    (field "free_page_reporting" true json_bool
    (field "size" false (json_int 64)
    no_fields)))
    (λ r, (BalloonConfig_DeflateOnOom r, (BalloonConfig_FreePageReporting r, (BalloonConfig_Size r, tt))))
    (λ '(x0, (x1, (x2, tt))), mkBalloonConfig x0 x1 x2).
Lemma BalloonConfig_lawful : lawful BalloonConfig_json.
Proof. lawful_struct. Qed.
#[export] Hint Resolve BalloonConfig_lawful : json.

Record ConsoleConfig := mkConsoleConfig {
  ConsoleConfig_File : string;
  ConsoleConfig_Iommu : bool;
  ConsoleConfig_Mode : string;
  ConsoleConfig_Socket : string }.
Definition ConsoleConfig_json : Json ConsoleConfig :=
  json_struct
    (field "file" true json_string
    (field "iommu" true json_bool
    (field "mode" false json_string
    (field "socket" true json_string
    no_fields))))
    (λ r, (ConsoleConfig_File r, (ConsoleConfig_Iommu r, (ConsoleConfig_Mode r, (ConsoleConfig_Socket r, tt)))))
    (λ '(x0, (x1, (x2, (x3, tt)))), mkConsoleConfig x0 x1 x2 x3).
Lemma ConsoleConfig_lawful : lawful ConsoleConfig_json.
Proof. lawful_struct. Qed.
#[export] Hint Resolve ConsoleConfig_lawful : json.

Record CpuAffinity := mkCpuAffinity {
  CpuAffinity_HostCpus : list Z;
  CpuAffinity_Vcpu : Z }.
Definition CpuAffinity_json : Json CpuAffinity :=
  json_struct
    (field "host_cpus" false (json_slice (json_int 64))
    (field "vcpu" false (json_int 64)
    no_fields))
    (λ r, (CpuAffinity_HostCpus r, (CpuAffinity_Vcpu r, tt)))
    (λ '(x0, (x1, tt)), mkCpuAffinity x0 x1).
Lemma CpuAffinity_lawful : lawful CpuAffinity_json.
Proof. lawful_struct. Qed.
#[export] Hint Resolve CpuAffinity_lawful : json.

Record CpuFeatures := mkCpuFeatures {
  CpuFeatures_Amx : bool }.
Definition CpuFeatures_json : Json CpuFeatures :=
  json_struct
    (field "amx" true json_bool
    no_fields)
    (λ r, (CpuFeatures_Amx r, tt))
    (λ '(x0, tt), mkCpuFeatures x0).
Lemma CpuFeatures_lawful : lawful CpuFeatures_json.
Proof. lawful_struct. Qed.
#[export] Hint Resolve CpuFeatures_lawful : json.

Record CpuTopology := mkCpuTopology {
  CpuTopology_CoresPerDie : Z;
  CpuTopology_DiesPerPackage : Z;
  CpuTopology_Packages : Z;
  CpuTopology_ThreadsPerCore : Z }.
Definition CpuTopology_json : Json CpuTopology :=
  json_struct
    (field "cores_per_die" true (json_int 64)
    (field "dies_per_package" true (json_int 64)
    (field "packages" true (json_int 64)
    (field "threads_per_core" true (json_int 64)
    no_fields))))
    (λ r, (CpuTopology_CoresPerDie r, (CpuTopology_DiesPerPackage r, (CpuTopology_Packages r,
      (CpuTopology_ThreadsPerCore r, tt)))))
    (λ '(x0, (x1, (x2, (x3, tt)))), mkCpuTopology x0 x1 x2 x3).
Lemma CpuTopology_lawful : lawful CpuTopology_json.
Proof. lawful_struct. Qed.
#[export] Hint Resolve CpuTopology_lawful : json.

Record CpusConfig := mkCpusConfig {
  CpusConfig_Affinity : list (option CpuAffinity);
  CpusConfig_BootVcpus : Z;
  CpusConfig_Features : option CpuFeatures;
  CpusConfig_KvmHyperv : bool;
  CpusConfig_MaxPhysBits : Z;
  CpusConfig_MaxVcpus : Z;
  CpusConfig_Topology : option CpuTopology }.
Definition CpusConfig_json : Json CpusConfig :=
  json_struct
    (field "affinity" true (json_slice (json_ptr CpuAffinity_json))
    (field "boot_vcpus" false (json_int 64)
    (field "features" true (json_ptr CpuFeatures_json)
    (field "kvm_hyperv" true json_bool
    (field "max_phys_bits" true (json_int 64)
    (field "max_vcpus" false (json_int 64)
    (field "topology" true (json_ptr CpuTopology_json)
    no_fields)))))))
    (λ r, (CpusConfig_Affinity r, (CpusConfig_BootVcpus r, (CpusConfig_Features r, (CpusConfig_KvmHyperv r,
      (CpusConfig_MaxPhysBits r, (CpusConfig_MaxVcpus r, (CpusConfig_Topology r, tt))))))))
    (λ '(x0, (x1, (x2, (x3, (x4, (x5, (x6, tt))))))), mkCpusConfig x0 x1 x2 x3 x4 x5 x6).
Lemma CpusConfig_lawful : lawful CpusConfig_json.
Proof. lawful_struct. Qed.
#[export] Hint Resolve CpusConfig_lawful : json.

Record DebugConsoleConfig := mkDebugConsoleConfig {
  DebugConsoleConfig_File : string;
  DebugConsoleConfig_Iobase : Z;
  DebugConsoleConfig_Mode : string }.
Definition DebugConsoleConfig_json : Json DebugConsoleConfig :=
  json_struct
    (field "file" true json_string
    (field "iobase" true (json_int 64)
    (field "mode" false json_string
    no_fields)))
    (λ r, (DebugConsoleConfig_File r, (DebugConsoleConfig_Iobase r, (DebugConsoleConfig_Mode r, tt))))
    (λ '(x0, (x1, (x2, tt))), mkDebugConsoleConfig x0 x1 x2).
Lemma DebugConsoleConfig_lawful : lawful DebugConsoleConfig_json.
Proof. lawful_struct. Qed.
#[export] Hint Resolve DebugConsoleConfig_lawful : json.

Record DeviceConfig := mkDeviceConfig {
  DeviceConfig_Id : string;
  DeviceConfig_Iommu : bool;
  DeviceConfig_Path : string;
  DeviceConfig_PciSegment : Z;
  DeviceConfig_XNvGpudirectClique : Z }.
Definition DeviceConfig_json : Json DeviceConfig :=
  json_struct
    (field "id" true json_string
    (field "iommu" true json_bool
    (field "path" false json_string
    (field "pci_segment" true (json_int 16)
    (field "x_nv_gpudirect_clique" true (json_int 64)
    no_fields)))))
    (λ r, (DeviceConfig_Id r, (DeviceConfig_Iommu r, (DeviceConfig_Path r, (DeviceConfig_PciSegment r,
      (DeviceConfig_XNvGpudirectClique r, tt))))))
    (λ '(x0, (x1, (x2, (x3, (x4, tt))))), mkDeviceConfig x0 x1 x2 x3 x4).
Lemma DeviceConfig_lawful : lawful DeviceConfig_json.
Proof. lawful_struct. Qed.
#[export] Hint Resolve DeviceConfig_lawful : json.

Record DeviceNode := mkDeviceNode {
  DeviceNode_Children : list string;
  DeviceNode_Id : string;
  DeviceNode_PciBdf : string;
  DeviceNode_Resources : list (list (string * json)) }.
Definition DeviceNode_json : Json DeviceNode :=
  json_struct
    (field "children" true (json_slice json_string)
    (field "id" true json_string
    (field "pci_bdf" true json_string
    (field "resources" true (json_slice (json_map json_any))
    no_fields))))
    (λ r, (DeviceNode_Children r, (DeviceNode_Id r, (DeviceNode_PciBdf r, (DeviceNode_Resources r, tt)))))
    (λ '(x0, (x1, (x2, (x3, tt)))), mkDeviceNode x0 x1 x2 x3).
Lemma DeviceNode_lawful : lawful DeviceNode_json.
Proof. lawful_struct. Qed.
#[export] Hint Resolve DeviceNode_lawful : json.

Record VirtQueueAffinity := mkVirtQueueAffinity {
  VirtQueueAffinity_HostCpus : list Z;
  VirtQueueAffinity_QueueIndex : Z }.
Definition VirtQueueAffinity_json : Json VirtQueueAffinity :=
  json_struct
    (field "host_cpus" false (json_slice (json_int 64))
    (field "queue_index" false (json_int 64)
    no_fields))
    (λ r, (VirtQueueAffinity_HostCpus r, (VirtQueueAffinity_QueueIndex r, tt)))
    (λ '(x0, (x1, tt)), mkVirtQueueAffinity x0 x1).
Lemma VirtQueueAffinity_lawful : lawful VirtQueueAffinity_json.
Proof. lawful_struct. Qed.
#[export] Hint Resolve VirtQueueAffinity_lawful : json.

Record TokenBucket := mkTokenBucket {
  TokenBucket_OneTimeBurst : Z;
  TokenBucket_RefillTime : Z;
  TokenBucket_Size : Z }.
Definition TokenBucket_json : Json TokenBucket :=
  json_struct
    (field "one_time_burst" true (json_int 64)
    (field "refill_time" false (json_int 64)
    (field "size" false (json_int 64)
    no_fields)))
    (λ r, (TokenBucket_OneTimeBurst r, (TokenBucket_RefillTime r, (TokenBucket_Size r, tt))))
    (λ '(x0, (x1, (x2, tt))), mkTokenBucket x0 x1 x2).
Lemma TokenBucket_lawful : lawful TokenBucket_json.
Proof. lawful_struct. Qed.
#[export] Hint Resolve TokenBucket_lawful : json.

Record RateLimiterConfig := mkRateLimiterConfig {
  RateLimiterConfig_Bandwidth : option TokenBucket;
  RateLimiterConfig_Ops : option TokenBucket }.
Definition RateLimiterConfig_json : Json RateLimiterConfig :=
  json_struct
    (field "bandwidth" true (json_ptr TokenBucket_json)
    (field "ops" true (json_ptr TokenBucket_json)
    no_fields))
    (λ r, (RateLimiterConfig_Bandwidth r, (RateLimiterConfig_Ops r, tt)))
    (λ '(x0, (x1, tt)), mkRateLimiterConfig x0 x1).
Lemma RateLimiterConfig_lawful : lawful RateLimiterConfig_json.
Proof. lawful_struct. Qed.
#[export] Hint Resolve RateLimiterConfig_lawful : json.

Record DiskConfig := mkDiskConfig {
  DiskConfig_Direct : bool;
  DiskConfig_Id : string;
  DiskConfig_Iommu : bool;
  DiskConfig_NumQueues : Z;
  DiskConfig_Path : string;
  DiskConfig_PciSegment : Z;
  DiskConfig_QueueAffinity : list (option VirtQueueAffinity);
  DiskConfig_QueueSize : Z;
  DiskConfig_RateLimitGroup : string;
  DiskConfig_RateLimiterConfig : option RateLimiterConfig;
  DiskConfig_Readonly : bool;
  DiskConfig_Serial : string;
  DiskConfig_VhostSocket : string;
  DiskConfig_VhostUser : bool }.
Definition DiskConfig_json : Json DiskConfig :=
  json_struct
    (field "direct" true json_bool
    (field "id" true json_string
    (field "iommu" true json_bool
    (field "num_queues" true (json_int 64)
    (field "path" false json_string
    (field "pci_segment" true (json_int 16)
    (field "queue_affinity" true (json_slice (json_ptr VirtQueueAffinity_json))
    (field "queue_size" true (json_int 64)
    (field "rate_limit_group" true json_string
    (field "rate_limiter_config" true (json_ptr RateLimiterConfig_json)
    (field "readonly" true json_bool
    (field "serial" true json_string
    (field "vhost_socket" true json_string
    (field "vhost_user" true json_bool
    no_fields))))))))))))))
    (λ r, (DiskConfig_Direct r, (DiskConfig_Id r, (DiskConfig_Iommu r, (DiskConfig_NumQueues r, (DiskConfig_Path r,
      (DiskConfig_PciSegment r, (DiskConfig_QueueAffinity r, (DiskConfig_QueueSize r, (DiskConfig_RateLimitGroup r,
      (DiskConfig_RateLimiterConfig r, (DiskConfig_Readonly r, (DiskConfig_Serial r, (DiskConfig_VhostSocket r,
      (DiskConfig_VhostUser r, tt)))))))))))))))
    (λ '(x0, (x1, (x2, (x3, (x4, (x5, (x6, (x7, (x8, (x9, (x10, (x11, (x12, (x13, tt)))))))))))))), mkDiskConfig x0 x1
      x2 x3 x4 x5 x6 x7 x8 x9 x10 x11 x12 x13).
Lemma DiskConfig_lawful : lawful DiskConfig_json.
Proof. lawful_struct. Qed.
#[export] Hint Resolve DiskConfig_lawful : json.

Record FsConfig := mkFsConfig {
  FsConfig_Id : string;
  FsConfig_NumQueues : Z;
  FsConfig_PciSegment : Z;
  FsConfig_QueueSize : Z;
  FsConfig_Socket : string;
  FsConfig_Tag : string }.
Definition FsConfig_json : Json FsConfig :=
  json_struct
    (field "id" true json_string
    (field "num_queues" false (json_int 64)
    (field "pci_segment" true (json_int 16)
    (field "queue_size" false (json_int 64)
    (field "socket" false json_string
    (field "tag" false json_string
    no_fields))))))
    (λ r, (FsConfig_Id r, (FsConfig_NumQueues r, (FsConfig_PciSegment r, (FsConfig_QueueSize r, (FsConfig_Socket r,
      (FsConfig_Tag r, tt)))))))
    (λ '(x0, (x1, (x2, (x3, (x4, (x5, tt)))))), mkFsConfig x0 x1 x2 x3 x4 x5).
Lemma FsConfig_lawful : lawful FsConfig_json.
Proof. lawful_struct. Qed.
#[export] Hint Resolve FsConfig_lawful : json.

Record LandlockConfig := mkLandlockConfig {
  LandlockConfig_Access : string;
  LandlockConfig_Path : string }.
Definition LandlockConfig_json : Json LandlockConfig :=
  json_struct
    (field "access" false json_string
    (field "path" false json_string
    no_fields))
    (λ r, (LandlockConfig_Access r, (LandlockConfig_Path r, tt)))
    (λ '(x0, (x1, tt)), mkLandlockConfig x0 x1).
Lemma LandlockConfig_lawful : lawful LandlockConfig_json.
Proof. lawful_struct. Qed.
#[export] Hint Resolve LandlockConfig_lawful : json.

Record MemoryZoneConfig := mkMemoryZoneConfig {
  MemoryZoneConfig_File : string;
  MemoryZoneConfig_HostNumaNode : Z;
  MemoryZoneConfig_HotplugSize : Z;
  MemoryZoneConfig_HotpluggedSize : Z;
  MemoryZoneConfig_HugepageSize : Z;
  MemoryZoneConfig_Hugepages : bool;
  MemoryZoneConfig_Id : string;
  MemoryZoneConfig_Mergeable : bool;
  MemoryZoneConfig_Prefault : bool;
  MemoryZoneConfig_Shared : bool;
  MemoryZoneConfig_Size : Z }.
Definition MemoryZoneConfig_json : Json MemoryZoneConfig :=
  json_struct
    (field "file" true json_string
    (field "host_numa_node" true (json_int 64)
    (field "hotplug_size" true (json_int 64)
    (field "hotplugged_size" true (json_int 64)
    (field "hugepage_size" true (json_int 64)
    (field "hugepages" true json_bool
    (field "id" false json_string
    (field "mergeable" true json_bool
    (field "prefault" true json_bool
    (field "shared" true json_bool
    (field "size" false (json_int 64)
    no_fields)))))))))))
    (λ r, (MemoryZoneConfig_File r, (MemoryZoneConfig_HostNumaNode r, (MemoryZoneConfig_HotplugSize r,
      (MemoryZoneConfig_HotpluggedSize r, (MemoryZoneConfig_HugepageSize r, (MemoryZoneConfig_Hugepages r,
      (MemoryZoneConfig_Id r, (MemoryZoneConfig_Mergeable r, (MemoryZoneConfig_Prefault r, (MemoryZoneConfig_Shared r,
      (MemoryZoneConfig_Size r, tt))))))))))))
    (λ '(x0, (x1, (x2, (x3, (x4, (x5, (x6, (x7, (x8, (x9, (x10, tt))))))))))), mkMemoryZoneConfig x0 x1 x2 x3 x4 x5 x6
      x7 x8 x9 x10).
Lemma MemoryZoneConfig_lawful : lawful MemoryZoneConfig_json.
Proof. lawful_struct. Qed.
#[export] Hint Resolve MemoryZoneConfig_lawful : json.

Record MemoryConfig := mkMemoryConfig {
  MemoryConfig_HotplugMethod : string;
  MemoryConfig_HotplugSize : Z;
  MemoryConfig_HotpluggedSize : Z;
  MemoryConfig_HugepageSize : Z;
  MemoryConfig_Hugepages : bool;
  MemoryConfig_Mergeable : bool;
  MemoryConfig_Prefault : bool;
  MemoryConfig_Shared : bool;
  MemoryConfig_Size : Z;
  MemoryConfig_Thp : bool;
  MemoryConfig_Zones : list (option MemoryZoneConfig) }.
Definition MemoryConfig_json : Json MemoryConfig :=
  json_struct
    (field "hotplug_method" true json_string
    (field "hotplug_size" true (json_int 64)
    (field "hotplugged_size" true (json_int 64)
    (field "hugepage_size" true (json_int 64)
    (field "hugepages" true json_bool
    (field "mergeable" true json_bool
    (field "prefault" true json_bool
    (field "shared" true json_bool
    (field "size" false (json_int 64)
    (field "thp" true json_bool
    (field "zones" true (json_slice (json_ptr MemoryZoneConfig_json))
    no_fields)))))))))))
    (λ r, (MemoryConfig_HotplugMethod r, (MemoryConfig_HotplugSize r, (MemoryConfig_HotpluggedSize r,
      (MemoryConfig_HugepageSize r, (MemoryConfig_Hugepages r, (MemoryConfig_Mergeable r, (MemoryConfig_Prefault r,
      (MemoryConfig_Shared r, (MemoryConfig_Size r, (MemoryConfig_Thp r, (MemoryConfig_Zones r, tt))))))))))))
    (λ '(x0, (x1, (x2, (x3, (x4, (x5, (x6, (x7, (x8, (x9, (x10, tt))))))))))), mkMemoryConfig x0 x1 x2 x3 x4 x5 x6 x7
      x8 x9 x10).
Lemma MemoryConfig_lawful : lawful MemoryConfig_json.
Proof. lawful_struct. Qed.
#[export] Hint Resolve MemoryConfig_lawful : json.

Record NetConfig := mkNetConfig {
  NetConfig_HostMac : string;
  NetConfig_Id : string;
  NetConfig_Iommu : bool;
  NetConfig_Ip : string;
  NetConfig_Mac : string;
  NetConfig_Mask : string;
  NetConfig_Mtu : Z;
  NetConfig_NumQueues : Z;
  NetConfig_PciSegment : Z;
  NetConfig_QueueSize : Z;
  NetConfig_RateLimiterConfig : option RateLimiterConfig;
  NetConfig_Tap : string;
  NetConfig_VhostMode : string;
  NetConfig_VhostSocket : string;
  NetConfig_VhostUser : bool }.
Definition NetConfig_json : Json NetConfig :=
  json_struct
    (field "host_mac" true json_string
    (field "id" true json_string
    (field "iommu" true json_bool
    (field "ip" true json_string
    (field "mac" true json_string
    (field "mask" true json_string
    (field "mtu" true (json_int 64)
    (field "num_queues" true (json_int 64)
    (field "pci_segment" true (json_int 16)
    (field "queue_size" true (json_int 64)
    (field "rate_limiter_config" true (json_ptr RateLimiterConfig_json)
    (field "tap" true json_string
    (field "vhost_mode" true json_string
    (field "vhost_socket" true json_string
    (field "vhost_user" true json_bool
    no_fields)))))))))))))))
    (λ r, (NetConfig_HostMac r, (NetConfig_Id r, (NetConfig_Iommu r, (NetConfig_Ip r, (NetConfig_Mac r,
      (NetConfig_Mask r, (NetConfig_Mtu r, (NetConfig_NumQueues r, (NetConfig_PciSegment r, (NetConfig_QueueSize r,
      (NetConfig_RateLimiterConfig r, (NetConfig_Tap r, (NetConfig_VhostMode r, (NetConfig_VhostSocket r,
      (NetConfig_VhostUser r, tt))))))))))))))))
    (λ '(x0, (x1, (x2, (x3, (x4, (x5, (x6, (x7, (x8, (x9, (x10, (x11, (x12, (x13, (x14, tt))))))))))))))), mkNetConfig
      x0 x1 x2 x3 x4 x5 x6 x7 x8 x9 x10 x11 x12 x13 x14).
Lemma NetConfig_lawful : lawful NetConfig_json.
Proof. lawful_struct. Qed.
#[export] Hint Resolve NetConfig_lawful : json.

Record NumaDistance := mkNumaDistance {
  NumaDistance_Destination : Z;
  NumaDistance_Distance : Z }.
Definition NumaDistance_json : Json NumaDistance :=
  json_struct
    (field "destination" false (json_int 64)
    (field "distance" false (json_int 64)
    no_fields))
    (λ r, (NumaDistance_Destination r, (NumaDistance_Distance r, tt)))
    (λ '(x0, (x1, tt)), mkNumaDistance x0 x1).
Lemma NumaDistance_lawful : lawful NumaDistance_json.
Proof. lawful_struct. Qed.
#[export] Hint Resolve NumaDistance_lawful : json.

Record NumaConfig := mkNumaConfig {
  NumaConfig_Cpus : list Z;
  NumaConfig_Distances : list (option NumaDistance);
  NumaConfig_GuestNumaId : Z;
  NumaConfig_MemoryZones : list string;
  NumaConfig_PciSegments : list Z;
  NumaConfig_SgxEpcSections : list string }.
Definition NumaConfig_json : Json NumaConfig :=
  json_struct
    (field "cpus" true (json_slice (json_int 64))
    (field "distances" true (json_slice (json_ptr NumaDistance_json))
    (field "guest_numa_id" false (json_int 64)
    (field "memory_zones" true (json_slice json_string)
    (field "pci_segments" true (json_slice (json_int 64))
    (field "sgx_epc_sections" true (json_slice json_string)
    no_fields))))))
    (λ r, (NumaConfig_Cpus r, (NumaConfig_Distances r, (NumaConfig_GuestNumaId r, (NumaConfig_MemoryZones r,
      (NumaConfig_PciSegments r, (NumaConfig_SgxEpcSections r, tt)))))))
    (λ '(x0, (x1, (x2, (x3, (x4, (x5, tt)))))), mkNumaConfig x0 x1 x2 x3 x4 x5).
Lemma NumaConfig_lawful : lawful NumaConfig_json.
Proof. lawful_struct. Qed.
#[export] Hint Resolve NumaConfig_lawful : json.

Record PayloadConfig := mkPayloadConfig {
  PayloadConfig_Cmdline : string;
  PayloadConfig_Firmware : string;
  PayloadConfig_Initramfs : string;
  PayloadConfig_Kernel : string }.
Definition PayloadConfig_json : Json PayloadConfig :=
  json_struct
    (field "cmdline" true json_string
    (field "firmware" true json_string
    (field "initramfs" true json_string
    (field "kernel" true json_string
    no_fields))))
    (λ r, (PayloadConfig_Cmdline r, (PayloadConfig_Firmware r, (PayloadConfig_Initramfs r, (PayloadConfig_Kernel r,
      tt)))))
    (λ '(x0, (x1, (x2, (x3, tt)))), mkPayloadConfig x0 x1 x2 x3).
Lemma PayloadConfig_lawful : lawful PayloadConfig_json.
Proof. lawful_struct. Qed.
#[export] Hint Resolve PayloadConfig_lawful : json.

Record PciDeviceInfo := mkPciDeviceInfo {
  PciDeviceInfo_Bdf : string;
  PciDeviceInfo_Id : string }.
Definition PciDeviceInfo_json : Json PciDeviceInfo :=
  json_struct
    (field "bdf" false json_string
    (field "id" false json_string
    no_fields))
    (λ r, (PciDeviceInfo_Bdf r, (PciDeviceInfo_Id r, tt)))
    (λ '(x0, (x1, tt)), mkPciDeviceInfo x0 x1).
Lemma PciDeviceInfo_lawful : lawful PciDeviceInfo_json.
Proof. lawful_struct. Qed.
#[export] Hint Resolve PciDeviceInfo_lawful : json.

Record PciSegmentConfig := mkPciSegmentConfig {
  PciSegmentConfig_Mmio32ApertureWeight : Z;
  PciSegmentConfig_Mmio64ApertureWeight : Z;
  PciSegmentConfig_PciSegment : Z }.
Definition PciSegmentConfig_json : Json PciSegmentConfig :=
  json_struct
    (field "mmio32_aperture_weight" true (json_int 64)
    (field "mmio64_aperture_weight" true (json_int 64)
    (field "pci_segment" false (json_int 16)
    no_fields)))
    (λ r, (PciSegmentConfig_Mmio32ApertureWeight r, (PciSegmentConfig_Mmio64ApertureWeight r,
      (PciSegmentConfig_PciSegment r, tt))))
    (λ '(x0, (x1, (x2, tt))), mkPciSegmentConfig x0 x1 x2).
Lemma PciSegmentConfig_lawful : lawful PciSegmentConfig_json.
Proof. lawful_struct. Qed.
#[export] Hint Resolve PciSegmentConfig_lawful : json.

Record PlatformConfig := mkPlatformConfig {
  PlatformConfig_IommuSegments : list Z;
  PlatformConfig_NumPciSegments : Z;
  PlatformConfig_OemStrings : list string;
  PlatformConfig_SerialNumber : string;
  PlatformConfig_Tdx : bool;
  PlatformConfig_Uuid : string }.
Definition PlatformConfig_json : Json PlatformConfig :=
  json_struct
    (field "iommu_segments" true (json_slice (json_int 16))
    (field "num_pci_segments" true (json_int 16)
    (field "oem_strings" true (json_slice json_string)
    (field "serial_number" true json_string
    (field "tdx" true json_bool
    (field "uuid" true json_string
    no_fields))))))
    (λ r, (PlatformConfig_IommuSegments r, (PlatformConfig_NumPciSegments r, (PlatformConfig_OemStrings r,
      (PlatformConfig_SerialNumber r, (PlatformConfig_Tdx r, (PlatformConfig_Uuid r, tt)))))))
    (λ '(x0, (x1, (x2, (x3, (x4, (x5, tt)))))), mkPlatformConfig x0 x1 x2 x3 x4 x5).
Lemma PlatformConfig_lawful : lawful PlatformConfig_json.
Proof. lawful_struct. Qed.
#[export] Hint Resolve PlatformConfig_lawful : json.

Record PmemConfig := mkPmemConfig {
  PmemConfig_DiscardWrites : bool;
  PmemConfig_File : string;
  PmemConfig_Id : string;
  PmemConfig_Iommu : bool;
  PmemConfig_PciSegment : Z;
  PmemConfig_Size : Z }.
Definition PmemConfig_json : Json PmemConfig :=
  json_struct
    (field "discard_writes" true json_bool
    (field "file" false json_string
    (field "id" true json_string
    (field "iommu" true json_bool
    (field "pci_segment" true (json_int 16)
    (field "size" true (json_int 64)
    no_fields))))))
    (λ r, (PmemConfig_DiscardWrites r, (PmemConfig_File r, (PmemConfig_Id r, (PmemConfig_Iommu r,
      (PmemConfig_PciSegment r, (PmemConfig_Size r, tt)))))))
    (λ '(x0, (x1, (x2, (x3, (x4, (x5, tt)))))), mkPmemConfig x0 x1 x2 x3 x4 x5).
Lemma PmemConfig_lawful : lawful PmemConfig_json.
Proof. lawful_struct. Qed.
#[export] Hint Resolve PmemConfig_lawful : json.

Record RateLimitGroupConfig := mkRateLimitGroupConfig {
  RateLimitGroupConfig_Id : string;
  RateLimitGroupConfig_RateLimiterConfig : option RateLimiterConfig }.
Definition RateLimitGroupConfig_json : Json RateLimitGroupConfig :=
  json_struct
    (field "id" false json_string
    (field "rate_limiter_config" false (json_ptr RateLimiterConfig_json)
    no_fields))
    (λ r, (RateLimitGroupConfig_Id r, (RateLimitGroupConfig_RateLimiterConfig r, tt)))
    (λ '(x0, (x1, tt)), mkRateLimitGroupConfig x0 x1).
Lemma RateLimitGroupConfig_lawful : lawful RateLimitGroupConfig_json.
Proof. lawful_struct. Qed.
#[export] Hint Resolve RateLimitGroupConfig_lawful : json.

Record ReceiveMigrationData := mkReceiveMigrationData {
  ReceiveMigrationData_ReceiverUrl : string }.
Definition ReceiveMigrationData_json : Json ReceiveMigrationData :=
  json_struct
    (field "receiver_url" false json_string
    no_fields)
    (λ r, (ReceiveMigrationData_ReceiverUrl r, tt))
    (λ '(x0, tt), mkReceiveMigrationData x0).
Lemma ReceiveMigrationData_lawful : lawful ReceiveMigrationData_json.
Proof. lawful_struct. Qed.
#[export] Hint Resolve ReceiveMigrationData_lawful : json.

Record RestoreConfig := mkRestoreConfig {
  RestoreConfig_Prefault : bool;
  RestoreConfig_SourceUrl : string }.
Definition RestoreConfig_json : Json RestoreConfig :=
  json_struct
    (field "prefault" true json_bool
    (field "source_url" false json_string
    no_fields))
    (λ r, (RestoreConfig_Prefault r, (RestoreConfig_SourceUrl r, tt)))
    (λ '(x0, (x1, tt)), mkRestoreConfig x0 x1).
Lemma RestoreConfig_lawful : lawful RestoreConfig_json.
Proof. lawful_struct. Qed.
#[export] Hint Resolve RestoreConfig_lawful : json.

Record RngConfig := mkRngConfig {
  RngConfig_Iommu : bool;
  RngConfig_Src : string }.
Definition RngConfig_json : Json RngConfig :=
  json_struct
    (field "iommu" true json_bool
    (field "src" false json_string
    no_fields))
    (λ r, (RngConfig_Iommu r, (RngConfig_Src r, tt)))
    (λ '(x0, (x1, tt)), mkRngConfig x0 x1).
Lemma RngConfig_lawful : lawful RngConfig_json.
Proof. lawful_struct. Qed.
#[export] Hint Resolve RngConfig_lawful : json.

Record SendMigrationData := mkSendMigrationData {
  SendMigrationData_DestinationUrl : string;
  SendMigrationData_Local : bool }.
Definition SendMigrationData_json : Json SendMigrationData :=
  json_struct
    (field "destination_url" false json_string
    (field "local" true json_bool
    no_fields))
    (λ r, (SendMigrationData_DestinationUrl r, (SendMigrationData_Local r, tt)))
    (λ '(x0, (x1, tt)), mkSendMigrationData x0 x1).
Lemma SendMigrationData_lawful : lawful SendMigrationData_json.
Proof. lawful_struct. Qed.
#[export] Hint Resolve SendMigrationData_lawful : json.

Record SgxEpcConfig := mkSgxEpcConfig {
  SgxEpcConfig_Id : string;
  SgxEpcConfig_Prefault : bool;
  SgxEpcConfig_Size : Z }.
Definition SgxEpcConfig_json : Json SgxEpcConfig :=
  json_struct
    (field "id" false json_string
    (field "prefault" true json_bool
    (field "size" false (json_int 64)
    no_fields)))
    (λ r, (SgxEpcConfig_Id r, (SgxEpcConfig_Prefault r, (SgxEpcConfig_Size r, tt))))
    (λ '(x0, (x1, (x2, tt))), mkSgxEpcConfig x0 x1 x2).
Lemma SgxEpcConfig_lawful : lawful SgxEpcConfig_json.
Proof. lawful_struct. Qed.
#[export] Hint Resolve SgxEpcConfig_lawful : json.

Record TpmConfig := mkTpmConfig {
  TpmConfig_Socket : string }.
Definition TpmConfig_json : Json TpmConfig :=
  json_struct
    (field "socket" false json_string
    no_fields)
    (λ r, (TpmConfig_Socket r, tt))
    (λ '(x0, tt), mkTpmConfig x0).
Lemma TpmConfig_lawful : lawful TpmConfig_json.
Proof. lawful_struct. Qed.
#[export] Hint Resolve TpmConfig_lawful : json.

Record VdpaConfig := mkVdpaConfig {
  VdpaConfig_Id : string;
  VdpaConfig_Iommu : bool;
  VdpaConfig_NumQueues : Z;
  VdpaConfig_Path : string;
  VdpaConfig_PciSegment : Z }.
Definition VdpaConfig_json : Json VdpaConfig :=
  json_struct
    (field "id" true json_string
    (field "iommu" true json_bool
    (field "num_queues" false (json_int 64)
    (field "path" false json_string
    (field "pci_segment" true (json_int 16)
    no_fields)))))
    (λ r, (VdpaConfig_Id r, (VdpaConfig_Iommu r, (VdpaConfig_NumQueues r, (VdpaConfig_Path r, (VdpaConfig_PciSegment
      r, tt))))))
    (λ '(x0, (x1, (x2, (x3, (x4, tt))))), mkVdpaConfig x0 x1 x2 x3 x4).
Lemma VdpaConfig_lawful : lawful VdpaConfig_json.
Proof. lawful_struct. Qed.
#[export] Hint Resolve VdpaConfig_lawful : json.

Record VmAddUserDevice := mkVmAddUserDevice {
  VmAddUserDevice_Socket : string }.
Definition VmAddUserDevice_json : Json VmAddUserDevice :=
  json_struct
    (field "socket" false json_string
    no_fields)
    (λ r, (VmAddUserDevice_Socket r, tt))
    (λ '(x0, tt), mkVmAddUserDevice x0).
Lemma VmAddUserDevice_lawful : lawful VmAddUserDevice_json.
Proof. lawful_struct. Qed.
#[export] Hint Resolve VmAddUserDevice_lawful : json.

Record VsockConfig := mkVsockConfig {
  VsockConfig_Cid : Z;
  VsockConfig_Id : string;
  VsockConfig_Iommu : bool;
  VsockConfig_PciSegment : Z;
  VsockConfig_Socket : string }.
Definition VsockConfig_json : Json VsockConfig :=
  json_struct
    (field "cid" false (json_int 64)
    (field "id" true json_string
    (field "iommu" true json_bool
    (field "pci_segment" true (json_int 16)
    (field "socket" false json_string
    no_fields)))))
    (λ r, (VsockConfig_Cid r, (VsockConfig_Id r, (VsockConfig_Iommu r, (VsockConfig_PciSegment r, (VsockConfig_Socket
      r, tt))))))
    (λ '(x0, (x1, (x2, (x3, (x4, tt))))), mkVsockConfig x0 x1 x2 x3 x4).
Lemma VsockConfig_lawful : lawful VsockConfig_json.
Proof. lawful_struct. Qed.
#[export] Hint Resolve VsockConfig_lawful : json.

Record VmConfig := mkVmConfig {
  VmConfig_Balloon : option BalloonConfig;
  VmConfig_Console : option ConsoleConfig;
  VmConfig_Cpus : option CpusConfig;
  VmConfig_DebugConsole : option DebugConsoleConfig;
  VmConfig_Devices : list (option DeviceConfig);
  VmConfig_Disks : list (option DiskConfig);
  VmConfig_Fs : list (option FsConfig);
  VmConfig_Iommu : bool;
  VmConfig_LandlockEnable : bool;
  VmConfig_LandlockRules : list (option LandlockConfig);
  VmConfig_Memory : option MemoryConfig;
  VmConfig_Net : list (option NetConfig);
  VmConfig_Numa : list (option NumaConfig);
  VmConfig_Payload : option PayloadConfig;
  VmConfig_PciSegments : list (option PciSegmentConfig);
  VmConfig_Platform : option PlatformConfig;
  VmConfig_Pmem : list (option PmemConfig);
  VmConfig_Pvpanic : bool;
  VmConfig_RateLimitGroups : list (option RateLimitGroupConfig);
  VmConfig_Rng : option RngConfig;
  VmConfig_Serial : option ConsoleConfig;
  VmConfig_SgxEpc : list (option SgxEpcConfig);
  VmConfig_Tpm : option TpmConfig;
  VmConfig_Vdpa : list (option VdpaConfig);
  VmConfig_Vsock : option VsockConfig;
  VmConfig_Watchdog : bool }.
Definition VmConfig_json : Json VmConfig :=
  json_struct
    (field "balloon" true (json_ptr BalloonConfig_json)
    (field "console" true (json_ptr ConsoleConfig_json)
    (field "cpus" true (json_ptr CpusConfig_json)
    (field "debug_console" true (json_ptr DebugConsoleConfig_json)
    (field "devices" true (json_slice (json_ptr DeviceConfig_json))
    (field "disks" true (json_slice (json_ptr DiskConfig_json))
    (field "fs" true (json_slice (json_ptr FsConfig_json))
    (field "iommu" true json_bool
    (field "landlock_enable" true json_bool
    (field "landlock_rules" true (json_slice (json_ptr LandlockConfig_json))
    (field "memory" true (json_ptr MemoryConfig_json)
    (field "net" true (json_slice (json_ptr NetConfig_json))
    (field "numa" true (json_slice (json_ptr NumaConfig_json))
    (field "payload" false (json_ptr PayloadConfig_json)
    (field "pci_segments" true (json_slice (json_ptr PciSegmentConfig_json))
    (field "platform" true (json_ptr PlatformConfig_json)
    (field "pmem" true (json_slice (json_ptr PmemConfig_json))
    (field "pvpanic" true json_bool
    (field "rate_limit_groups" true (json_slice (json_ptr RateLimitGroupConfig_json))
    (field "rng" true (json_ptr RngConfig_json)
    (field "serial" true (json_ptr ConsoleConfig_json)
    (field "sgx_epc" true (json_slice (json_ptr SgxEpcConfig_json))
    (field "tpm" true (json_ptr TpmConfig_json)
    (field "vdpa" true (json_slice (json_ptr VdpaConfig_json))
    (field "vsock" true (json_ptr VsockConfig_json)
    (field "watchdog" true json_bool
    no_fields))))))))))))))))))))))))))
    (λ r, (VmConfig_Balloon r, (VmConfig_Console r, (VmConfig_Cpus r, (VmConfig_DebugConsole r, (VmConfig_Devices r,
      (VmConfig_Disks r, (VmConfig_Fs r, (VmConfig_Iommu r, (VmConfig_LandlockEnable r, (VmConfig_LandlockRules r,
      (VmConfig_Memory r, (VmConfig_Net r, (VmConfig_Numa r, (VmConfig_Payload r, (VmConfig_PciSegments r,
      (VmConfig_Platform r, (VmConfig_Pmem r, (VmConfig_Pvpanic r, (VmConfig_RateLimitGroups r, (VmConfig_Rng r,
      (VmConfig_Serial r, (VmConfig_SgxEpc r, (VmConfig_Tpm r, (VmConfig_Vdpa r, (VmConfig_Vsock r, (VmConfig_Watchdog
      r, tt)))))))))))))))))))))))))))
    (λ '(x0, (x1, (x2, (x3, (x4, (x5, (x6, (x7, (x8, (x9, (x10, (x11, (x12, (x13, (x14, (x15, (x16, (x17, (x18, (x19,
      (x20, (x21, (x22, (x23, (x24, (x25, tt)))))))))))))))))))))))))), mkVmConfig x0 x1 x2 x3 x4 x5 x6 x7 x8 x9 x10
      x11 x12 x13 x14 x15 x16 x17 x18 x19 x20 x21 x22 x23 x24 x25).
Lemma VmConfig_lawful : lawful VmConfig_json.
Proof. lawful_struct. Qed.
#[export] Hint Resolve VmConfig_lawful : json.

Record VmCoredumpData := mkVmCoredumpData {
  VmCoredumpData_DestinationUrl : string }.
Definition VmCoredumpData_json : Json VmCoredumpData :=
  json_struct
    (field "destination_url" true json_string
    no_fields)
    (λ r, (VmCoredumpData_DestinationUrl r, tt))
    (λ '(x0, tt), mkVmCoredumpData x0).
Lemma VmCoredumpData_lawful : lawful VmCoredumpData_json.
Proof. lawful_struct. Qed.
#[export] Hint Resolve VmCoredumpData_lawful : json.

Record VmCounters := mkVmCounters { }.
Definition VmCounters_json : Json VmCounters := json_struct no_fields (λ _, tt) (λ _, mkVmCounters).
Lemma VmCounters_lawful : lawful VmCounters_json.
Proof. lawful_struct. Qed.
#[export] Hint Resolve VmCounters_lawful : json.

Record VmInfo := mkVmInfo {
  VmInfo_Config : option VmConfig;
  VmInfo_DeviceTree : list (string * (option DeviceNode));
  VmInfo_MemoryActualSize : Z;
  VmInfo_State : string }.
Definition VmInfo_json : Json VmInfo :=
  json_struct
    (field "config" false (json_ptr VmConfig_json)
    (field "device_tree" true (json_map (json_ptr DeviceNode_json))
    (field "memory_actual_size" true (json_int 64)
    (field "state" false json_string
    no_fields))))
    (λ r, (VmInfo_Config r, (VmInfo_DeviceTree r, (VmInfo_MemoryActualSize r, (VmInfo_State r, tt)))))
    (λ '(x0, (x1, (x2, (x3, tt)))), mkVmInfo x0 x1 x2 x3).
Lemma VmInfo_lawful : lawful VmInfo_json.
Proof. lawful_struct. Qed.
#[export] Hint Resolve VmInfo_lawful : json.

Record VmRemoveDevice := mkVmRemoveDevice {
  VmRemoveDevice_Id : string }.
Definition VmRemoveDevice_json : Json VmRemoveDevice :=
  json_struct
    (field "id" true json_string
    no_fields)
    (λ r, (VmRemoveDevice_Id r, tt))
    (λ '(x0, tt), mkVmRemoveDevice x0).
Lemma VmRemoveDevice_lawful : lawful VmRemoveDevice_json.
Proof. lawful_struct. Qed.
#[export] Hint Resolve VmRemoveDevice_lawful : json.

Record VmResize := mkVmResize {
  VmResize_DesiredBalloon : Z;
  VmResize_DesiredRam : Z;
  VmResize_DesiredVcpus : Z }.
Definition VmResize_json : Json VmResize :=
  json_struct
    (field "desired_balloon" true (json_int 64)
    (field "desired_ram" true (json_int 64)
    (field "desired_vcpus" true (json_int 64)
    no_fields)))
    (λ r, (VmResize_DesiredBalloon r, (VmResize_DesiredRam r, (VmResize_DesiredVcpus r, tt))))
    (λ '(x0, (x1, (x2, tt))), mkVmResize x0 x1 x2).
Lemma VmResize_lawful : lawful VmResize_json.
Proof. lawful_struct. Qed.
#[export] Hint Resolve VmResize_lawful : json.

Record VmResizeZone := mkVmResizeZone {
  VmResizeZone_DesiredRam : Z;
  VmResizeZone_Id : string }.
Definition VmResizeZone_json : Json VmResizeZone :=
  json_struct
    (field "desired_ram" true (json_int 64)
    (field "id" true json_string
    no_fields))
    (λ r, (VmResizeZone_DesiredRam r, (VmResizeZone_Id r, tt)))
    (λ '(x0, (x1, tt)), mkVmResizeZone x0 x1).
Lemma VmResizeZone_lawful : lawful VmResizeZone_json.
Proof. lawful_struct. Qed.
#[export] Hint Resolve VmResizeZone_lawful : json.

Record VmSnapshotConfig := mkVmSnapshotConfig {
  VmSnapshotConfig_DestinationUrl : string }.
Definition VmSnapshotConfig_json : Json VmSnapshotConfig :=
  json_struct
    (field "destination_url" true json_string
    no_fields)
    (λ r, (VmSnapshotConfig_DestinationUrl r, tt))
    (λ '(x0, tt), mkVmSnapshotConfig x0).
Lemma VmSnapshotConfig_lawful : lawful VmSnapshotConfig_json.
Proof. lawful_struct. Qed.
#[export] Hint Resolve VmSnapshotConfig_lawful : json.

Record VmmPingResponse := mkVmmPingResponse {
  VmmPingResponse_BuildVersion : string;
  VmmPingResponse_Features : list string;
  VmmPingResponse_Pid : Z;
  VmmPingResponse_Version : string }.
Definition VmmPingResponse_json : Json VmmPingResponse :=
  json_struct
    (field "build_version" true json_string
    (field "features" true (json_slice json_string)
    (field "pid" true (json_int 64)
    (field "version" false json_string
    no_fields))))
    (λ r, (VmmPingResponse_BuildVersion r, (VmmPingResponse_Features r, (VmmPingResponse_Pid r,
      (VmmPingResponse_Version r, tt)))))
    (λ '(x0, (x1, (x2, (x3, tt)))), mkVmmPingResponse x0 x1 x2 x3).
Lemma VmmPingResponse_lawful : lawful VmmPingResponse_json.
Proof. lawful_struct. Qed.
#[export] Hint Resolve VmmPingResponse_lawful : json.
(** ** Requests *)

(** [http.StatusText] of the errors. *)
Definition StatusText (code : Z) : string :=
  match code with
  | 400 => "Bad Request" | 401 => "Unauthorized" | 402 => "Payment Required" | 403 => "Forbidden"
  | 404 => "Not Found" | 405 => "Method Not Allowed" | 406 => "Not Acceptable"
  | 407 => "Proxy Authentication Required" | 408 => "Request Timeout" | 409 => "Conflict" | 410 => "Gone"
  | 411 => "Length Required" | 412 => "Precondition Failed" | 413 => "Request Entity Too Large"
  | 414 => "Request URI Too Long" | 415 => "Unsupported Media Type" | 416 => "Requested Range Not Satisfiable"
  | 417 => "Expectation Failed" | 418 => "I'm a teapot" | 421 => "Misdirected Request"
  | 422 => "Unprocessable Entity" | 423 => "Locked" | 424 => "Failed Dependency" | 425 => "Too Early"
  | 426 => "Upgrade Required" | 428 => "Precondition Required" | 429 => "Too Many Requests"
  | 431 => "Request Header Fields Too Large" | 451 => "Unavailable For Legal Reasons"
  | 500 => "Internal Server Error" | 501 => "Not Implemented" | 502 => "Bad Gateway"
  | 503 => "Service Unavailable" | 504 => "Gateway Timeout" | 505 => "HTTP Version Not Supported"
  | 506 => "Variant Also Negotiates" | 507 => "Insufficient Storage" | 508 => "Loop Detected"
  | 510 => "Not Extended" | 511 => "Network Authentication Required"
  | _ => ""
  end.

(** A request: the socket it is made on, its method, its URL and its body. *)
Record request := mkRequest { req_Socket : string; req_Method : string; req_URL : string; req_Body : option json }.

Inductive httpE : Type → Type :=
| NewRequest (r : request) : httpE (option goerror)
(** [httpClient.Do]: the status of the answer *)
| Do (r : request) : httpE (result Z)
(** [io.ReadAll] of the body, as far as it went *)
| ReadAll : httpE string
(** [json.Decoder.Decode] of the body, up to the document *)
| DecodeBody : httpE (result json)
| CloseBody : httpE unit.

(** The common part of the operations: an error, with the body closed, or an answer whose body
    is open. *)
Definition send (socketPath method path : string) (body : option json) : prog httpE (result unit) :=
  let req := mkRequest socketPath method ("http://localhost/api/v1" +:+ path) body in
  (let! err := call (NewRequest req) in
   match err with
   | Some e => Ret (Err (ErrFmt "build request" e))
   | None =>
       let! resp := call (Do req) in
       match resp with
       | Err e => Ret (Err (ErrFmt "do request" e))
       | Ok code =>
           if 400 <=? code then
             let! text := call ReadAll in
             call CloseBody ;;;
             Ret (Err (ErrMsg ("request failed: " +:+ Strconv.FormatInt code +:+ " " +:+ StatusText code +:+ ": " +:+ text)%string))
           else Ret (Ok tt)
       end
   end)%go.

(** An operation without a result, and one with. *)
Definition perform (socketPath method path : string) (body : option json) : prog httpE (option goerror) :=
  (let! r := send socketPath method path body in
   match r with
   | Err e => Ret (Some e)
   | Ok _ => call CloseBody ;;; Ret None
   end)%go.
Definition exchange {A} (J : Json A) (socketPath method path : string) (body : option json) : prog httpE (result (option A)) :=
  (let! r := send socketPath method path body in
   match r with
   | Err e => Ret (Err e)
   | Ok _ =>
       let! doc := call DecodeBody in
       call CloseBody ;;;
       Ret match doc with
           | Err e => Err (ErrFmt "decode response" e)
           | Ok j => match dec (json_ptr J) j with
                     | Ok ret => Ok ret
                     | Err e => Err (ErrFmt "decode response" e)
                     end
           end
   end)%go.

Module Client.
(** The operations of a client; [NewClient(socketPath)] is the socket. *)
Section Operations.
Context (c : string).
Definition VmAddDevice (arg : option DeviceConfig) : prog httpE (result (option PciDeviceInfo)) :=
  exchange PciDeviceInfo_json c "PUT" "/vm.add-device" (Some (enc (json_ptr DeviceConfig_json) arg)).
Definition VmAddDisk (arg : option DiskConfig) : prog httpE (result (option PciDeviceInfo)) :=
  exchange PciDeviceInfo_json c "PUT" "/vm.add-disk" (Some (enc (json_ptr DiskConfig_json) arg)).
Definition VmAddFs (arg : option FsConfig) : prog httpE (result (option PciDeviceInfo)) :=
  exchange PciDeviceInfo_json c "PUT" "/vm.add-fs" (Some (enc (json_ptr FsConfig_json) arg)).
Definition VmAddNet (arg : option NetConfig) : prog httpE (result (option PciDeviceInfo)) :=
  exchange PciDeviceInfo_json c "PUT" "/vm.add-net" (Some (enc (json_ptr NetConfig_json) arg)).
Definition VmAddPmem (arg : option PmemConfig) : prog httpE (result (option PciDeviceInfo)) :=
  exchange PciDeviceInfo_json c "PUT" "/vm.add-pmem" (Some (enc (json_ptr PmemConfig_json) arg)).
Definition VmAddUserDevice (arg : option VmAddUserDevice) : prog httpE (result (option PciDeviceInfo)) :=
  exchange PciDeviceInfo_json c "PUT" "/vm.add-user-device" (Some (enc (json_ptr VmAddUserDevice_json) arg)).
Definition VmAddVdpa (arg : option VdpaConfig) : prog httpE (result (option PciDeviceInfo)) :=
  exchange PciDeviceInfo_json c "PUT" "/vm.add-vdpa" (Some (enc (json_ptr VdpaConfig_json) arg)).
Definition VmAddVsock (arg : option VsockConfig) : prog httpE (result (option PciDeviceInfo)) :=
  exchange PciDeviceInfo_json c "PUT" "/vm.add-vsock" (Some (enc (json_ptr VsockConfig_json) arg)).
Definition VmBoot : prog httpE (option goerror) := perform c "PUT" "/vm.boot" None.
Definition VmCoredump (arg : option VmCoredumpData) : prog httpE (option goerror) := perform c "PUT" "/vm.coredump" (Some (enc (json_ptr VmCoredumpData_json) arg)).
Definition VmCounters : prog httpE (result (option VmCounters)) :=
  exchange VmCounters_json c "GET" "/vm.counters" None.
Definition VmCreate (arg : option VmConfig) : prog httpE (option goerror) := perform c "PUT" "/vm.create" (Some (enc (json_ptr VmConfig_json) arg)).
Definition VmDelete : prog httpE (option goerror) := perform c "PUT" "/vm.delete" None.
Definition VmInfo : prog httpE (result (option VmInfo)) :=
  exchange VmInfo_json c "GET" "/vm.info" None.
Definition VmPause : prog httpE (option goerror) := perform c "PUT" "/vm.pause" None.
Definition VmPowerButton : prog httpE (option goerror) := perform c "PUT" "/vm.power-button" None.
Definition VmReboot : prog httpE (option goerror) := perform c "PUT" "/vm.reboot" None.
Definition VmReceiveMigration (arg : option ReceiveMigrationData) : prog httpE (option goerror) := perform c "PUT" "/vm.receive-migration" (Some (enc (json_ptr ReceiveMigrationData_json) arg)).
Definition VmRemoveDevice (arg : option VmRemoveDevice) : prog httpE (option goerror) := perform c "PUT" "/vm.remove-device" (Some (enc (json_ptr VmRemoveDevice_json) arg)).
Definition VmResize (arg : option VmResize) : prog httpE (option goerror) := perform c "PUT" "/vm.resize" (Some (enc (json_ptr VmResize_json) arg)).
Definition VmResizeZone (arg : option VmResizeZone) : prog httpE (option goerror) := perform c "PUT" "/vm.resize-zone" (Some (enc (json_ptr VmResizeZone_json) arg)).
Definition VmRestore (arg : option RestoreConfig) : prog httpE (option goerror) := perform c "PUT" "/vm.restore" (Some (enc (json_ptr RestoreConfig_json) arg)).
Definition VmResume : prog httpE (option goerror) := perform c "PUT" "/vm.resume" None.
Definition VmSendMigration (arg : option SendMigrationData) : prog httpE (option goerror) := perform c "PUT" "/vm.send-migration" (Some (enc (json_ptr SendMigrationData_json) arg)).
Definition VmShutdown : prog httpE (option goerror) := perform c "PUT" "/vm.shutdown" None.
Definition VmSnapshot (arg : option VmSnapshotConfig) : prog httpE (option goerror) := perform c "PUT" "/vm.snapshot" (Some (enc (json_ptr VmSnapshotConfig_json) arg)).
Definition VmmNmi : prog httpE (option goerror) := perform c "PUT" "/vmm.nmi" None.
Definition VmmPing : prog httpE (result (option VmmPingResponse)) :=
  exchange VmmPingResponse_json c "GET" "/vmm.ping" None.
Definition VmmShutdown : prog httpE (option goerror) := perform c "PUT" "/vmm.shutdown" None.
End Operations.
End Client.
