(* ===== verification/Generator.v ===== *)
(** * The generator of the hypervisor's client (cmd/cloud-hypervisor-client-gen/main.go)

    From the OpenAPI document, once it was fetched and loaded, to the data that the template of the
    client is rendered with.  The document has the fields that the generator reads; a pointer is an
    option, a map a [gmap].  A panic, by the code or by a nil pointer, is [None].

    What Go leaves open is the class [Runtime]: the order in which a [range] over a map visits it,
    which may differ each time (each [range] is named after what it ranges over), and the order
    of equal elements after [sort.Sort]. *)

From stdpp Require Import base gmap strings list sorting.
From Stdlib Require Import Ascii ZArith Lia.
From S2P Require Import Prelude GoStd.

(** ** The document *)

Inductive Schema := mkSchema {
  Ref : string;
  Type_ : string;
  Format : string;
  sc_Description : string;
  Items : option Schema;
  AdditionalProperties : option Schema;
  Properties : gmap string (option Schema);
  sc_Required : list string
}.

Record MediaType := mkMediaType { mt_Schema : option Schema }.
Record RequestBody := mkRequestBody { rb_Content : gmap string (option MediaType) }.
Record Response := mkResponse { resp_Content : gmap string (option MediaType) }.

Record Operation := mkOperation {
  Summary : string;
  op_RequestBody : option RequestBody;
  Responses : gmap string (option Response)
}.

Record PathItem := mkPathItem {
  pi_Description : string;
  Get : option Operation;
  Put : option Operation;
  Post : option Operation;
  Delete : option Operation;
  Patch : option Operation
}.

Record Document := mkDocument {
  Paths : gmap string (option PathItem);
  (** [Components.Schemas] *)
  Schemas : option (gmap string (option Schema))
}.

(** ** What is rendered *)

Record endpoint := mkEndpoint {
  ep_Name : string;
  ep_Desc : string;
  Method : string;
  Path : string;
  Arg : string;
  Ret_ : string
}.

Record field := mkField {
  f_Name : string;
  f_Desc : string;
  f_Type : string;
  Key : string;
  Required : bool
}.

Record type_ := mkType { tp_Name : string; tp_Desc : string; Fields : list field }.

(** ** What Go leaves open *)

Class Runtime := {
  (** the visits of the [range] named [at_], over [m] *)
  range (at_ : string) {A} (m : gmap string A) : list (string * A);
  (** [sort.Sort] with a [Less] that compares names *)
  Sort {A} (name : A → string) (l : list A) : list A
}.

Class RuntimeLaws (R : Runtime) := {
  range_visits at_ A (m : gmap string A) : range at_ m ≡ₚ map_to_list m;
  Sort_permutes A (name : A → string) l : Sort name l ≡ₚ l;
  Sort_sorts A (name : A → string) l : StronglySorted (λ a b, String.leb (name a) (name b)) (Sort name l)
}.

(** ** Names *)

Definition is_lower (c : ascii) : bool := (97 <=? code c)%Z && (code c <=? 122)%Z.
Definition is_upper (c : ascii) : bool := (65 <=? code c)%Z && (code c <=? 90)%Z.
Definition is_digit (c : ascii) : bool := (48 <=? code c)%Z && (code c <=? 57)%Z.

(** [strings.Title] on ASCII strings: the letters that follow a separator are in upper case. *)
Definition is_separator (c : ascii) : bool :=
  (code c <? 128)%Z && negb (is_lower c || is_upper c || is_digit c || (code c =? 95)%Z).
Fixpoint title_after (prev : ascii) (s : string) : string :=
  match s with
  | EmptyString => EmptyString
  | String c s => String (if is_separator prev && is_lower c then chr (code c - 32) else c) (title_after c s)
  end.
Definition Title (s : string) : string := title_after " "%char s.

(** ** Types of Go *)

(** [segs[len(segs)-1]]; [strings.Split] returns at least one segment. *)
Definition last_segment (ref : string) : string := default "" (last (Strings.Split "/"%char ref)).

Fixpoint schemaToTypeName (schema : Schema) : option string :=
  if negb (bool_decide (Ref schema = "")) then Some ("*" +:+ last_segment (Ref schema))
  else if bool_decide (Type_ schema = "boolean") then Some "bool"
  else if bool_decide (Type_ schema = "integer") then
    Some (if bool_decide (Format schema = "int16") then "int16"
          else if bool_decide (Format schema = "int64") then "int64"
          else "int")
  else if bool_decide (Type_ schema = "string") then Some "string"
  else if bool_decide (Type_ schema = "array") then
    match Items schema with Some s => String.append "[]" <$> schemaToTypeName s | None => None end
  else if bool_decide (Type_ schema = "object") then
    match AdditionalProperties schema with
    | None => Some "map[string]interface{}"
    | Some s => String.append "map[string]" <$> schemaToTypeName s
    end
  else None.

(** A nil schema is dereferenced. *)
Definition schemaPtrToTypeName (schema : option Schema) : option string := schema ≫= schemaToTypeName.

Section Generator.
Context `{R : Runtime}.
(** [strcase.ToCamel] *)
Variable ToCamel : string → string.

Definition newField (key : string) (schema : option Schema) (required : bool) : option field :=
  s ← schema;
  t ← schemaToTypeName s;
  Some (mkField (Title (ToCamel key)) (sc_Description s) t key required).

Definition newType (name : string) (schema : option Schema) : option type_ :=
  s ← schema;
  fields ← mapM (λ '(fieldName, fieldSchema),
             newField fieldName fieldSchema (existsb (λ r, bool_decide (r = fieldName)) (sc_Required s)))
           (range ("properties of " +:+ name) (Properties s));
  Some (mkType name (sc_Description s) (Sort f_Name fields)).

(** The method and the operation that [newEndpoint] picks. *)
Definition pick (pathItem : PathItem) : option (string * Operation) :=
  match pathItem with
  | mkPathItem _ (Some op) _ _ _ _ => Some ("GET", op)
  | mkPathItem _ None (Some op) _ _ _ => Some ("PUT", op)
  | mkPathItem _ None None (Some op) _ _ => Some ("POST", op)
  | mkPathItem _ None None None (Some op) _ => Some ("DELETE", op)
  | mkPathItem _ None None None None (Some op) => Some ("PATCH", op)
  | mkPathItem _ None None None None None => None
  end.

(** [Content["application/json"]]: a missing and a nil entry are both nil. *)
Definition json_content (content : gmap string (option MediaType)) : option MediaType :=
  mjoin (content !! "application/json").

Definition arg_type (op : Operation) : option string :=
  match op_RequestBody op with
  | None => Some ""
  | Some body => match json_content (rb_Content body) with
                 | None => Some ""
                 | Some arg => schemaPtrToTypeName (mt_Schema arg)
                 end
  end.

(** One round of the loop over the responses; [ret] is what [ep.Ret] holds. *)
Definition ret_round (ret : option string) (r : string * option Response) : option string :=
  t ← ret;
  if Strings.HasPrefix (fst r) "2" then
    resp ← snd r;
    match json_content (resp_Content resp) with
    | None => Some t
    | Some mt => schemaPtrToTypeName (mt_Schema mt)
    end
  else Some t.

Definition ret_type (path : string) (op : Operation) : option string :=
  foldl ret_round (Some "") (range ("responses of " +:+ path) (Responses op)).

Definition newEndpoint (path : string) (pathItem : option PathItem) : option endpoint :=
  item ← pathItem;
  '(method, op) ← pick item;
  arg ← arg_type op;
  ret ← ret_type path op;
  Some (mkEndpoint (Title (ToCamel path))
    (if bool_decide (pi_Description item = "") then Summary op else pi_Description item) method path arg ret).

(** [main], from the loaded document to the data of the template. *)
Definition generate (doc : Document) : option (list endpoint * list type_) :=
  eps ← mapM (λ '(path, item), newEndpoint path item) (range "paths" (Paths doc));
  schemas ← Schemas doc;
  tps ← mapM (λ '(name, schema), newType name schema) (range "schemas" schemas);
  Some (Sort ep_Name eps, Sort tp_Name tps).

End Generator.

(** ** The output does not depend on what Go leaves open *)

Section Lists.
Context {A B : Type}.

Lemma mapM_permutation (f : A → option B) l l' : l ≡ₚ l' → option_Forall2 Permutation (mapM f l) (mapM f l').
Proof.
  induction 1 as [|x l l' _ IH|x y l|l1 l2 l3 _ IH1 _ IH2]; simpl.
  - by repeat constructor.
  - destruct (f x); simpl; [|constructor]. inversion IH; simpl; constructor. by constructor.
  - destruct (f x), (f y); simpl; try constructor; destruct (mapM f l); simpl; constructor. by constructor.
  - by etrans.
Qed.

Lemma mapM_ext_elem (f g : A → option B) l : (∀ x, x ∈ l → f x = g x) → mapM f l = mapM g l.
Proof.
  induction l as [|x l IH]; intros He; simpl; [done|]. rewrite He by left. rewrite IH; [done|]. intros. apply He. by right.
Qed.

Lemma Forall2_elem {P : A → B → Prop} {l k y} : Forall2 P l k → y ∈ k → ∃ x, x ∈ l ∧ P x y.
Proof. induction 1; set_solver. Qed.
Lemma Forall2_elem_l {P : A → B → Prop} {l k x} : Forall2 P l k → x ∈ l → ∃ y, y ∈ k ∧ P x y.
Proof. induction 1; set_solver. Qed.

Lemma foldl_permutation (f : B → A → B) l l' b :
  l ≡ₚ l' → (∀ x y b, x ∈ l → y ∈ l → f (f b x) y = f (f b y) x) → foldl f b l = foldl f b l'.
Proof.
  intros Hl. revert b. induction Hl as [|x l l' Hl IH|x y l|l1 l2 l3 Hl1 IH1 Hl2 IH2]; intros b Hf; simpl.
  - done.
  - apply IH. intros. apply Hf; by right.
  - by rewrite (Hf x y) by set_solver.
  - rewrite IH1 by done. apply IH2. intros ? ? ?. rewrite <- Hl1. apply Hf.
Qed.
End Lists.

(** Two sorts of two permutations, with equal elements wherever names are equal. *)
Lemma Sort_unique {A} (R1 R2 : Runtime) `{!RuntimeLaws R1, !RuntimeLaws R2} (name : A → string) l l' :
  l ≡ₚ l' → (∀ a b, a ∈ l → b ∈ l → name a = name b → a = b) → @Sort R1 _ name l = @Sort R2 _ name l'.
Proof.
  intros Hl Hn. eapply StronglySorted_unique_strong; [|apply Sort_sorts..|by rewrite !Sort_permutes].
  intros a b. rewrite !Sort_permutes, <- Hl. intros Ha Hb Hab Hba. apply Hn; [done..|].
  apply String.leb_antisym; by apply Is_true_true.
Qed.

Section Deterministic.
Context (R1 R2 : Runtime) `{!RuntimeLaws R1, !RuntimeLaws R2} (ToCamel : string → string).

Lemma range_elem (R : Runtime) `{!RuntimeLaws R} at_ {A} (m : gmap string A) k a : (k, a) ∈ range at_ m ↔ m !! k = Some a.
Proof. by rewrite range_visits, elem_of_map_to_list. Qed.

(** A map that is ranged over, turned into a list with [f] and sorted by name. *)
Lemma Sort_range {A B} at_ (m : gmap string A) (f g : string * A → option B) (name : B → string) :
  (∀ k a, m !! k = Some a → f (k, a) = g (k, a)) →
  (∀ k a k' a' b b', m !! k = Some a → m !! k' = Some a' → f (k, a) = Some b → f (k', a') = Some b' → name b = name b' → k = k') →
  @Sort R1 _ name <$> mapM f (@range R1 at_ _ m) = @Sort R2 _ name <$> mapM g (@range R2 at_ _ m).
Proof.
  intros Hfg Hn. rewrite (mapM_ext_elem g f) by (intros [k a] ?; symmetry; apply Hfg; by eapply range_elem).
  assert (Hp : @range R1 at_ _ m ≡ₚ @range R2 at_ _ m) by by rewrite !range_visits.
  pose proof (mapM_permutation f _ _ Hp) as Hq.
  destruct (mapM f (@range R1 at_ _ m)) as [l|] eqn:E1, (mapM f (@range R2 at_ _ m)) as [l'|] eqn:E2;
    inversion_clear Hq as [? ? Hl|]; simpl; [|done].
  f_equal. apply Sort_unique; [apply _..|done|].
  apply mapM_Some in E1. intros b b' Hb Hb' Hname.
  destruct (Forall2_elem E1 Hb) as ([k a] & Hk & Hf), (Forall2_elem E1 Hb') as ([k' a'] & Hk' & Hf').
  apply range_elem in Hk; apply range_elem in Hk'; [|apply _..].
  assert (k = k') as <- by naive_solver. naive_solver.
Qed.

(** *** Hypotheses on the document *)

(** No two keys of a map that is rendered get the same Go name. *)
Definition distinct_names {A} (m : gmap string A) : Prop :=
  ∀ k k', is_Some (m !! k) → is_Some (m !! k') → Title (ToCamel k) = Title (ToCamel k') → k = k'.

(** The JSON contents of the successful responses of an operation have one type. *)
Definition one_return (op : Operation) : Prop :=
  ∀ c c' r r' mt mt', Responses op !! c = Some (Some r) → Responses op !! c' = Some (Some r') →
    Strings.HasPrefix c "2" = true → Strings.HasPrefix c' "2" = true →
    json_content (resp_Content r) = Some mt → json_content (resp_Content r') = Some mt' →
    schemaPtrToTypeName (mt_Schema mt) = schemaPtrToTypeName (mt_Schema mt').

Definition unambiguous (doc : Document) : Prop :=
  distinct_names (Paths doc) ∧
  (∀ path item method op, Paths doc !! path = Some (Some item) → pick item = Some (method, op) → one_return op) ∧
  (∀ schemas name s, Schemas doc = Some schemas → schemas !! name = Some (Some s) → distinct_names (Properties s)).

Lemma newType_deterministic name schema :
  (∀ s, schema = Some s → distinct_names (Properties s)) →
  @newType R1 ToCamel name schema = @newType R2 ToCamel name schema.
Proof.
  intros Hn. unfold newType. destruct schema as [s|]; simpl; [|done]. specialize (Hn s eq_refl).
  set (f := λ '(k, a), newField ToCamel k a _).
  assert (Hs : @Sort R1 _ f_Name <$> mapM f (@range R1 ("properties of " +:+ name) _ (Properties s)) =
               @Sort R2 _ f_Name <$> mapM f (@range R2 ("properties of " +:+ name) _ (Properties s))).
  { apply Sort_range; [done|]. intros k a k' a' b b' Hk Hk' Hb Hb' Hname. apply Hn; [by eauto..|].
    unfold f, newField in Hb, Hb'. destruct a, a'; simplify_option_eq. done. }
  destruct (mapM f (@range R1 _ _ _)), (mapM f (@range R2 _ _ _)); simpl in *; congruence.
Qed.

(** What one response adds: [None] panics, [Some None] leaves [ep.Ret] as it is. *)
Definition response_type (r : string * option Response) : option (option string) :=
  if Strings.HasPrefix (fst r) "2" then
    resp ← snd r;
    match json_content (resp_Content resp) with
    | None => Some None
    | Some mt => Some <$> schemaPtrToTypeName (mt_Schema mt)
    end
  else Some None.

Lemma ret_round_type ret r : ret_round ret r = t ← ret; o ← response_type r; Some (default t o).
Proof.
  unfold ret_round, response_type. destruct ret as [t|]; simpl; [|done].
  destruct (Strings.HasPrefix _ _), (snd r) as [resp|]; simpl; try done.
  destruct (json_content _) as [mt|]; simpl; [|done]. by destruct (schemaPtrToTypeName _).
Qed.

Lemma response_type_unique op c o c' o' t t' :
  one_return op → Responses op !! c = Some o → Responses op !! c' = Some o' →
  response_type (c, o) = Some (Some t) → response_type (c', o') = Some (Some t') → t = t'.
Proof.
  intros Ho Hc Hc' H1 H2. unfold response_type in *. simpl in *.
  destruct (Strings.HasPrefix c "2") eqn:E1, (Strings.HasPrefix c' "2") eqn:E2; try done.
  destruct o as [r|], o' as [r'|]; simpl in *; try done.
  destruct (json_content (resp_Content r)) as [mt|] eqn:E3, (json_content (resp_Content r')) as [mt'|] eqn:E4; try done.
  specialize (Ho c c' r r' mt mt'). apply fmap_Some in H1 as (u & Hu & [= ->]), H2 as (u' & Hu' & [= ->]).
  assert (schemaPtrToTypeName (mt_Schema mt) = schemaPtrToTypeName (mt_Schema mt')) by auto. congruence.
Qed.

Lemma ret_type_deterministic path op : one_return op → @ret_type R1 path op = @ret_type R2 path op.
Proof.
  intros Ho. apply foldl_permutation; [by rewrite !range_visits|].
  intros [c o] [c' o'] b Hc%range_elem Hc'%range_elem; [|done..]. rewrite !ret_round_type. destruct b as [t|]; simpl; [|done].
  pose proof (response_type_unique op c o c' o') as Hu.
  destruct (response_type (c, o)) as [[]|], (response_type (c', o')) as [[]|]; simpl; try done.
  by rewrite (Hu s s0).
Qed.

Lemma newEndpoint_deterministic path item :
  (∀ i method op, item = Some i → pick i = Some (method, op) → one_return op) →
  @newEndpoint R1 ToCamel path item = @newEndpoint R2 ToCamel path item.
Proof.
  intros Ho. unfold newEndpoint. destruct item as [i|]; simpl; [|done]. destruct (pick i) as [[method op]|] eqn:Ep; simpl; [|done].
  by rewrite (ret_type_deterministic path op) by eauto.
Qed.

Lemma newEndpoint_name (R : Runtime) path item e :
  @newEndpoint R ToCamel path item = Some e → ep_Name e = Title (ToCamel path).
Proof.
  unfold newEndpoint. intros He. destruct item as [i|]; simpl in He; [|done].
  destruct (pick i) as [[]|]; simpl in He; [|done]. by simplify_option_eq.
Qed.

Lemma newType_name (R : Runtime) name schema t : @newType R ToCamel name schema = Some t → tp_Name t = name.
Proof. unfold newType. intros. by simplify_option_eq. Qed.

End Deterministic.


(** ** What is generated *)

(** The Go types that a schema can have. *)
Inductive gotype :=
| GBool | GInt | GInt16 | GInt64 | GString | GAny
| GPtr (name : string)
| GSlice (elem : gotype)
| GMap (elem : gotype).

Fixpoint print_gotype (t : gotype) : string :=
  match t with
  | GBool => "bool" | GInt => "int" | GInt16 => "int16" | GInt64 => "int64" | GString => "string" | GAny => "interface{}"
  | GPtr name => "*" +:+ name
  | GSlice t => "[]" +:+ print_gotype t
  | GMap t => "map[string]" +:+ print_gotype t
  end.

(** The typing of schemas: a reference is a pointer to the type it names, and otherwise the schema's
    own type counts. *)
Inductive has_type : Schema → gotype → Prop :=
| T_ref s : Ref s ≠ "" → has_type s (GPtr (last_segment (Ref s)))
| T_boolean s : Ref s = "" → Type_ s = "boolean" → has_type s GBool
| T_int16 s : Ref s = "" → Type_ s = "integer" → Format s = "int16" → has_type s GInt16
| T_int64 s : Ref s = "" → Type_ s = "integer" → Format s = "int64" → has_type s GInt64
| T_int s : Ref s = "" → Type_ s = "integer" → Format s ∉ ["int16"; "int64"] → has_type s GInt
| T_string s : Ref s = "" → Type_ s = "string" → has_type s GString
| T_array s i t : Ref s = "" → Type_ s = "array" → Items s = Some i → has_type i t → has_type s (GSlice t)
| T_map s a t : Ref s = "" → Type_ s = "object" → AdditionalProperties s = Some a → has_type a t → has_type s (GMap t)
| T_object s : Ref s = "" → Type_ s = "object" → AdditionalProperties s = None → has_type s (GMap GAny).
#[local] Hint Constructors has_type : gen.

(** The printed type determines the type. *)
Lemma print_gotype_inj t t' : print_gotype t = print_gotype t' → t = t'.
Proof. revert t'. induction t; intros [] H; simplify_eq/=; try done; f_equal; auto. Qed.

Lemma has_type_name s t : has_type s t → schemaToTypeName s = Some (print_gotype t).
Proof.
  induction 1 as [s Hr|s Hr Ht|s Hr Ht Hf|s Hr Ht Hf|s Hr Ht Hf|s Hr Ht|s i t Hr Ht Hi _ IH|s i t Hr Ht Hi _ IH|s Hr Ht Hi];
    destruct s; simpl in *; subst; simpl.
  all: try (rewrite bool_decide_false by done; done). all: try done.
  - rewrite !bool_decide_false by set_solver. done.
  - by rewrite IH.
  - by rewrite IH.
Qed.

Lemma name_has_type s : ∀ n, schemaToTypeName s = Some n → ∃ t, has_type s t ∧ print_gotype t = n.
Proof.
  revert s. fix IH 1. intros [ref ty fmt desc items addl props req] n. simpl.
  case_bool_decide as Href; simpl; subst; intros Hn; [|simplify_eq; eexists; split; [by apply T_ref|done]].
  repeat case_bool_decide; simplify_eq/=.
  6: { destruct items as [i|]; [|done]. apply fmap_Some in Hn as (m & Hm & ->).
       destruct (IH i m Hm) as (t & Ht & <-). exists (GSlice t). eauto with gen. }
  6: { destruct addl as [a|]; simplify_eq; [|exists (GMap GAny); eauto with gen].
       apply fmap_Some in Hn as (m & Hm & ->). destruct (IH a m Hm) as (t & Ht & <-). exists (GMap t). eauto with gen. }
  all: eexists; split; [|shelve]; eauto with gen.
  apply T_int; [done..|]. set_solver.
  Unshelve. all: done.
Qed.

(** C28: the Go type of a schema: a name is returned exactly when the typing of schemas gives it a
    type, the name is a spelling of this type and of no other, and the generator panics exactly on
    the schemas that have no type. *)
Theorem schemaToTypeName_typed s n :
  schemaToTypeName s = Some n ↔ ∃ t, has_type s t ∧ ∀ t', print_gotype t' = n ↔ t' = t.
Proof.
  split.
  - intros (t & Ht & <-)%name_has_type. exists t. split; [done|]. intros t'. split; [apply print_gotype_inj|by intros ->].
  - intros (t & Ht & Hn). rewrite (has_type_name _ _ Ht). f_equal. by apply Hn.
Qed.

Section Fields.
Context (R : Runtime) `{!RuntimeLaws R} (ToCamel : string → string).

(** The field of the property [k]. *)
Definition field_of (required : list string) (k : string) (p : Schema) (t : gotype) : field :=
  mkField (Title (ToCamel k)) (sc_Description p) (print_gotype t) k (bool_decide (k ∈ required)).

Lemma newField_typed s k a f :
  newField ToCamel k a (existsb (λ r, bool_decide (r = k)) (sc_Required s)) = Some f ↔
  ∃ p t, a = Some p ∧ has_type p t ∧ f = field_of (sc_Required s) k p t.
Proof.
  replace (existsb _ _) with (bool_decide (k ∈ sc_Required s)).
  2: { apply Bool.eq_iff_eq_true. rewrite bool_decide_eq_true, existsb_exists. setoid_rewrite bool_decide_eq_true.
       setoid_rewrite <- list_elem_of_In. naive_solver. }
  unfold newField. split.
  - intros Hf. destruct a as [p|]; simpl in Hf; [|done]. destruct (schemaToTypeName p) eqn:E; simplify_eq/=.
    apply name_has_type in E as (t & Ht & <-). by exists p, t.
  - intros (p & t & -> & Ht & ->). simpl. by rewrite (has_type_name _ _ Ht).
Qed.

(** The struct of a schema: [newType] returns exactly when each of its properties has a type,
    and then the struct has, sorted by name, one field for each property and no other, with
    the property's key, type and description, and required exactly when the schema lists it. *)
Theorem newType_fields name s :
  (is_Some (@newType R ToCamel name (Some s)) ↔ ∀ k a, Properties s !! k = Some a → ∃ p t, a = Some p ∧ has_type p t) ∧
  ∀ tp, @newType R ToCamel name (Some s) = Some tp →
    tp_Name tp = name ∧ StronglySorted (λ f g, String.le (f_Name f) (f_Name g)) (Fields tp) ∧
    length (Fields tp) = size (Properties s) ∧
    ∀ f, f ∈ Fields tp ↔ ∃ k p t, Properties s !! k = Some (Some p) ∧ has_type p t ∧ f = field_of (sc_Required s) k p t.
Proof.
  unfold newType. simpl. set (g := λ '(k, a), newField ToCamel k a _). set (l := range _ _).
  assert (Hl : ∀ k a, (k, a) ∈ l ↔ Properties s !! k = Some a) by (intros; apply range_elem; apply _).
  assert (Hf : ∀ k p t, has_type p t → g (k, Some p) = Some (field_of (sc_Required s) k p t)).
  { intros k p t Ht. apply newField_typed. eauto. }
  destruct (mapM g l) as [fs|] eqn:E; simpl; split.
  - split; [|by eauto]. intros _ k a Hk%Hl. apply mapM_Some in E.
    destruct (Forall2_elem_l E Hk) as (f & _ & (p & t & Ha & Ht & _)%newField_typed). eauto.
  - intros tp [= <-]. simpl. split; [done|]. split; [apply Sort_sorts|]. split.
    { rewrite Sort_permutes, <- (length_mapM _ _ _ E). unfold l. by rewrite range_visits, length_map_to_list. }
    intros f. rewrite Sort_permutes. apply mapM_Some in E. split.
    + intros Hfs. destruct (Forall2_elem E Hfs) as ([k a] & Hk%Hl & (p & t & -> & Ht & ->)%newField_typed). eauto 7.
    + intros (k & p & t & Hk%Hl & Ht & ->). destruct (Forall2_elem_l E Hk) as (f & Hfs & Hg).
      rewrite (Hf _ _ _ Ht) in Hg. by simplify_eq.
  - split; [by intros []|]. intros Hall. exfalso. apply mapM_None, Exists_exists in E as ([k a] & Hk%Hl & Hg).
    destruct (Hall k a Hk) as (p & t & -> & Ht). by rewrite (Hf _ _ _ Ht) in Hg.
  - done.
Qed.
End Fields.

(** ** A concrete document *)

(** Go's runtime with the maps in one order, or in the opposite one, and a stable sort that starts
    from the list or from its reverse. *)
Definition name_le {A} (name : A → string) : relation A := λ a b, String.leb (name a) (name b).
#[export] Instance name_le_dec {A} (name : A → string) : RelDecision (name_le name) := λ a b, _.

Definition runtime (flip : bool) : Runtime := {|
  range _ A m := (if flip then reverse else id) (map_to_list m);
  Sort A name l := merge_sort (name_le name) ((if flip then reverse else id) l)
|}.

#[export] Instance runtime_laws flip : RuntimeLaws (runtime flip).
Proof.
  split.
  - intros. simpl. destruct flip; [apply reverse_Permutation|done].
  - intros. simpl. rewrite merge_sort_Permutation. destruct flip; [apply reverse_Permutation|done].
  - intros A name l. apply StronglySorted_merge_sort.
    + intros a b c. apply (transitivity (R := String.le)).
    + intros a b. apply String.le_total.
Qed.

(** [strcase.ToCamel] on the paths and keys of the document: separators are dropped and the letter
    after one is in upper case. *)
Fixpoint camel (up : bool) (s : string) : string :=
  match s with
  | EmptyString => EmptyString
  | String c s =>
      if is_lower c || is_upper c then String (if up && is_lower c then chr (code c - 32) else c) (camel false s)
      else if is_digit c then String c (camel true s)
      else camel (bool_decide (c ∈ ["_"; " "; "-"; "."]%char)) s
  end.

(** A part of cloud-hypervisor's document. *)
Definition scalar (ty format : string) : option Schema := Some (mkSchema "" ty format "" None None ∅ []).
Definition ref (r : string) : option Schema := Some (mkSchema r "" "" "" None None ∅ []).
Definition example_doc : Document := mkDocument
  {[ "/vm.info" := Some (mkPathItem "" (Some (mkOperation "Returns general information" None
       {[ "200" := Some (mkResponse {[ "application/json" := Some (mkMediaType (ref "#/components/schemas/VmInfo")) ]}) ]}))
       None None None None);
     "/vm.resize" := Some (mkPathItem "" None (Some (mkOperation "Resize the VM"
       (Some (mkRequestBody {[ "application/json" := Some (mkMediaType (ref "#/components/schemas/VmResize")) ]}))
       {[ "204" := Some (mkResponse ∅) ]})) None None None) ]}
  (Some {[ "VmResize" := Some (mkSchema "" "object" "" "" None None
     {[ "desired_vcpus" := scalar "integer" ""; "desired_ram" := scalar "integer" "int64" ]} []) ]}).

(** What is rendered for it. *)
Example example_rendered : @generate (runtime true) (camel true) example_doc =
  Some ([mkEndpoint "VmInfo" "Returns general information" "GET" "/vm.info" "" "*VmInfo";
         mkEndpoint "VmResize" "Resize the VM" "PUT" "/vm.resize" "*VmResize" ""],
        [mkType "VmResize" "" [mkField "DesiredRam" "" "int64" "desired_ram" false;
                               mkField "DesiredVcpus" "" "int" "desired_vcpus" false]]).
Proof. vm_compute. reflexivity. Qed.

Lemma example_unambiguous : unambiguous (camel true) example_doc.
Proof.
  split; [|split].
  - intros k k' Hk%elem_of_dom Hk'%elem_of_dom Hn.
    assert (k = "/vm.info" ∨ k = "/vm.resize") as [-> | ->] by set_solver;
    assert (k' = "/vm.info" ∨ k' = "/vm.resize") as [-> | ->] by set_solver; done.
  - intros path item method op Hp Ho. cbn in Hp.
    apply lookup_insert_Some in Hp as [(<- & [= <-])|(_ & [<- [= <-]]%lookup_singleton_Some)]; simpl in Ho; simplify_eq;
      intros c c' r r' mt mt'; simpl; rewrite !lookup_singleton_Some; naive_solver.
  - intros schemas name s [= <-] [<- [= <-]]%lookup_singleton_Some. intros k k' Hk%elem_of_dom Hk'%elem_of_dom Hn.
    assert (k = "desired_vcpus" ∨ k = "desired_ram") as [-> | ->] by set_solver;
    assert (k' = "desired_vcpus" ∨ k' = "desired_ram") as [-> | ->] by set_solver; done.
Qed.


(** The struct with a required and an optional field. *)
Definition example_schema : Schema :=
  mkSchema "" "object" "" "" None None {[ "size" := scalar "integer" "int64"; "id" := scalar "string" "" ]} ["size"].
Lemma newType_fields_witness :
  ∃ tp, @newType (runtime true) (camel true) "MemoryZone" (Some example_schema) = Some tp ∧
    length (Fields tp) = size (Properties example_schema) ∧
    (field_of (camel true) ["size"] "size" (default example_schema (scalar "integer" "int64")) GInt64 ∈ Fields tp).
Proof.
  destruct (newType_fields (runtime true) (camel true) "MemoryZone" example_schema) as [_ Hf].
  eexists. split; [vm_compute; reflexivity|]. split; [vm_compute; reflexivity|].
  refine (proj2 (proj2 (proj2 (proj2 (Hf _ _))) _) _); [vm_compute; reflexivity|].
  exists "size", (default example_schema (scalar "integer" "int64")), GInt64.
  split; [vm_compute; reflexivity|]. split; [by constructor|reflexivity].
Defined.
