(* ===== verification/CpuSet.v ===== *)
(** * CPU sets: pkg/cpuset/cpuset.go

    The set of CPUs a VM pod may use, parsed from the kernel's list format.  A
    [CPUSet] is a map used as a set, here a [gset Z].  The inner loop of [Parse]
    counts with a 64-bit [int], so it is modelled with fuel and the wrap-around of
    [e++] written out. *)

From stdpp Require Import base gmap strings list sets fin_maps sorting.
From Stdlib Require Import ZArith Lia Ascii.
From S2P Require Import Prelude GoStd.
Open Scope Z_scope.

Abbreviation CPUSet := (gset Z).

Definition Add (elem : Z) (b : CPUSet) : CPUSet := {[elem]} ∪ b.

Definition NewCPUSet (cpus : list Z) : CPUSet := foldl (λ b c, Add c b) ∅ cpus.

(** [for e := start; e <= end; e++ { b.Add(e) }]; [None] when the fuel is used up. *)
Fixpoint add_range (fuel : nat) (e end_ : Z) (b : CPUSet) : option CPUSet :=
  if e <=? end_ then
    match fuel with
    | O => None
    | S f => add_range f (i64 (e + 1)) end_ (Add e b)
    end
  else Some b.

(** The body of the loop over the comma-separated ranges. *)
Definition parse_range (fuel : nat) (r : string) (b : CPUSet) : option (result CPUSet) :=
  let syntax s := ErrMsg ("parsing " +:+ s +:+ ": invalid syntax or out of range")%string in
  match Strings.Cut "-"%char r with
  | (elem, None) =>
      match Strconv.Atoi elem with
      | Some e => Some (Ok (Add e b))
      | None => Some (Err (syntax elem))
      end
  | (lo, Some hi) =>
      match Strconv.Atoi lo with
      | None => Some (Err (syntax lo))
      | Some start =>
          match Strconv.Atoi hi with
          | None => Some (Err (syntax hi))
          | Some end_ =>
              if end_ <? start then Some (Err (ErrMsg ("invalid range " +:+ r)%string))
              else match add_range fuel start end_ b with
                   | Some b' => Some (Ok b')
                   | None => None
                   end
          end
      end
  end.

Fixpoint parse_ranges (fuel : nat) (ranges : list string) (b : CPUSet) : option (result CPUSet) :=
  match ranges with
  | [] => Some (Ok b)
  | r :: ranges' =>
      match parse_range fuel r b with
      | Some (Ok b') => parse_ranges fuel ranges' b'
      | Some (Err e) => Some (Err e)
      | None => None
      end
  end.

(** [Parse]; [None] when [fuel] does not cover a range. *)
Definition Parse (fuel : nat) (s : string) : option (result CPUSet) :=
  if decide (s = "") then Some (Ok ∅)
  else parse_ranges fuel (Strings.Split ","%char s) ∅.

Definition ToSlice (s : CPUSet) : list Z := merge_sort Z.le (elements s).

Definition cpuSetPath (isCgroup2 : bool) : string :=
  if isCgroup2 then "/sys/fs/cgroup/cpuset.cpus.effective" else "/sys/fs/cgroup/cpuset/cpuset.cpus".

(** [Get]: the file read is an argument. *)
Definition Get (fuel : nat) (isCgroup2 : bool) (readFile : string → result string) : option (result CPUSet) :=
  match readFile (cpuSetPath isCgroup2) with
  | Err e => Some (Err (ErrFmt "read CPU set file" e))
  | Ok b => Parse fuel (Strings.TrimSpace b)
  end.

(** ** The kernel's list format *)

(** A single CPU or an inclusive range. *)
Inductive cpu_range := One (c : Z) | Range (lo hi : Z).

Definition in_range (c : Z) (r : cpu_range) : Prop :=
  match r with One x => c = x | Range lo hi => lo ≤ c ≤ hi end.

Definition range_ok (r : cpu_range) : Prop :=
  match r with One x => 0 ≤ x < 2 ^ 63 | Range lo hi => 0 ≤ lo ≤ hi ∧ hi < 2 ^ 63 - 1 end.

Definition print_range (r : cpu_range) : string :=
  match r with
  | One x => Strconv.FormatInt x
  | Range lo hi => (Strconv.FormatInt lo +:+ String "-"%char (Strconv.FormatInt hi))%string
  end.

Definition print_cpus (l : list cpu_range) : string := Strings.Join (print_range <$> l) ",".

(** ** Correctness *)

Lemma add_range_spec fuel e end_ b :
  - 2 ^ 63 ≤ e → end_ < 2 ^ 63 - 1 → end_ - e < Z.of_nat fuel →
  ∃ s, add_range fuel e end_ b = Some s ∧ ∀ c, c ∈ s ↔ e ≤ c ≤ end_ ∨ c ∈ b.
Proof.
  revert e b. induction fuel as [|f IH]; intros e b He Hend Hf; simpl.
  - destruct (e <=? end_) eqn:E; bools; [lia|]. exists b. split; [done|]. intros c. split; [tauto|intros [?|?]; [lia|done]].
  - destruct (e <=? end_) eqn:E; bools.
    + rewrite i64_small by lia. destruct (IH (e + 1) (Add e b)) as (s & -> & Hs); [lia..|].
      exists s. split; [done|]. intros c. rewrite Hs. unfold Add. rewrite elem_of_union, elem_of_singleton.
      destruct (decide (c = e)); [subst|]; intuition lia.
    + exists b. split; [done|]. intros c. split; [tauto|intros [?|?]; [lia|done]].
Qed.

(** The loop never ends when the upper bound is the largest [int]: no fuel suffices. *)
Lemma add_range_diverges fuel e b : - 2 ^ 63 ≤ e < 2 ^ 63 → add_range fuel e (2 ^ 63 - 1) b = None.
Proof.
  revert e b. induction fuel as [|f IH]; intros e b He; cbn [add_range].
  - by rewrite (proj2 (Z.leb_le _ _)) by lia.
  - rewrite (proj2 (Z.leb_le _ _)) by lia. apply IH, i64_range.
Qed.

Lemma dash_comma : ¬ Strconv.digit_char "-"%char ∧ ¬ Strconv.digit_char ","%char.
Proof. unfold Strconv.digit_char. split; vm_compute; intros []; done. Qed.

Lemma print_range_lacks r : range_ok r → Strings.lacks ","%char (print_range r).
Proof.
  destruct r as [x|lo hi]; simpl; intros Hr.
  - apply Strconv.digits_lacks; [apply Strconv.FormatInt_digits; lia|apply dash_comma].
  - apply Strings.lacks_app; [|split; [done|]];
      (apply Strconv.digits_lacks; [apply Strconv.FormatInt_digits; lia|apply dash_comma]).
Qed.

(** Fuel for a range. *)
Definition range_size (r : cpu_range) : Z := match r with One _ => 1 | Range lo hi => hi - lo + 1 end.

Lemma parse_range_print fuel r b :
  range_ok r → range_size r ≤ Z.of_nat fuel →
  ∃ s, parse_range fuel (print_range r) b = Some (Ok s) ∧ ∀ c, c ∈ s ↔ in_range c r ∨ c ∈ b.
Proof.
  unfold parse_range. destruct r as [x|lo hi]; cbn [print_range range_ok range_size in_range]; intros Hr Hf.
  - rewrite Strings.Cut_lacks, Strconv.Atoi_FormatInt by
      (done || (apply Strconv.digits_lacks; [apply Strconv.FormatInt_digits; lia|apply dash_comma])).
    eexists. split; [done|]. unfold Add. set_solver.
  - rewrite Strings.Cut_app by (apply Strconv.digits_lacks; [apply Strconv.FormatInt_digits; lia|apply dash_comma]).
    rewrite !Strconv.Atoi_FormatInt by lia. rewrite (proj2 (Z.ltb_ge _ _)) by lia.
    destruct (add_range_spec fuel lo hi b) as (s & -> & Hs); [lia..|]. by exists s.
Qed.

Lemma parse_ranges_print fuel l b :
  Forall range_ok l → Forall (λ r, range_size r ≤ Z.of_nat fuel) l →
  ∃ s, parse_ranges fuel (print_range <$> l) b = Some (Ok s) ∧ ∀ c, c ∈ s ↔ Exists (in_range c) l ∨ c ∈ b.
Proof.
  revert b. induction l as [|r l IH]; intros b; csimpl.
  - intros _ _. exists b. split; [done|]. intros c. rewrite Exists_nil. tauto.
  - rewrite !Forall_cons. intros [Hr Hl] [Hf Hfl].
    destruct (parse_range_print fuel r b Hr Hf) as (s & -> & Hs). destruct (IH s Hl Hfl) as (s' & -> & Hs').
    exists s'. split; [done|]. intros c. rewrite Hs', Hs, Exists_cons. tauto.
Qed.

(** C37: parsing the list a kernel prints returns exactly the CPUs of its ranges; fuel for the
    largest range is enough. *)
Theorem Parse_print_cpus fuel l :
  Forall range_ok l → Forall (λ r, range_size r ≤ Z.of_nat fuel) l →
  ∃ s, Parse fuel (print_cpus l) = Some (Ok s) ∧ ∀ c, c ∈ s ↔ Exists (in_range c) l.
Proof.
  intros Hok Hf. unfold Parse, print_cpus. destruct (parse_ranges_print fuel l ∅ Hok Hf) as (s & Es & Hs).
  destruct l as [|r l].
  - exists ∅. split; [done|]. intros c. rewrite Exists_nil. set_solver.
  - rewrite decide_False.
    + exists s. rewrite Strings.Split_Join, Es; [|done|].
      * split; [done|]. intros c. rewrite Hs. set_solver.
      * apply Forall_fmap. eapply Forall_impl; [exact Hok|]. apply print_range_lacks.
    + apply Forall_cons in Hok as [Hr _]. intros E.
      assert (print_range r ≠ "").
      { destruct r; simpl in Hr |- *; [apply Strconv.FormatInt_digits; lia|].
        destruct (Strconv.FormatInt_digits lo) as [_ Hn]; [lia|]. by destruct (Strconv.FormatInt lo). }
      destruct l; simpl in E; [done|]. by destruct (print_range r).
Qed.

(** A list whose last range ends at the largest [int] keeps [Parse] counting for ever. *)
Theorem Parse_max_range_diverges fuel lo b :
  0 ≤ lo < 2 ^ 63 →
  parse_range fuel (Strconv.FormatInt lo +:+ String "-"%char (Strconv.FormatInt (2 ^ 63 - 1)))%string b = None.
Proof.
  intros Hlo. unfold parse_range.
  rewrite Strings.Cut_app by (apply Strconv.digits_lacks; [apply Strconv.FormatInt_digits; lia|apply dash_comma]).
  rewrite !Strconv.Atoi_FormatInt by lia. rewrite (proj2 (Z.ltb_ge _ _)) by lia.
  by rewrite add_range_diverges by lia.
Qed.

(** ** Termination *)

Definition max_int : Z := 2 ^ 63 - 1.
(** Enough fuel for every range that the loop gets through. *)
Definition enough (fuel : nat) : Prop := 2 ^ 64 ≤ Z.of_nat fuel.

(** A range that the loop gets through, and one that it counts through for ever. *)
Definition fine (r : string) : Prop :=
  match Strings.Cut "-"%char r with
  | (elem, None) => is_Some (Strconv.Atoi elem)
  | (lo, Some hi) => ∃ s e, Strconv.Atoi lo = Some s ∧ Strconv.Atoi hi = Some e ∧ s ≤ e < max_int
  end.
Definition endless (r : string) : Prop :=
  match Strings.Cut "-"%char r with
  | (elem, None) => False
  | (lo, Some hi) => is_Some (Strconv.Atoi lo) ∧ Strconv.Atoi hi = Some max_int
  end.
(** The first range that is not fine is endless. *)
Definition stuck (ranges : list string) : Prop := ∃ pre r post, ranges = pre ++ r :: post ∧ Forall fine pre ∧ endless r.

Lemma add_range_mono fuel fuel' e end_ b s : (fuel ≤ fuel')%nat → add_range fuel e end_ b = Some s → add_range fuel' e end_ b = Some s.
Proof.
  revert fuel' e b. induction fuel as [|f IH]; intros fuel' e b Hf; destruct fuel' as [|f']; simpl; try lia; try done;
    destruct (e <=? end_) eqn:E; try done. apply IH. lia.
Qed.

(** What one range does. *)
Lemma parse_range_cases r b :
  (fine r ∧ ¬ endless r ∧ ∃ b', (∀ fuel, enough fuel → parse_range fuel r b = Some (Ok b')) ∧
     ∀ fuel, parse_range fuel r b = None ∨ parse_range fuel r b = Some (Ok b')) ∨
  (endless r ∧ ¬ fine r ∧ ∀ fuel, parse_range fuel r b = None) ∨
  (¬ fine r ∧ ¬ endless r ∧ ∃ e, ∀ fuel, parse_range fuel r b = Some (Err e)).
Proof.
  unfold parse_range, fine, endless. destruct (Strings.Cut "-"%char r) as [lo [hi|]].
  2: { destruct (Strconv.Atoi lo) as [x|]; [left; eauto 10|right; right]. split; [by intros []|]. split; [tauto|]. eauto. }
  destruct (Strconv.Atoi lo) as [s|] eqn:El.
  2: { right; right. split; [naive_solver|]. split; [by intros [[] ?]|]. eauto. }
  destruct (Strconv.Atoi hi) as [e|] eqn:Eh.
  2: { right; right. split; [naive_solver|]. split; [by intros [? ?]|]. eauto. }
  pose proof (Strconv.ParseInt_range 10 64 lo s ltac:(lia) ltac:(lia) El) as Hs.
  pose proof (Strconv.ParseInt_range 10 64 hi e ltac:(lia) ltac:(lia) Eh) as He. change (64 - 1) with 63 in Hs, He.
  destruct (e <? s) eqn:E; bools.
  { right; right. split; [intros (s' & e' & [= <-] & [= <-] & ?); lia|]. unfold max_int. split; [intros [_ [= ->]]; lia|eauto]. }
  destruct (decide (e = max_int)) as [->|Hn].
  - right; left. split; [by eauto|]. split; [intros (s' & e' & [= <-] & [= <-] & ?); lia|].
    intros fuel. unfold max_int. by rewrite add_range_diverges by lia.
  - left. unfold max_int in *. split; [exists s, e; split_and!; [done..|lia|lia]|]. split; [by intros [_ [= ?]]|].
    assert (HN : ∃ N, Z.of_nat N = 2 ^ 64) by (exists (Z.to_nat (2 ^ 64)); apply Z2Nat.id; lia). destruct HN as [N HN].
    destruct (add_range_spec N s e b) as (b' & Hb & _); [lia..|]. exists b'. split.
    + intros fuel Hf. by rewrite (add_range_mono N fuel _ _ _ _ ltac:(unfold enough in Hf; lia) Hb).
    + intros fuel. destruct (add_range fuel s e b) as [x|] eqn:Ex; [right|by left].
      pose proof (add_range_mono fuel (fuel + N) _ _ _ _ ltac:(lia) Ex) as H1.
      pose proof (add_range_mono N (fuel + N) _ _ _ _ ltac:(lia) Hb) as H2. congruence.
Qed.

Lemma stuck_cons r l : stuck (r :: l) ↔ endless r ∨ fine r ∧ stuck l.
Proof.
  split.
  - intros ([|r' pre] & r0 & post & [= -> ->] & Hf & He); [by left|]. right. apply Forall_cons in Hf as [? ?]. split; [done|]. by exists pre, r0, post.
  - intros [He|[Hf (pre & r0 & post & -> & Hp & He)]]; [exists [], r, l; by repeat constructor|].
    exists (r :: pre), r0, post. split; [done|]. by split; [constructor|].
Qed.

Lemma parse_ranges_cases l b :
  (stuck l ∧ ∀ fuel, parse_ranges fuel l b = None) ∨
  (¬ stuck l ∧ ∃ res, ∀ fuel, enough fuel → parse_ranges fuel l b = Some res).
Proof.
  revert b. induction l as [|r l IH]; intros b; cbn [parse_ranges].
  { right. split; [by intros ([] & ? & ? & ? & _)|eauto]. }
  rewrite stuck_cons. destruct (parse_range_cases r b) as [(Hf & He & b' & H1 & H2)|[(He & Hf & H1)|(Hf & He & e & H1)]].
  - destruct (IH b') as [[Hs Hl]|[Hs [res Hl]]]; [left|right].
    + split; [by right|]. intros fuel. destruct (H2 fuel) as [-> | ->]; [done|apply Hl].
    + split; [tauto|]. exists res. intros fuel Hfuel. rewrite (H1 fuel Hfuel). by apply Hl.
  - left. split; [by left|]. intros fuel. by rewrite H1.
  - right. split; [tauto|]. exists (Err e). intros fuel _. by rewrite H1.
Qed.

(** C40: [Parse] terminates, with a set or an error, exactly on the strings in which no range up to
    the largest [int] comes before the first bad one: on these a fixed number of rounds per range is
    enough, and on the others no number is. *)
Theorem Parse_terminates s :
  (¬ (s ≠ "" ∧ stuck (Strings.Split ","%char s)) ∧ ∃ res, ∀ fuel, enough fuel → Parse fuel s = Some res) ∨
  (s ≠ "" ∧ stuck (Strings.Split ","%char s) ∧ ∀ fuel, Parse fuel s = None).
Proof.
  unfold Parse. case_decide as Hs; [left; split; [tauto|eauto]|].
  destruct (parse_ranges_cases (Strings.Split ","%char s) ∅) as [[H1 H2]|[H1 H2]]; [right|left]; tauto.
Qed.

(** [ToSlice] lists every CPU of the set once, in increasing order. *)
Lemma ToSlice_sorted s :
  StronglySorted Z.lt (ToSlice s) ∧ ∀ c, c ∈ ToSlice s ↔ c ∈ s.
Proof.
  assert (Hp : ToSlice s ≡ₚ elements s) by apply merge_sort_Permutation.
  split; [|intros c; by rewrite Hp, elem_of_elements].
  assert (Hs : StronglySorted Z.le (ToSlice s)) by (apply StronglySorted_merge_sort; apply _).
  assert (Hn : NoDup (ToSlice s)) by (rewrite Hp; apply NoDup_elements).
  clear Hp. revert Hn. induction Hs as [|x l Hl IH Hx]; intros Hn; [constructor|]. apply NoDup_cons in Hn as [Hnx Hn].
  constructor; [by apply IH|]. apply Forall_forall. intros y Hy. rewrite Forall_forall in Hx.
  specialize (Hx y Hy). assert (x ≠ y) by (intros ->; done). lia.
Qed.

Lemma Parse_print_cpus_witness :
  ∃ s, Parse 4 "0-3,8" = Some (Ok s) ∧ ∀ c, c ∈ s ↔ Exists (in_range c) [Range 0 3; One 8].
Proof. apply (Parse_print_cpus 4 [Range 0 3; One 8]); repeat constructor; cbn; lia. Defined.

Lemma Parse_max_range_diverges_witness :
  parse_range 100 "5-9223372036854775807" ∅ = None.
Proof. apply (Parse_max_range_diverges 100 5 ∅). lia. Defined.

Example cpuset_slice : (λ r, match r with Some (Ok s) => ToSlice s | _ => [] end) (Parse 4 "8,0-2,1") = [0; 1; 2; 8].
Proof. vm_compute. reflexivity. Qed.
