(* ===== verification/Goroutines.v ===== *)
(** * Goroutines that a function starts and waits for

    [sync.WaitGroup], [go func() { defer wg.Done(); ... }()] and a buffered error
    channel, as vmrs_controller.go uses them.  A goroutine is a program; the scheduler's
    choice of the next goroutine to run is a call [pick n] whose answer selects one of the
    [n] that are left, so every interleaving of the goroutines' calls is an answer of the
    environment. *)

From stdpp Require Import base gmap strings list sets fin_maps.
From Stdlib Require Import ZArith Lia.
From S2P Require Import Prelude.
Open Scope Z_scope.

(** Sums over a list that changes at one place. *)
Lemma sum_list_with_insert {A} (f : A → nat) l i x y :
  l !! i = Some x → (sum_list_with f (<[i := y]> l) + f x = sum_list_with f l + f y)%nat.
Proof.
  revert i. induction l as [|a l IH]; intros [|i] Hi; simpl in *; simplify_eq; [lia|]. specialize (IH i Hi). lia.
Qed.
Lemma sum_list_with_delete {A} (f : A → nat) l i x :
  l !! i = Some x → (sum_list_with f (delete i l) + f x = sum_list_with f l)%nat.
Proof.
  revert i. induction l as [|a l IH]; intros [|i] Hi; simpl in *; simplify_eq; [lia|]. specialize (IH i Hi). lia.
Qed.

Section Group.
Context {E : Type → Type} (pick : nat → E nat).

(** Run the goroutines [ts] after [wg.Add(wg)].  A goroutine that returns sends its error,
    if any, and then calls [wg.Done], which panics when the counter would fall below zero;
    [wg.Wait] blocks for ever when the counter stays positive.  The result is the list of
    errors in the order sent.  [fuel] bounds the number of steps. *)
Fixpoint group (fuel : nat) (wg : Z) (ts : list (prog E (option goerror))) (errs : list goerror)
    : prog E (list goerror) :=
  match ts with
  | [] => if 0 <? wg then Crash "all goroutines are asleep - deadlock!" else Ret errs
  | _ :: _ =>
      match fuel with
      | O => Crash "out of fuel"
      | S f =>
          Call (pick (length ts)) (λ i,
            match ts !! (i `mod` length ts)%nat with
            | Some (Call e k) => Call e (λ x, group f wg (<[(i `mod` length ts)%nat := k x]> ts) errs)
            | Some (Ret r) =>
                if wg <=? 0 then Crash "sync: negative WaitGroup counter"
                else group f (wg - 1) (delete (i `mod` length ts)%nat ts) (errs ++ option_list r)
            | Some (Crash why) => Crash why
            | None => Crash "no such goroutine"
            end)
      end
  end.

(** [select { case err := <-errChan: return err; default: }]. *)
Definition first_error (errs : list goerror) : option goerror := head errs.

(** What happens when goroutine [j] is scheduled. *)
Definition schedule (f : nat) (wg : Z) (ts : list (prog E (option goerror))) (errs : list goerror) (j : nat)
    : prog E (list goerror) :=
  match ts !! j with
  | Some (Call e k) => Call e (λ x, group f wg (<[j := k x]> ts) errs)
  | Some (Ret r) =>
      if wg <=? 0 then Crash "sync: negative WaitGroup counter"
      else group f (wg - 1) (delete j ts) (errs ++ option_list r)
  | Some (Crash why) => Crash why
  | None => Crash "no such goroutine"
  end.

Lemma group_step f wg ts errs :
  ts ≠ [] → group (S f) wg ts errs = Call (pick (length ts)) (λ i, schedule f wg ts errs (i `mod` length ts)).
Proof. by destruct ts. Qed.

Lemma scheduled (ts : list (prog E (option goerror))) i : ts ≠ [] → ∃ t, ts !! (i `mod` length ts)%nat = Some t.
Proof.
  intros Hne. apply lookup_lt_is_Some_2, Nat.mod_upper_bound. by destruct ts.
Qed.

(** ** A proof rule

    Each goroutine is in a ghost state that bounds the steps it has left; [J] relates the
    ghost states of the goroutines that are still running to the world. *)

Section Rule.
Context {W G : Type} (en : env E W) (T : G → prog E (option goerror) → Prop) (cost : G → nat)
  (J : list G → W → list goerror → Prop).

Definition budget (gs : list G) : nat := sum_list_with (λ g, S (cost g)) gs.

Hypothesis pick_ok : ∀ n w gs errs, J gs w errs →
  allowed en (pick n) w ∧ ∀ i w', answers en (pick n) w i w' → J gs w' errs.
Hypothesis step_ok : ∀ gs w errs i g p,
  J gs w errs → gs !! i = Some g → T g p →
  match p with
  | Call e k =>
      allowed en e w ∧ ∀ x w', answers en e w x w' →
        ∃ g', T g' (k x) ∧ (cost g' < cost g)%nat ∧ J (<[i := g']> gs) w' errs
  | Ret r => J (delete i gs) w (errs ++ option_list r)
  | Crash _ => False
  end.

Lemma budget_insert gs i g g' :
  gs !! i = Some g → (cost g' < cost g)%nat → (budget (<[i := g']> gs) < budget gs)%nat.
Proof. intros Hi Hc. pose proof (sum_list_with_insert (λ g, S (cost g)) gs i g g' Hi) as Hs. unfold budget. cbv beta in Hs. lia. Qed.

Lemma budget_delete gs i g : gs !! i = Some g → (budget (delete i gs) < budget gs)%nat.
Proof. intros Hi. pose proof (sum_list_with_delete (λ g, S (cost g)) gs i g Hi) as Hs. unfold budget. cbv beta in Hs. lia. Qed.

Lemma wp_group fuel gs ts w errs :
  Forall2 T gs ts → J gs w errs → (budget gs ≤ fuel)%nat →
  wp en (group fuel (Z.of_nat (length ts)) ts errs) w (λ errs' w', J [] w' errs').
Proof.
  revert gs ts w errs. induction fuel as [|f IH]; intros gs ts w errs HT HJ Hf.
  { destruct HT as [|g t gs ts]; [done|]. unfold budget in Hf. simpl in Hf. lia. }
  destruct (decide (ts = [])) as [->|Hne]; [inversion HT; by subst|].
  rewrite group_step by done. destruct (pick_ok (length ts) w gs errs HJ) as [Ha Hs].
  split; [exact Ha|]. intros i w' Hw'. specialize (Hs i w' Hw').
  destruct (scheduled ts i Hne) as [t Et]. destruct (Forall2_lookup_r _ _ _ _ _ HT Et) as (g & Eg & Hg).
  unfold schedule. rewrite Et. pose proof (lookup_lt_Some _ _ _ Et) as Hj. set (j := (i `mod` length ts)%nat) in *.
  pose proof (step_ok gs w' errs j g t Hs Eg Hg) as Hstep. destruct t as [r|X e k|why]; [| |done].
  - rewrite (proj2 (Z.leb_gt _ _)) by lia.
    replace (Z.of_nat (length ts) - 1) with (Z.of_nat (length (delete j ts)))
      by (rewrite length_delete by (by eexists); lia).
    apply (IH (delete j gs)).
    + by apply Forall2_delete.
    + done.
    + pose proof (budget_delete _ _ _ Eg). lia.
  - destruct Hstep as [Hal Hstep]. split; [done|].
    intros x w'' Hx. destruct (Hstep x w'' Hx) as (g' & HT' & Hc & HJ').
    replace (Z.of_nat (length ts)) with (Z.of_nat (length (<[j := k x]> ts))) by (by rewrite length_insert).
    apply (IH (<[j := g']> gs)); [|done|].
    + by apply Forall2_insert.
    + pose proof (budget_insert _ _ _ _ Eg Hc). lia.
Qed.
End Rule.

(** ** Too many goroutines for the counter

    When more goroutines run than were added to the group, some [wg.Done] panics, whatever
    the scheduler and the environment do. *)

(** The goroutine returns after at most [n] calls. *)
Fixpoint calls_within {A} (n : nat) (p : prog E A) : Prop :=
  match p with
  | Ret _ => True
  | Call _ k => match n with O => False | S m => ∀ x, calls_within m (k x) end
  | Crash _ => False
  end.

Lemma group_overrun {W} (h : handler E W) fuel wg ds ts errs w :
  Forall2 calls_within ds ts → (budget (λ d, d) ds ≤ fuel)%nat → 0 ≤ wg < Z.of_nat (length ts) →
  ∃ w', run h (group fuel wg ts errs) w = (Panicked "sync: negative WaitGroup counter", w').
Proof.
  revert wg ds ts errs w. induction fuel as [|f IH]; intros wg ds ts errs w HT Hf Hwg.
  { destruct HT; unfold budget in Hf; simpl in *; lia. }
  assert (Hne : ts ≠ []) by (intros ->; simpl in *; lia).
  rewrite group_step by done. simpl. destruct (h nat (pick (length ts)) w) as [i w1].
  destruct (scheduled ts i Hne) as [t Et]. destruct (Forall2_lookup_r _ _ _ _ _ HT Et) as (d & Ed & Hd).
  unfold schedule. rewrite Et. pose proof (lookup_lt_Some _ _ _ Et) as Hj. set (j := (i `mod` length ts)%nat) in *.
  destruct t as [r|X e k|why]; [| |by destruct d].
  - destruct (wg <=? 0) eqn:Ew; bools; [by eexists|]. apply (IH _ (delete j ds)).
    + by apply Forall2_delete.
    + pose proof (budget_delete (λ d, d) _ _ _ Ed). lia.
    + rewrite length_delete by (by eexists). lia.
  - simpl. destruct (h X e w1) as [x w2]. destruct d as [|d]; [done|]. apply (IH _ (<[j := d]> ds)).
    + apply Forall2_insert; [done|]. apply Hd.
    + pose proof (budget_insert (λ d, d) _ _ _ d Ed (Nat.lt_succ_diag_r d)). lia.
    + rewrite length_insert. lia.
Qed.
End Group.
