(* ===== verification/Expectations.v ===== *)
(** * Controller expectations: pkg/controller/expectations/expectations.go

    A controller records how many creations and deletions it expects to see in its
    watch before its cache can be trusted again.  [ControllerExpectationsInterface] is a
    type class, as it is an interface in the source: [ControllerExpectations] implements
    it over a key-value store, and [UIDTracking] (which tracks deletions by key so
    that none is counted twice) is built on any implementation.

    [cache.Store] of client-go is a thread-safe map from the keys that [ExpKeyFunc] and
    [UIDSetKeyFunc] return, here a [gmap]; every method runs atomically (the store's
    and [uidStoreLock]'s locks, or one [atomic.AddInt64] that changes a counter).  Times
    are seconds of the clock, passed in as [now]. *)

From stdpp Require Import base gmap strings list sets fin_maps.
From Stdlib Require Import ZArith Lia.
From S2P Require Import Prelude.
Open Scope Z_scope.

(** [ExpectationsTimeout]: five minutes. *)
Definition ExpectationsTimeout : Z := 5 * 60.

(** [ControlleeExpectations]; its key is the key of the store. *)
Record ControlleeExpectations := mkExpectations { exp_add : Z; exp_del : Z; exp_timestamp : Z }.

Definition isExpired (now : Z) (e : ControlleeExpectations) : bool :=
  ExpectationsTimeout <? now - exp_timestamp e.

(** [ControlleeExpectations.Add]: two 64-bit atomic additions. *)
Definition exp_Add (add del : Z) (e : ControlleeExpectations) : ControlleeExpectations :=
  mkExpectations (i64 (exp_add e + add)) (i64 (exp_del e + del)) (exp_timestamp e).

Definition Fulfilled (e : ControlleeExpectations) : bool := (exp_add e <=? 0) && (exp_del e <=? 0).

(** ** The interface *)

Class ControllerExpectationsInterface (S : Type) := {
  GetExpectations : string → S → option ControlleeExpectations;
  SatisfiedExpectations : Z → string → S → bool;
  DeleteExpectations : string → S → S;
  SetExpectations : Z → string → Z → Z → S → S;
  ExpectCreations : Z → string → Z → S → S;
  ExpectDeletions : Z → string → Z → S → S;
  CreationObserved : string → S → S;
  DeletionObserved : string → S → S;
  RaiseExpectations : string → Z → Z → S → S;
  LowerExpectations : string → Z → Z → S → S;
  AllPendingCreations : S → Z
}.

(** What a client relies on: each operation's effect on what [GetExpectations] returns. *)
Class ExpectationsLaws (S : Type) `{ControllerExpectationsInterface S} := {
  Satisfied_spec now k s :
    SatisfiedExpectations now k s =
      match GetExpectations k s with Some e => Fulfilled e || isExpired now e | None => true end;
  Get_Delete k k' s : GetExpectations k' (DeleteExpectations k s) = if decide (k = k') then None else GetExpectations k' s;
  Get_ExpectCreations now k k' n s :
    GetExpectations k' (ExpectCreations now k n s) =
      if decide (k = k') then Some (mkExpectations n 0 now) else GetExpectations k' s;
  Get_ExpectDeletions now k k' n s :
    GetExpectations k' (ExpectDeletions now k n s) =
      if decide (k = k') then Some (mkExpectations 0 n now) else GetExpectations k' s;
  Get_CreationObserved k k' s :
    GetExpectations k' (CreationObserved k s) =
      if decide (k = k') then exp_Add (-1) 0 <$> GetExpectations k' s else GetExpectations k' s;
  Get_DeletionObserved k k' s :
    GetExpectations k' (DeletionObserved k s) =
      if decide (k = k') then exp_Add 0 (-1) <$> GetExpectations k' s else GetExpectations k' s
}.

(** ** ControllerExpectations: the implementation over a store *)

Module ControllerExpectations.

Abbreviation Store := (gmap string ControlleeExpectations).

Definition Get (k : string) (s : Store) : option ControlleeExpectations := s !! k.

Definition Delete (k : string) (s : Store) : Store :=
  match Get k s with Some _ => delete k s | None => s end.

Definition Satisfied (now : Z) (k : string) (s : Store) : bool :=
  match Get k s with
  | Some e => if Fulfilled e then true else if isExpired now e then true else false
  | None => true
  end.

Definition Set_ (now : Z) (k : string) (add del : Z) (s : Store) : Store :=
  <[k := mkExpectations add del now]> s.

Definition Lower (k : string) (add del : Z) (s : Store) : Store :=
  match Get k s with Some e => <[k := exp_Add (- add) (- del) e]> s | None => s end.

Definition Raise (k : string) (add del : Z) (s : Store) : Store :=
  match Get k s with Some e => <[k := exp_Add add del e]> s | None => s end.

(** The sum of the [add] counters; an [int64] addition wraps around. *)
Definition AllPending (s : Store) : Z :=
  foldr (λ k sum, match Get k s with Some e => i64 (sum + exp_add e) | None => sum end) 0 (elements (dom s)).

#[export] Instance iface : ControllerExpectationsInterface Store := {|
  GetExpectations := Get;
  SatisfiedExpectations := Satisfied;
  DeleteExpectations := Delete;
  SetExpectations := Set_;
  ExpectCreations now k adds := Set_ now k adds 0;
  ExpectDeletions now k dels := Set_ now k 0 dels;
  CreationObserved k := Lower k 1 0;
  DeletionObserved k := Lower k 0 1;
  RaiseExpectations := Raise;
  LowerExpectations := Lower;
  AllPendingCreations := AllPending
|}.

Lemma Get_Lower k k' a d s :
  Get k' (Lower k a d s) = if decide (k = k') then exp_Add (- a) (- d) <$> Get k' s else Get k' s.
Proof.
  unfold Lower, Get. destruct (s !! k) as [e|] eqn:E; case_decide; subst; simpl.
  - by rewrite E, lookup_insert_eq.
  - by rewrite lookup_insert_ne.
  - by rewrite E.
  - done.
Qed.

#[export] Instance laws : ExpectationsLaws Store.
Proof.
  split; simpl; intros; unfold Satisfied, Delete, Set_; try (rewrite Get_Lower; reflexivity).
  - destruct (Get k s) as [e|]; [|done]. by destruct (Fulfilled e), (isExpired now e).
  - unfold Get. destruct (s !! k) eqn:E; case_decide; subst; rewrite ?lookup_delete_eq, ?lookup_delete_ne by done; done.
  - unfold Get. case_decide; subst; [by rewrite lookup_insert_eq|by rewrite lookup_insert_ne].
  - unfold Get. case_decide; subst; [by rewrite lookup_insert_eq|by rewrite lookup_insert_ne].
Qed.

End ControllerExpectations.
#[export] Existing Instance ControllerExpectations.iface.
#[export] Existing Instance ControllerExpectations.laws.

(** ** UIDTrackingControllerExpectations, over any implementation *)

Module UIDTracking.

Section UIDTracking.
Context {S : Type} `{ControllerExpectationsInterface S}.

(** [uidStore] maps a controller to the keys it waits for; the embedded interface is [base]. *)
Record State := mkState { base : S; uidStore : gmap string (gset string) }.

Definition GetUIDs (k : string) (u : State) : option (gset string) := uidStore u !! k.

Definition ExpectDeletions (now : Z) (rcKey : string) (deletedKeys : list string) (u : State) : State :=
  let expectedUIDs : gset string := list_to_set deletedKeys in
  mkState (Expectations.ExpectDeletions now rcKey (Z.of_nat (size expectedUIDs)) (base u))
          (<[rcKey := expectedUIDs]> (uidStore u)).

Definition AddExpectedDeletion (now : Z) (rcKey deletedKey : string) (u : State) : State :=
  let expectedUIDs : gset string :=
    {[deletedKey]} ∪ match GetUIDs rcKey u with
                     | Some existing => if decide (size existing = 0%nat) then ∅ else existing
                     | None => ∅
                     end in
  mkState (Expectations.ExpectDeletions now rcKey (Z.of_nat (size expectedUIDs)) (base u))
          (<[rcKey := expectedUIDs]> (uidStore u)).

Definition DeletionObserved (rcKey deleteKey : string) (u : State) : State :=
  match GetUIDs rcKey u with
  | Some uids =>
      if decide (deleteKey ∈ uids)
      then mkState (Expectations.DeletionObserved rcKey (base u)) (<[rcKey := uids ∖ {[deleteKey]}]> (uidStore u))
      else u
  | None => u
  end.

Definition DeleteExpectations (rcKey : string) (u : State) : State :=
  mkState (Expectations.DeleteExpectations rcKey (base u)) (delete rcKey (uidStore u)).

(** The promoted methods of the embedded interface. *)
Definition ExpectCreations (now : Z) (k : string) (adds : Z) (u : State) : State :=
  mkState (Expectations.ExpectCreations now k adds (base u)) (uidStore u).
Definition CreationObserved (k : string) (u : State) : State :=
  mkState (Expectations.CreationObserved k (base u)) (uidStore u).
Definition SatisfiedExpectations (now : Z) (k : string) (u : State) : bool :=
  Expectations.SatisfiedExpectations now k (base u).

(** *** Deletions are counted once *)

Context `{!ExpectationsLaws S}.

(** What the watch reports, for any controller: a creation, or the deletion of a key. *)
Inductive observation := Created (k : string) | Deleted (k x : string).

#[export] Instance observation_eq_dec : EqDecision observation.
Proof. solve_decision. Defined.

Definition observe (u : State) (o : observation) : State :=
  match o with
  | Created k => CreationObserved k u
  | Deleted k x => DeletionObserved k x u
  end.

Definition creations (k : string) (l : list observation) : Z :=
  Z.of_nat (length (filter (λ o, o = Created k) l)).
Definition deleted (k : string) (l : list observation) : gset string :=
  list_to_set (omap (λ o, match o with Deleted k' x => if decide (k' = k) then Some x else None | Created _ => None end) l).

(** The state of [k]'s expectations: the keys still waited for, and the counters. *)
Record waits (k : string) (u : State) (uids : gset string) (add ts : Z) : Prop := {
  w_uids : GetUIDs k u = Some uids;
  w_size : Z.of_nat (size uids) < 2 ^ 62;
  w_exp : GetExpectations k (base u) = Some (mkExpectations add (Z.of_nat (size uids)) ts)
}.

Lemma size_list_to_set_le (l : list string) : (size (list_to_set l : gset string) ≤ length l)%nat.
Proof.
  induction l as [|x l IH]; cbn [length]; [by rewrite list_to_set_nil, size_empty|].
  rewrite list_to_set_cons. destruct (decide (x ∈ (list_to_set l : gset string))).
  - rewrite (subseteq_union_1_L {[x]}) by set_solver. lia.
  - rewrite size_union, size_singleton by set_solver. lia.
Qed.

Lemma ExpectDeletions_waits now k keys u :
  Z.of_nat (length keys) < 2 ^ 62 → waits k (ExpectDeletions now k keys u) (list_to_set keys) 0 now.
Proof.
  intros Hl. pose proof (size_list_to_set_le keys). split; [|lia|].
  - unfold GetUIDs; simpl. by rewrite lookup_insert_eq.
  - simpl. by rewrite Get_ExpectDeletions, decide_True.
Qed.

(** Observing a deletion removes the key, whether or not it was waited for: a key is not
    counted twice. *)
Lemma Deleted_waits k x u uids add ts :
  - 2 ^ 62 ≤ add ≤ 2 ^ 62 → waits k u uids add ts → waits k (DeletionObserved k x u) (uids ∖ {[x]}) add ts.
Proof.
  intros Ha [Eu Hs Ee]. unfold DeletionObserved. rewrite Eu. case_decide as Hx.
  - assert (Hsz : size (uids ∖ {[x]}) = (size uids - 1)%nat) by (rewrite size_difference, size_singleton; set_solver).
    assert (size uids ≠ 0)%nat by (intros Hz%size_empty_inv; set_solver).
    split; [unfold GetUIDs; simpl; by rewrite lookup_insert_eq|lia|]. simpl.
    rewrite Get_DeletionObserved, decide_True, Ee by done. cbn [fmap option_fmap option_map]. unfold exp_Add; simpl.
    rewrite !i64_small by lia. do 2 f_equal; lia.
  - assert (uids ∖ {[x]} = uids) as -> by set_solver. by split.
Qed.

Lemma Deleted_other k k' x u uids add ts :
  k' ≠ k → waits k u uids add ts → waits k (DeletionObserved k' x u) uids add ts.
Proof.
  intros Hk [Eu Hs Ee]. unfold DeletionObserved. destruct (GetUIDs k' u) as [s'|]; [|by split].
  case_decide; [|by split]. split; [|done|].
  - unfold GetUIDs; simpl. by rewrite lookup_insert_ne.
  - simpl. by rewrite Get_DeletionObserved, decide_False.
Qed.

Lemma Created_waits k k' u uids add ts :
  - 2 ^ 62 < add ≤ 2 ^ 62 → waits k u uids add ts →
  waits k (CreationObserved k' u) uids (if decide (k' = k) then add - 1 else add) ts.
Proof.
  intros Ha [Eu Hs Ee]. split; [done..|]. simpl. rewrite Get_CreationObserved. case_decide; subst; rewrite Ee; [|done].
  cbn [fmap option_fmap option_map]. unfold exp_Add; simpl. rewrite Z.add_0_r, !i64_small by lia. done.
Qed.

Lemma observe_waits k l u uids add ts :
  - 2 ^ 62 < add - Z.of_nat (length l) → add ≤ 2 ^ 62 → waits k u uids add ts →
  waits k (foldl observe u l) (uids ∖ deleted k l) (add - creations k l) ts.
Proof.
  revert u uids add. induction l as [|o l IH]; intros u uids add Hlo Hhi Hw.
  { unfold deleted, creations. simpl. rewrite Z.sub_0_r. by assert (uids ∖ ∅ = uids) as -> by set_solver. }
  cbn [length foldl] in *. destruct o as [k'|k' x]; cbn [observe].
  - assert (deleted k (Created k' :: l) = deleted k l) as -> by done.
    apply (Created_waits k k') in Hw; [|lia].
    unfold creations in *. rewrite filter_cons. destruct (decide (k' = k)) as [->|Hk].
    + rewrite decide_True by done. apply IH in Hw; [|lia..]. cbn [length].
      by replace (add - Z.of_nat (Datatypes.S _)) with (add - 1 - Z.of_nat (length (filter (λ o, o = Created k) l))) by lia.
    + rewrite decide_False by (intros [= ?]; done). apply IH; [lia..|done].
  - assert (creations k (Deleted k' x :: l) = creations k l) as -> by done.
    unfold deleted. cbn [omap list_omap]. destruct (decide (k' = k)) as [->|Hk].
    + apply (Deleted_waits k x) in Hw; [|lia]. apply IH in Hw; [|lia..].
      rewrite list_to_set_cons, <-difference_difference_l_L. exact Hw.
    + apply (Deleted_other k k' x) in Hw; [|done]. by apply IH; [lia..|].
Qed.

Lemma waits_satisfied k u uids add ts now :
  add ≤ 0 → waits k u uids add ts →
  SatisfiedExpectations now k u = bool_decide (uids = ∅) || (ExpectationsTimeout <? now - ts).
Proof.
  intros Ha [Eu Hs Ee]. unfold SatisfiedExpectations. rewrite Satisfied_spec, Ee. unfold Fulfilled, isExpired. simpl.
  f_equal. rewrite (proj2 (Z.leb_le _ _)) by lia. simpl. case_bool_decide as E.
  - subst. rewrite size_empty. done.
  - apply Z.leb_gt. assert (size uids ≠ 0)%nat; [|lia]. intros Hz%size_empty_inv. by apply E, leibniz_equiv.
Qed.

(** The creation counter only depends on the creations of its controller. *)
Lemma observe_add k l u e :
  GetExpectations k (base u) = Some e → exp_add e ≤ 2 ^ 62 → - 2 ^ 62 < exp_add e - creations k l →
  ∃ e', GetExpectations k (base (foldl observe u l)) = Some e' ∧ exp_add e' = exp_add e - creations k l ∧
    exp_timestamp e' = exp_timestamp e.
Proof.
  revert u e. induction l as [|o l IH]; intros u e Ee Hhi Hlo.
  { exists e. unfold creations; simpl. by rewrite Z.sub_0_r. }
  unfold creations in *. rewrite filter_cons in *. cbn [foldl]. destruct o as [k'|k' x]; cbn [observe].
  - destruct (decide (k' = k)) as [->|Hk].
    + rewrite decide_True in * by done. cbn [length] in *.
      destruct (IH (CreationObserved k u) (exp_Add (-1) 0 e)) as (e' & E' & Ha & Ht).
      * simpl. by rewrite Get_CreationObserved, decide_True, Ee.
      * simpl. rewrite i64_small; lia.
      * simpl. rewrite i64_small; lia.
      * exists e'. split; [done|]. split; [|done]. rewrite Ha. simpl. rewrite i64_small; lia.
    + rewrite decide_False in * by (intros [= ?]; done).
      apply IH; [|done..]. simpl. by rewrite Get_CreationObserved, decide_False.
  - rewrite decide_False in * by done.
    assert (Hd : ∃ e1, GetExpectations k (base (DeletionObserved k' x u)) = Some e1 ∧ exp_add e1 = i64 (exp_add e) ∧
              exp_timestamp e1 = exp_timestamp e).
    { assert (exp_add e = i64 (exp_add e)) by (rewrite i64_small; lia).
      unfold DeletionObserved. destruct (GetUIDs k' u); [|by exists e]. case_decide; [|by exists e]. simpl.
      rewrite Get_DeletionObserved. case_decide; subst; rewrite Ee; [|by exists e].
      eexists. split; [reflexivity|]. simpl. by rewrite Z.add_0_r. }
    destruct Hd as (e1 & E1 & Ha1 & Ht1). rewrite i64_small in Ha1 by lia.
    destruct (IH _ e1 E1) as (e' & E' & Ha & Ht); [lia..|]. exists e'. split; [done|]. lia.
Qed.

(** A controller that waits for the deletion of a list of keys is released exactly when
    every one of them has been reported deleted, or after the five-minute timeout; reports
    of the same key twice, of other keys, of creations and of other controllers do not
    release it. *)
Theorem deletions_satisfied_iff now now' k keys (l : list observation) u :
  Z.of_nat (length keys) < 2 ^ 62 → Z.of_nat (length l) < 2 ^ 62 →
  SatisfiedExpectations now' k (foldl observe (ExpectDeletions now k keys u) l) =
    bool_decide ((list_to_set keys : gset string) ⊆ deleted k l) || (ExpectationsTimeout <? now' - now).
Proof.
  intros Hk Hl. pose proof (ExpectDeletions_waits now k keys u Hk) as Hw.
  apply (observe_waits k l) in Hw; [|lia..]. rewrite (waits_satisfied k _ (list_to_set keys ∖ deleted k l) (0 - creations k l) now now'); [|unfold creations; lia|exact Hw].
  f_equal. apply bool_decide_ext. split.
  - intros E x Hx. destruct (decide (x ∈ deleted k l)) as [|Hn]; [done|].
    exfalso. apply (not_elem_of_empty (C := gset string) x). rewrite <-E. by apply elem_of_difference.
  - intros Hs. apply leibniz_equiv. apply elem_of_equiv_empty. intros x [Hx Hn]%elem_of_difference. by apply Hn, Hs.
Qed.

(** A controller that expects [n] creations is released exactly when [n] of its
    creations have been reported, or after the timeout. *)
Theorem creations_satisfied_iff now now' k n (l : list observation) u :
  0 ≤ n < 2 ^ 62 → Z.of_nat (length l) < 2 ^ 62 → (∀ x, Deleted k x ∉ l) →
  SatisfiedExpectations now' k (foldl observe (ExpectCreations now k n u) l) =
    (n <=? creations k l) || (ExpectationsTimeout <? now' - now).
Proof.
  intros Hn Hl Hd.
  assert (Hw : GetExpectations k (base (foldl observe (ExpectCreations now k n u) l)) =
               Some (mkExpectations (n - creations k l) 0 now)).
  { assert (E0 : GetExpectations k (base (ExpectCreations now k n u)) = Some (mkExpectations n 0 now))
      by (simpl; by rewrite Get_ExpectCreations, decide_True).
    revert E0. generalize (ExpectCreations now k n u). clear u. assert (Hm : - 2 ^ 62 < n - Z.of_nat (length l) ∧ n < 2 ^ 62) by lia.
    clear Hn Hl. revert n Hm. induction l as [|o l IH]; intros n Hm u E0.
    { unfold creations; simpl. by rewrite Z.sub_0_r. }
    cbn [length foldl] in *. destruct o as [k'|k' x]; cbn [observe].
    - unfold creations. rewrite filter_cons. destruct (decide (k' = k)) as [->|Hk].
      + rewrite decide_True by done. cbn [length].
        replace (n - Z.of_nat (Datatypes.S _)) with (n - 1 - Z.of_nat (length (filter (λ o, o = Created k) l))) by lia.
        apply IH; [set_solver|lia|]. simpl. rewrite Get_CreationObserved, decide_True, E0 by done.
        cbn [fmap option_fmap option_map]. unfold exp_Add; simpl. rewrite i64_small by lia. done.
      + rewrite decide_False by (intros [= ?]; done). apply IH; [set_solver|lia|].
        simpl. by rewrite Get_CreationObserved, decide_False.
    - assert (k' ≠ k) by (intros ->; by destruct (Hd x); left).
      apply IH; [set_solver|lia|]. unfold DeletionObserved. destruct (GetUIDs k' u); [|done]. case_decide; [|done].
      simpl. by rewrite Get_DeletionObserved, decide_False. }
  unfold SatisfiedExpectations. rewrite Satisfied_spec, Hw. unfold Fulfilled, isExpired; simpl. rewrite andb_true_r.
  f_equal. apply eq_true_iff_eq. rewrite !Z.leb_le. lia.
Qed.

End UIDTracking.
End UIDTracking.

(** *** Concrete runs *)

Definition empty_tracking : UIDTracking.State (S := gmap string ControlleeExpectations) := UIDTracking.mkState ∅ ∅.

Lemma deletions_satisfied_iff_witness :
  UIDTracking.SatisfiedExpectations 20 "ns/rs"
    (foldl UIDTracking.observe (UIDTracking.ExpectDeletions 10 "ns/rs" ["ns/a"; "ns/b"] empty_tracking)
       [UIDTracking.Deleted "ns/rs" "ns/a"; UIDTracking.Deleted "ns/rs" "ns/a"; UIDTracking.Created "ns/rs"]) = false.
Proof. rewrite UIDTracking.deletions_satisfied_iff by (cbn; lia). vm_compute. reflexivity. Defined.

Lemma creations_satisfied_iff_witness :
  UIDTracking.SatisfiedExpectations 20 "ns/rs"
    (foldl UIDTracking.observe (UIDTracking.ExpectCreations 10 "ns/rs" 2 empty_tracking)
       [UIDTracking.Created "ns/rs"; UIDTracking.Created "ns/other"]) = false.
Proof. rewrite UIDTracking.creations_satisfied_iff by (cbn; lia || set_solver). vm_compute. reflexivity. Defined.
