(* ===== verification/VmValidate.v ===== *)
(** * Admission validation of virtual machines: pkg/controller/vm_webhook.go

    [ValidateVM] and the functions it calls, as functions to a list of field
    errors.  [resource.MustParse] and an integer division can panic, so the
    functions above [ValidateMemory] return an [outcome]. *)

From stdpp Require Import base gmap strings list sets fin_maps.
From Stdlib Require Import ZArith Lia.
From S2P Require Import Prelude GoStd GoNet K8s ApiTypes.
Open Scope Z_scope.

(** ** Field paths and errors ([k8s.io/apimachinery/pkg/util/validation/field]) *)

Inductive segment := Child (name : string) | Index (i : nat) | Key (key : string).
Abbreviation fieldPath := (list segment).

Definition child (p : fieldPath) (name : string) : fieldPath := p ++ [Child name].
Definition index (p : fieldPath) (i : nat) : fieldPath := p ++ [Index i].
Definition key (p : fieldPath) (k : string) : fieldPath := p ++ [Key k].

Inductive BadValue := BadNone | BadString (s : string) | BadInt (z : Z) | BadLabels (m : gmap string string) | BadSelector.

Inductive FieldError :=
| Required (p : fieldPath) (detail : string)
| Invalid (p : fieldPath) (v : BadValue) (detail : string)
| Duplicate (p : fieldPath) (v : string)
| Forbidden (p : fieldPath) (detail : string)
| NotFound (p : fieldPath) (v : string)
| InternalError (p : fieldPath) (e : goerror).

Abbreviation ErrorList := (list FieldError).

(** [if b { errs = append(errs, e) }]. *)
Definition err_if (b : bool) (e : FieldError) : ErrorList := if b then [e] else [].

(** [if o == nil { errs = append(errs, field.Required(path, "")); return errs }]. *)
Definition nonnil {A} (o : option A) (p : fieldPath) (k : A → ErrorList) : ErrorList :=
  match o with None => [Required p ""] | Some x => k x end.

(** The loop over a named list: report a name already in [seen], add it, then
    validate the element. *)
Fixpoint validate_named {A} (name : A → string) (validate : A → fieldPath → ErrorList)
    (p : fieldPath) (i : nat) (seen : gset string) (l : list A) : ErrorList * gset string :=
  match l with
  | [] => ([], seen)
  | x :: l' =>
      let fp := index p i in
      let '(errs, seen') := validate_named name validate p (S i) ({[name x]} ∪ seen) l' in
      (err_if (bool_decide (name x ∈ seen)) (Duplicate (child fp "name") (name x))
         ++ validate x fp ++ errs, seen')
  end.

(** ** Admission requests and responses *)

Inductive Operation := OpCreate | OpUpdate | OpOther.

Inductive Response (A : Type) :=
| Allowed
| Denied (errs : ErrorList)
| Errored (code : Z) (e : goerror)
| Patched (a : A).
Arguments Allowed {A}.
Arguments Denied {A} errs.
Arguments Errored {A} code e.
Arguments Patched {A} a.

Definition StatusBadRequest : Z := 400.
Definition StatusInternalServerError : Z := 500.

Definition deny_if_any {A} (errs : ErrorList) : Response A :=
  match errs with [] => Allowed | _ => Denied errs end.

Section Validate.
Context `{K8s}.

Definition memoryOverhead : string := "256Mi".
Definition ResourceCPU : string := "cpu".
Definition ResourceMemory : string := "memory".

(** [ResourceList.Cpu()] and [.Memory()]: the zero quantity when absent. *)
Definition rl_get (l : option (gmap string Quantity)) (r : string) : Quantity :=
  default q_zero (l ≫= λ m, m !! r).
Definition rl_lookup (l : option (gmap string Quantity)) (r : string) : option Quantity :=
  l ≫= λ m, m !! r.

(** [uint32] multiplication wraps around. *)
Definition numVCPUs (c : CPU) : Z := u32 (Sockets c * CoresPerSocket c).

Definition hugepagesResource (h : Hugepages) : string := ("hugepages-" +:+ PageSize h)%string.

Definition ValidateCPU (cpu : option CPU) (p : fieldPath) : ErrorList :=
  nonnil cpu p (λ cpu,
    err_if (Sockets cpu =? 0) (Required (child p "sockets") "")
    ++ err_if (CoresPerSocket cpu <=? 0) (Required (child p "coresPerSocket") "")).

Definition ValidateMemory (memory : option Memory) (p : fieldPath) : outcome ErrorList :=
  match memory with
  | None => Returned [Required p ""]
  | Some memory =>
      let memSize := q_Value (Size memory) in
      let errs := err_if (memSize <=? 0) (Invalid (child p "size") (BadInt memSize) "must be greater than 0") in
      match Memory_Hugepages memory with
      | None => Returned errs
      | Some h =>
          (let? q := MustParse (PageSize h) in
           let hugepagesSize := q_Value q in
           if hugepagesSize =? 0 then Panicked "integer divide by zero"
           else Returned (errs ++ err_if (negb (Z.rem memSize hugepagesSize =? 0))
             (Invalid (child p "size") (BadInt memSize)
               (Strconv.FormatInt memSize +:+ " is not positive integer multiple of " +:+ PageSize h)%string)))%go
      end
  end.

Definition ValidateKernel (kernel : option Kernel) (p : fieldPath) : ErrorList :=
  nonnil kernel p (λ k,
    err_if (bool_decide (Kernel_Image k = "")) (Required (child p "image") "")
    ++ err_if (bool_decide (Cmdline k = "")) (Required (child p "cmdline") "")).

Definition ValidateDisk (disk : option Disk) (p : fieldPath) : ErrorList :=
  nonnil disk p (λ d, err_if (bool_decide (Disk_Name d = "")) (Required (child p "name") "")).

Definition ValidateFileSystem (fs : option FileSystem) (p : fieldPath) : ErrorList :=
  nonnil fs p (λ f, err_if (bool_decide (FileSystem_Name f = "")) (Required (child p "name") "")).

Definition ValidateMAC (mac : string) (p : fieldPath) : ErrorList :=
  err_if (bool_decide (mac = "")) (Required p "")
  ++ err_if (bool_decide (ParseMAC mac = None)) (Invalid p (BadString mac) ("address " +:+ mac +:+ ": invalid MAC address")%string).

(** [1 << n] for a Go [int] of 64 bits. *)
Definition shl1 (n : Z) : Z := i64 (Z.shiftl 1 n).

Definition ValidateCIDR (cidr : string) (capacity : Z) (p : fieldPath) : ErrorList :=
  if decide (cidr = "") then [Required p ""]
  else
    match ParseCIDR cidr with
    | None => [Invalid p (BadString cidr) ("invalid CIDR address: " +:+ cidr)%string;
                 Invalid p (BadString cidr) "must specify subnet"]
    | Some (_, subnet) =>
        let '(ones, bits) := Mask_Size (IPNet_Mask subnet) in
        err_if (shl1 (bits - ones) <? capacity)
          (Invalid p (BadString cidr) ("must contain at least " +:+ Strconv.FormatInt capacity +:+ " IPs")%string)
    end.

(** One arm of a "count the alternatives" validation: [present] bumps the
    counter; a second alternative is forbidden, the first one is validated. *)
Definition one_of (present : bool) (cnt : Z) (forbidden : FieldError) (validate : ErrorList) : ErrorList * Z :=
  if present then
    if 1 <? cnt + 1 then ([forbidden], cnt + 1) else (validate, cnt + 1)
  else ([], cnt).

Definition is_some {A} (o : option A) : bool := match o with Some _ => true | None => false end.

Definition ValidateInterfaceBindingMethod (bindingMethod : option InterfaceBindingMethod) (p : fieldPath) : ErrorList :=
  nonnil bindingMethod p (λ b,
    let more name := Forbidden (child p name) "may not specify more than 1 binding method" in
    let '(e1, cnt) := one_of (is_some (Bridge b)) 0 (more "bridge") [] in
    let '(e2, cnt) := one_of (is_some (Masquerade b)) cnt (more "masquerade")
      match Masquerade b with
      | Some m => ValidateCIDR (CIDR m) 4 (child (child p "masquerade") "cidr")
      | None => []
      end in
    let '(e3, cnt) := one_of (is_some (SRIOV b)) cnt (more "sriov") [] in
    let '(e4, cnt) := one_of (is_some (VDPA b)) cnt (more "vdpa") [] in
    let '(e5, cnt) := one_of (is_some (VhostUser b)) cnt (more "vhostUser") [] in
    e1 ++ e2 ++ e3 ++ e4 ++ e5
    ++ err_if (cnt =? 0) (Required p "at least 1 binding method is required")).

Definition ValidateInterface (iface : option Interface) (p : fieldPath) : ErrorList :=
  nonnil iface p (λ i,
    err_if (bool_decide (Interface_Name i = "")) (Required (child p "name") "")
    ++ ValidateMAC (MAC i) (child p "mac")
    ++ ValidateInterfaceBindingMethod (Some (Binding i)) p).

(** The body of the interface loop of [ValidateInstance], the duplicate check aside. *)
Definition validate_interface_in (inst : Instance_) (iface : Interface) (p : fieldPath) : ErrorList :=
  err_if (is_some (VhostUser (Binding iface)) &&
          (negb (DedicatedCPUPlacement (Instance_CPU inst)) || negb (is_some (Memory_Hugepages (Instance_Memory inst)))))
    (Forbidden (child p "vhostUser") "may not use vhost-user interface without dedicated CPU placement and hugepages")
  ++ ValidateInterface (Some iface) p.

Definition ValidateInstance (inst : option Instance_) (p : fieldPath) : outcome ErrorList :=
  match inst with
  | None => Returned [Required p ""]
  | Some inst =>
      (let? memErrs := ValidateMemory (Some (Instance_Memory inst)) (child p "memory") in
       let kernelErrs :=
         match Instance_Kernel inst with
         | Some k => ValidateKernel (Some k) (child p "kernel")
         | None => []
         end in
       let '(diskErrs, diskNames) :=
         validate_named Disk_Name (λ d, ValidateDisk (Some d)) (child p "disks") 0 ∅ (Disks inst) in
       let '(fsErrs, _) :=
         validate_named FileSystem_Name (λ f, ValidateFileSystem (Some f)) (child p "fileSystems") 0 diskNames (FileSystems inst) in
       let '(ifaceErrs, _) :=
         validate_named Interface_Name (validate_interface_in inst) (child p "interfaces") 0 ∅ (Interfaces inst) in
       Returned (ValidateCPU (Some (Instance_CPU inst)) (child p "cpu") ++ memErrs ++ kernelErrs
                 ++ diskErrs ++ fsErrs ++ ifaceErrs))%go
  end.

(** *** Volumes *)

Definition ValidateContainerDiskVolumeSource (source : option ContainerDiskVolumeSource) (p : fieldPath) : ErrorList :=
  nonnil source p (λ s, err_if (bool_decide (ContainerDisk_Image s = "")) (Required (child p "image") "")).

Definition ValidateCloudInitVolumeSource (source : option CloudInitVolumeSource) (p : fieldPath) : ErrorList :=
  nonnil source p (λ s,
    let user name := Forbidden (child p name) "may not specify more than 1 user data" in
    let net name := Forbidden (child p name) "may not specify more than 1 network data" in
    let set_ x := negb (bool_decide (x = "")) in
    let '(u1, cnt) := one_of (set_ (UserData s)) 0 (user "userData") [] in
    let '(u2, cnt) := one_of (set_ (UserDataBase64 s)) cnt (user "userDataBase64") [] in
    let '(u3, _) := one_of (set_ (UserDataSecretName s)) cnt (user "userDataSecretName") [] in
    let '(n1, cnt) := one_of (set_ (NetworkData s)) 0 (net "networkData") [] in
    let '(n2, cnt) := one_of (set_ (NetworkDataBase64 s)) cnt (net "networkDataBase64") [] in
    let '(n3, _) := one_of (set_ (NetworkDataSecretName s)) cnt (net "networkDataSecretName") [] in
    u1 ++ u2 ++ u3 ++ n1 ++ n2 ++ n3).

Definition ValidateContainerRootfsVolumeSource (source : option ContainerRootfsVolumeSource) (p : fieldPath) : ErrorList :=
  nonnil source p (λ s,
    err_if (bool_decide (ContainerRootfs_Image s = "")) (Required (child p "image") "")
    ++ err_if (q_Value (ContainerRootfs_Size s) <=? 0)
         (Invalid (child p "size") (BadInt (q_Value (ContainerRootfs_Size s))) "must be greater than 0")).

Definition ValidatePersistentVolumeClaimSource (source : option PersistentVolumeClaimVolumeSource) (p : fieldPath) : ErrorList :=
  nonnil source p (λ s, err_if (bool_decide (ClaimName s = "")) (Required (child p "claimName") "")).

Definition ValidateDataVolumeSource (source : option DataVolumeVolumeSource) (p : fieldPath) : ErrorList :=
  nonnil source p (λ s, err_if (bool_decide (VolumeName s = "")) (Required (child p "volumeName") "")).

Definition ValidateVolumeSource (source : option VolumeSource) (p : fieldPath) : ErrorList :=
  nonnil source p (λ s,
    let more name := Forbidden (child p name) "may not specify more than 1 volume source" in
    let '(e1, cnt) := one_of (is_some (ContainerDisk s)) 0 (more "containerDisk")
      (ValidateContainerDiskVolumeSource (ContainerDisk s) (child p "containerDisk")) in
    let '(e2, cnt) := one_of (is_some (CloudInit s)) cnt (more "cloudInit")
      (ValidateCloudInitVolumeSource (CloudInit s) (child p "cloudInit")) in
    let '(e3, cnt) := one_of (is_some (ContainerRootfs s)) cnt (more "containerRootfs")
      (ValidateContainerRootfsVolumeSource (ContainerRootfs s) (child p "containerRootfs")) in
    let '(e4, cnt) := one_of (is_some (PersistentVolumeClaim s)) cnt (more "persistentVolumeClaim")
      (ValidatePersistentVolumeClaimSource (PersistentVolumeClaim s) (child p "persistentVolumeClaim")) in
    let '(e5, cnt) := one_of (is_some (DataVolume s)) cnt (more "dataVolume")
      (ValidateDataVolumeSource (DataVolume s) (child p "dataVolume")) in
    e1 ++ e2 ++ e3 ++ e4 ++ e5
    ++ err_if (cnt =? 0) (Required p "at least 1 volume source is required")).

Definition ValidateVolume (volume : option Volume) (p : fieldPath) : ErrorList :=
  nonnil volume p (λ v,
    err_if (bool_decide (Volume_Name v = "")) (Required (child p "name") "")
    ++ ValidateVolumeSource (Some (Volume_Source v)) p).

(** *** Networks *)

Definition ValidatePodNetworkSource (source : option unit) (p : fieldPath) : ErrorList :=
  nonnil source p (λ _, []).

Definition ValidateMultusNetworkSource (source : option MultusNetworkSource) (p : fieldPath) : ErrorList :=
  nonnil source p (λ s, err_if (bool_decide (NetworkName s = "")) (Required (child p "networkName") "")).

Definition ValidateNetworkSource (source : option NetworkSource) (p : fieldPath) : ErrorList :=
  nonnil source p (λ s,
    let more name := Forbidden (child p name) "may not specify more than 1 network source" in
    let '(e1, cnt) := one_of (is_some (Pod_ s)) 0 (more "pod")
      (ValidatePodNetworkSource (Pod_ s) (child p "pod")) in
    let '(e2, cnt) := one_of (is_some (Multus s)) cnt (more "multus")
      (ValidateMultusNetworkSource (Multus s) (child p "multus")) in
    e1 ++ e2 ++ err_if (cnt =? 0) (Required p "at least 1 network source is required")).

Definition ValidateNetwork (network : option Network) (p : fieldPath) : ErrorList :=
  nonnil network p (λ n,
    err_if (bool_decide (Network_Name n = "")) (Required (child p "name") "")
    ++ ValidateNetworkSource (Some (Network_Source n)) p).

(** *** The spec *)

(** The checks under [if spec.Instance.CPU.DedicatedCPUPlacement]. *)
Definition validate_dedicated (spec : VirtualMachineSpec) (p : fieldPath) : outcome ErrorList :=
  let res := Spec_Resources spec in
  let vcpus := numVCPUs (Instance_CPU (Spec_Instance spec)) in
  let mem := Instance_Memory (Spec_Instance spec) in
  let reqField r := child (child p "resources.requests") r in
  let limField r := child (child p "resources.limits") r in
  let reqCpu := rl_get (Requests res) ResourceCPU in
  let limCpu := rl_get (Limits res) ResourceCPU in
  let reqMem := rl_get (Requests res) ResourceMemory in
  let limMem := rl_get (Limits res) ResourceMemory in
  (let? overhead := MustParse memoryOverhead in
   let memRequired := if is_some (Memory_Hugepages mem) then overhead else q_Add overhead (Size mem) in
   Returned
     ((if q_IsZero reqCpu then [Required (reqField ResourceCPU) ""]
       else err_if (negb (q_Value reqCpu =? vcpus))
              (Invalid (reqField ResourceCPU) (BadString (q_String reqCpu)) "must equal to number of vCPUs"))
      ++ (if q_IsZero limCpu then [Required (limField ResourceCPU) ""]
          else err_if (negb (q_Equal limCpu reqCpu))
                 (Invalid (limField ResourceCPU) (BadString (q_String limCpu)) "must equal to CPU request"))
      ++ (if q_IsZero reqMem then [Required (reqField ResourceMemory) ""]
          else err_if (bool_decide (q_Cmp reqMem memRequired = Lt))
                 (Invalid (reqField ResourceMemory) (BadString (q_String reqMem))
                    ("must not be less than " +:+ q_String memRequired)%string))
      ++ (if q_IsZero limMem then [Required (limField ResourceMemory) ""]
          else err_if (negb (q_Equal limMem reqMem))
                 (Invalid (limField ResourceMemory) (BadString (q_String limMem)) "must equal to memory request"))))%go.

(** No CPU or memory, in the limits or the requests. *)
Definition no_cpu_no_memory (res : ResourceRequirements) : bool :=
  q_IsZero (rl_get (Limits res) ResourceCPU) && q_IsZero (rl_get (Limits res) ResourceMemory)
  && q_IsZero (rl_get (Requests res) ResourceCPU) && q_IsZero (rl_get (Requests res) ResourceMemory).

(** The checks under [if spec.Instance.Memory.Hugepages != nil]. *)
Definition validate_hugepages (spec : VirtualMachineSpec) (h : Hugepages) (p : fieldPath) : ErrorList :=
  let res := Spec_Resources spec in
  let resourcesField := child p "resources" in
  let hp := hugepagesResource h in
  let request := rl_lookup (Requests res) hp in
  err_if (no_cpu_no_memory res) (Forbidden resourcesField "hugepages require cpu or memory")
  ++ (match request with
      | None => [Required (child (child resourcesField "requests") hp) ""]
      | Some q => err_if (negb (q_Equal q (Size (Instance_Memory (Spec_Instance spec)))))
                    (Invalid (child (child resourcesField "requests") hp) (BadString (q_String q))
                       "must equal to instance memory size")
      end)
  ++ (match rl_lookup (Limits res) hp with
      | None => [Required (child (child resourcesField "limits") hp) ""]
      | Some q => err_if (negb (q_Equal q (default q_zero request)))
                    (Invalid (child (child resourcesField "limits") hp) (BadString (q_String q))
                       "must equal to hugepages request")
      end).

Definition ValidateVMSpec (spec : option VirtualMachineSpec) (p : fieldPath) : outcome ErrorList :=
  match spec with
  | None => Returned [Required p ""]
  | Some spec =>
      (let? dedicatedErrs :=
         (if DedicatedCPUPlacement (Instance_CPU (Spec_Instance spec))
          then validate_dedicated spec p else Returned []) in
       let hugepagesErrs :=
         match Memory_Hugepages (Instance_Memory (Spec_Instance spec)) with
         | Some h => validate_hugepages spec h p
         | None => []
         end in
       let? instErrs := ValidateInstance (Some (Spec_Instance spec)) (child p "instance") in
       let '(volErrs, _) :=
         validate_named Volume_Name (λ v, ValidateVolume (Some v)) (child p "volumes") 0 ∅ (Volumes spec) in
       let '(netErrs, _) :=
         validate_named Network_Name (λ n, ValidateNetwork (Some n)) (child p "networks") 0 ∅ (Networks spec) in
       Returned (dedicatedErrs ++ hugepagesErrs ++ instErrs ++ volErrs ++ netErrs))%go
  end.

(** *** Updates *)

Definition find_volume (name : string) (l : list Volume) : option Volume :=
  head (filter (λ v, Volume_Name v = name) l).

Definition spec_path : fieldPath := [Child "spec"].

Definition ValidateVMUpdate (vm oldVM : VirtualMachine) : ErrorList :=
  let volField name := key (child spec_path "volumes") name in
  let tmpOldSpec :=
    let s := set_Volumes (Volumes (Spec vm)) (set_RunPolicy (Spec_RunPolicy (Spec vm)) (Spec oldVM)) in
    set_Instance (set_Disks (Disks (Spec_Instance (Spec vm))) (Spec_Instance s)) s in
  err_if (negb (bool_decide (tmpOldSpec = Spec vm)))
    (Forbidden spec_path "VM spec may not be updated except runPolicy, volumes, instance.disks")
  ++ mjoin ((λ oldVolume,
       match find_volume (Volume_Name oldVolume) (Volumes (Spec vm)) with
       | Some newVolume =>
           err_if (negb (bool_decide (oldVolume = newVolume)))
             (Forbidden (volField (Volume_Name oldVolume)) "VM volume may not be updated")
       | None =>
           err_if (negb (IsHotpluggable oldVolume))
             (Forbidden (volField (Volume_Name oldVolume)) "Unhotpluggable volume may not be hotunplugged")
       end) <$> Volumes (Spec oldVM))
  ++ mjoin ((λ newVolume,
       match find_volume (Volume_Name newVolume) (Volumes (Spec oldVM)) with
       | Some _ => []
       | None =>
           err_if (negb (IsHotpluggable newVolume))
             (Forbidden (volField (Volume_Name newVolume)) "Unhotpluggable volume may not be hotplugged")
       end) <$> Volumes (Spec vm)).

Definition ValidateVM (vm : VirtualMachine) (oldVM : option VirtualMachine) : outcome ErrorList :=
  (let? errs := ValidateVMSpec (Some (Spec vm)) spec_path in
   Returned (errs ++ match oldVM with Some o => ValidateVMUpdate vm o | None => [] end))%go.

(** *** The handler *)

(** [VMValidator.Handle]; the decoder's answers for the object and the old
    object are arguments. *)
Definition VMValidator_Handle (op : Operation) (decoded decodedOld : result VirtualMachine)
    : outcome (Response VirtualMachine) :=
  match decoded with
  | Err e => Returned (Errored StatusBadRequest (ErrFmt "unmarshal VM" e))
  | Ok vm =>
      match op with
      | OpCreate => (let? errs := ValidateVM vm None in Returned (deny_if_any errs))%go
      | OpUpdate =>
          match decodedOld with
          | Err e => Returned (Errored StatusBadRequest (ErrFmt "unmarshal old VM" e))
          | Ok oldVM => (let? errs := ValidateVM vm (Some oldVM) in Returned (deny_if_any errs))%go
          end
      | OpOther => Returned Allowed
      end
  end.

End Validate.

(** ** The specification: which virtual machines are well formed *)

Section WellFormed.
Context `{K8s}.

Definition wf_cpu (c : CPU) : Prop := Sockets c ≠ 0 ∧ 0 < CoresPerSocket c.

(** The memory size is positive and, with hugepages, a multiple of the page size. *)
Definition wf_memory (m : Memory) : Prop :=
  0 < q_Value (Size m) ∧
  ∀ h, Memory_Hugepages m = Some h →
    ∃ q, ParseQuantity (PageSize h) = Some q ∧ q_Value q ≠ 0 ∧ (q_Value q | q_Value (Size m)).

Definition wf_kernel (k : Kernel) : Prop := Kernel_Image k ≠ "" ∧ Cmdline k ≠ "".

(** A CIDR block with at least four addresses, counted in a 64-bit [int]. *)
Definition wf_cidr4 (c : string) : Prop :=
  ∃ addr n ones bits ip, ParseCIDR c = Some (addr, n) ∧ cidr_block n ones bits ip ∧ 2 ≤ bits - ones ≤ 62.

(** Exactly one binding method. *)
Inductive wf_binding : InterfaceBindingMethod → Prop :=
| wf_bridge b : wf_binding (mkBinding (Some b) None None None None)
| wf_masquerade m : wf_cidr4 (CIDR m) → wf_binding (mkBinding None (Some m) None None None)
| wf_sriov s : wf_binding (mkBinding None None (Some s) None None)
| wf_vdpa v : wf_binding (mkBinding None None None (Some v) None)
| wf_vhostUser v : wf_binding (mkBinding None None None None (Some v)).

Record wf_interface (inst : Instance_) (i : Interface) : Prop := {
  wfi_name : Interface_Name i ≠ "";
  wfi_mac : is_Some (ParseMAC (MAC i));
  wfi_binding : wf_binding (Binding i);
  wfi_vhost : is_Some (VhostUser (Binding i)) →
    DedicatedCPUPlacement (Instance_CPU inst) = true ∧ is_Some (Memory_Hugepages (Instance_Memory inst))
}.

Record wf_instance (i : Instance_) : Prop := {
  wf_i_cpu : wf_cpu (Instance_CPU i);
  wf_i_memory : wf_memory (Instance_Memory i);
  wf_i_kernel : ∀ k, Instance_Kernel i = Some k → wf_kernel k;
  (** disks and file systems share one name space *)
  wf_i_names : NoDup ((Disk_Name <$> Disks i) ++ (FileSystem_Name <$> FileSystems i));
  wf_i_nonempty : "" ∉ (Disk_Name <$> Disks i) ++ (FileSystem_Name <$> FileSystems i);
  wf_i_iface_names : NoDup (Interface_Name <$> Interfaces i);
  wf_i_ifaces : Forall (wf_interface i) (Interfaces i)
}.

Definition wf_cloud_init (c : CloudInitVolumeSource) : Prop :=
  (length (filter (λ s, s ≠ "") [UserData c; UserDataBase64 c; UserDataSecretName c]) ≤ 1)%nat ∧
  (length (filter (λ s, s ≠ "") [NetworkData c; NetworkDataBase64 c; NetworkDataSecretName c]) ≤ 1)%nat.

(** Exactly one volume source. *)
Inductive wf_volume_source : VolumeSource → Prop :=
| wf_containerDisk c : ContainerDisk_Image c ≠ "" → wf_volume_source (mkVolumeSource (Some c) None None None None)
| wf_cloudInit c : wf_cloud_init c → wf_volume_source (mkVolumeSource None (Some c) None None None)
| wf_containerRootfs c : ContainerRootfs_Image c ≠ "" → 0 < q_Value (ContainerRootfs_Size c) →
    wf_volume_source (mkVolumeSource None None (Some c) None None)
| wf_pvc c : ClaimName c ≠ "" → wf_volume_source (mkVolumeSource None None None (Some c) None)
| wf_dv c : VolumeName c ≠ "" → wf_volume_source (mkVolumeSource None None None None (Some c)).

Definition wf_volume (v : Volume) : Prop := Volume_Name v ≠ "" ∧ wf_volume_source (Volume_Source v).

Inductive wf_network_source : NetworkSource → Prop :=
| wf_pod u : wf_network_source (mkNetworkSource (Some u) None)
| wf_multus m : NetworkName m ≠ "" → wf_network_source (mkNetworkSource None (Some m)).

Definition wf_network (n : Network) : Prop := Network_Name n ≠ "" ∧ wf_network_source (Network_Source n).

(** Dedicated CPUs: CPU and memory requests and limits are present and equal, the CPU
    request is the number of vCPUs, and the memory request covers the overhead and, unless
    it is backed by hugepages, the instance's memory. *)
Record wf_dedicated (spec : VirtualMachineSpec) (overhead : Quantity) : Prop := {
  wfd_cpu : q_IsZero (rl_get (Requests (Spec_Resources spec)) ResourceCPU) = false ∧
    q_Value (rl_get (Requests (Spec_Resources spec)) ResourceCPU) = numVCPUs (Instance_CPU (Spec_Instance spec));
  wfd_cpu_limit : q_IsZero (rl_get (Limits (Spec_Resources spec)) ResourceCPU) = false ∧
    q_Cmp (rl_get (Limits (Spec_Resources spec)) ResourceCPU) (rl_get (Requests (Spec_Resources spec)) ResourceCPU) = Eq;
  wfd_mem : q_IsZero (rl_get (Requests (Spec_Resources spec)) ResourceMemory) = false ∧
    q_Cmp (rl_get (Requests (Spec_Resources spec)) ResourceMemory)
      (if is_some (Memory_Hugepages (Instance_Memory (Spec_Instance spec))) then overhead
       else q_Add overhead (Size (Instance_Memory (Spec_Instance spec)))) ≠ Lt;
  wfd_mem_limit : q_IsZero (rl_get (Limits (Spec_Resources spec)) ResourceMemory) = false ∧
    q_Cmp (rl_get (Limits (Spec_Resources spec)) ResourceMemory) (rl_get (Requests (Spec_Resources spec)) ResourceMemory) = Eq
}.

(** Hugepages: request and limit of the page size equal the instance's memory, and some
    CPU or memory is asked for. *)
Record wf_hugepages (spec : VirtualMachineSpec) (h : Hugepages) : Prop := {
  wfh_some : no_cpu_no_memory (Spec_Resources spec) = false;
  wfh_pages : ∃ r l, rl_lookup (Requests (Spec_Resources spec)) (hugepagesResource h) = Some r ∧
    rl_lookup (Limits (Spec_Resources spec)) (hugepagesResource h) = Some l ∧
    q_Cmp r (Size (Instance_Memory (Spec_Instance spec))) = Eq ∧ q_Cmp l r = Eq
}.

Record wf_spec (spec : VirtualMachineSpec) : Prop := {
  wfs_dedicated : DedicatedCPUPlacement (Instance_CPU (Spec_Instance spec)) = true →
    ∃ overhead, ParseQuantity memoryOverhead = Some overhead ∧ wf_dedicated spec overhead;
  wfs_hugepages : ∀ h, Memory_Hugepages (Instance_Memory (Spec_Instance spec)) = Some h → wf_hugepages spec h;
  wfs_instance : wf_instance (Spec_Instance spec);
  wfs_volume_names : NoDup (Volume_Name <$> Volumes spec);
  wfs_volumes : Forall wf_volume (Volumes spec);
  wfs_network_names : NoDup (Network_Name <$> Networks spec);
  wfs_networks : Forall wf_network (Networks spec)
}.

End WellFormed.

(** ** Lemmas on error lists *)

Lemma err_if_nil b e : err_if b e = [] ↔ b = false.
Proof. by destruct b. Qed.

Lemma validate_named_seen {A} (name : A → string) v p i seen l :
  snd (validate_named name v p i seen l) = list_to_set (name <$> l) ∪ seen.
Proof.
  revert i seen. induction l as [|x l IH]; intros i seen; simpl; [set_solver|].
  specialize (IH (S i) ({[name x]} ∪ seen)). destruct (validate_named _ _ _ _ _ l) as [errs s']. simpl in *.
  rewrite IH. set_solver.
Qed.

(** A named list passes when its names are new and distinct and its elements pass. *)
Lemma validate_named_nil {A} (name : A → string) v p i seen l (P : A → Prop) :
  (∀ x q, v x q = [] ↔ P x) →
  fst (validate_named name v p i seen l) = [] ↔
  NoDup (name <$> l) ∧ (∀ n, n ∈ name <$> l → n ∉ seen) ∧ Forall P l.
Proof.
  intros Hv. revert i seen. induction l as [|x l IH]; intros i seen; simpl.
  { split; [intros _|done]. repeat split; [constructor|set_solver|constructor]. }
  specialize (IH (S i) ({[name x]} ∪ seen)).
  destruct (validate_named _ _ _ _ _ l) as [errs s']. simpl in *.
  rewrite !app_nil, err_if_nil, bool_decide_eq_false, Hv, IH, NoDup_cons, Forall_cons.
  set_solver.
Qed.

Create Rewrite HintDb errs.
#[export] Hint Rewrite err_if_nil (@app_nil FieldError) negb_false_iff @bool_decide_eq_false
  Z.leb_gt Z.eqb_neq Z.eqb_eq : errs.

(** ** Each validator accepts exactly the well-formed values *)

Section Accepts.
Context `{K : K8s}.

#[local] Arguments ValidateMemory : simpl never.
#[local] Arguments ValidateKernel : simpl never.
#[local] Arguments ValidateCPU : simpl never.
#[local] Arguments ValidateInstance : simpl never.
#[local] Arguments ValidateInterfaceBindingMethod : simpl never.
#[local] Arguments ValidateCloudInitVolumeSource : simpl never.
#[local] Arguments ValidateVolumeSource : simpl never.
#[local] Arguments ValidateNetworkSource : simpl never.

Lemma ValidateCPU_nil c p : ValidateCPU (Some c) p = [] ↔ wf_cpu c.
Proof. unfold ValidateCPU, wf_cpu; simpl. by autorewrite with errs. Qed.

Lemma ValidateKernel_nil k p : ValidateKernel (Some k) p = [] ↔ wf_kernel k.
Proof. unfold ValidateKernel, wf_kernel; simpl. by autorewrite with errs. Qed.

Lemma ValidateMemory_nil m p : ValidateMemory (Some m) p = Returned [] ↔ wf_memory m.
Proof.
  unfold ValidateMemory, wf_memory, MustParse. destruct (Memory_Hugepages m) as [h|].
  - destruct (ParseQuantity (PageSize h)) as [q|] eqn:Eq; simpl.
    + destruct (q_Value q =? 0) eqn:Ez; bools.
      * split; [done|]. intros [_ Hh]. destruct (Hh h eq_refl) as (q' & ? & ? & ?). simplify_eq.
      * split.
        -- intros E. injection E as E. revert E. autorewrite with errs.
           intros [? Hr]. split; [done|]. intros h' ?. simplify_eq. exists q. split_and!; [done..|].
           by apply Z.rem_divide.
        -- intros [Hpos Hh]. destruct (Hh h eq_refl) as (q' & ? & ? & Hd). simplify_eq.
           f_equal. autorewrite with errs. split; [done|]. by apply Z.rem_divide.
    + split; [done|]. intros [_ Hh]. destruct (Hh h eq_refl) as (q' & ? & ? & ?). congruence.
  - split.
    + intros E. injection E as E. revert E. by autorewrite with errs.
    + intros [? _]. f_equal. by autorewrite with errs.
Qed.

Lemma shl1_capacity4 ones bits :
  bits = 32 ∨ bits = 128 → 0 ≤ ones ≤ bits → (shl1 (bits - ones) <? 4) = negb ((2 <=? bits - ones) && (bits - ones <=? 62)).
Proof.
  intros Hb Ho. apply Bool.eqb_true_iff. revert ones bits Hb Ho.
  apply (prefix_lengths (λ o b, Bool.eqb (shl1 (b - o) <? 4) (negb ((2 <=? b - o) && (b - o <=? 62)))));
    vm_compute; reflexivity.
Qed.

Lemma ValidateCIDR_nil c p : ValidateCIDR c 4 p = [] ↔ wf_cidr4 c.
Proof.
  unfold ValidateCIDR, wf_cidr4. case_decide as Ec.
  { subst. split; [done|]. intros (? & ? & ? & ? & ? & E & _). by vm_compute in E. }
  destruct (ParseCIDR c) as [[addr n]|] eqn:E; [|split; [done|]; intros (? & ? & ? & ? & ? & ? & _); done].
  destruct (ParseCIDR_block _ _ _ E) as (ones & bits & ip & Hb).
  rewrite (cb_mask _ _ _ _ Hb), Mask_Size_CIDRMask by apply Hb.
  rewrite err_if_nil, shl1_capacity4 by apply Hb. rewrite negb_false_iff, andb_true_iff, !Z.leb_le.
  split.
  - intros ?. by exists addr, n, ones, bits, ip.
  - intros (addr' & n' & ones' & bits' & ip' & ? & Hb' & ?). simplify_eq.
    assert (Es : Mask_Size (CIDRMask ones bits) = Mask_Size (CIDRMask ones' bits'))
      by (by rewrite <-(cb_mask _ _ _ _ Hb), <-(cb_mask _ _ _ _ Hb')).
    rewrite !Mask_Size_CIDRMask in Es by (apply Hb || apply Hb'). simplify_eq. done.
Qed.

(** Close a case of a "count the alternatives" validator. *)
Ltac alternatives :=
  split; intros Hx;
    [ try done; first [ by constructor | by apply app_nil in Hx as [_ Hx] | by apply app_nil in Hx as [Hx ?]; constructor ]
    | by inversion Hx ].

Lemma ValidateBinding_nil b p : ValidateInterfaceBindingMethod (Some b) p = [] ↔ wf_binding b.
Proof.
  destruct b as [br ma sr vd vh].
  unfold ValidateInterfaceBindingMethod; simpl.
  destruct br, ma as [m|], sr, vd, vh; simpl; rewrite ?app_nil_r, ?ValidateCIDR_nil; alternatives.
Qed.

Lemma ParseMAC_empty : ParseMAC "" = None.
Proof. reflexivity. Qed.

Lemma ValidateMAC_nil m p : ValidateMAC m p = [] ↔ is_Some (ParseMAC m).
Proof.
  unfold ValidateMAC. autorewrite with errs. rewrite <-not_eq_None_Some. split; [tauto|].
  intros Hm. split; [|done]. intros ->. by rewrite ParseMAC_empty in Hm.
Qed.

Lemma is_some_true {A} (o : option A) : is_some o = true ↔ is_Some o.
Proof. destruct o; split; intros Ho; first [done | by eexists | by destruct Ho]. Qed.

Lemma validate_interface_in_nil inst i p : validate_interface_in inst i p = [] ↔ wf_interface inst i.
Proof.
  unfold validate_interface_in, ValidateInterface; cbn [nonnil]. autorewrite with errs.
  rewrite ValidateMAC_nil, ValidateBinding_nil, andb_false_iff, orb_false_iff, !negb_false_iff, is_some_true.
  rewrite <-not_true_iff_false, is_some_true.
  split; [intros (Hv & ? & ? & ?); split; tauto|intros []; destruct (VhostUser (Binding i)) as [u|]].
  - pose proof (wfi_vhost0 ltac:(by eexists)). tauto.
  - split_and!; try done. left. by intros [].
Qed.

Lemma ValidateInstance_nil i p : ValidateInstance (Some i) p = Returned [] ↔ wf_instance i.
Proof.
  unfold ValidateInstance.
  pose proof (validate_named_seen Disk_Name (λ d, ValidateDisk (Some d)) (child p "disks") 0 ∅ (Disks i)) as Hs.
  pose proof (validate_named_nil Disk_Name (λ d, ValidateDisk (Some d)) (child p "disks") 0 ∅ (Disks i)
                (λ d, Disk_Name d ≠ "")) as Hd.
  destruct (validate_named Disk_Name _ _ _ _ _) as [de dn]. simpl in Hs. subst dn.
  pose proof (validate_named_nil FileSystem_Name (λ f, ValidateFileSystem (Some f)) (child p "fileSystems") 0
                (list_to_set (Disk_Name <$> Disks i) ∪ ∅) (FileSystems i) (λ d, FileSystem_Name d ≠ "")) as Hf.
  destruct (validate_named FileSystem_Name _ _ _ _ _) as [fe fn].
  pose proof (validate_named_nil Interface_Name (validate_interface_in i) (child p "interfaces") 0 ∅ (Interfaces i)
                (wf_interface i) (λ x q, validate_interface_in_nil i x q)) as Hi.
  destruct (validate_named Interface_Name _ _ _ _ _) as [ie inn]. simpl in *.
  pose proof (ValidateMemory_nil (Instance_Memory i) (child p "memory")) as Hm.
  specialize (Hd ltac:(intros; unfold ValidateDisk; simpl; by autorewrite with errs)).
  specialize (Hf ltac:(intros; unfold ValidateFileSystem; simpl; by autorewrite with errs)).
  assert (Hk : match Instance_Kernel i with Some k => ValidateKernel (Some k) (child p "kernel") | None => [] end = []
               ↔ ∀ k, Instance_Kernel i = Some k → wf_kernel k).
  { destruct (Instance_Kernel i); [rewrite ValidateKernel_nil|]; naive_solver. }
  trans (ValidateMemory (Some (Instance_Memory i)) (child p "memory") = Returned [] ∧
         wf_cpu (Instance_CPU i) ∧ (∀ k, Instance_Kernel i = Some k → wf_kernel k) ∧ de = [] ∧ fe = [] ∧ ie = []).
  - rewrite <-Hk, <-(ValidateCPU_nil _ (child p "cpu")).
    clear. destruct (ValidateMemory _ _) as [me|]; cbn [outcome_bind]; [|by split; [|intros [? _]]].
    split.
    + intros E. apply (inj Returned) in E. rewrite !app_nil in E.
      destruct E as (-> & -> & -> & -> & -> & ->). done.
    + intros (E & -> & -> & -> & -> & ->). apply (inj Returned) in E as ->. done.
  - rewrite Hm, Hd, Hf, Hi, !Forall_forall. split.
    + intros (? & ? & ? & (? & _ & ?) & (? & ? & ?) & (? & _ & ?)).
      split; try done; [|set_solver|by apply Forall_forall].
      apply NoDup_app. set_solver.
    + intros []. apply NoDup_app in wf_i_names0 as (? & ? & ?).
      rewrite Forall_forall in wf_i_ifaces0. set_solver.
Qed.

(** *** Volumes and networks *)

Lemma count_set (x y z : string) :
  length (filter (λ s, s ≠ "") [x; y; z]) =
    (Nat.b2n (negb (bool_decide (x = ""))) + Nat.b2n (negb (bool_decide (y = ""))) + Nat.b2n (negb (bool_decide (z = ""))))%nat.
Proof.
  rewrite !filter_cons, filter_nil. unfold bool_decide.
  destruct (decide (x = "")), (decide (y = "")), (decide (z = "")); repeat case_decide; done.
Qed.

Lemma ValidateCloudInit_nil c p : ValidateCloudInitVolumeSource (Some c) p = [] ↔ wf_cloud_init c.
Proof.
  unfold ValidateCloudInitVolumeSource, wf_cloud_init, nonnil. rewrite !count_set.
  repeat match goal with |- context [negb ?b] => generalize (negb b); intros [] end; simpl;
    (split; [intros E|intros [??]]; first [done | lia | split; lia]).
Qed.

Lemma ValidateVolumeSource_nil s p : ValidateVolumeSource (Some s) p = [] ↔ wf_volume_source s.
Proof.
  destruct s as [cd ci cr pv dv].
  unfold ValidateVolumeSource, ValidateContainerDiskVolumeSource, ValidateContainerRootfsVolumeSource,
    ValidatePersistentVolumeClaimSource, ValidateDataVolumeSource; simpl.
  destruct cd, ci, cr, pv, dv; simpl; rewrite ?app_nil_r, ?ValidateCloudInit_nil; autorewrite with errs;
    (split; [intros Hx|intros Hx; inversion Hx; subst];
       first [done | tauto | by destruct Hx | once (constructor; first [exact Hx | apply Hx])]).
Qed.

Lemma ValidateVolume_nil v p : ValidateVolume (Some v) p = [] ↔ wf_volume v.
Proof.
  unfold ValidateVolume, wf_volume; cbn [nonnil]. autorewrite with errs. by rewrite ValidateVolumeSource_nil.
Qed.

Lemma ValidateNetworkSource_nil s p : ValidateNetworkSource (Some s) p = [] ↔ wf_network_source s.
Proof.
  destruct s as [po mu]. unfold ValidateNetworkSource, ValidateMultusNetworkSource; simpl.
  destruct po, mu; simpl; rewrite ?app_nil_r; autorewrite with errs;
    (split; intros Hx; [first [done | once (constructor; exact Hx) | once constructor]|by inversion Hx]).
Qed.

Lemma ValidateNetwork_nil n p : ValidateNetwork (Some n) p = [] ↔ wf_network n.
Proof.
  unfold ValidateNetwork, wf_network; cbn [nonnil]. autorewrite with errs. by rewrite ValidateNetworkSource_nil.
Qed.

(** *** Resources *)

Lemma required_or_nil (b : bool) e l : (if b then [e] else l) = [] ↔ b = false ∧ l = ([] : ErrorList).
Proof. destruct b; naive_solver. Qed.

Lemma validate_dedicated_nil spec p :
  validate_dedicated spec p = Returned [] ↔
  ∃ overhead, ParseQuantity memoryOverhead = Some overhead ∧ wf_dedicated spec overhead.
Proof.
  unfold validate_dedicated, MustParse.
  destruct (ParseQuantity memoryOverhead) as [o|]; simpl; [|naive_solver].
  trans (wf_dedicated spec o); [|naive_solver].
  rewrite (inj_iff Returned), !app_nil, !required_or_nil. unfold q_Equal. autorewrite with errs.
  rewrite !bool_decide_eq_true.
  split; [intros (? & ? & ? & ?); by split|intros []; done].
Qed.

Lemma validate_hugepages_nil spec h p : validate_hugepages spec h p = [] ↔ wf_hugepages spec h.
Proof.
  unfold validate_hugepages, q_Equal. rewrite !app_nil, err_if_nil.
  destruct (rl_lookup (Requests _) _) as [r|] eqn:Er, (rl_lookup (Limits _) _) as [l|] eqn:El; simpl;
    autorewrite with errs; rewrite ?bool_decide_eq_true;
    (split; [intros (? & ? & ?)|intros [? (r' & l' & ? & ? & ? & ?)]]; simplify_eq; try congruence); [|done].
  split; [done|]. exists r, l. auto.
Qed.

(** *** The whole spec *)

Lemma ValidateVMSpec_nil spec p : ValidateVMSpec (Some spec) p = Returned [] ↔ wf_spec spec.
Proof.
  unfold ValidateVMSpec.
  pose proof (validate_named_nil Volume_Name (λ v, ValidateVolume (Some v)) (child p "volumes") 0 ∅ (Volumes spec)
                wf_volume ValidateVolume_nil) as Hv.
  destruct (validate_named Volume_Name _ _ _ _ _) as [ve vn].
  pose proof (validate_named_nil Network_Name (λ v, ValidateNetwork (Some v)) (child p "networks") 0 ∅ (Networks spec)
                wf_network ValidateNetwork_nil) as Hn.
  destruct (validate_named Network_Name _ _ _ _ _) as [ne nn]. cbn [fst] in *.
  set (ded := if DedicatedCPUPlacement _ then _ else _).
  set (hug := match Memory_Hugepages _ with Some _ => _ | None => _ end).
  assert (Hd : ded = Returned [] ↔ (DedicatedCPUPlacement (Instance_CPU (Spec_Instance spec)) = true →
    ∃ overhead, ParseQuantity memoryOverhead = Some overhead ∧ wf_dedicated spec overhead)).
  { unfold ded. destruct (DedicatedCPUPlacement _); [rewrite validate_dedicated_nil|]; naive_solver. }
  assert (Hh : hug = [] ↔ ∀ h, Memory_Hugepages (Instance_Memory (Spec_Instance spec)) = Some h → wf_hugepages spec h).
  { unfold hug. destruct (Memory_Hugepages _) as [h|]; [rewrite validate_hugepages_nil|]; naive_solver. }
  trans (ded = Returned [] ∧ hug = [] ∧ ValidateInstance (Some (Spec_Instance spec)) (child p "instance") = Returned []
         ∧ ve = [] ∧ ne = []).
  - clear. destruct ded as [de|]; cbn [outcome_bind]; [|by split; [|intros [? _]]].
    destruct (ValidateInstance _ _) as [ie|]; cbn [outcome_bind]; [|by split; [|intros (? & ? & ? & _)]].
    rewrite !(inj_iff Returned), !app_nil. tauto.
  - rewrite Hd, Hh, ValidateInstance_nil, Hv, Hn. split.
    + intros (? & ? & ? & (? & _ & ?) & (? & _ & ?)). by split.
    + intros []. set_solver.
Qed.

End Accepts.

(** ** What the admission handler promises *)

Section Admission.
Context `{K : K8s}.

Lemma deny_if_any_Allowed {A} errs : deny_if_any errs = (Allowed : Response A) ↔ errs = [].
Proof. by destruct errs. Qed.

Lemma Handle_create vm old :
  VMValidator_Handle OpCreate (Ok vm) old = Returned Allowed ↔ ValidateVM vm None = Returned [].
Proof.
  simpl. destruct (ValidateVM vm None) as [errs|]; simpl; [|done].
  by rewrite !(inj_iff Returned), deny_if_any_Allowed.
Qed.

Lemma Handle_update vm old :
  VMValidator_Handle OpUpdate (Ok vm) (Ok old) = Returned Allowed ↔ ValidateVM vm (Some old) = Returned [].
Proof.
  simpl. destruct (ValidateVM vm (Some old)) as [errs|]; simpl; [|done].
  by rewrite !(inj_iff Returned), deny_if_any_Allowed.
Qed.

Lemma ValidateVM_nil vm old :
  ValidateVM vm old = Returned [] ↔
  wf_spec (Spec vm) ∧ match old with Some o => ValidateVMUpdate vm o = [] | None => True end.
Proof.
  unfold ValidateVM. rewrite <-(ValidateVMSpec_nil (Spec vm) spec_path).
  destruct (ValidateVMSpec _ _) as [errs|]; cbn [outcome_bind]; [|naive_solver].
  rewrite !(inj_iff Returned), app_nil. destruct old; tauto.
Qed.

(** What an update may change: the run policy, the volumes and the disks; of the volumes
    only hotpluggable ones come and go, and a volume that stays is not altered. *)
Record update_allowed (vm old : VirtualMachine) : Prop := {
  ua_frozen : Spec vm = set_Instance (set_Disks (Disks (Spec_Instance (Spec vm))) (Spec_Instance (Spec old)))
    (set_Volumes (Volumes (Spec vm)) (set_RunPolicy (Spec_RunPolicy (Spec vm)) (Spec old)));
  ua_fixed : ∀ v, IsHotpluggable v = false → v ∈ Volumes (Spec old) ↔ v ∈ Volumes (Spec vm);
  ua_same : ∀ v v', v ∈ Volumes (Spec old) → v' ∈ Volumes (Spec vm) → Volume_Name v = Volume_Name v' → v = v'
}.

Lemma mjoin_nil {A B} (f : A → list B) l : mjoin (f <$> l) = [] ↔ ∀ x, x ∈ l → f x = [].
Proof. induction l as [|x l IH]; simpl; [set_solver|]. rewrite app_nil, IH. set_solver. Qed.

Lemma find_volume_Some n l v : find_volume n l = Some v → v ∈ l ∧ Volume_Name v = n.
Proof.
  unfold find_volume. intros E. apply head_Some_elem_of in E. apply list_elem_of_filter in E. tauto.
Qed.

Lemma find_volume_None n l : find_volume n l = None ↔ n ∉ Volume_Name <$> l.
Proof.
  unfold find_volume. rewrite head_None. split.
  - intros E (v & -> & Hv)%list_elem_of_fmap.
    assert (v ∈ filter (λ w, Volume_Name w = Volume_Name v) l) by (by apply list_elem_of_filter).
    rewrite E in *. set_solver.
  - intros Hn. destruct (filter _ l) as [|x ?] eqn:E; [done|].
    assert (Hx : x ∈ filter (λ v, Volume_Name v = n) l) by (rewrite E; left).
    apply list_elem_of_filter in Hx. set_solver.
Qed.

Lemma NoDup_names_eq (l : list Volume) v v' :
  NoDup (Volume_Name <$> l) → v ∈ l → v' ∈ l → Volume_Name v = Volume_Name v' → v = v'.
Proof.
  induction l as [|x l IH]; [set_solver|]. rewrite fmap_cons, NoDup_cons, !elem_of_cons.
  intros [Hx Hnd] [->|Hv] [->|Hv'] E; [done| | |by apply IH]; destruct Hx; rewrite ?E, <-?E; set_solver.
Qed.

Lemma find_volume_elem l v :
  NoDup (Volume_Name <$> l) → v ∈ l → find_volume (Volume_Name v) l = Some v.
Proof.
  intros Hnd Hv. destruct (find_volume (Volume_Name v) l) as [w|] eqn:E.
  - apply find_volume_Some in E as [??]. f_equal. by eapply NoDup_names_eq.
  - apply find_volume_None in E. set_solver.
Qed.

Lemma ValidateVMUpdate_nil vm old :
  NoDup (Volume_Name <$> Volumes (Spec old)) → NoDup (Volume_Name <$> Volumes (Spec vm)) →
  ValidateVMUpdate vm old = [] ↔ update_allowed vm old.
Proof.
  intros Ho Hn. unfold ValidateVMUpdate. rewrite !app_nil, err_if_nil, negb_false_iff, bool_decide_eq_true, !mjoin_nil.
  split.
  - intros (Hf & H1 & H2). split; [by destruct (Spec old)| |].
    + intros v Hh. split; intros Hv.
      * specialize (H1 v Hv). destruct (find_volume _ _) as [w|] eqn:E; autorewrite with errs in H1; [|congruence].
        rewrite bool_decide_eq_true in H1. subst. by apply find_volume_Some in E as [? _].
      * specialize (H2 v Hv). destruct (find_volume _ _) as [w|] eqn:E; autorewrite with errs in H2; [|congruence].
        apply find_volume_Some in E as [Hw En]. specialize (H1 w Hw). rewrite En, find_volume_elem in H1 by done.
        autorewrite with errs in H1. rewrite bool_decide_eq_true in H1. by subst.
    + intros v v' Hv Hv' En. specialize (H1 v Hv). rewrite En, find_volume_elem in H1 by done.
      autorewrite with errs in H1. by rewrite bool_decide_eq_true in H1.
  - intros [Hf Hfix Hsame]. split_and!; [by destruct (Spec old)| |].
    + intros v Hv. destruct (find_volume _ _) as [w|] eqn:E; autorewrite with errs.
      * apply find_volume_Some in E as [??]. rewrite bool_decide_eq_true. by apply Hsame.
      * apply find_volume_None in E. destruct (IsHotpluggable v) eqn:Eh; [done|].
        destruct E. apply list_elem_of_fmap_2. by apply Hfix.
    + intros v Hv. destruct (find_volume _ _) as [w|] eqn:E; [done|]. autorewrite with errs.
      apply find_volume_None in E. destruct (IsHotpluggable v) eqn:Eh; [done|].
      destruct E. apply list_elem_of_fmap_2. by apply Hfix.
Qed.

(** C14: a create request is admitted exactly when the VM's spec is well formed: CPU,
    memory, kernel, names unique across disks and file systems, one binding method per
    interface with a usable CIDR, one source per volume and network, and the resource
    constraints of dedicated CPUs and hugepages. *)
Theorem create_admitted_iff_wf vm decodedOld :
  VMValidator_Handle OpCreate (Ok vm) decodedOld = Returned Allowed ↔ wf_spec (Spec vm).
Proof. rewrite Handle_create, ValidateVM_nil. tauto. Qed.

(** C15: an update of a VM whose volume names are distinct is admitted exactly when the
    new spec is well formed, only the run policy, the volumes and the disks differ, the
    volumes that cannot be hotplugged are the same and no volume is altered in place. *)
Theorem update_admitted_iff vm old :
  NoDup (Volume_Name <$> Volumes (Spec old)) →
  VMValidator_Handle OpUpdate (Ok vm) (Ok old) = Returned Allowed ↔ wf_spec (Spec vm) ∧ update_allowed vm old.
Proof.
  intros Ho. rewrite Handle_update, ValidateVM_nil. split; intros [Hw Hu]; (split; [done|]).
  - by apply ValidateVMUpdate_nil in Hu; [|done|apply Hw].
  - by apply ValidateVMUpdate_nil; [|apply Hw|].
Qed.

(** With the page sizes the CRD admits, validation never panics. *)
Theorem ValidateVM_no_panic (L : QuantityLaws K) vm old :
  (∀ h, Memory_Hugepages (Instance_Memory (Spec_Instance (Spec vm))) = Some h → PageSize h ∈ ["2Mi"; "1Gi"]) →
  ∃ errs, ValidateVM vm old = Returned errs.
Proof.
  intros Hp. unfold ValidateVM, ValidateVMSpec.
  assert (∃ e, (if DedicatedCPUPlacement (Instance_CPU (Spec_Instance (Spec vm)))
                then validate_dedicated (Spec vm) spec_path else Returned []) = Returned e) as [e1 ->].
  { destruct (DedicatedCPUPlacement _); [|by eexists]. unfold validate_dedicated, MustParse.
    destruct (Parse_256Mi (QuantityLaws := L)) as (q & Eq & _). unfold memoryOverhead. rewrite Eq. by eexists. }
  assert (∃ e, ValidateMemory (Some (Instance_Memory (Spec_Instance (Spec vm))))
            (child (child spec_path "instance") "memory") = Returned e) as [e2 He2].
  { unfold ValidateMemory. destruct (Memory_Hugepages _) as [h|] eqn:Eh; [|by eexists].
    assert (∃ q v, ParseQuantity (PageSize h) = Some q ∧ amount q = v * 10 ^ 9 ∧ 0 < v < 2 ^ 63) as (q & v & Eq & Ea & Hv).
    { specialize (Hp h eq_refl). rewrite !elem_of_cons, elem_of_nil in Hp. destruct Hp as [->|[->|[]]].
      - destruct (Parse_2Mi (QuantityLaws := L)) as (q & ? & ?). exists q, (2 * 2 ^ 20). done.
      - destruct (Parse_1Gi (QuantityLaws := L)) as (q & ? & ?). exists q, (2 ^ 30). done. }
    unfold MustParse. rewrite Eq. simpl. rewrite (q_Value_spec q v) by (done || lia).
    destruct (v =? 0) eqn:Ev; bools; [lia|]. by eexists. }
  unfold ValidateInstance. rewrite He2. cbn [outcome_bind].
  repeat match goal with |- context [validate_named ?a ?b ?c ?d ?e ?f] => destruct (validate_named a b c d e f) end.
  by eexists.
Qed.

(** The capacity check counts addresses in a 64-bit [int]: an IPv6 block with 63
    host bits or more is turned down as too small. *)
Theorem ValidateCIDR_wide_ipv6 c addr n ones p :
  ParseCIDR c = Some (addr, n) → Mask_Size (IPNet_Mask n) = (ones, 128) → ones ≤ 65 →
  ValidateCIDR c 4 p = [Invalid p (BadString c) "must contain at least 4 IPs"].
Proof.
  intros E Em Ho. unfold ValidateCIDR. case_decide as Ec; [subst; by vm_compute in E|].
  rewrite E, Em. destruct (ParseCIDR_block _ _ _ E) as (ones' & bits & ip & Hb).
  rewrite (cb_mask _ _ _ _ Hb), Mask_Size_CIDRMask in Em by apply Hb. simplify_eq.
  rewrite shl1_capacity4 by (first [right; done | apply Hb]).
  destruct (128 - ones <=? 62) eqn:El; bools; [lia|]. by rewrite andb_false_r.
Qed.

End Admission.

(** ** A concrete virtual machine *)

Definition admitted {A} (o : outcome (Response A)) : bool :=
  match o with Returned Allowed => true | _ => false end.

Lemma admitted_eq {A} (o : outcome (Response A)) : admitted o = true → o = Returned Allowed.
Proof. by destruct o as [[]|]. Qed.

Section Sample.
#[local] Existing Instance k8s_concrete.

Definition sampleDisk : Volume :=
  mkVolume "root" (mkVolumeSource (Some (mkContainerDisk "ubuntu:22.04" "")) None None None None).
Definition sampleData : Volume :=
  mkVolume "data" (mkVolumeSource None None None (Some (mkPVCSource true "data-pvc")) None).

Definition sampleInstance : Instance_ :=
  mkInstance (mkCPU 1 2 true) (mkMemory (2 ^ 30 * 10 ^ 9) (Some (mkHugepages "2Mi"))) None None None
    [mkDisk "root" None] []
    [mkInterface "pod" "52:54:00:12:34:56" (mkBinding None (Some (mkMasquerade "10.0.2.0/30")) None None None)].

Definition sampleResources : ResourceRequirements :=
  let m : gmap string Z := {[ "cpu" := 2 * 10 ^ 9; "memory" := 2 ^ 28 * 10 ^ 9; "hugepages-2Mi" := 2 ^ 30 * 10 ^ 9 ]} in
  mkResources (Some m) (Some m).

Definition sampleSpec (vols : list Volume) : VirtualMachineSpec :=
  mkVMSpec None None [] sampleResources None None RunPolicyOnce sampleInstance vols
    [mkNetwork "pod" (mkNetworkSource (Some tt) None)] [] [].

Definition sampleMeta (name uid : string) : ObjectMeta :=
  mkObjectMeta name "" "default" uid "1" 1 1 None None None [] [].

Definition sampleVM (vols : list Volume) : VirtualMachine :=
  mkVM (sampleMeta "vm" "vm-uid") (sampleSpec vols) emptyVMStatus.

Example sample_admitted :
  VMValidator_Handle OpCreate (Ok (sampleVM [sampleDisk])) (Err (ErrMsg "")) = Returned Allowed.
Proof. apply admitted_eq. vm_compute. reflexivity. Qed.

(** Hotplugging a volume is an admitted update; the well-formedness of the new VM follows. *)
Lemma update_admitted_iff_witness :
  wf_spec (Spec (sampleVM [sampleDisk; sampleData])) ∧
  update_allowed (sampleVM [sampleDisk; sampleData]) (sampleVM [sampleDisk]).
Proof.
  apply (update_admitted_iff (sampleVM [sampleDisk; sampleData]) (sampleVM [sampleDisk])).
  - apply NoDup_singleton.
  - apply admitted_eq. vm_compute. reflexivity.
Defined.

Lemma ValidateVM_no_panic_witness :
  ∃ errs, ValidateVM (sampleVM [sampleDisk]) None = Returned errs.
Proof.
  apply (ValidateVM_no_panic k8s_concrete_laws). intros h [= <-]. left.
Defined.

Lemma ValidateCIDR_wide_ipv6_witness :
  ValidateCIDR "fd00::/64" 4 [] = [Invalid [] (BadString "fd00::/64") "must contain at least 4 IPs"].
Proof.
  eapply (ValidateCIDR_wide_ipv6 "fd00::/64" _ _ 64 []); [vm_compute; reflexivity|vm_compute; reflexivity|lia].
Defined.

End Sample.
