(* ===== verification/VmMutate.v ===== *)
(** * Admission defaulting of virtual machines: pkg/controller/vm_webhook.go

    [MutateVM] fills in the defaults of a VM.  Go maps are references: with
    dedicated CPUs and neither requests nor limits set, both fields end up
    pointing to the one map [rsList], and the hugepages block then writes through
    both.  The resource lists are therefore modelled as a store of maps. *)

From stdpp Require Import base gmap strings list sets fin_maps.
From Stdlib Require Import ZArith Lia.
From S2P Require Import Prelude GoStd GoNet K8s ApiTypes VmValidate.
Open Scope Z_scope.

Section Mutate.
Context `{K8s}.

(** ** The store of resource lists *)

Record rstore := mkRstore {
  heap : gmap nat (gmap string Quantity);
  next : nat;
  req : option nat;   (* vm.Spec.Resources.Requests *)
  lim : option nat    (* vm.Spec.Resources.Limits *)
}.

Definition deref (h : gmap nat (gmap string Quantity)) (l : option nat) : option (gmap string Quantity) :=
  l ≫= λ a, h !! a.

(** A decoded VM holds two distinct maps, or nil. *)
Definition load (r : ResourceRequirements) : rstore :=
  let put (a : nat) (m : option (gmap string Quantity)) (h : gmap nat (gmap string Quantity)) :=
    match m with Some m => <[a := m]> h | None => h end in
  mkRstore (put 0%nat (Requests r) (put 1%nat (Limits r) ∅)) 2
    ((λ _, 0%nat) <$> Requests r) ((λ _, 1%nat) <$> Limits r).

Definition unload (s : rstore) : ResourceRequirements :=
  mkResources (deref (heap s) (lim s)) (deref (heap s) (req s)).

(** Allocate a map. *)
Definition alloc (m : gmap string Quantity) (s : rstore) : nat * rstore :=
  (next s, mkRstore (<[next s := m]> (heap s)) (S (next s)) (req s) (lim s)).

(** [m[k] = v] through a reference. *)
Definition store (l : option nat) (k : string) (v : Quantity) (s : rstore) : rstore :=
  match l with
  | Some a => mkRstore (alter (<[k := v]>) a (heap s)) (next s) (req s) (lim s)
  | None => s
  end.

Definition set_req (l : option nat) (s : rstore) : rstore := mkRstore (heap s) (next s) l (lim s).
Definition set_lim (l : option nat) (s : rstore) : rstore := mkRstore (heap s) (next s) (req s) l.

(** [if list.X().IsZero() { list[x] = rsList[x] }]. *)
Definition fill (l : option nat) (k : string) (v : Quantity) (s : rstore) : rstore :=
  if q_IsZero (rl_get (deref (heap s) l) k) then store l k v s else s.

(** The [DedicatedCPUPlacement] block; [cpuQ] and [memSize] are the two entries of
    [rsList]. *)
Definition mutate_dedicated (cpuQ memSize : Quantity) (s : rstore) : rstore :=
  let '(rs, s) := alloc {[ResourceCPU := cpuQ; ResourceMemory := memSize]} s in
  let s := match req s with
           | None => set_req (Some rs) s
           | Some a => fill (Some a) ResourceMemory memSize (fill (Some a) ResourceCPU cpuQ s)
           end in
  match lim s with
  | None => set_lim (Some rs) s
  | Some a => fill (Some a) ResourceMemory memSize (fill (Some a) ResourceCPU cpuQ s)
  end.

(** The [Hugepages != nil] block. *)
Definition mutate_hugepages (hp : string) (size overhead : Quantity) (s : rstore) : rstore :=
  let s := match lim s with
           | None => let '(a, s) := alloc ∅ s in set_lim (Some a) s
           | Some _ => s
           end in
  let '(hugepagesLimit, s) :=
    match rl_lookup (deref (heap s) (lim s)) hp with
    | Some q => (q, s)
    | None => (size, store (lim s) hp size s)
    end in
  let s := match req s with
           | None => let '(a, s) := alloc ∅ s in set_req (Some a) s
           | Some _ => s
           end in
  let s := match rl_lookup (deref (heap s) (req s)) hp with
           | Some _ => s
           | None => store (req s) hp hugepagesLimit s
           end in
  if no_cpu_no_memory (unload s) then store (req s) ResourceMemory overhead s else s.

(** ** Interfaces *)

(** [crypto/rand.Read] into three bytes, at its n-th call. *)
Definition rand_source := nat → result (list Z).

Definition generateMAC (rand : rand_source) (n : nat) : result (list Z) :=
  match rand n with
  | Ok suffix => Ok ([82; 84; 0] ++ suffix)
  | Err e => Err (ErrFmt "rand" e)
  end.

(** The MAC the old VM has for an interface of this name. *)
Definition old_mac (oldVM : option VirtualMachine) (name : string) : string :=
  match oldVM with
  | None => ""
  | Some o =>
      match head (filter (λ i, Interface_Name i = name) (Interfaces (Spec_Instance (Spec o)))) with
      | Some i => MAC i
      | None => ""
      end
  end.

Definition default_binding (b : InterfaceBindingMethod) : InterfaceBindingMethod :=
  let b := if is_some (Bridge b) || is_some (Masquerade b) || is_some (SRIOV b)
              || is_some (VDPA b) || is_some (VhostUser b)
           then b else mkBinding (Some tt) None None None None in
  match Masquerade b with
  | Some m => if decide (CIDR m = "")
              then mkBinding (Bridge b) (Some (mkMasquerade "10.0.2.0/30")) (SRIOV b) (VDPA b) (VhostUser b)
              else b
  | None => b
  end.

(** The loop over the interfaces; [n] counts the calls to [rand.Read]. *)
Fixpoint mutate_interfaces (rand : rand_source) (oldVM : option VirtualMachine) (n : nat) (l : list Interface)
    : result (list Interface) :=
  match l with
  | [] => Ok []
  | i :: l' =>
      let rest mac n' :=
        match mutate_interfaces rand oldVM n' l' with
        | Ok r => Ok (mkInterface (Interface_Name i) mac (default_binding (Binding i)) :: r)
        | Err e => Err e
        end in
      if decide (MAC i = "") then
        let m := old_mac oldVM (Interface_Name i) in
        if decide (m = "") then
          match generateMAC rand n with
          | Ok hw => rest (MAC_String hw) (S n)
          | Err e => Err (ErrFmt "generate MAC" e)
          end
        else rest m n
      else rest (MAC i) n
  end.

(** ** MutateVM *)

Definition default_cpu (c : CPU) : CPU :=
  mkCPU (if Sockets c =? 0 then 1 else Sockets c)
        (if CoresPerSocket c =? 0 then 1 else CoresPerSocket c)
        (DedicatedCPUPlacement c).

Definition default_run_policy (p : RunPolicy) : RunPolicy :=
  match p with RunPolicyUnset => RunPolicyOnce | _ => p end.

(** The instance memory size: the requested memory, or 1Gi. *)
Definition default_memory_size (size : Quantity) (requests : option (gmap string Quantity)) : outcome Quantity :=
  if q_IsZero size then
    let m := rl_get requests ResourceMemory in
    if negb (q_IsZero m) then Returned m else MustParse "1Gi"
  else Returned size.

(** The resources after the two resource blocks. *)
Definition mutate_resources (cpu : CPU) (mem : Memory) (r : ResourceRequirements) : outcome ResourceRequirements :=
  (let? overhead := (if DedicatedCPUPlacement cpu || is_some (Memory_Hugepages mem)
                     then MustParse memoryOverhead else Returned q_zero) in
   let s := load r in
   let s :=
     if DedicatedCPUPlacement cpu then
       let memSize :=
         if negb (q_IsZero (Size mem)) && negb (is_some (Memory_Hugepages mem))
         then q_Add overhead (Size mem) else overhead in
       mutate_dedicated (NewQuantity (numVCPUs cpu)) memSize s
     else s in
   let s :=
     match Memory_Hugepages mem with
     | Some h => mutate_hugepages (hugepagesResource h) (Size mem) overhead s
     | None => s
     end in
   Returned (unload s))%go.

Definition MutateVM (rand : rand_source) (vm : VirtualMachine) (oldVM : option VirtualMachine)
    : outcome (result VirtualMachine) :=
  let spec := Spec vm in
  let inst := Spec_Instance spec in
  let cpu := default_cpu (Instance_CPU inst) in
  (let? size := default_memory_size (Size (Instance_Memory inst)) (Requests (Spec_Resources spec)) in
   let mem := mkMemory size (Memory_Hugepages (Instance_Memory inst)) in
   let? res := mutate_resources cpu mem (Spec_Resources spec) in
   Returned
     match mutate_interfaces rand oldVM 0 (Interfaces inst) with
     | Err e => Err e
     | Ok ifaces =>
         let inst := set_Interfaces ifaces (set_Memory mem (set_CPU cpu inst)) in
         Ok (set_Spec (set_Instance inst (set_Resources res
               (set_RunPolicy (default_run_policy (Spec_RunPolicy spec)) spec))) vm)
     end)%go.

(** [VMMutator.Handle]; [marshal] is [json.Marshal] of the mutated VM. *)
Definition VMMutator_Handle (rand : rand_source) (marshal : VirtualMachine → result string)
    (op : Operation) (decoded decodedOld : result VirtualMachine)
    : outcome (Response string) :=
  let finish (o : outcome (result VirtualMachine)) : outcome (Response string) :=
    (let? r := o in
     Returned
       match r with
       | Err e => Errored StatusInternalServerError e
       | Ok vm =>
           match marshal vm with
           | Err e => Errored StatusInternalServerError (ErrFmt "marshal VM" e)
           | Ok json => Patched json
           end
       end)%go in
  match decoded with
  | Err e => Returned (Errored StatusBadRequest (ErrFmt "unmarshal VM" e))
  | Ok vm =>
      match op with
      | OpCreate => finish (MutateVM rand vm None)
      | OpUpdate =>
          match decodedOld with
          | Err e => Returned (Errored StatusBadRequest (ErrFmt "unmarshal old VM" e))
          | Ok oldVM => finish (MutateVM rand vm (Some oldVM))
          end
      | OpOther => Returned Allowed
      end
  end.

End Mutate.

(** ** The same defaults on values: no shared maps *)

Section Pure.
Context `{K : K8s} {L : QuantityLaws K}.

Definition fill_map (k : string) (v : Quantity) (m : gmap string Quantity) : gmap string Quantity :=
  if q_IsZero (rl_get (Some m) k) then <[k := v]> m else m.

Definition dedicated_map (cpuQ memSize : Quantity) (o : option (gmap string Quantity)) : gmap string Quantity :=
  match o with
  | None => {[ResourceCPU := cpuQ; ResourceMemory := memSize]}
  | Some m => fill_map ResourceMemory memSize (fill_map ResourceCPU cpuQ m)
  end.

Definition pure_dedicated (cpuQ memSize : Quantity) (r : ResourceRequirements) : ResourceRequirements :=
  mkResources (Some (dedicated_map cpuQ memSize (Limits r))) (Some (dedicated_map cpuQ memSize (Requests r))).

Definition pure_hugepages (hp : string) (size overhead : Quantity) (r : ResourceRequirements) : ResourceRequirements :=
  let lim := default ∅ (Limits r) in
  let req := default ∅ (Requests r) in
  let limit := default size (lim !! hp) in
  let lim := <[hp := limit]> lim in
  let req := <[hp := default limit (req !! hp)]> req in
  mkResources (Some lim)
    (Some (if no_cpu_no_memory (mkResources (Some lim) (Some req)) then <[ResourceMemory := overhead]> req else req)).

Definition dedicated_memory (mem : Memory) (overhead : Quantity) : Quantity :=
  if negb (q_IsZero (Size mem)) && negb (is_some (Memory_Hugepages mem)) then q_Add overhead (Size mem) else overhead.

Definition pure_resources (cpu : CPU) (mem : Memory) (overhead : Quantity) (r : ResourceRequirements) : ResourceRequirements :=
  let r := if DedicatedCPUPlacement cpu
           then pure_dedicated (NewQuantity (numVCPUs cpu)) (dedicated_memory mem overhead) r else r in
  match Memory_Hugepages mem with
  | Some h => pure_hugepages (hugepagesResource h) (Size mem) overhead r
  | None => r
  end.

Lemma memory_neq_cpu : ResourceMemory ≠ ResourceCPU.
Proof. done. Qed.

(** Two references into the store: what they point to, and whether they are one. *)
Record rep (s : rstore) (r : ResourceRequirements) (shared : bool) : Prop := {
  rep_val : unload s = r;
  rep_fresh : ∀ a, (req s = Some a ∨ lim s = Some a) → (a < next s)%nat ∧ is_Some (heap s !! a);
  rep_shared : if shared then req s = lim s ∧ is_Some (req s) else req s = lim s → req s = None
}.

Lemma load_rep r : rep (load r) r false.
Proof.
  destruct r as [[l|] [q|]]; (split; [reflexivity| |done]); unfold load; simpl;
    (intros a [E|E]; simplify_eq; (split; [lia|by eexists])).
Qed.

Lemma req_store l k v s : req (store l k v s) = req s.
Proof. by destruct l. Qed.
Lemma lim_store l k v s : lim (store l k v s) = lim s.
Proof. by destruct l. Qed.

Lemma store_fresh s l k v :
  (∀ a, (req s = Some a ∨ lim s = Some a) → (a < next s)%nat ∧ is_Some (heap s !! a)) →
  ∀ a, (req (store l k v s) = Some a ∨ lim (store l k v s) = Some a) →
    (a < next (store l k v s))%nat ∧ is_Some (heap (store l k v s) !! a).
Proof.
  intros Hf a Ha. destruct l as [b|]; simpl in *; [|auto]. destruct (Hf a Ha) as [? [x Hx]]. split; [done|].
  destruct (decide (a = b)) as [->|]; [rewrite lookup_alter_eq|rewrite lookup_alter_ne by done]; rewrite Hx; by eexists.
Qed.

(** Writing through a reference changes one field, or both when they share the map. *)
Lemma store_req_rep s r k v m :
  rep s r false → Requests r = Some m → rep (store (req s) k v s) (mkResources (Limits r) (Some (<[k := v]> m))) false.
Proof.
  intros [Hv Hf Hs] Em. subst r. split; [|by apply store_fresh|by rewrite req_store, lim_store].
  unfold unload, store in *; simpl in *. destruct (req s) as [a|] eqn:Er; [|done]. simpl in *. rewrite ?Er. simpl. f_equal.
  - destruct (lim s) as [b|]; [|done]. simpl. rewrite lookup_alter_ne; [done|]. intros ->. by specialize (Hs eq_refl).
  - by rewrite lookup_alter_eq, Em.
Qed.

Lemma store_lim_rep s r k v m :
  rep s r false → Limits r = Some m → rep (store (lim s) k v s) (mkResources (Some (<[k := v]> m)) (Requests r)) false.
Proof.
  intros [Hv Hf Hs] Em. subst r. split; [|by apply store_fresh|by rewrite req_store, lim_store].
  unfold unload, store in *; simpl in *. destruct (lim s) as [a|] eqn:Er; [|done]. simpl in *. rewrite ?Er. simpl. f_equal.
  - by rewrite lookup_alter_eq, Em.
  - destruct (req s) as [b|]; [|done]. simpl. rewrite lookup_alter_ne; [done|]. intros ->. by specialize (Hs eq_refl).
Qed.

Lemma store_shared_rep s r k v m :
  rep s r true → Requests r = Some m →
  rep (store (lim s) k v s) (mkResources (Some (<[k := v]> m)) (Some (<[k := v]> m))) true.
Proof.
  intros [Hv Hf [Hs Ha]] Em. subst r. split; [|by apply store_fresh|by rewrite req_store, lim_store].
  unfold unload, store in *; simpl in *. rewrite Hs in *. destruct (lim s) as [a|] eqn:Er; [|by destruct Ha].
  simpl in *. rewrite ?Er, ?Hs. simpl. by rewrite lookup_alter_eq, Em.
Qed.

(** A fresh map for a nil field. *)
Lemma new_req_rep s r m :
  rep s r false → Requests r = None →
  rep (set_req (Some (fst (alloc m s))) (snd (alloc m s))) (mkResources (Limits r) (Some m)) false.
Proof.
  intros [Hv Hf Hs] Em. subst r. split.
  - unfold unload; simpl. rewrite lookup_insert_eq. f_equal. destruct (lim s) as [b|] eqn:El; [|done].
    simpl. rewrite lookup_insert_ne; [done|]. destruct (Hf b); [by right|lia].
  - simpl. intros a [[= <-]|Ha]; [rewrite lookup_insert_eq; split; [lia|by eexists]|].
    destruct (Hf a) as [? Hx]; [by right|]. rewrite lookup_insert_ne by lia. split; [lia|done].
  - simpl. intros E. destruct (Hf (next s)); [by right|lia].
Qed.

Lemma new_lim_rep s r m :
  rep s r false → Limits r = None →
  rep (set_lim (Some (fst (alloc m s))) (snd (alloc m s))) (mkResources (Some m) (Requests r)) false.
Proof.
  intros [Hv Hf Hs] Em. subst r. split.
  - unfold unload; simpl. rewrite lookup_insert_eq. f_equal. destruct (req s) as [b|] eqn:El; [|done].
    simpl. rewrite lookup_insert_ne; [done|]. destruct (Hf b); [by left|lia].
  - simpl. intros a [Ha|[= <-]]; [|rewrite lookup_insert_eq; split; [lia|by eexists]].
    destruct (Hf a) as [? Hx]; [by left|]. rewrite lookup_insert_ne by lia. split; [lia|done].
  - simpl. intros E. destruct (Hf (next s)); [by left|lia].
Qed.

Lemma alloc_rep s r m b : rep s r b → rep (snd (alloc m s)) r b.
Proof.
  intros [Hv Hf Hs]. assert (Hl : ∀ l, (∀ a, l = Some a → req s = Some a ∨ lim s = Some a) →
    deref (<[next s := m]> (heap s)) l = deref (heap s) l).
  { intros [a|] Ha; [|done]. simpl. destruct (Hf a); [by apply Ha|]. by rewrite lookup_insert_ne by lia. }
  split; [|simpl|done].
  - subst r. unfold unload; simpl. by rewrite !Hl by auto.
  - intros a Ha. destruct (Hf a) as [? Hx]; [done|]. rewrite lookup_insert_ne by lia. split; [lia|done].
Qed.

Lemma fill_req_rep s r k v m :
  rep s r false → Requests r = Some m → rep (fill (req s) k v s) (mkResources (Limits r) (Some (fill_map k v m))) false.
Proof.
  intros Hr Em. unfold fill, fill_map.
  assert (deref (heap s) (req s) = Some m) as -> by (destruct Hr as [<- _ _]; exact Em).
  destruct (q_IsZero _); [by apply store_req_rep|]. destruct r; simpl in *; congruence.
Qed.

Lemma fill_lim_rep s r k v m :
  rep s r false → Limits r = Some m → rep (fill (lim s) k v s) (mkResources (Some (fill_map k v m)) (Requests r)) false.
Proof.
  intros Hr Em. unfold fill, fill_map.
  assert (deref (heap s) (lim s) = Some m) as -> by (destruct Hr as [<- _ _]; exact Em).
  destruct (q_IsZero _); [by apply store_lim_rep|]. destruct r; simpl in *; congruence.
Qed.

Lemma req_fill l k v s : req (fill l k v s) = req s.
Proof. unfold fill. destruct (q_IsZero _); [apply req_store|done]. Qed.
Lemma lim_fill l k v s : lim (fill l k v s) = lim s.
Proof. unfold fill. destruct (q_IsZero _); [apply lim_store|done]. Qed.
Lemma next_fill l k v s : next (fill l k v s) = next s.
Proof. unfold fill, store. by destruct (q_IsZero _), l. Qed.
Lemma heap_fill_ne l k v s a : l ≠ Some a → heap (fill l k v s) !! a = heap s !! a.
Proof.
  intros Hl. unfold fill, store. destruct (q_IsZero _), l; simpl; try done. apply lookup_alter_ne. congruence.
Qed.

(** Point the nil [Limits] to a map that exists. *)
Lemma attach_lim_rep s r a m :
  rep s r false → Limits r = None → heap s !! a = Some m → (a < next s)%nat →
  rep (set_lim (Some a) s) (mkResources (Some m) (Requests r)) (bool_decide (req s = Some a)).
Proof.
  intros [Hv Hf Hs] El Hm Ha. subst r. split.
  - unfold unload; simpl. by rewrite Hm.
  - simpl. intros b [Hb|[= <-]]; [apply Hf; by left|]. rewrite Hm. split; [done|by eexists].
  - simpl. case_bool_decide as E; [rewrite E; eauto|done].
Qed.

Lemma req_None s r b : rep s r b → Requests r = None ↔ req s = None.
Proof.
  intros [Hv Hf _]. subst r. unfold unload; simpl. destruct (req s) as [a|]; simpl; [|done].
  destruct (Hf a) as [_ [x ->]]; [by left|]. done.
Qed.
Lemma lim_None s r b : rep s r b → Limits r = None ↔ lim s = None.
Proof.
  intros [Hv Hf _]. subst r. unfold unload; simpl. destruct (lim s) as [a|]; simpl; [|done].
  destruct (Hf a) as [_ [x ->]]; [by right|]. done.
Qed.

Lemma fill2_req_rep s r c v m :
  rep s r false → Requests r = Some m →
  rep (fill (req s) ResourceMemory v (fill (req s) ResourceCPU c s))
      (mkResources (Limits r) (Some (dedicated_map c v (Requests r)))) false.
Proof.
  intros Hr Em. pose proof (fill_req_rep _ _ ResourceCPU c _ Hr Em) as H1.
  pose proof (fill_req_rep _ _ ResourceMemory v _ H1 eq_refl) as H2. rewrite req_fill in H2. by rewrite Em.
Qed.
Lemma fill2_lim_rep s r c v m :
  rep s r false → Limits r = Some m →
  rep (fill (lim s) ResourceMemory v (fill (lim s) ResourceCPU c s))
      (mkResources (Some (dedicated_map c v (Limits r))) (Requests r)) false.
Proof.
  intros Hr Em. pose proof (fill_lim_rep _ _ ResourceCPU c _ Hr Em) as H1.
  pose proof (fill_lim_rep _ _ ResourceMemory v _ H1 eq_refl) as H2. rewrite lim_fill in H2. by rewrite Em.
Qed.

(** The dedicated block acts like its value version; the result is one shared map
    exactly when both fields were nil. *)
Lemma mutate_dedicated_rep c v s r :
  rep s r false →
  rep (mutate_dedicated c v s) (pure_dedicated c v r) (negb (is_some (Requests r)) && negb (is_some (Limits r))).
Proof.
  intros Hr. unfold mutate_dedicated.
  set (rs := {[ResourceCPU := c; ResourceMemory := v]} : gmap string Quantity).
  pose proof (alloc_rep s r rs false Hr) as Ha. pose proof (rep_fresh _ _ _ Hr) as Hf.
  pose proof (req_None _ _ _ Hr) as HrN. pose proof (lim_None _ _ _ Hr) as HlN.
  change (alloc rs s) with (fst (alloc rs s), snd (alloc rs s)). cbv beta iota.
  change (req (snd (alloc rs s))) with (req s).
  destruct r as [lr [q|]]; cbn [Requests Limits] in *.
  - destruct (req s) as [a|] eqn:Er; [|by pose proof (proj2 HrN eq_refl)].
    pose proof (fill2_req_rep _ _ c v q Ha eq_refl) as H1. change (req (snd (alloc rs s))) with (req s) in H1.
    rewrite Er in H1. set (s1 := fill (Some a) ResourceMemory v _) in *.
    assert (lim s1 = lim s) as El by (unfold s1; by rewrite !lim_fill). rewrite El.
    destruct lr as [l|]; cbn [Requests Limits] in *.
    + destruct (lim s) as [b|] eqn:Els; [|by pose proof (proj2 HlN eq_refl)].
      pose proof (fill2_lim_rep _ _ c v l H1 eq_refl) as H2. rewrite El in H2. exact H2.
    + rewrite (proj1 HlN eq_refl). destruct (Hf a) as [Han _]; [by left|].
      pose proof (attach_lim_rep s1 _ (next s) rs H1 eq_refl) as H2.
      rewrite bool_decide_eq_false_2 in H2 by (unfold s1; rewrite !req_fill; simpl; rewrite Er; injection 1; lia).
      apply H2; unfold s1.
      * rewrite !heap_fill_ne by (injection 1; lia). apply lookup_insert_eq.
      * rewrite !next_fill. simpl. lia.
  - rewrite (proj1 HrN eq_refl).
    pose proof (new_req_rep s _ rs Hr eq_refl) as H1. simpl lim.
    destruct lr as [l|]; cbn [Requests Limits] in *.
    + destruct (lim s) as [b|] eqn:Els; [|by pose proof (proj2 HlN eq_refl)].
      pose proof (fill2_lim_rep _ _ c v l H1 eq_refl) as H2. simpl lim in H2. rewrite Els in H2. exact H2.
    + rewrite (proj1 HlN eq_refl).
      pose proof (attach_lim_rep _ _ (next s) rs H1 eq_refl) as H2. simpl req in H2.
      rewrite bool_decide_eq_true_2 in H2 by done. apply H2; [apply lookup_insert_eq|simpl; lia].
Qed.

Lemma ensure_lim_rep s r :
  rep s r false →
  rep (match lim s with None => let '(a, s) := alloc ∅ s in set_lim (Some a) s | Some _ => s end)
      (mkResources (Some (default ∅ (Limits r))) (Requests r)) false.
Proof.
  intros Hr. pose proof (lim_None _ _ _ Hr) as HN. destruct r as [[l|] q]; simpl in *.
  - destruct (lim s) eqn:E; [done|]. by pose proof (proj2 HN eq_refl).
  - rewrite (proj1 HN eq_refl). apply (new_lim_rep _ _ ∅ Hr eq_refl).
Qed.

Lemma ensure_req_rep s r :
  rep s r false →
  rep (match req s with None => let '(a, s) := alloc ∅ s in set_req (Some a) s | Some _ => s end)
      (mkResources (Limits r) (Some (default ∅ (Requests r)))) false.
Proof.
  intros Hr. pose proof (req_None _ _ _ Hr) as HN. destruct r as [l [q|]]; simpl in *.
  - destruct (req s) eqn:E; [done|]. by pose proof (proj2 HN eq_refl).
  - rewrite (proj1 HN eq_refl). apply (new_req_rep _ _ ∅ Hr eq_refl).
Qed.

Lemma deref_lim s r b : rep s r b → deref (heap s) (lim s) = Limits r.
Proof. by intros [<- _ _]. Qed.
Lemma deref_req s r b : rep s r b → deref (heap s) (req s) = Requests r.
Proof. by intros [<- _ _]. Qed.

(** The hugepages block on separate maps. *)
Lemma mutate_hugepages_separate hp size overhead s r :
  rep s r false → unload (mutate_hugepages hp size overhead s) = pure_hugepages hp size overhead r.
Proof.
  intros Hr. unfold mutate_hugepages, pure_hugepages.
  pose proof (ensure_lim_rep s r Hr) as H1. set (s1 := match lim s with None => _ | Some _ => _ end) in *.
  rewrite (deref_lim _ _ _ H1). cbn [rl_lookup Limits mbind option_bind].
  set (m := default ∅ (Limits r)) in *.
  assert (∃ s2, rep s2 (mkResources (Some (<[hp := default size (m !! hp)]> m)) (Requests r)) false ∧
    match m !! hp with Some q => (q, s1) | None => (size, store (lim s1) hp size s1) end
      = (default size (m !! hp), s2)) as (s2 & H2 & E2).
  { destruct (m !! hp) as [q|] eqn:Em; eexists; (split; [|reflexivity]); simpl.
    - by rewrite insert_id.
    - apply (store_lim_rep _ _ hp size m H1 eq_refl). }
  unfold rl_lookup at 1. cbn [mbind option_bind]. rewrite E2.
  pose proof (ensure_req_rep _ _ H2) as H3. cbn [Limits Requests] in H3.
  set (s3 := match req s2 with None => _ | Some _ => _ end) in *.
  rewrite (deref_req _ _ _ H3). unfold rl_lookup. cbn [Requests mbind option_bind].
  set (m' := default ∅ (Requests r)) in *. set (lim' := <[hp := default size (m !! hp)]> m) in *.
  assert (∃ s4, rep s4 (mkResources (Some lim') (Some (<[hp := default (default size (m !! hp)) (m' !! hp)]> m'))) false ∧
    match m' !! hp with Some _ => s3 | None => store (req s3) hp (default size (m !! hp)) s3 end = s4) as (s4 & H4 & ->).
  { destruct (m' !! hp) as [q|] eqn:Em; eexists; (split; [|reflexivity]); simpl.
    - by rewrite insert_id.
    - apply (store_req_rep _ _ hp _ m' H3 eq_refl). }
  rewrite (rep_val _ _ _ H4). destruct (no_cpu_no_memory _); [|apply H4].
  apply (rep_val _ _ false). apply (store_req_rep _ _ _ _ _ H4 eq_refl).
Qed.

(** The hugepages block on one shared map that already asks for memory. *)
Lemma mutate_hugepages_shared hp size overhead s m :
  rep s (mkResources (Some m) (Some m)) true →
  no_cpu_no_memory (mkResources (Some (<[hp := default size (m !! hp)]> m)) (Some (<[hp := default size (m !! hp)]> m))) = false →
  unload (mutate_hugepages hp size overhead s) = pure_hugepages hp size overhead (mkResources (Some m) (Some m)).
Proof.
  intros Hr Hno. unfold mutate_hugepages, pure_hugepages. simpl default.
  pose proof (lim_None _ _ _ Hr) as HN. destruct (lim s) as [a|] eqn:El; [|by pose proof (proj2 HN eq_refl)].
  rewrite El, <-El, (deref_lim _ _ _ Hr). simpl.
  assert (∃ s2, rep s2 (mkResources (Some (<[hp := default size (m !! hp)]> m)) (Some (<[hp := default size (m !! hp)]> m))) true ∧
    match m !! hp with Some q => (q, s) | None => (size, store (lim s) hp size s) end
      = (default size (m !! hp), s2)) as (s2 & H2 & E2).
  { destruct (m !! hp) as [q|] eqn:Em; eexists; (split; [|reflexivity]); simpl.
    - by rewrite insert_id.
    - apply (store_shared_rep _ _ hp size m Hr eq_refl). }
  rewrite E2. destruct (rep_shared _ _ _ H2) as [_ [b Eb]].
  pose proof (deref_req _ _ _ H2) as Hd. rewrite Eb in Hd. cbv zeta. rewrite !Eb. cbv iota. rewrite ?Eb, Hd.
  unfold rl_lookup. cbn [Requests mbind option_bind]. rewrite lookup_insert_eq.
  assert (default (default size (m !! hp)) (m !! hp) = default size (m !! hp)) as -> by (by destruct (m !! hp)).
  rewrite (rep_val _ _ _ H2), Hno. apply H2.
Qed.

Lemma hugepagesResource_not_memory h : hugepagesResource h ≠ ResourceMemory.
Proof. by destruct h. Qed.
Lemma hugepagesResource_not_cpu h : hugepagesResource h ≠ ResourceCPU.
Proof. by destruct h. Qed.

Lemma rl_get_Some m k : rl_get (Some m) k = default q_zero (m !! k).
Proof. done. Qed.

Lemma no_cpu_no_memory_request l m q :
  m !! ResourceMemory = Some q → q_IsZero q = false → no_cpu_no_memory (mkResources l (Some m)) = false.
Proof.
  intros Hm Hq. unfold no_cpu_no_memory. cbn [Requests]. rewrite (rl_get_Some m ResourceMemory), Hm. simpl.
  by rewrite Hq, andb_false_r.
Qed.

Lemma mutate_resources_overhead overhead cpu mem r :
  ParseQuantity memoryOverhead = Some overhead → q_IsZero overhead = false →
  mutate_resources cpu mem r = Returned (pure_resources cpu mem overhead r).
Proof.
  intros Ho Hz. unfold mutate_resources, pure_resources, MustParse. rewrite Ho.
  pose proof (load_rep r) as Hl.
  destruct (DedicatedCPUPlacement cpu) eqn:Ed; simpl.
  - set (v := if negb (q_IsZero (Size mem)) && negb (is_some (Memory_Hugepages mem)) then _ else _).
    change v with (dedicated_memory mem overhead).
    pose proof (mutate_dedicated_rep (NewQuantity (numVCPUs cpu)) (dedicated_memory mem overhead) _ _ Hl) as Hd.
    destruct (Memory_Hugepages mem) as [h|] eqn:Eh; [|f_equal; apply Hd].
    f_equal. destruct (negb (is_some (Requests r)) && negb (is_some (Limits r))) eqn:Es; [|by apply mutate_hugepages_separate].
    destruct r as [[?|] [?|]]; simpl in Es; try done.
    apply mutate_hugepages_shared; [exact Hd|]. eapply no_cpu_no_memory_request; [|exact Hz].
    rewrite lookup_insert_ne by apply hugepagesResource_not_memory.
    unfold dedicated_memory. rewrite Eh. simpl. rewrite andb_false_r, lookup_insert_ne by done.
    apply lookup_singleton_eq.
  - destruct (Memory_Hugepages mem) as [h|]; simpl; f_equal; [by apply mutate_hugepages_separate|apply Hl].
Qed.

Lemma overhead_exists : ∃ o, ParseQuantity memoryOverhead = Some o ∧ q_IsZero o = false ∧ amount o = 256 * 2 ^ 20 * 10 ^ 9.
Proof.
  destruct (Parse_256Mi (QuantityLaws := L)) as (o & ? & Ha). exists o. split_and!; [done| |done].
  by rewrite q_IsZero_spec, Ha.
Qed.

(** The defaulting of resources, which lets requests and limits share one map, gives
    the same resources as defaulting separate maps by value. *)
Theorem resource_sharing_unobservable :
  ∃ overhead, ParseQuantity memoryOverhead = Some overhead ∧
    ∀ cpu mem r, mutate_resources cpu mem r = Returned (pure_resources cpu mem overhead r).
Proof.
  destruct overhead_exists as (o & Ho & Hz & _). exists o. split; [done|]. intros. by apply mutate_resources_overhead.
Qed.

(** *** Idempotence *)

(** The key has a value the defaulting leaves alone. *)
Definition settled (k : string) (v : Quantity) (m : gmap string Quantity) : Prop :=
  ∃ x, m !! k = Some x ∧ (q_IsZero x = false ∨ x = v).

Lemma fill_map_settled k v m : settled k v m → fill_map k v m = m.
Proof.
  intros (x & Hx & Hs). unfold fill_map. rewrite rl_get_Some, Hx. simpl.
  destruct (q_IsZero x); [|done]. destruct Hs as [?|<-]; [done|]. by apply insert_id.
Qed.

Lemma settled_fill k v m : settled k v (fill_map k v m).
Proof.
  unfold settled, fill_map. rewrite rl_get_Some. destruct (q_IsZero (default q_zero (m !! k))) eqn:E.
  - exists v. rewrite lookup_insert_eq. auto.
  - destruct (m !! k) as [x|]; simpl in E.
    + exists x. auto.
    + by rewrite q_IsZero_spec, q_zero_spec in E.
Qed.

Lemma settled_insert_ne k v k' x m : k' ≠ k → settled k v m → settled k v (<[k' := x]> m).
Proof. intros Hne (y & Hy & Hs). exists y. by rewrite lookup_insert_ne. Qed.

Lemma settled_fill_ne k v k' x m : k' ≠ k → settled k v m → settled k v (fill_map k' x m).
Proof. intros. unfold fill_map. destruct (q_IsZero _); [by apply settled_insert_ne|done]. Qed.

Lemma dedicated_settled c v o :
  settled ResourceCPU c (dedicated_map c v o) ∧ settled ResourceMemory v (dedicated_map c v o).
Proof.
  destruct o as [m|]; simpl.
  - split; [apply settled_fill_ne; [done|]|]; apply settled_fill.
  - split; [exists c|exists v]; (split; [|by right]); [apply lookup_insert_eq|].
    rewrite lookup_insert_ne by done. apply lookup_singleton_eq.
Qed.

Lemma pure_dedicated_settled c v l q :
  settled ResourceCPU c l → settled ResourceMemory v l → settled ResourceCPU c q → settled ResourceMemory v q →
  pure_dedicated c v (mkResources (Some l) (Some q)) = mkResources (Some l) (Some q).
Proof. intros. unfold pure_dedicated; simpl. by rewrite !fill_map_settled by (rewrite ?fill_map_settled; done). Qed.

Lemma pure_hugepages_settled hp size overhead l q x y :
  l !! hp = Some x → q !! hp = Some y → no_cpu_no_memory (mkResources (Some l) (Some q)) = false →
  pure_hugepages hp size overhead (mkResources (Some l) (Some q)) = mkResources (Some l) (Some q).
Proof.
  intros Hl Hq Hn. unfold pure_hugepages. cbn [Limits Requests default]. unfold id. rewrite Hl, Hq.
  cbn [default]. unfold id. by rewrite !insert_id, Hn by done.
Qed.

(** The maps the hugepages block leaves. *)
Lemma pure_hugepages_maps hp size overhead r :
  hp ≠ ResourceMemory → q_IsZero overhead = false →
  ∃ l q x y, pure_hugepages hp size overhead r = mkResources (Some l) (Some q) ∧
    l !! hp = Some x ∧ q !! hp = Some y ∧ no_cpu_no_memory (mkResources (Some l) (Some q)) = false ∧
    (∀ k, k ≠ hp → l !! k = default ∅ (Limits r) !! k) ∧
    (∀ k, k ≠ hp → k ≠ ResourceMemory → q !! k = default ∅ (Requests r) !! k) ∧
    (q !! ResourceMemory = default ∅ (Requests r) !! ResourceMemory ∨ q !! ResourceMemory = Some overhead).
Proof.
  intros Hm Hz. unfold pure_hugepages. destruct (no_cpu_no_memory _) eqn:En.
  - eexists _, _, _, _. split; [reflexivity|]. split_and!.
    + apply lookup_insert_eq.
    + rewrite lookup_insert_ne by done. apply lookup_insert_eq.
    + eapply no_cpu_no_memory_request; [apply lookup_insert_eq|done].
    + intros. by rewrite lookup_insert_ne.
    + intros. by rewrite !lookup_insert_ne.
    + right. apply lookup_insert_eq.
  - eexists _, _, _, _. split; [reflexivity|]. split_and!; [apply lookup_insert_eq..|done| | |].
    + intros. by rewrite lookup_insert_ne.
    + intros. by rewrite lookup_insert_ne.
    + left. by rewrite lookup_insert_ne.
Qed.

Lemma pure_resources_idemp cpu mem overhead r :
  q_IsZero overhead = false →
  pure_resources cpu mem overhead (pure_resources cpu mem overhead r) = pure_resources cpu mem overhead r.
Proof.
  intros Hz. unfold pure_resources.
  set (c := NewQuantity (numVCPUs cpu)). set (v := dedicated_memory mem overhead).
  destruct (DedicatedCPUPlacement cpu), (Memory_Hugepages mem) as [h|]; [| | |done].
  - pose proof (dedicated_settled c v (Limits r)) as [Hl1 Hl2]. pose proof (dedicated_settled c v (Requests r)) as [Hq1 Hq2].
    destruct (pure_hugepages_maps (hugepagesResource h) (Size mem) overhead (pure_dedicated c v r)) as
      (l & q & x & y & E & Hx & Hy & Hn & Hl & Hq & Hqm); [apply hugepagesResource_not_memory|done|].
    rewrite E. simpl in *. pose proof (hugepagesResource_not_memory h). pose proof (hugepagesResource_not_cpu h).
    rewrite pure_dedicated_settled; [by apply (pure_hugepages_settled _ _ _ _ _ x y)|..]; unfold settled.
    + by rewrite Hl.
    + by rewrite Hl.
    + by rewrite Hq.
    + destruct Hqm as [->| ->]; [done|]. eauto.
  - unfold pure_dedicated at 1. cbn [Limits Requests].
    apply (pure_dedicated_settled c v); apply dedicated_settled.
  - destruct (pure_hugepages_maps (hugepagesResource h) (Size mem) overhead r) as
      (l & q & x & y & E & Hx & Hy & Hn & _); [apply hugepagesResource_not_memory|done|].
    rewrite E. by apply (pure_hugepages_settled _ _ _ _ _ x y).
Qed.

(** *** Interfaces *)

Lemma default_binding_idemp b : default_binding (default_binding b) = default_binding b.
Proof.
  destruct b as [[]  [[c]|] [] [] []]; unfold default_binding; simpl; try done;
    (destruct (decide (c = "")) as [->|]; simpl; [done|by rewrite decide_False]).
Qed.

Lemma generated_MAC_nonempty rand n hw : generateMAC rand n = Ok hw → MAC_String hw ≠ "".
Proof. unfold generateMAC. destruct (rand n); [|done]. by intros [= <-]. Qed.

(** Every interface keeps its name, gets its default binding, and a MAC: its own, else the
    old one of that name, else a generated one. *)
Inductive mac_from (rand : rand_source) (oldVM : option VirtualMachine) (i : Interface) : string → Prop :=
| mac_own : MAC i ≠ "" → mac_from rand oldVM i (MAC i)
| mac_old : MAC i = "" → old_mac oldVM (Interface_Name i) ≠ "" → mac_from rand oldVM i (old_mac oldVM (Interface_Name i))
| mac_new n hw : MAC i = "" → old_mac oldVM (Interface_Name i) = "" → generateMAC rand n = Ok hw →
    mac_from rand oldVM i (MAC_String hw).

Lemma mac_from_nonempty rand oldVM i m : mac_from rand oldVM i m → m ≠ "".
Proof. intros []; [done..|]. by eapply generated_MAC_nonempty. Qed.

Lemma mutate_interfaces_Ok rand oldVM n l l' :
  mutate_interfaces rand oldVM n l = Ok l' →
  Forall2 (λ i i', Interface_Name i' = Interface_Name i ∧ Binding i' = default_binding (Binding i) ∧
                   mac_from rand oldVM i (MAC i')) l l'.
Proof.
  revert n l'. induction l as [|i l IH]; intros n l'; simpl; [by intros [= <-]|].
  assert (Hrest : ∀ mac n', mac_from rand oldVM i mac →
    match mutate_interfaces rand oldVM n' l with
    | Ok r => Ok (mkInterface (Interface_Name i) mac (default_binding (Binding i)) :: r)
    | Err e => Err e
    end = Ok l' → Forall2 (λ i i', Interface_Name i' = Interface_Name i ∧ Binding i' = default_binding (Binding i) ∧
                   mac_from rand oldVM i (MAC i')) (i :: l) l').
  { intros mac n' Hm. destruct (mutate_interfaces rand oldVM n' l) as [r|] eqn:E; [|done].
    intros [= <-]. constructor; [done|by eapply IH]. }
  case_decide as Ei; [|apply Hrest; by constructor].
  case_decide as Eo; [|apply Hrest; by constructor].
  destruct (generateMAC rand n) as [hw|] eqn:Eg; [|done]. apply Hrest. by econstructor.
Qed.

(** Interfaces that have a MAC and their default binding are left alone, without a call
    to the random source. *)
Lemma mutate_interfaces_fixed rand oldVM n l :
  Forall (λ i, MAC i ≠ "" ∧ default_binding (Binding i) = Binding i) l → mutate_interfaces rand oldVM n l = Ok l.
Proof.
  revert n. induction l as [|i l IH]; intros n; simpl; [done|]. rewrite Forall_cons. intros [[Hm Hb] Hl].
  rewrite decide_False by done. rewrite IH, Hb by done. by destruct i.
Qed.

(** *** MutateVM *)

Lemma q_zero_IsZero : q_IsZero q_zero = true.
Proof. by rewrite q_IsZero_spec, q_zero_spec. Qed.

Lemma default_memory_size_nonzero size o : ∃ s, default_memory_size size o = Returned s ∧ q_IsZero s = false.
Proof.
  unfold default_memory_size, MustParse. destruct (q_IsZero size) eqn:Es; [|by eexists].
  destruct (q_IsZero (rl_get o ResourceMemory)) eqn:Em; simpl; [|by eexists].
  destruct (Parse_1Gi (QuantityLaws := L)) as (q & -> & Ha). exists q. split; [done|].
  by rewrite q_IsZero_spec, Ha.
Qed.

(** The mutated VM, field by field. *)
Definition mutated (vm : VirtualMachine) (size overhead : Quantity) (ifaces : list Interface) : VirtualMachine :=
  let spec := Spec vm in
  let inst := Spec_Instance spec in
  let cpu := default_cpu (Instance_CPU inst) in
  let mem := mkMemory size (Memory_Hugepages (Instance_Memory inst)) in
  set_Spec (set_Instance (set_Interfaces ifaces (set_Memory mem (set_CPU cpu inst)))
    (set_Resources (pure_resources cpu mem overhead (Spec_Resources spec))
      (set_RunPolicy (default_run_policy (Spec_RunPolicy spec)) spec))) vm.

Lemma MutateVM_eq rand vm old :
  ∃ size overhead, default_memory_size (Size (Instance_Memory (Spec_Instance (Spec vm)))) (Requests (Spec_Resources (Spec vm))) = Returned size ∧
    q_IsZero size = false ∧
    ParseQuantity memoryOverhead = Some overhead ∧ q_IsZero overhead = false ∧ amount overhead = 256 * 2 ^ 20 * 10 ^ 9 ∧
    MutateVM rand vm old = Returned
      match mutate_interfaces rand old 0 (Interfaces (Spec_Instance (Spec vm))) with
      | Ok ifaces => Ok (mutated vm size overhead ifaces)
      | Err e => Err e
      end.
Proof.
  destruct (default_memory_size_nonzero (Size (Instance_Memory (Spec_Instance (Spec vm))))
              (Requests (Spec_Resources (Spec vm)))) as (s & Es & Hs).
  destruct overhead_exists as (o & Ho & Hz & Ha). exists s, o. split_and!; try done.
  unfold MutateVM. rewrite Es. cbn [outcome_bind]. rewrite (mutate_resources_overhead o) by done.
  cbn [outcome_bind]. by destruct (mutate_interfaces _ _ _ _).
Qed.

Lemma default_cpu_idemp c : default_cpu (default_cpu c) = default_cpu c.
Proof.
  destruct c as [s n d]; unfold default_cpu; simpl. destruct (s =? 0) eqn:Es, (n =? 0) eqn:En; simpl; by rewrite ?Es, ?En.
Qed.

(** What the interfaces of a mutated VM look like. *)
Lemma mutated_interfaces rand vm old vm' :
  MutateVM rand vm old = Returned (Ok vm') →
  Forall (λ i, MAC i ≠ "" ∧ default_binding (Binding i) = Binding i) (Interfaces (Spec_Instance (Spec vm'))).
Proof.
  destruct (MutateVM_eq rand vm old) as (s & o & _ & _ & _ & _ & _ & ->). intros E. apply (inj Returned) in E.
  destruct (mutate_interfaces rand old 0 _) as [l|] eqn:El; [|done]. apply (inj Ok) in E. subst vm'.
  assert (Interfaces (Spec_Instance (Spec (mutated vm s o l))) = l) as ->
    by (by destruct vm as [? [? ? ? ? ? ? ? [] ? ? ? ?] ?]).
  apply mutate_interfaces_Ok in El. apply Forall_forall. intros i' Hi'.
  apply list_elem_of_lookup in Hi' as [k Hk]. destruct (Forall2_lookup_r _ _ _ _ _ El Hk) as (i & Hi & _ & -> & Hm).
  split; [by eapply mac_from_nonempty|apply default_binding_idemp].
Qed.

Lemma MutateVM_twice rand vm old vm' rand' old' :
  MutateVM rand vm old = Returned (Ok vm') → MutateVM rand' vm' old' = Returned (Ok vm').
Proof.
  intros E0. pose proof (mutated_interfaces _ _ _ _ E0) as Hif. revert E0.
  destruct (MutateVM_eq rand vm old) as (s & o & Es & Hs & Ho & Hz & _ & ->). intros E. apply (inj Returned) in E.
  destruct (mutate_interfaces rand old 0 _) as [l|] eqn:El; [|done]. apply (inj Ok) in E. subst vm'.
  destruct (MutateVM_eq rand' (mutated vm s o l) old') as (s' & o' & Es' & Hs' & Ho' & Hz' & _ & ->).
  assert (o' = o) as -> by congruence. rewrite mutate_interfaces_fixed by done.
  destruct vm as [m [? ? ? r ? ? rp [c [sz hp] ? ? ? ? ? ?] ? ? ? ?] st]; unfold mutated in *; cbn in *.
  unfold default_memory_size in Es'. rewrite Hs in Es'. apply (inj Returned) in Es'. subst s'.
  rewrite default_cpu_idemp, (pure_resources_idemp _ _ _ _ Hz). by destruct rp.
Qed.

(** Defaulting is idempotent: mutating an admitted object again, for instance on an
    update, changes nothing, whatever the random source and the old object are. *)
Theorem MutateVM_idempotent rand vm old vm' rand' old' :
  MutateVM rand vm old = Returned (Ok vm') → MutateVM rand' vm' old' = Returned (Ok vm').
Proof.
  apply MutateVM_twice.
Qed.

(** *** Defaulted virtual machines are admitted *)

(** [rand.Read] fills the three-byte slice with bytes. *)
Definition rand_ok (rand : rand_source) : Prop :=
  ∀ n b, rand n = Ok b → length b = 3%nat ∧ Forall byte_ok b.

Lemma generated_MAC_valid rand n hw : rand_ok rand → generateMAC rand n = Ok hw → is_Some (ParseMAC (MAC_String hw)).
Proof.
  unfold generateMAC. intros Hr. destruct (rand n) as [b|] eqn:E; [|done]. intros [= <-].
  destruct (Hr n b E) as [Hlen Hb]. eexists. apply ParseMAC_String.
  - simpl. repeat (constructor; [by unfold byte_ok|]). done.
  - simpl. rewrite Hlen. set_solver.
Qed.

(** A VM a user may write before defaulting: resources, MACs, binding methods and sizes
    may be left out; what defaulting does not touch is well formed. *)
Record defaultable (spec : VirtualMachineSpec) : Prop := {
  df_cpu : 0 ≤ Sockets (Instance_CPU (Spec_Instance spec)) ∧ 0 ≤ CoresPerSocket (Instance_CPU (Spec_Instance spec));
  df_vcpus : numVCPUs (default_cpu (Instance_CPU (Spec_Instance spec))) ≠ 0;
  df_resources : Spec_Resources spec = mkResources None None;
  df_size : 0 ≤ amount (Size (Instance_Memory (Spec_Instance spec))) < 2 ^ 63 * 10 ^ 9;
  df_pages : ∀ h, Memory_Hugepages (Instance_Memory (Spec_Instance spec)) = Some h →
    ∃ q p v, PageSize h ∈ ["2Mi"; "1Gi"] ∧ ParseQuantity (PageSize h) = Some q ∧ amount q = p * 10 ^ 9 ∧
      amount (Size (Instance_Memory (Spec_Instance spec))) = v * p * 10 ^ 9;
  df_kernel : ∀ k, Instance_Kernel (Spec_Instance spec) = Some k → wf_kernel k;
  df_names : NoDup ((Disk_Name <$> Disks (Spec_Instance spec)) ++ (FileSystem_Name <$> FileSystems (Spec_Instance spec)));
  df_nonempty : "" ∉ (Disk_Name <$> Disks (Spec_Instance spec)) ++ (FileSystem_Name <$> FileSystems (Spec_Instance spec));
  df_iface_names : NoDup (Interface_Name <$> Interfaces (Spec_Instance spec));
  df_ifaces : Forall (λ i, Interface_Name i ≠ "" ∧ (MAC i = "" ∨ is_Some (ParseMAC (MAC i))) ∧
    (Binding i = mkBinding None None None None None ∨ Binding i = mkBinding None (Some (mkMasquerade "")) None None None ∨
     wf_binding (Binding i)) ∧
    (is_Some (VhostUser (Binding i)) → DedicatedCPUPlacement (Instance_CPU (Spec_Instance spec)) = true ∧
       is_Some (Memory_Hugepages (Instance_Memory (Spec_Instance spec))))) (Interfaces (Spec_Instance spec));
  df_volumes : NoDup (Volume_Name <$> Volumes spec) ∧ Forall wf_volume (Volumes spec);
  df_networks : NoDup (Network_Name <$> Networks spec) ∧ Forall wf_network (Networks spec)
}.

Lemma default_cidr_wf : wf_cidr4 "10.0.2.0/30".
Proof. apply (ValidateCIDR_nil _ []). vm_compute. reflexivity. Qed.

Lemma default_binding_wf b :
  b = mkBinding None None None None None ∨ b = mkBinding None (Some (mkMasquerade "")) None None None ∨ wf_binding b →
  wf_binding (default_binding b) ∧ (is_Some (VhostUser (default_binding b)) → is_Some (VhostUser b)).
Proof.
  intros [->|[->|Hb]].
  - split; [constructor|done].
  - split; [|done]. constructor. apply default_cidr_wf.
  - destruct Hb as [[]|[c] Hc|[]|?|[]]; unfold default_binding; simpl; try (split; [by constructor|done]).
    destruct (decide (c = "")) as [->|]; (split; [|done]); constructor; [apply default_cidr_wf|done].
Qed.

Lemma default_cpu_wf c : 0 ≤ Sockets c → 0 ≤ CoresPerSocket c → wf_cpu (default_cpu c).
Proof.
  intros. unfold wf_cpu, default_cpu; simpl. destruct (_ =? 0) eqn:E1, (CoresPerSocket c =? 0) eqn:E2; bools; lia.
Qed.

(** The defaulted memory size of a defaultable spec. *)
Lemma defaulted_memory_wf spec size :
  defaultable spec →
  default_memory_size (Size (Instance_Memory (Spec_Instance spec))) (Requests (Spec_Resources spec)) = Returned size →
  0 < amount size ∧ wf_memory (mkMemory size (Memory_Hugepages (Instance_Memory (Spec_Instance spec)))).
Proof.
  intros D. rewrite (df_resources _ D). unfold default_memory_size, MustParse. cbn [Requests].
  change (rl_get None ResourceMemory) with q_zero.
  destruct (Parse_1Gi (QuantityLaws := L)) as (g & Eg & Hg). rewrite q_zero_IsZero, Eg. simpl.
  pose proof (df_size _ D) as Hs. rewrite q_IsZero_spec. intros E.
  assert (Hpos : 0 < amount size < 2 ^ 63 * 10 ^ 9).
  { destruct (_ =? 0) eqn:Ez; apply (inj Returned) in E; subst; bools; lia. }
  split; [lia|]. split; simpl.
  - apply Z.ltb_lt. rewrite (q_Value_pos (QuantityLaws := L)) by lia. apply Z.ltb_lt. lia.
  - intros h Eh. destruct (df_pages _ D h Eh) as (q & p & v & Hp & Eq & Ea & Em). exists q.
    assert (Hpv : 0 < p < 2 ^ 31 ∧ (p | 2 ^ 30)).
    { rewrite !elem_of_cons, elem_of_nil in Hp. destruct Hp as [Hp|[Hp|[]]]; rewrite Hp in Eq.
      - destruct (Parse_2Mi (QuantityLaws := L)) as (q' & E' & Ha'). assert (p = 2 * 2 ^ 20) as -> by (simplify_eq; lia).
        split; [lia|by exists (2 ^ 9)].
      - assert (p = 2 ^ 30) as -> by (simplify_eq; lia). split; [lia|by exists 1]. }
    rewrite (q_Value_spec (QuantityLaws := L) q p) by (done || lia). split_and!; [done|lia|].
    destruct (_ =? 0) eqn:Ez; apply (inj Returned) in E; subst size.
    + rewrite (q_Value_spec (QuantityLaws := L) g (2 ^ 30)) by (done || lia). apply Hpv.
    + rewrite (q_Value_spec (QuantityLaws := L) _ (v * p)) by (done || lia). by exists v.
Qed.

(** The resources defaulting fills in for a VM that has none. *)
Lemma defaulted_lookup cpu mem overhead k :
  DedicatedCPUPlacement cpu = true → q_IsZero overhead = false → k = ResourceCPU ∨ k = ResourceMemory →
  rl_get (Requests (pure_resources cpu mem overhead (mkResources None None))) k =
    (if decide (k = ResourceCPU) then NewQuantity (numVCPUs cpu) else dedicated_memory mem overhead) ∧
  rl_get (Limits (pure_resources cpu mem overhead (mkResources None None))) k =
    (if decide (k = ResourceCPU) then NewQuantity (numVCPUs cpu) else dedicated_memory mem overhead).
Proof.
  intros Hd Hz Hk. unfold pure_resources. rewrite Hd.
  set (r := pure_dedicated _ _ _).
  assert (Hr : rl_get (Requests r) k = (if decide (k = ResourceCPU) then NewQuantity (numVCPUs cpu) else dedicated_memory mem overhead)
    ∧ rl_get (Limits r) k = rl_get (Requests r) k).
  { split; [|done]. unfold r, pure_dedicated. cbn [Requests dedicated_map]. rewrite rl_get_Some. destruct Hk as [->| ->].
    - by rewrite lookup_insert_eq.
    - rewrite lookup_insert_ne by done. by rewrite lookup_singleton_eq. }
  destruct Hr as [Hr1 Hr2]. destruct (Memory_Hugepages mem) as [h|] eqn:Eh; [|by rewrite Hr2, Hr1].
  unfold pure_hugepages.
  rewrite (no_cpu_no_memory_request _ _ overhead).
  - assert (hugepagesResource h ≠ k) by (destruct Hk as [->| ->]; [apply hugepagesResource_not_cpu|apply hugepagesResource_not_memory]).
    cbn [Limits Requests]. rewrite !rl_get_Some, !lookup_insert_ne by done.
    rewrite <-Hr1 at 1. rewrite <-Hr1, <-Hr2. done.
  - rewrite lookup_insert_ne by apply hugepagesResource_not_memory. unfold r. simpl.
    rewrite lookup_insert_ne by done. rewrite lookup_singleton_eq. unfold dedicated_memory. by rewrite Eh, andb_false_r.
  - done.
Qed.

Lemma q_Cmp_refl q : q_Cmp q q = Eq.
Proof. rewrite (q_Cmp_spec (QuantityLaws := L)). by apply Z.compare_eq_iff. Qed.

Lemma defaulted_dedicated_wf spec overhead :
  let cpu := Instance_CPU (Spec_Instance spec) in
  let mem := Instance_Memory (Spec_Instance spec) in
  DedicatedCPUPlacement cpu = true → numVCPUs cpu ≠ 0 → 0 < amount (Size mem) → amount overhead = 256 * 2 ^ 20 * 10 ^ 9 →
  Spec_Resources spec = pure_resources cpu mem overhead (mkResources None None) → wf_dedicated spec overhead.
Proof.
  intros cpu mem Hd Hn Hs Ho Er.
  assert (Hz : q_IsZero overhead = false) by (by rewrite q_IsZero_spec, Ho).
  assert (HzS : q_IsZero (Size mem) = false) by (rewrite q_IsZero_spec; apply Z.eqb_neq; lia).
  destruct (defaulted_lookup cpu mem overhead ResourceCPU Hd Hz (or_introl eq_refl)) as [Hc Hc'].
  destruct (defaulted_lookup cpu mem overhead ResourceMemory Hd Hz (or_intror eq_refl)) as [Hm Hm'].
  rewrite decide_True in Hc, Hc' by done. rewrite decide_False in Hm, Hm' by done.
  pose proof (u32_range (Sockets cpu * CoresPerSocket cpu)) as Hu. fold (numVCPUs cpu) in Hu.
  assert (Hzc : q_IsZero (NewQuantity (numVCPUs cpu)) = false).
  { rewrite q_IsZero_spec, NewQuantity_spec. apply Z.eqb_neq. lia. }
  assert (Hdm : dedicated_memory mem overhead = if is_some (Memory_Hugepages mem) then overhead else q_Add overhead (Size mem)).
  { unfold dedicated_memory. rewrite HzS. by destruct (is_some _). }
  assert (Hzm : q_IsZero (dedicated_memory mem overhead) = false).
  { rewrite Hdm. destruct (is_some _); [done|]. rewrite q_IsZero_spec, q_Add_spec. apply Z.eqb_neq. lia. }
  split; rewrite ?Er; fold cpu mem; rewrite ?Hc, ?Hc', ?Hm, ?Hm'.
  - split; [done|]. apply (q_Value_spec (QuantityLaws := L)); [apply NewQuantity_spec|lia].
  - split; [done|apply q_Cmp_refl].
  - split; [done|]. by rewrite <-Hdm, q_Cmp_refl.
  - split; [done|apply q_Cmp_refl].
Qed.

Lemma defaulted_hugepages_wf spec overhead h :
  let cpu := Instance_CPU (Spec_Instance spec) in
  let mem := Instance_Memory (Spec_Instance spec) in
  Memory_Hugepages mem = Some h → q_IsZero overhead = false →
  Spec_Resources spec = pure_resources cpu mem overhead (mkResources None None) → wf_hugepages spec h.
Proof.
  intros cpu mem Eh Hz Er.
  set (r := if DedicatedCPUPlacement cpu then pure_dedicated (NewQuantity (numVCPUs cpu)) (dedicated_memory mem overhead)
              (mkResources None None) else mkResources None None).
  assert (Ep : Spec_Resources spec = pure_hugepages (hugepagesResource h) (Size mem) overhead r).
  { rewrite Er. unfold pure_resources. by rewrite Eh. }
  assert (Hn : default ∅ (Limits r) !! hugepagesResource h = None ∧ default ∅ (Requests r) !! hugepagesResource h = None).
  { pose proof (hugepagesResource_not_memory h). pose proof (hugepagesResource_not_cpu h).
    unfold r. destruct (DedicatedCPUPlacement cpu); simpl; [|done].
    by rewrite lookup_insert_ne, lookup_singleton_ne by done. }
  destruct Hn as [Hn1 Hn2]. split.
  - destruct (pure_hugepages_maps (hugepagesResource h) (Size mem) overhead r) as (l & q & ? & ? & E & _ & _ & Hno & _);
      [apply hugepagesResource_not_memory|done|]. by rewrite Ep, E.
  - exists (Size mem), (Size mem). rewrite Ep. unfold pure_hugepages, rl_lookup. cbn [Requests Limits mbind option_bind].
    rewrite Hn1, Hn2. cbn [default]. unfold id. rewrite lookup_insert_eq. split_and!; try apply q_Cmp_refl; [|done].
    destruct (no_cpu_no_memory _); [rewrite lookup_insert_ne by (apply not_eq_sym, hugepagesResource_not_memory)|]; apply lookup_insert_eq.
Qed.

Lemma defaulted_wf rand vm vm' :
  rand_ok rand → defaultable (Spec vm) → MutateVM rand vm None = Returned (Ok vm') → wf_spec (Spec vm').
Proof.
  intros Hrand D. destruct (MutateVM_eq rand vm None) as (s & o & Es & Hs & Ho & Hz & Ha & ->).
  intros E. apply (inj Returned) in E. destruct (mutate_interfaces rand None 0 _) as [l|] eqn:El; [|done].
  apply (inj Ok) in E. subst vm'.
  destruct (defaulted_memory_wf _ _ D Es) as [Hpos Hmem]. apply mutate_interfaces_Ok in El.
  pose proof (default_cpu_wf _ (proj1 (df_cpu _ D)) (proj2 (df_cpu _ D))) as Hcpu.
  pose proof (df_vcpus _ D) as Hvc. pose proof (df_resources _ D) as Hres.
  pose proof (df_ifaces _ D) as Hif. pose proof (df_iface_names _ D) as Hin.
  destruct D as [_ _ _ _ _ Dk Dn Dne _ _ [Dv Dv'] [Dw Dw']].
  destruct vm as [m [? ? ? r ? ? rp [c [sz hp] k ? ? d f i] v n ? ?] st]; unfold mutated; cbn in *. subst r.
  split; cbn; try done.
  - intros Hd. exists o. split; [done|]. apply defaulted_dedicated_wf; done.
  - intros h Eh. by apply (defaulted_hugepages_wf _ o).
  - split; cbn; try done.
    + enough ((Interface_Name <$> l) = (Interface_Name <$> i)) as -> by done.
      clear -El. induction El as [|x y ? ? [E _] ? IH]; [done|]. by rewrite !fmap_cons, E, IH.
    + apply Forall_forall. intros y Hy. apply list_elem_of_lookup in Hy as [j Hj].
      destruct (Forall2_lookup_r _ _ _ _ _ El Hj) as (x & Hx & En & Eb & Hm).
      eapply Forall_lookup_1 in Hif as (Hname & Hmac & Hbind & Hvh); [|exact Hx].
      destruct (default_binding_wf _ Hbind) as [Hwb Hvh']. split; [by rewrite En| |by rewrite Eb|rewrite Eb; cbn; auto].
      destruct Hm as [? | ? Hold | nn hw ? _ Hg]; [by destruct Hmac|by destruct Hold|by eapply generated_MAC_valid].
Qed.

Lemma mutate_interfaces_total rand old n l :
  (∀ n, ∃ b, rand n = Ok b) → ∃ l', mutate_interfaces rand old n l = Ok l'.
Proof.
  intros Hr. revert n. induction l as [|i l IH]; intros n; simpl; [by eexists|].
  repeat case_decide.
  - unfold generateMAC. destruct (Hr n) as [b ->]. destruct (IH (S n)) as [l' ->]. by eexists.
  - destruct (IH n) as [l' ->]. by eexists.
  - destruct (IH n) as [l' ->]. by eexists.
Qed.

(** C16: the two webhooks agree: a VM that leaves resources, sizes, MACs and binding methods
    to the defaults is mutated, without a panic or an error, into one that validation admits. *)
Theorem defaulted_vm_is_admitted rand vm decodedOld :
  rand_ok rand → (∀ n, ∃ b, rand n = Ok b) → defaultable (Spec vm) →
  ∃ vm', MutateVM rand vm None = Returned (Ok vm') ∧
    VMValidator_Handle OpCreate (Ok vm') decodedOld = Returned Allowed.
Proof.
  intros Hr Ht D. destruct (MutateVM_eq rand vm None) as (s & o & _ & _ & _ & _ & _ & E).
  destruct (mutate_interfaces_total rand None 0 (Interfaces (Spec_Instance (Spec vm))) Ht) as [l El].
  rewrite El in E. eexists. split; [exact E|]. apply Handle_create, ValidateVM_nil. split; [|done].
  by eapply defaulted_wf.
Qed.

(** *** Updates that leave out the MACs *)

Definition erase_mac (i : Interface) : Interface := mkInterface (Interface_Name i) "" (Binding i).
Definition without_macs (vm : VirtualMachine) : VirtualMachine :=
  let inst := Spec_Instance (Spec vm) in
  set_Spec (set_Instance (set_Interfaces (erase_mac <$> Interfaces inst) inst) (Spec vm)) vm.

Lemma old_mac_self o i :
  NoDup (Interface_Name <$> Interfaces (Spec_Instance (Spec o))) → i ∈ Interfaces (Spec_Instance (Spec o)) →
  old_mac (Some o) (Interface_Name i) = MAC i.
Proof.
  unfold old_mac. generalize (Interfaces (Spec_Instance (Spec o))). intros l. induction l as [|x l IH]; [set_solver|].
  rewrite fmap_cons, NoDup_cons, elem_of_cons, filter_cons. intros [Hx Hl] [->|Hi].
  - by rewrite decide_True.
  - rewrite decide_False; [by apply IH|]. intros E. apply Hx. rewrite E. set_solver.
Qed.

Lemma mutate_interfaces_erased rand old n l :
  (∀ i, i ∈ l → MAC i ≠ "" ∧ default_binding (Binding i) = Binding i ∧ old_mac old (Interface_Name i) = MAC i) →
  mutate_interfaces rand old n (erase_mac <$> l) = Ok l.
Proof.
  revert n. induction l as [|i l IH]; intros n Hl; simpl; [done|].
  destruct (Hl i) as (Hm & Hb & Ho); [left|]. rewrite Ho, decide_False by done.
  rewrite IH by (intros j Hj; apply Hl; by right). rewrite Hb. by destruct i.
Qed.

(** C32: an update that leaves out every MAC address keeps the addresses of the stored VM:
    mutating a defaulted VM with its MACs erased, with the stored VM as the old object,
    gives the stored VM back and draws no new address. *)
Theorem update_restores_macs rand vm old0 stored rand' :
  MutateVM rand vm old0 = Returned (Ok stored) →
  NoDup (Interface_Name <$> Interfaces (Spec_Instance (Spec stored))) →
  MutateVM rand' (without_macs stored) (Some stored) = Returned (Ok stored).
Proof.
  intros E Hnd. pose proof (MutateVM_twice rand vm old0 stored rand' old0 E) as Hid.
  pose proof (mutated_interfaces _ _ _ _ E) as Hif. rewrite Forall_forall in Hif.
  destruct (MutateVM_eq rand' stored old0) as (s & o & Es & _ & Ho & _ & _ & E1). rewrite Hid in E1.
  destruct (MutateVM_eq rand' (without_macs stored) (Some stored)) as (s' & o' & Es' & _ & Ho' & _ & _ & ->).
  assert (o' = o) as -> by congruence. rewrite mutate_interfaces_fixed in E1 by (by apply Forall_forall).
  assert (Interfaces (Spec_Instance (Spec (without_macs stored))) = erase_mac <$> Interfaces (Spec_Instance (Spec stored))) as ->
    by (by destruct stored as [? [? ? ? ? ? ? ? [] ? ? ? ?] ?]).
  rewrite mutate_interfaces_erased.
  - rewrite E1. do 2 f_equal.
    assert (s' = s) as -> by (destruct stored as [? [? ? ? ? ? ? ? [] ? ? ? ?] ?]; cbn in *; congruence).
    by destruct stored as [? [? ? ? ? ? ? ? [] ? ? ? ?] ?].
  - intros i Hi. destruct (Hif i Hi). split_and!; [done..|by apply old_mac_self].
Qed.

End Pure.

(** ** A concrete virtual machine before defaulting *)

Section Sample.
#[local] Existing Instance k8s_concrete.

Definition bareInstance : Instance_ :=
  mkInstance (mkCPU 2 2 true) (mkMemory 0 (Some (mkHugepages "2Mi"))) None None None [mkDisk "root" None] []
    [mkInterface "pod" "" (mkBinding None (Some (mkMasquerade "")) None None None)].

Definition bareVM : VirtualMachine :=
  mkVM (sampleMeta "vm" "vm-uid")
    (mkVMSpec None None [] (mkResources None None) None None RunPolicyUnset bareInstance [sampleDisk]
       [mkNetwork "pod" (mkNetworkSource (Some tt) None)] [] [])
    emptyVMStatus.

Definition zero_rand : rand_source := λ n, Ok [1; 2; Z.of_nat n `mod` 256].

Lemma zero_rand_ok : rand_ok zero_rand.
Proof.
  intros n b [= <-]. split; [done|]. repeat constructor; try done. all: unfold byte_ok; apply Z.mod_pos_bound; lia.
Qed.

Lemma bareVM_defaultable : defaultable (L := k8s_concrete_laws) (Spec bareVM).
Proof.
  split; cbn; try done.
  - intros h [= <-]. exists (2 ^ 21 * 10 ^ 9), (2 ^ 21), 0. split_and!; [left|vm_compute; reflexivity|done..].
  - apply NoDup_singleton.
  - set_solver.
  - apply NoDup_singleton.
  - apply Forall_singleton. cbn. split_and!; [done|by left|by right; left|]. by intros [].
  - split; [apply NoDup_singleton|]. apply Forall_singleton. split; [done|]. by constructor.
  - split; [apply NoDup_singleton|]. apply Forall_singleton. split; [done|]. by constructor.
Qed.

Lemma resource_sharing_unobservable_witness :
  ∃ overhead, ParseQuantity memoryOverhead = Some overhead ∧
    mutate_resources (mkCPU 1 1 true) (mkMemory 0 None) (mkResources None None) =
      Returned (pure_resources (mkCPU 1 1 true) (mkMemory 0 None) overhead (mkResources None None)).
Proof.
  destruct (resource_sharing_unobservable (L := k8s_concrete_laws)) as (o & Ho & Hr). exists o. split; [exact Ho|apply Hr].
Defined.

Definition defaultedVM : VirtualMachine :=
  match MutateVM zero_rand bareVM None with Returned (Ok v) => v | _ => bareVM end.

Lemma MutateVM_idempotent_witness : MutateVM (λ _, Err (ErrMsg "unused")) defaultedVM None = Returned (Ok defaultedVM).
Proof.
  apply (MutateVM_idempotent (L := k8s_concrete_laws) zero_rand bareVM None).
  unfold defaultedVM. destruct (MutateVM zero_rand bareVM None) as [[v|]|] eqn:E; [reflexivity|exfalso..];
    cbn in E; discriminate E.
Defined.

Lemma defaulted_vm_is_admitted_witness :
  ∃ vm', MutateVM zero_rand bareVM None = Returned (Ok vm') ∧
    VMValidator_Handle OpCreate (Ok vm') (Err (ErrMsg "no old object")) = Returned Allowed.
Proof.
  apply (defaulted_vm_is_admitted (L := k8s_concrete_laws)).
  - apply zero_rand_ok.
  - intros n. eexists. reflexivity.
  - apply bareVM_defaultable.
Defined.

Lemma update_restores_macs_witness :
  MutateVM zero_rand (without_macs defaultedVM) (Some defaultedVM) = Returned (Ok defaultedVM).
Proof.
  apply (update_restores_macs (L := k8s_concrete_laws) zero_rand bareVM None).
  - unfold defaultedVM. destruct (MutateVM zero_rand bareVM None) as [[v|]|] eqn:E; [reflexivity|exfalso..];
      cbn in E; discriminate E.
  - apply NoDup_singleton.
Defined.

End Sample.
