(* ===== verification/PodBuild.v ===== *)
(** * The pod that runs a virtual machine: [buildVMPod] of pkg/controller/vm_controller.go

    The Go code fills in one [corev1.Pod] whose label, annotation, node selector and resource
    maps are the VM's own maps when those are not nil, so that writes to the pod also change
    the VM in memory, and the resources of every init container.  [build] is the pod under
    construction; the init containers get the VM's resources when it is finished
    ([finish]), which is when the shared maps have their final content, and [shared_vm] is
    the VM as it is then. *)

From stdpp Require Import base gmap strings list sets fin_maps.
From Stdlib Require Import ZArith Lia.
From S2P Require Import Prelude GoStd K8s ApiTypes Kube.
Open Scope Z_scope.

Section PodBuild.
Context `{K8s} {E : Type → Type} `{HasKube E}.

(** A network of the [k8s.v1.cni.cncf.io/networks] annotation. *)
Record NetworkSelectionElement := mkNetSel { ns_Name : string; ns_InterfaceRequest : string; ns_MacRequest : string }.

Record nadConfig := mkNadConfig { cfg_Type : string; cfg_VhostUserSocketVolumeName : string; cfg_VhostUserSocketName : string }.

(** The reconciler's image name and the JSON codecs it uses. *)
Record BuildParams := mkBuildParams {
  PrerunnerImageName : string;
  MarshalVM : VirtualMachine → result string;
  MarshalNetworks : list NetworkSelectionElement → result string;
  UnmarshalNADConfig : string → result nadConfig
}.
Context (params : BuildParams).

Record build := mkBuild {
  bd_labels : gmap string string;
  bd_annots : option (gmap string string);
  bd_nodeSel : option (gmap string string);
  bd_requests : gmap string Quantity;
  bd_limits : gmap string Quantity;
  bd_volumes : list PodVolume;
  bd_init : list Container;
  (** container 0, cloud-hypervisor *)
  bd_mounts : list VolumeMount;
  bd_devices : list VolumeDevice;
  bd_env : list EnvVar
}.

Definition add_volume (v : PodVolume) (b : build) : build :=
  let '(mkBuild l a n q m vs i mo d e) := b in mkBuild l a n q m (vs ++ [v]) i mo d e.
Definition add_init (c : Container) (b : build) : build :=
  let '(mkBuild l a n q m vs i mo d e) := b in mkBuild l a n q m vs (i ++ [c]) mo d e.
Definition add_mount (x : VolumeMount) (b : build) : build :=
  let '(mkBuild l a n q m vs i mo d e) := b in mkBuild l a n q m vs i (mo ++ [x]) d e.
Definition add_device (x : VolumeDevice) (b : build) : build :=
  let '(mkBuild l a n q m vs i mo d e) := b in mkBuild l a n q m vs i mo (d ++ [x]) e.
Definition add_env (x : EnvVar) (b : build) : build :=
  let '(mkBuild l a n q m vs i mo d e) := b in mkBuild l a n q m vs i mo d (e ++ [x]).
Definition set_annot (k v : string) (b : build) : build :=
  let '(mkBuild l a n q m vs i mo d e) := b in mkBuild l (Some (<[k := v]> (default ∅ a))) n q m vs i mo d e.
Definition set_nodeSel (k v : string) (b : build) : build :=
  let '(mkBuild l a n q m vs i mo d e) := b in mkBuild l a (Some (<[k := v]> (default ∅ n))) q m vs i mo d e.

(** [incrementContainerResource] on container 0. *)
Definition increment (r : string) (m : gmap string Quantity) : outcome (gmap string Quantity) :=
  (let? q := MustParse (Strconv.FormatInt (i64 (q_Value (default q_zero (m !! r)) + 1))) in
   Returned (<[r := q]> m))%go.

Definition incrementContainerResource (r : string) (b : build) : outcome build :=
  let '(mkBuild l a n q m vs i mo d e) := b in
  (let? q' := increment r q in
   let? m' := increment r m in
   Returned (mkBuild l a n q' m' vs i mo d e))%go.

Definition or_crash {A B} (o : outcome A) (k : A → prog E B) : prog E B :=
  match o with Returned a => k a | Panicked why => Crash why end.

(** An init container; its [Resources] are filled in by [finish]. *)
Definition init_container (name image pull : string) (command args : list string) (mounts : list VolumeMount)
    (sc : option SecurityContext) : Container :=
  mkContainer name image pull command args [] (mkResources None None) mounts [] sc None None None.

Definition emptyDir (name : string) : PodVolume := mkPodVolume name (EmptyDir "").
Definition mnt (name : string) : VolumeMount := mkVolumeMount name ("/mnt/" +:+ name) None.

(** ** Kernel and hugepages *)

Definition initial (vm : VirtualMachine) : build :=
  mkBuild (default ∅ (om_Labels (vm_meta vm))) (om_Annotations (vm_meta vm)) (Spec_NodeSelector (Spec vm))
    (default ∅ (Requests (Spec_Resources (Spec vm)))) (default ∅ (Limits (Spec_Resources (Spec vm))))
    [emptyDir "virtink"; emptyDir "hotplug-volumes"] []
    [mkVolumeMount "virtink" "/var/run/virtink" None;
     mkVolumeMount "hotplug-volumes" "/hotplug-volumes" (Some "HostToContainer")] [] [].

Definition set_label (k v : string) (b : build) : build :=
  let '(mkBuild l a n q m vs i mo d e) := b in mkBuild (<[k := v]> l) a n q m vs i mo d e.

Definition add_kernel (vm : VirtualMachine) (b : build) : build :=
  match Instance_Kernel (Spec_Instance (Spec vm)) with
  | None => b
  | Some k =>
      let volumeMount := mkVolumeMount "virtink-kernel" "/mnt/virtink-kernel" None in
      add_init (init_container "init-kernel" (Kernel_Image k) (Kernel_ImagePullPolicy k) []
                  [MountPath volumeMount +:+ "/vmlinux"] [volumeMount] None)
        (add_mount volumeMount (add_volume (emptyDir "virtink-kernel") b))
  end.

Definition add_hugepages (vm : VirtualMachine) (b : build) : build :=
  match Memory_Hugepages (Instance_Memory (Spec_Instance (Spec vm))) with
  | None => b
  | Some _ =>
      add_mount (mkVolumeMount "hugepages" "/dev/hugepages" None)
        (add_volume (mkPodVolume "hugepages" (EmptyDir "HugePages")) b)
  end.

(** ** Volumes *)

Definition add_containerDisk (name : string) (c : ContainerDiskVolumeSource) (b : build) : build :=
  add_init (init_container ("init-volume-" +:+ name) (ContainerDisk_Image c) (ContainerDisk_ImagePullPolicy c) []
              [MountPath (mnt name) +:+ "/disk.raw"] [mnt name] None)
    (add_mount (mnt name) (add_volume (emptyDir name) b)).

Definition add_containerRootfs (name : string) (c : ContainerRootfsVolumeSource) (b : build) : build :=
  add_init (init_container ("init-volume-" +:+ name) (ContainerRootfs_Image c) (ContainerRootfs_ImagePullPolicy c) []
              [MountPath (mnt name) +:+ "/rootfs.raw"; Strconv.FormatInt (q_Value (ContainerRootfs_Size c))] [mnt name] None)
    (add_mount (mnt name) (add_volume (emptyDir name) b)).

Definition newline : string := String (Ascii.ascii_of_nat 10) EmptyString.

Definition add_cloudInit (vm : VirtualMachine) (name : string) (c : CloudInitVolumeSource) (b : build) : build :=
  let secret n s := mkPodVolume n (SecretSource s) in
  let metaData := Base64.encode ("instance-id: " +:+ om_UID (vm_meta vm) +:+ newline +:+
                                 "local-hostname: " +:+ om_Name (vm_meta vm))%string in
  let '(userData, initMounts, b) :=
    if negb (bool_decide (UserData c = "")) then (Base64.encode (UserData c), [], b)
    else if negb (bool_decide (UserDataBase64 c = "")) then (UserDataBase64 c, [], b)
    else if negb (bool_decide (UserDataSecretName c = "")) then
      ("/mnt/virtink-cloud-init-user-data/value",
       [mkVolumeMount "virtink-cloud-init-user-data" "/mnt/virtink-cloud-init-user-data" None],
       add_volume (secret "virtink-cloud-init-user-data" (UserDataSecretName c)) b)
    else ("", [], b) in
  let '(networkData, b) :=
    if negb (bool_decide (NetworkData c = "")) then (Base64.encode (NetworkData c), b)
    else if negb (bool_decide (NetworkDataBase64 c = "")) then (NetworkDataBase64 c, b)
    else if negb (bool_decide (NetworkDataSecretName c = "")) then
      ("/mnt/virtink-cloud-init-network-data/value",
       add_mount (mkVolumeMount "virtink-cloud-init-network-data" "/mnt/virtink-cloud-init-network-data" None)
         (add_volume (secret "virtink-cloud-init-network-data" (NetworkDataSecretName c)) b))
    else ("", b) in
  add_init (init_container ("init-volume-" +:+ name) (PrerunnerImageName params) "" ["virt-init-volume"]
              ["cloud-init"; metaData; userData; networkData; MountPath (mnt name) +:+ "/cloud-init.iso"]
              (initMounts ++ [mnt name]) None)
    (add_mount (mnt name) (add_volume (emptyDir name) b)).

(** [reconcileError{Result: ctrl.Result{RequeueAfter: time.Minute}}]. *)
Definition requeue_minute : goerror := ErrReconcile (mkResult false 60).

(** A claim or data volume: the pod, and whether the volume is a block device. *)
Definition add_claim (vm : VirtualMachine) (v : Volume) (b : build) : prog E (result (build * bool)) :=
  let name := Volume_Name v in
  let ns := om_Namespace (vm_meta vm) in
  let rest :=
    (let! r := IsBlock ns v in
     match r with
     | Err e => Ret (Err e)
     | Ok isBlock =>
         if IsHotpluggable v then Ret (Ok (b, isBlock))
         else
           let b := add_volume (mkPodVolume name (PVCVolume (PVCName v))) b in
           Ret (Ok (if isBlock then add_device (mkVolumeDevice name ("/mnt/" +:+ name)) b
                    else add_mount (mnt name) b, isBlock))
     end)%go in
  (let! r := IsReady ns v in
   match r with
   | Err e => Ret (Err e)
   | Ok true => rest
   | Ok false =>
       match DataVolume (Volume_Source v) with
       | None => Ret (Err requeue_minute)
       | Some _ =>
           let! p := GetPVC ns v in
           match p with
           | Err e => Ret (Err (ErrWrap ("failed to get PVC for DataVolume " +:+ name)%string e))
           | Ok (Some pvc) =>
               if negb (bool_decide (pvc_Phase pvc = ClaimPending)) then Ret (Err requeue_minute) else rest
           | Ok None => rest
           end
       end
   end)%go.

(** One pass of the loop over the volumes. *)
Definition add_vm_volume (vm : VirtualMachine) (v : Volume) (b : build) (blocks : list string)
    : prog E (result (build * list string)) :=
  let s := Volume_Source v in
  let name := Volume_Name v in
  match ContainerDisk s, CloudInit s, ContainerRootfs s, PersistentVolumeClaim s, DataVolume s with
  | Some c, _, _, _, _ => Ret (Ok (add_containerDisk name c b, blocks))
  | None, Some c, _, _, _ => Ret (Ok (add_cloudInit vm name c b, blocks))
  | None, None, Some c, _, _ => Ret (Ok (add_containerRootfs name c b, blocks))
  | None, None, None, None, None => Ret (Ok (b, blocks))
  | None, None, None, _, _ =>
      (let! r := add_claim vm v b in
       match r with
       | Err e => Ret (Err e)
       | Ok (b, isBlock) => Ret (Ok (b, if isBlock then blocks ++ [name] else blocks))
       end)%go
  end.

Fixpoint add_vm_volumes (vm : VirtualMachine) (vs : list Volume) (b : build) (blocks : list string)
    : prog E (result (build * list string)) :=
  match vs with
  | [] => Ret (Ok (b, blocks))
  | v :: vs' =>
      (let! r := add_vm_volume vm v b blocks in
       match r with
       | Err e => Ret (Err e)
       | Ok (b, blocks) => add_vm_volumes vm vs' b blocks
       end)%go
  end.

(** ** Networks *)

Definition find_interface (name : string) (l : list Interface) : option Interface :=
  head (filter (λ i, Interface_Name i = name) l).

Definition privileged : option SecurityContext := Some (mkSecurityContext [] (Some true)).

Definition add_sysctls (i : nat) (iface : Interface) (b : build) : build :=
  let sysctl name arg := init_container name (PrerunnerImageName params) "" ["sysctl"; "-w"; arg] [] [] privileged in
  let b := match Masquerade (Binding iface) with
           | Some _ => add_init (sysctl "enable-ip-forward" "net.ipv4.ip_forward=1") b
           | None => b
           end in
  match Bridge (Binding iface) with
  | Some _ => add_init (sysctl ("enable-arp-ignore-" +:+ Strconv.FormatInt (Z.of_nat i))%string
                          "net.ipv4.conf.all.arp_ignore=1") b
  | None => b
  end.

(** The vhost-user part of a multus network; [n] counts the userspace interfaces. *)
Definition add_vhost_user (iface : Interface) (config : string) (b : build) (n : nat) : result (build * nat) :=
  match UnmarshalNADConfig params config with
  | Err e => Err (ErrFmt "unmarshal NAD config" e)
  | Ok cfg =>
      if decide (cfg_Type cfg = "kube-ovn") then
        let b := set_annot "ovn-dpdk.default.ovn.kubernetes.io/mac_address" (MAC iface)
                   (set_nodeSel "ovn.kubernetes.io/ovs_dp_type" "userspace" b) in
        let b := add_mount (mkVolumeMount (cfg_VhostUserSocketVolumeName cfg) "/var/run/vhost-user" None)
                   (add_volume (emptyDir (cfg_VhostUserSocketVolumeName cfg)) b) in
        Ok (add_env (mkEnvVar "NET_TYPE" (EnvLiteral "kube-ovn"))
              (add_env (mkEnvVar "VHOST_USER_SOCKET"
                 (EnvLiteral ("/var/run/vhost-user/" +:+ cfg_VhostUserSocketName cfg)%string)) b), n)
      else if decide (cfg_Type cfg = "userspace") then
        if decide (S n = 1%nat) then
          let b := add_mount (mkVolumeMount "vhost-user-sockets" "/var/run/vhost-user" None)
                     (add_volume (mkPodVolume "vhost-user-sockets" (HostPath "/usr/local/var/run/openvswitch/")) b) in
          Ok (add_env (mkEnvVar "NET_TYPE" (EnvLiteral "userspace"))
                (add_env (mkEnvVar "USERSPACE_CONFIGURATION_DATA"
                   (EnvFieldRef "metadata.annotations['userspace/configuration-data']")) b), S n)
        else Ok (b, S n)
      else Err (ErrMsg ("CNI plugin " +:+ cfg_Type cfg +:+ " is not supported for vhost-uesr")%string)
  end.

Definition NetworkStatusAnnot : string := "k8s.v1.cni.cncf.io/network-status".

(** The multus part of a network. *)
Definition add_multus (vm : VirtualMachine) (i : nat) (iface : Interface) (m : MultusNetworkSource) (b : build) (n : nat)
    : prog E (result (build * NetworkSelectionElement * nat)) :=
  let elem := mkNetSel (NetworkName m) ("net" +:+ Strconv.FormatInt (Z.of_nat i))%string (MAC iface) in
  (let! r := kube (GetNAD (mkNN (om_Namespace (vm_meta vm)) (NetworkName m))) in
   match r with
   | Err e => Ret (Err (ErrFmt "get NAD" e))
   | Ok nad =>
       let resourceName := default "" (nad_Annotations nad !! "k8s.v1.cni.cncf.io/resourceName") in
       or_crash (if decide (resourceName = "") then Returned b else incrementContainerResource resourceName b) (λ b,
         let b := add_env (mkEnvVar "NETWORK_STATUS"
                    (EnvFieldRef ("metadata.annotations['" +:+ NetworkStatusAnnot +:+ "']")%string)) b in
         match VhostUser (Binding iface) with
         | None => Ret (Ok (b, elem, n))
         | Some _ =>
             match add_vhost_user iface (nad_Config nad) b n with
             | Err e => Ret (Err e)
             | Ok (b, n) => Ret (Ok (b, elem, n))
             end
         end)
   end)%go.

Fixpoint add_vm_networks (vm : VirtualMachine) (i : nat) (nets : list Network) (b : build)
    (elems : list NetworkSelectionElement) (n : nat) : prog E (result (build * list NetworkSelectionElement)) :=
  match nets with
  | [] => Ret (Ok (b, elems))
  | net :: nets' =>
      match find_interface (Network_Name net) (Interfaces (Spec_Instance (Spec vm))) with
      | None => Ret (Err (ErrMsg ("interface not found for network: " +:+ Network_Name net)%string))
      | Some iface =>
          let b := add_sysctls i iface b in
          match Multus (Network_Source net) with
          | None => add_vm_networks vm (S i) nets' b elems n
          | Some m =>
              (let! r := add_multus vm i iface m b n in
               match r with
               | Err e => Ret (Err e)
               | Ok (b, elem, n) => add_vm_networks vm (S i) nets' b (elems ++ [elem]) n
               end)%go
          end
      end
  end.

(** ** The finished pod *)

(** The VM, whose non-nil maps the pod shares. *)
Definition shared_vm (vm : VirtualMachine) (b : build) : VirtualMachine :=
  let share {A} (old : option A) (new : A) : option A := match old with Some _ => Some new | None => None end in
  let m := vm_meta vm in
  let s := Spec vm in
  let m := set_Labels (share (om_Labels m) (bd_labels b)) m in
  let m := set_Annotations (match om_Annotations m with Some _ => bd_annots b | None => None end) m in
  let s := set_Resources (mkResources (share (Limits (Spec_Resources s)) (bd_limits b))
                            (share (Requests (Spec_Resources s)) (bd_requests b))) s in
  let '(mkVMSpec ns af to re lp rp p i v n sc sv) := s in
  mkVM m (mkVMSpec (match ns with Some _ => bd_nodeSel b | None => None end) af to re lp rp p i v n sc sv) (Status vm).

Definition set_container_Resources (r : ResourceRequirements) (c : Container) : Container :=
  let '(mkContainer n im pu co ar en _ mo de sc lp rp re) := c in mkContainer n im pu co ar en r mo de sc lp rp re.

(** Mounts of the sidecar volumes that file systems use. *)
Definition filesystem_mounts (vm : VirtualMachine) : list VolumeMount :=
  (λ f, mnt (FileSystem_Name f)) <$>
    filter (λ f, FileSystem_Name f ∈ PodVolume_Name <$> SidecarVolumes (Spec vm)) (FileSystems (Spec_Instance (Spec vm))).

Definition finish (vm : VirtualMachine) (b : build) : Pod :=
  let s := Spec vm in
  let ch := mkContainer "cloud-hypervisor" (PrerunnerImageName params) "" [] [] (bd_env b)
    (mkResources (Some (bd_limits b)) (Some (bd_requests b))) (bd_mounts b ++ filesystem_mounts vm) (bd_devices b)
    (Some (mkSecurityContext ["SYS_ADMIN"; "NET_ADMIN"; "SYS_RESOURCE"] None))
    (Spec_LivenessProbe s) (Spec_ReadinessProbe s) None in
  mkPod (set_Annotations (bd_annots b) (set_Labels (Some (bd_labels b)) emptyMeta))
    (mkPodSpec "" false (bd_nodeSel b) (Spec_Tolerations s) (Spec_Affinity s)
       (set_container_Resources (Spec_Resources (Spec (shared_vm vm b))) <$> bd_init b)
       (ch :: Sidecars s) (bd_volumes b ++ SidecarVolumes s))
    emptyPodStatus.

Definition add_blocks (blocks : list string) (b : build) : build :=
  match blocks with
  | [] => b
  | _ => add_env (mkEnvVar "BLOCK_VOLUMES" (EnvLiteral (Strings.Join blocks ","))) b
  end.

(** [buildVMPod]: the pod and the VM as it is afterwards. *)
Definition buildVMPod (vm : VirtualMachine) : prog E (result (Pod * VirtualMachine)) :=
  or_crash (let? b := incrementContainerResource "devices.virtink.io/kvm" (initial vm) in
            incrementContainerResource "devices.virtink.io/tun" b)%go (λ b,
    let b := set_label "virtink.io/vm.name" (om_Name (vm_meta vm)) b in
    let b := add_hugepages vm (add_kernel vm b) in
    (let! r := add_vm_volumes vm (Volumes (Spec vm)) b [] in
     match r with
     | Err e => Ret (Err e)
     | Ok (b, blocks) =>
         let b := add_blocks blocks b in
         let! r := add_vm_networks vm 0 (Networks (Spec vm)) b [] 0 in
         match r with
         | Err e => Ret (Err e)
         | Ok (b, elems) =>
             let annotated :=
               match elems with
               | [] => Ok b
               | _ => match MarshalNetworks params elems with
                      | Err e => Err (ErrFmt "marshal networks" e)
                      | Ok json => Ok (set_annot "k8s.v1.cni.cncf.io/networks" json b)
                      end
               end in
             match annotated with
             | Err e => Ret (Err e)
             | Ok b =>
                 match MarshalVM params (shared_vm vm b) with
                 | Err e => Ret (Err (ErrFmt "marshal VM" e))
                 | Ok json =>
                     let b := add_env (mkEnvVar "VM_DATA" (EnvLiteral (Base64.encode json))) b in
                     Ret (Ok (finish vm b, shared_vm vm b))
                 end
             end
         end
     end)%go).

(** *** The target pod of a migration *)

(** Keep the target off the nodes that run a pod of this VM; the affinity is the VM's own
    when it is not nil. *)
Definition anti_affinity (name : string) (a : option Affinity) : Affinity :=
  let a := default (mkAffinity None None None) a in
  let p := default (mkPodAntiAffinity None []) (Affinity_PodAnti a) in
  let terms := default [] (RequiredTerms p) in
  mkAffinity (Affinity_Node a) (Affinity_Pod a)
    (Some (mkPodAntiAffinity (Some (terms ++ [LabelTerm {["virtink.io/vm.name" := name]} "kubernetes.io/hostname"]))
             (PreferredTerms p))).

Definition set_Affinity (a : option Affinity) (s : VirtualMachineSpec) : VirtualMachineSpec :=
  let '(mkVMSpec ns _ to re lp rp p i v n sc sv) := s in mkVMSpec ns a to re lp rp p i v n sc sv.

Definition add_container0_env (x : EnvVar) (cs : list Container) : list Container :=
  match cs with
  | [] => []
  | mkContainer n im pu co ar en re mo de sc lp rp rest :: cs' =>
      mkContainer n im pu co ar (en ++ [x]) re mo de sc lp rp rest :: cs'
  end.

Definition buildTargetVMPod (vm : VirtualMachine) : prog E (result (Pod * VirtualMachine)) :=
  (let! r := buildVMPod vm in
   match r with
   | Err e => Ret (Err e)
   | Ok (pod, vm) =>
       let s := pod_Spec pod in
       let a := anti_affinity (om_Name (vm_meta vm)) (Pod_Affinity s) in
       let vm := match Spec_Affinity (Spec vm) with
                 | Some _ => set_Spec (set_Affinity (Some a) (Spec vm)) vm
                 | None => vm
                 end in
       Ret (Ok (mkPod (pod_meta pod)
         (mkPodSpec (Pod_NodeName s) (Pod_HostNetwork s) (Pod_NodeSelector s) (Pod_Tolerations s) (Some a)
            (Pod_InitContainers s) (add_container0_env (mkEnvVar "RECEIVE_MIGRATION" (EnvLiteral "true")) (Pod_Containers s))
            (Pod_Volumes s)) (pod_Status pod), vm))
   end)%go.

End PodBuild.
