(* ===== verification/PodBuildProofs.v ===== *)
(** * Properties of the VM pod *)

From stdpp Require Import base gmap strings list sets fin_maps.
From Stdlib Require Import ZArith Lia.
From S2P Require Import Prelude GoStd K8s ApiTypes Kube VmValidate PodBuild.
Open Scope Z_scope.

(** ** Programs that only read

    Facts about a program that hold for every environment in which reads are allowed and
    keep an invariant of the world. *)

Section Reads.
Context `{K : K8s} {W : Type} (en : env kubeE W) (I : W → Prop).

(** The calls that change nothing at the API server, other than the fetch of the VM to reconcile. *)
Definition is_read {X} (e : kubeE X) : bool :=
  match e with
  | GetVM _ | CreatePod _ | DeletePod _ | UpdateVM _ | UpdateVMStatus _ | UpdateVMMStatus _ => false
  | _ => true
  end.

Hypothesis reads_ok : ∀ X (e : kubeE X), is_read e = true → ok_call en I e.

Lemma wp_read {A X} (e : kubeE X) (k : X → prog kubeE A) w Q :
  is_read e = true → I w → (∀ x w', I w' → wp en (k x) w' Q) → wp en (Call e k) w Q.
Proof. intros He Hw Hk. destruct (reads_ok X e He w Hw) as [Ha Hx]. split; [done|]. intros x w' Hans. eauto. Qed.

Lemma GetPVC_wp ns v w : I w → wp en (GetPVC ns v) w (λ _ w', I w').
Proof.
  intros Hw. unfold GetPVC. set (name := match PersistentVolumeClaim _ with Some _ => _ | None => _ end).
  case_decide; [done|]. apply wp_read; [done..|]. intros [pvc|e] w' Hw'; [done|]. by destruct (IsNotFound e).
Qed.

Lemma IsBlock_wp ns v w : I w → wp en (IsBlock ns v) w (λ _ w', I w').
Proof.
  intros Hw. unfold IsBlock. wp_use GetPVC_wp; [|done]. by intros [[pvc|]|e] w' Hw'.
Qed.

Lemma IsReady_wp ns v w : I w → wp en (IsReady ns v) w (λ _ w', I w').
Proof.
  intros Hw. unfold IsReady. destruct (DataVolume _); [|done]. wp_use GetPVC_wp; [|done].
  intros [[pvc|]|e] w' Hw'; [|done..]. by apply wp_read.
Qed.

(** ** Building the pod *)

Context (params : BuildParams).

(** Every mount and device of the container and of the init containers names a volume. *)
Record mounts_ok (b : build) : Prop := {
  mo_mounts : ∀ m, m ∈ bd_mounts b → vm_Name m ∈ PodVolume_Name <$> bd_volumes b;
  mo_devices : ∀ d, d ∈ bd_devices b → vd_Name d ∈ PodVolume_Name <$> bd_volumes b;
  mo_init : ∀ c m, c ∈ bd_init b → m ∈ VolumeMounts c → vm_Name m ∈ PodVolume_Name <$> bd_volumes b
}.

(** What the steps keep: the mounts are backed by volumes, and the VM's name label is set. *)
Record build_ok (vm : VirtualMachine) (b : build) : Prop := {
  bo_mounts : mounts_ok b;
  bo_label : bd_labels b !! "virtink.io/vm.name" = Some (om_Name (vm_meta vm));
  bo_devices : ∃ q l, bd_requests b !! "devices.virtink.io/kvm" = Some q ∧ bd_limits b !! "devices.virtink.io/kvm" = Some l
}.

Lemma add_volume_ok vm v b : build_ok vm b → build_ok vm (add_volume v b).
Proof.
  intros [[H1 H2 H3] H4 H5]. destruct b; simpl in *. split; [|done..].
  split; simpl; intros; rewrite fmap_app, elem_of_app; left; eauto.
Qed.
Lemma add_init_ok vm c b :
  (∀ m, m ∈ VolumeMounts c → vm_Name m ∈ PodVolume_Name <$> bd_volumes b) → build_ok vm b → build_ok vm (add_init c b).
Proof.
  intros Hc [[H1 H2 H3] H4 H5]. destruct b; simpl in *. split; [|done..]. split; simpl; [done..|].
  intros c' m [?| ->%list_elem_of_singleton]%elem_of_app ?; eauto.
Qed.
Lemma add_mount_ok vm m b :
  vm_Name m ∈ PodVolume_Name <$> bd_volumes b → build_ok vm b → build_ok vm (add_mount m b).
Proof.
  intros Hc [[H1 H2 H3] H4 H5]. destruct b; simpl in *. split; [|done..]. split; simpl; [|done..].
  intros m' [?| ->%list_elem_of_singleton]%elem_of_app; eauto.
Qed.
Lemma add_device_ok vm d b :
  vd_Name d ∈ PodVolume_Name <$> bd_volumes b → build_ok vm b → build_ok vm (add_device d b).
Proof.
  intros Hc [[H1 H2 H3] H4 H5]. destruct b; simpl in *. split; [|done..]. split; simpl; [done| |done].
  intros m' [?| ->%list_elem_of_singleton]%elem_of_app; eauto.
Qed.
Lemma add_env_ok vm x b : build_ok vm b → build_ok vm (add_env x b).
Proof. intros [[] ? ?]. destruct b. by split. Qed.
Lemma set_annot_ok vm k v b : build_ok vm b → build_ok vm (set_annot k v b).
Proof. intros [[] ? ?]. destruct b. by split. Qed.
Lemma set_nodeSel_ok vm k v b : build_ok vm b → build_ok vm (set_nodeSel k v b).
Proof. intros [[] ? ?]. destruct b. by split. Qed.

(** The volumes after each step, for the side conditions above. *)
Lemma vols_add_volume v b : PodVolume_Name <$> bd_volumes (add_volume v b) = (PodVolume_Name <$> bd_volumes b) ++ [PodVolume_Name v].
Proof. destruct b; simpl. by rewrite fmap_app. Qed.
Lemma vols_add_mount m b : bd_volumes (add_mount m b) = bd_volumes b.
Proof. by destruct b. Qed.
Lemma vols_add_init c b : bd_volumes (add_init c b) = bd_volumes b.
Proof. by destruct b. Qed.

Ltac vols := repeat first [rewrite vols_add_mount | rewrite vols_add_init | rewrite vols_add_volume]; set_solver.

Ltac build_step :=
  repeat first
    [ assumption
    | apply add_env_ok | apply set_annot_ok | apply set_nodeSel_ok | apply add_volume_ok
    | apply add_mount_ok; [vols|] | apply add_device_ok; [vols|]
    | apply add_init_ok; [intros ? Hm; simpl in Hm; vols|] ].

Lemma add_kernel_ok vm b : build_ok vm b → build_ok vm (add_kernel vm b).
Proof. intros Hb. unfold add_kernel. destruct (Instance_Kernel _); [|done]. build_step. Qed.
Lemma add_hugepages_ok vm b : build_ok vm b → build_ok vm (add_hugepages vm b).
Proof. intros Hb. unfold add_hugepages. destruct (Memory_Hugepages _); [|done]. build_step. Qed.
Lemma add_containerDisk_ok vm n c b : build_ok vm b → build_ok vm (add_containerDisk n c b).
Proof. intros Hb. unfold add_containerDisk. build_step. Qed.
Lemma add_containerRootfs_ok vm n c b : build_ok vm b → build_ok vm (add_containerRootfs n c b).
Proof. intros Hb. unfold add_containerRootfs. build_step. Qed.
Lemma add_cloudInit_ok vm n c b : build_ok vm b → build_ok vm (add_cloudInit params vm n c b).
Proof.
  intros Hb. unfold add_cloudInit.
  destruct (negb (bool_decide (UserData c = ""))), (negb (bool_decide (UserDataBase64 c = ""))),
    (negb (bool_decide (UserDataSecretName c = ""))), (negb (bool_decide (NetworkData c = ""))),
    (negb (bool_decide (NetworkDataBase64 c = ""))), (negb (bool_decide (NetworkDataSecretName c = "")));
    cbv beta zeta iota; build_step.
Qed.

Context {L : QuantityLaws K}.

Lemma increment_spec r m :
  ∃ q, increment r m = Returned (<[r := q]> m).
Proof.
  unfold increment, MustParse. destruct (Parse_int (QuantityLaws := L) (i64 (q_Value (default q_zero (m !! r)) + 1)))
    as (q & -> & _); [apply i64_range|]. by exists q.
Qed.

Lemma incrementContainerResource_spec r b :
  ∃ q l, incrementContainerResource r b = Returned
    (mkBuild (bd_labels b) (bd_annots b) (bd_nodeSel b) (<[r := q]> (bd_requests b)) (<[r := l]> (bd_limits b))
       (bd_volumes b) (bd_init b) (bd_mounts b) (bd_devices b) (bd_env b)).
Proof.
  destruct b as [la an no rq li vs ini mo de ev]. simpl.
  destruct (increment_spec r rq) as [q ->], (increment_spec r li) as [l ->]. by exists q, l.
Qed.

Lemma increment_ok vm r b b' : incrementContainerResource r b = Returned b' → build_ok vm b → build_ok vm b'.
Proof.
  destruct (incrementContainerResource_spec r b) as (q & l & ->). intros [= <-] [[] ? (q' & l' & Hq & Hl)].
  split; [done|done|]. simpl. destruct (decide (r = "devices.virtink.io/kvm")) as [->|].
  - eexists _, _. split; apply lookup_insert_eq.
  - exists q', l'. by rewrite !lookup_insert_ne.
Qed.

Lemma add_claim_wp vm v b w :
  I w → build_ok vm b →
  wp en (add_claim vm v b) w (λ r w', I w' ∧ ∀ b' blk, r = Ok (b', blk) → build_ok vm b').
Proof.
  intros Hw Hb.
  assert (Hrest : ∀ w, I w → wp en (let! r := IsBlock (om_Namespace (vm_meta vm)) v in
     match r with
     | Err e => Ret (Err e)
     | Ok isBlock =>
         if IsHotpluggable v then Ret (Ok (b, isBlock))
         else
           let b := add_volume (mkPodVolume (Volume_Name v) (PVCVolume (PVCName v))) b in
           Ret (Ok (if isBlock then add_device (mkVolumeDevice (Volume_Name v) ("/mnt/" +:+ Volume_Name v)) b
                    else add_mount (mnt (Volume_Name v)) b, isBlock))
     end)%go w (λ r w', I w' ∧ ∀ b' blk, r = Ok (b', blk) → build_ok vm b')).
  { clear w Hw. intros w Hw. wp_use IsBlock_wp; [|done]. intros [blk|e] w' Hw'; [|done].
    destruct (IsHotpluggable v); (split; [done|]); intros b' blk' E; simplify_eq; [done|].
    destruct blk'; build_step. }
  unfold add_claim. wp_use IsReady_wp; [|done]. intros [[|]|e] w' Hw'; [by apply Hrest| |done].
  destruct (DataVolume _); [|done]. wp_use GetPVC_wp; [|done].
  intros [[pvc|]|e] w'' Hw''; [|by apply Hrest|done]. destruct (negb _); [done|by apply Hrest].
Qed.

Lemma add_vm_volumes_wp vm vs b blocks w :
  I w → build_ok vm b →
  wp en (add_vm_volumes params vm vs b blocks) w (λ r w', I w' ∧ ∀ b' bl, r = Ok (b', bl) → build_ok vm b').
Proof.
  revert b blocks w. induction vs as [|v vs IH]; intros b blocks w Hw Hb; cbn [add_vm_volumes].
  { split; [done|]. by intros b' bl [= <- <-]. }
  assert (Hv : wp en (add_vm_volume params vm v b blocks) w (λ r w', I w' ∧ ∀ b' bl, r = Ok (b', bl) → build_ok vm b')).
  { assert (Hc : wp en (let! r := add_claim vm v b in
       match r with
       | Err e => Ret (Err e)
       | Ok (b, isBlock) => Ret (Ok (b, if isBlock then blocks ++ [Volume_Name v] else blocks))
       end)%go w (λ r w', I w' ∧ ∀ b' bl, r = Ok (b', bl) → build_ok vm b')).
    { wp_use add_claim_wp; [|done..]. intros [[b1 blk]|e] w' [Hw' Hb']; [|done]. split; [done|].
      intros b2 bl [= <- _]. by eapply Hb'. }
    unfold add_vm_volume.
    destruct (ContainerDisk _) as [c|]; [split; [done|]; intros b' bl [= <- _]; by apply add_containerDisk_ok|].
    destruct (CloudInit _) as [c|]; [split; [done|]; intros b' bl [= <- _]; by apply add_cloudInit_ok|].
    destruct (ContainerRootfs _) as [c|]; [split; [done|]; intros b' bl [= <- _]; by apply add_containerRootfs_ok|].
    destruct (PersistentVolumeClaim _) as [?|]; [exact Hc|]. destruct (DataVolume (Volume_Source v)) as [?|]; [exact Hc|]. split; [done|]. by intros b' bl [= <- _]. }
  wp_use Hv. intros [[b1 bl]|e] w' [Hw' Hb']; [|done]. apply IH; [done|]. by eapply Hb'.
Qed.

Lemma add_sysctls_ok vm i iface b : build_ok vm b → build_ok vm (add_sysctls params i iface b).
Proof.
  intros Hb. unfold add_sysctls. destruct (Masquerade (Binding iface)), (Bridge (Binding iface)); build_step.
Qed.

Lemma add_vhost_user_ok vm iface cfg b n b' n' :
  build_ok vm b → add_vhost_user params iface cfg b n = Ok (b', n') → build_ok vm b'.
Proof.
  intros Hb. unfold add_vhost_user. destruct (UnmarshalNADConfig params cfg) as [c|]; [|done].
  repeat case_decide; intros E; simplify_eq; build_step.
Qed.

Lemma add_multus_wp vm i iface m b n w :
  I w → build_ok vm b →
  wp en (add_multus params vm i iface m b n) w (λ r w', I w' ∧ ∀ b' el n', r = Ok (b', el, n') → build_ok vm b').
Proof.
  intros Hw Hb. unfold add_multus. apply wp_read; [done..|]. intros [nad|e] w' Hw'; [|done].
  set (rn := default "" _). assert (∃ b1, (if decide (rn = "") then Returned b else incrementContainerResource rn b) = Returned b1
    ∧ build_ok vm b1) as (b1 & -> & Hb1).
  { case_decide; [by exists b|]. destruct (incrementContainerResource_spec rn b) as (q & l & E).
    eexists. split; [exact E|]. by eapply increment_ok. }
  cbn [or_crash]. destruct (VhostUser _).
  - destruct (add_vhost_user _ _ _ _ _) as [[b2 n2]|] eqn:E; [|done]. split; [done|]. intros b' el n' [= <- _ _].
    eapply add_vhost_user_ok; [|exact E]. build_step.
  - split; [done|]. intros b' el n' [= <- _ _]. build_step.
Qed.

Lemma add_vm_networks_wp vm i nets b elems n w :
  I w → build_ok vm b →
  wp en (add_vm_networks params vm i nets b elems n) w (λ r w', I w' ∧ ∀ b' el, r = Ok (b', el) → build_ok vm b').
Proof.
  revert i b elems n w. induction nets as [|net nets IH]; intros i b elems n w Hw Hb; cbn [add_vm_networks].
  { split; [done|]. by intros b' el [= <- _]. }
  destruct (find_interface _ _) as [iface|]; [|done]. pose proof (add_sysctls_ok vm i iface b Hb).
  destruct (Multus _); [|by apply IH]. wp_use add_multus_wp; [|done..].
  intros [[[b1 el] n1]|e] w' [Hw' Hb']; [|done]. apply IH; [done|]. by eapply Hb'.
Qed.

(** ** The pod *)

(** The parts of a VM that building its pod leaves alone; its label, annotation, node
    selector and resource maps may be shared with the pod. *)
Record same_vm (vm vm' : VirtualMachine) : Prop := {
  sv_name : om_Name (vm_meta vm') = om_Name (vm_meta vm);
  sv_namespace : om_Namespace (vm_meta vm') = om_Namespace (vm_meta vm);
  sv_uid : om_UID (vm_meta vm') = om_UID (vm_meta vm);
  sv_deletion : om_DeletionTimestamp (vm_meta vm') = om_DeletionTimestamp (vm_meta vm);
  sv_finalizers : om_Finalizers (vm_meta vm') = om_Finalizers (vm_meta vm);
  sv_status : Status vm' = Status vm;
  sv_instance : Spec_Instance (Spec vm') = Spec_Instance (Spec vm);
  sv_volumes : Volumes (Spec vm') = Volumes (Spec vm);
  sv_networks : Networks (Spec vm') = Networks (Spec vm);
  sv_policy : Spec_RunPolicy (Spec vm') = Spec_RunPolicy (Spec vm)
}.

Lemma shared_vm_same vm b : same_vm vm (shared_vm vm b).
Proof. destruct vm as [[] [] st]. by split. Qed.
Lemma same_vm_refl vm : same_vm vm vm.
Proof. by split. Qed.
Lemma same_vm_trans a b c : same_vm a b → same_vm b c → same_vm a c.
Proof. intros [] []. split; congruence. Qed.

(** What a scheduler and the prerunner rely on in the pod of [vm], whose VM_DATA is the
    encoding of [vm']. *)
Record pod_ok (vm vm' : VirtualMachine) (pod : Pod) : Prop := {
  po_volumes : ∀ c m, c ∈ Pod_InitContainers (pod_Spec pod) ∨ head (Pod_Containers (pod_Spec pod)) = Some c →
    m ∈ VolumeMounts c → vm_Name m ∈ PodVolume_Name <$> Pod_Volumes (pod_Spec pod);
  po_devices : ∀ c d, head (Pod_Containers (pod_Spec pod)) = Some c → d ∈ VolumeDevices c →
    vd_Name d ∈ PodVolume_Name <$> Pod_Volumes (pod_Spec pod);
  po_label : om_Labels (pod_meta pod) ≫= lookup "virtink.io/vm.name" = Some (om_Name (vm_meta vm));
  po_kvm : ∃ c q l, head (Pod_Containers (pod_Spec pod)) = Some c ∧
    Requests (Resources c) ≫= lookup "devices.virtink.io/kvm" = Some q ∧
    Limits (Resources c) ≫= lookup "devices.virtink.io/kvm" = Some l;
  po_data : ∃ c json, head (Pod_Containers (pod_Spec pod)) = Some c ∧ MarshalVM params vm' = Ok json ∧
    mkEnvVar "VM_DATA" (EnvLiteral (Base64.encode json)) ∈ Env c
}.

Lemma finish_ok vm b b0 json :
  build_ok vm b → MarshalVM params (shared_vm vm b0) = Ok json →
  mkEnvVar "VM_DATA" (EnvLiteral (Base64.encode json)) ∈ bd_env b → pod_ok vm (shared_vm vm b0) (finish params vm b).
Proof.
  intros [[H1 H2 H3] H4 (q & l & H5 & H6)] Hj Hd. split; simpl.
  - intros c m [Hc|[= <-]] Hm; rewrite fmap_app, elem_of_app.
    + apply list_elem_of_fmap in Hc as (c' & -> & Hc'). left. eapply H3; [exact Hc'|]. by destruct c'.
    + simpl in Hm. apply elem_of_app in Hm as [Hm|Hm]; [left; by apply H1|right].
      unfold filesystem_mounts in Hm. apply list_elem_of_fmap in Hm as (f & -> & Hf).
      apply list_elem_of_filter in Hf as [Hf _]. exact Hf.
  - intros c d [= <-] Hdev. rewrite fmap_app, elem_of_app. left. by apply H2.
  - exact H4.
  - eexists _, q, l. split; [reflexivity|]. done.
  - eexists _, json. split; [reflexivity|]. done.
Qed.

Lemma initial_ok vm :
  mounts_ok (initial vm).
Proof. unfold initial. split; simpl; set_solver. Qed.

Lemma buildVMPod_wp vm w :
  I w → wp en (buildVMPod params vm) w (λ r w', I w' ∧ ∀ pod vm', r = Ok (pod, vm') → pod_ok vm vm' pod ∧ same_vm vm vm').
Proof.
  intros Hw. unfold buildVMPod.
  destruct (incrementContainerResource_spec "devices.virtink.io/kvm" (initial vm)) as (q & l & ->). cbn [outcome_bind].
  set (b1 := mkBuild _ _ _ _ _ _ _ _ _ _).
  destruct (incrementContainerResource_spec "devices.virtink.io/tun" b1) as (q' & l' & E2). rewrite E2. cbn [or_crash].
  set (b2 := set_label _ _ _).
  assert (Hb2 : build_ok vm b2).
  { pose proof (initial_ok vm) as [H1 H2 H3]. unfold b2, b1. simpl. split; simpl; [by split|apply lookup_insert_eq|].
    exists q, l. split; (rewrite lookup_insert_ne by done; apply lookup_insert_eq). }
  wp_use add_vm_volumes_wp; [|done|by apply add_hugepages_ok, add_kernel_ok].
  intros [[b3 bl]|e] w1 [Hw1 Hb3]; [|done]. specialize (Hb3 b3 bl eq_refl).
  assert (Hb4 : build_ok vm (add_blocks bl b3)) by (unfold add_blocks; destruct bl; build_step).
  wp_use add_vm_networks_wp; [|done..]. intros [[b5 el]|e] w2 [Hw2 Hb5]; [|done]. specialize (Hb5 b5 el eq_refl).
  assert (Hann : ∀ b6, match el with [] => Ok b5 | _ => match MarshalNetworks params el with
      | Err e => Err (ErrFmt "marshal networks" e) | Ok json => Ok (set_annot "k8s.v1.cni.cncf.io/networks" json b5) end end
      = Ok b6 → build_ok vm b6).
  { intros b6. destruct el; [by intros [= <-]|]. destruct (MarshalNetworks _ _); [|done]. intros [= <-]. build_step. }
  destruct (match el with [] => _ | _ => _ end) as [b6|e]; [|done]. specialize (Hann b6 eq_refl).
  destruct (MarshalVM params (shared_vm vm b6)) as [json|e] eqn:Ej; [|done].
  split; [done|]. intros pod vm' [= <- <-].
  assert (Hs : shared_vm vm (add_env (mkEnvVar "VM_DATA" (EnvLiteral (Base64.encode json))) b6) = shared_vm vm b6) by (by destruct b6).
  rewrite Hs. split; [|apply shared_vm_same]. eapply finish_ok; [build_step|exact Ej|].
  destruct b6; simpl. apply elem_of_app. right. left.
Qed.

(** The target pod of a migration: the VM's pod, told to receive, and kept off the nodes
    that run a pod with the VM's name. *)
Record target_ok (vm : VirtualMachine) (pod : Pod) : Prop := {
  to_env : ∃ c, head (Pod_Containers (pod_Spec pod)) = Some c ∧ mkEnvVar "RECEIVE_MIGRATION" (EnvLiteral "true") ∈ Env c;
  to_affinity : ∃ a p l, Pod_Affinity (pod_Spec pod) = Some a ∧ Affinity_PodAnti a = Some p ∧ RequiredTerms p = Some l ∧
    LabelTerm {["virtink.io/vm.name" := om_Name (vm_meta vm)]} "kubernetes.io/hostname" ∈ l
}.

Lemma buildTargetVMPod_wp vm w :
  I w → wp en (buildTargetVMPod params vm) w (λ r w', I w' ∧
    ∀ pod vm', r = Ok (pod, vm') → target_ok vm pod ∧ same_vm vm vm' ∧
      om_Labels (pod_meta pod) ≫= lookup "virtink.io/vm.name" = Some (om_Name (vm_meta vm))).
Proof.
  intros Hw. unfold buildTargetVMPod. wp_use buildVMPod_wp; [|done].
  intros [[pod vm1]|e] w' [Hw' Hp]; [|done]. destruct (Hp _ _ eq_refl) as [[_ _ Hlab _ (c & json & Hc & _ & _)] Hs].
  split; [done|]. intros pod' vm' [= <- <-]. split_and!.
  - split; simpl.
    + destruct (Pod_Containers (pod_Spec pod)) as [|c0 cs]; [done|]. destruct c0. eexists. split; [reflexivity|]. simpl. set_solver.
    + eexists _, _, _. split_and!; try reflexivity. simpl. rewrite (sv_name _ _ Hs). set_solver.
  - eapply same_vm_trans; [exact Hs|]. destruct (Spec_Affinity _); [|apply same_vm_refl].
    destruct vm1 as [[] [] st]. by split.
  - exact Hlab.
Qed.
End Reads.

(** ** What building a pod promises *)

Section Theorems.
Context `{K : K8s} {L : QuantityLaws K} (params : BuildParams).

(** Any API server, for a program that only reads and does not panic. *)
Definition reading_env : env kubeE unit := mkEnv (λ X e _, is_read e = true) (λ X e _ x _, True) False.

Lemma reading_env_ok X (e : kubeE X) : is_read e = true → ok_call reading_env (λ _, True) e.
Proof. by intros He w _. Qed.


(** The pod that receives a migration is told so, and is scheduled away from every node
    that runs a pod of the VM. *)
Theorem target_pod_avoids_source vm :
  wp reading_env (buildTargetVMPod params vm) tt (λ r _, ∀ pod vm', r = Ok (pod, vm') → target_ok vm pod ∧ same_vm vm vm').
Proof.
  eapply wp_mono; [|by apply (buildTargetVMPod_wp reading_env (λ _, True) reading_env_ok params)].
  intros r w [_ Hr] pod vm' E. destruct (Hr pod vm' E) as (? & ? & _). done.
Qed.

(** The init container a cloud-init volume adds. *)
Definition cloud_init_container (vm : VirtualMachine) (name : string) (c : CloudInitVolumeSource) (b : build) : option Container :=
  last (bd_init (add_cloudInit params vm name c b)).

(** User data from a secret is mounted where the init container reads it; network data
    from a secret is not: the init container is given the path, and the secret is mounted into
    the cloud-hypervisor container instead. *)
Theorem cloud_init_secret_mounts vm name c b :
  UserData c = "" → UserDataBase64 c = "" → UserDataSecretName c ≠ "" →
  NetworkData c = "" → NetworkDataBase64 c = "" → NetworkDataSecretName c ≠ "" →
  name ≠ "virtink-cloud-init-network-data" →
  ∃ ctr, cloud_init_container vm name c b = Some ctr ∧
    "/mnt/virtink-cloud-init-user-data/value" ∈ Args ctr ∧
    "/mnt/virtink-cloud-init-user-data" ∈ MountPath <$> VolumeMounts ctr ∧
    "/mnt/virtink-cloud-init-network-data/value" ∈ Args ctr ∧
    "/mnt/virtink-cloud-init-network-data" ∉ MountPath <$> VolumeMounts ctr.
Proof.
  intros H1 H2 H3 H4 H5 H6 Hn. unfold cloud_init_container, add_cloudInit. rewrite H1, H2, H4, H5.
  rewrite !bool_decide_eq_true_2 by done. rewrite !bool_decide_eq_false_2 by done. destruct b. simpl.
  rewrite last_snoc. eexists. split; [reflexivity|]. simpl. split_and!; [set_solver..|].
  intros Hin. rewrite !elem_of_cons, elem_of_nil in Hin. destruct Hin as [?|[E|[]]]; [done|].
  simpl in E. apply Hn. by injection E.
Qed.
End Theorems.

Section Sample.
#[local] Existing Instance k8s_concrete.
#[local] Existing Instance k8s_concrete_laws.

Definition sampleParams : BuildParams :=
  mkBuildParams "virtink/prerunner" (λ vm, Ok (om_Name (vm_meta vm))) (λ l, Ok (Strings.Join (ns_Name <$> l) ","))
    (λ s, Err (ErrMsg s)).

Definition sampleCloudInit : CloudInitVolumeSource := mkCloudInit "" "" "user" "" "" "net".


Lemma target_pod_avoids_source_witness :
  wp reading_env (buildTargetVMPod sampleParams (sampleVM [sampleDisk])) tt
    (λ r _, ∀ pod vm', r = Ok (pod, vm') → target_ok (sampleVM [sampleDisk]) pod).
Proof.
  eapply wp_mono; [|apply (target_pod_avoids_source sampleParams (sampleVM [sampleDisk]))].
  intros r w Hr pod vm' E. exact (proj1 (Hr pod vm' E)).
Defined.

(** The sample VM's pod is built: the result above is not empty. *)
Example sample_pod_built :
  match buildVMPod (E := kubeE) sampleParams (sampleVM [sampleDisk]) with
  | Ret (Ok (pod, _)) => PodVolume_Name <$> Pod_Volumes (pod_Spec pod)
  | _ => []
  end = ["virtink"; "hotplug-volumes"; "hugepages"; "root"].
Proof. vm_compute. reflexivity. Qed.

Lemma cloud_init_secret_mounts_witness :
  ∃ ctr, cloud_init_container sampleParams (sampleVM []) "ci" sampleCloudInit (initial (sampleVM [])) = Some ctr ∧
    "/mnt/virtink-cloud-init-network-data" ∉ MountPath <$> VolumeMounts ctr.
Proof.
  destruct (cloud_init_secret_mounts sampleParams (sampleVM []) "ci" sampleCloudInit (initial (sampleVM [])))
    as (ctr & E & _ & _ & _ & Hn); [done..|]. exists ctr. split; [exact E|exact Hn].
Defined.

End Sample.
