(* ===== verification/VmController.v ===== *)
(** * The virtual machine controller: pkg/controller/vm_controller.go

    [Reconcile] drives a VM through its phases, keeps its pods, its hotplug volume pods and
    its conditions.  Functions that change the VM through a pointer take it and return it. *)

From stdpp Require Import base gmap strings list sets fin_maps sorting.
From Stdlib Require Import ZArith Lia.
From S2P Require Import Prelude GoStd K8s ApiTypes Kube PodBuild.
Open Scope Z_scope.

Definition VMProtectionFinalizer : string := "virtink.io/vm-protection".
Definition VMKind : string := "VirtualMachine".
Definition PodReady : string := "Ready".

Section VMController.
Context `{K8s} (params : BuildParams).

Abbreviation kprog := (prog kubeE).
(** The VM as the function leaves it, and the error it returns. *)
Abbreviation vmres := (kprog (VirtualMachine * option goerror)).

Definition EvNormal : string := "Normal".
Definition EvWarning : string := "Warning".

Definition upd_Status (f : VirtualMachineStatus → VirtualMachineStatus) (vm : VirtualMachine) : VirtualMachine :=
  set_Status (f (Status vm)) vm.

(** ** Hotplug volumes *)

Definition getHotplugVolumes (vm : VirtualMachine) (vmPod : Pod) : list Volume :=
  filter (λ v, IsHotpluggable v = true ∧ Volume_Name v ∉ PodVolume_Name <$> Pod_Volumes (pod_Spec vmPod)) (Volumes (Spec vm)).

(** Newest first. *)
Definition pod_newer (a b : Pod) : Prop := om_CreationTimestamp (pod_meta b) ≤ om_CreationTimestamp (pod_meta a).
#[export] Instance pod_newer_dec : RelDecision pod_newer.
Proof. intros a b. unfold pod_newer. apply _. Defined.

Definition getHotplugVolumePods (vmPod : Pod) : kprog (result (list Pod)) :=
  (let! r := call (ListPods (om_Namespace (pod_meta vmPod))) in
   match r with
   | Err e => Ret (Err e)
   | Ok items => Ret (Ok (merge_sort pod_newer (filter (λ p, IsControlledBy (pod_meta p) (pod_meta vmPod) = true) items)))
   end)%go.

Definition is_pvc (v : PodVolume) : bool := match PodVolume_Source v with PVCVolume _ => true | _ => false end.

(** [len(pod.Spec.Volumes)-2]: the "hotplug" volume and the service account token. *)
Definition isPodMatchVMHotplugVolumes (pod : Pod) (hotplugVolumes : list Volume) : bool :=
  let vols := Pod_Volumes (pod_Spec pod) in
  if negb (Z.of_nat (length vols) - 2 =? Z.of_nat (length hotplugVolumes)) then false
  else
    let claims : gset string := list_to_set (PodVolume_Name <$> filter (λ v, is_pvc v = true) vols) in
    bool_decide (claims ∖ list_to_set (Volume_Name <$> hotplugVolumes) = ∅).

(** The status of a volume by name; the last entry of a name wins in the Go map. *)
Definition status_map (l : list VolumeStatus) : gmap string VolumeStatus :=
  foldl (λ m s, <[VolumeStatus_Name s := s]> m) ∅ l.

(** The mounts and devices of the volumes that are not mounted in the VM yet. *)
Fixpoint hotplug_attachments (vm : VirtualMachine) (l : list Volume) (mounts : list VolumeMount) (devices : list VolumeDevice)
    : kprog (result (list VolumeMount * list VolumeDevice)) :=
  match l with
  | [] => Ret (Ok (mounts, devices))
  | v :: l' =>
      let phase := from_option VolumeStatus_Phase VolumePhaseUnset (status_map (VolumeStatuses (Status vm)) !! Volume_Name v) in
      if negb (bool_decide (phase = VolumeMountedToPod)) && negb (bool_decide (phase = VolumeReady)) then
        (let! r := IsBlock (om_Namespace (vm_meta vm)) v in
         match r with
         | Err e => Ret (Err e)
         | Ok true => hotplug_attachments vm l' mounts (devices ++ [mkVolumeDevice (Volume_Name v) ("/hotplug/" +:+ Volume_Name v)])
         | Ok false => hotplug_attachments vm l' (mounts ++ [mkVolumeMount (Volume_Name v) ("/mnt/" +:+ Volume_Name v) None]) devices
         end)%go
      else hotplug_attachments vm l' mounts devices
  end.

Definition buildHotplugVolumePod (vm : VirtualMachine) (vmPod : Pod) (hotplugVolumes : list Volume) : kprog (result Pod) :=
  (let! r := hotplug_attachments vm hotplugVolumes [mkVolumeMount "hotplug" "/hotplug" (Some "HostToContainer")] [] in
   match r with
   | Err e => Ret (Err e)
   | Ok (mounts, devices) =>
       let c := mkContainer "hotplug-volumes" (PrerunnerImageName params) "" ["/bin/sh"; "-c"; "ncat -lkU /hotplug/hp.sock"] [] []
                  (mkResources None None) mounts devices None None None None in
       let meta := mkObjectMeta "" (om_Name (vm_meta vm) +:+ "-hotplug-volumes-") (om_Namespace (pod_meta vmPod))
                     "" "" 0 0 None None None [] [] in
       let spec := mkPodSpec "" true None (Pod_Tolerations (pod_Spec vmPod))
         (Some (mkAffinity (Some (HostnameIn [Pod_NodeName (pod_Spec vmPod)])) None None)) [] [c]
         (emptyDir "hotplug" :: ((λ v, mkPodVolume (Volume_Name v) (PVCVolume (PVCName v))) <$> hotplugVolumes)) in
       match SetControllerReference "v1" "Pod" (pod_meta vmPod) meta with
       | Err e => Ret (Err e)
       | Ok meta => Ret (Ok (mkPod meta spec emptyPodStatus))
       end
   end)%go.

Fixpoint ready_volumes (ns : string) (l acc : list Volume) : kprog (result (list Volume)) :=
  match l with
  | [] => Ret (Ok acc)
  | v :: l' =>
      (let! r := IsReady ns v in
       match r with
       | Err e => Ret (Err e)
       | Ok ready => ready_volumes ns l' (if ready : bool then acc ++ [v] else acc)
       end)%go
  end.

(** The first pod that has exactly these volumes, and the other ones. *)
Fixpoint split_current (volumes : list Volume) (pods : list Pod) (current : option Pod) (old : list Pod)
    : option Pod * list Pod :=
  match pods with
  | [] => (current, old)
  | pod :: pods' =>
      if negb (bool_decide (is_Some current)) && isPodMatchVMHotplugVolumes pod volumes
      then split_current volumes pods' (Some pod) old
      else split_current volumes pods' current (old ++ [pod])
  end.

Fixpoint delete_old_pods (about : ObjectMeta) (l : list Pod) : kprog (option goerror) :=
  match l with
  | [] => Ret None
  | pod :: l' =>
      if Time_IsZero (om_DeletionTimestamp (pod_meta pod)) then
        (let! err := call (DeletePod pod) in
         match err with
         | Some e => Ret (Some e)
         | None => call (Eventf about EvNormal "DeletedHotplugVolumePod") ;;; delete_old_pods about l'
         end)%go
      else delete_old_pods about l'
  end.

Definition handleHotplugVolumes (vm : VirtualMachine) (vmPod : Pod) (waitAllVolumesReady : bool) : kprog (option goerror) :=
  let hotplugVolumes := getHotplugVolumes vm vmPod in
  (let! r := ready_volumes (om_Namespace (vm_meta vm)) hotplugVolumes [] in
   match r with
   | Err e => Ret (Some e)
   | Ok ready =>
       if waitAllVolumesReady && (Z.of_nat (length ready) <? Z.of_nat (length hotplugVolumes)) then Ret None
       else
         let! r := getHotplugVolumePods vmPod in
         match r with
         | Err e => Ret (Some e)
         | Ok pods =>
             let '(current, old) := split_current ready pods None [] in
             let! err :=
               (match current, ready with
                | None, _ :: _ =>
                    let! r := buildHotplugVolumePod vm vmPod ready in
                    match r with
                    | Err e => Ret (Some e)
                    | Ok pod =>
                        let! err := call (CreatePod pod) in
                        match err with
                        | Some e => Ret (Some e)
                        | None => call (Eventf (vm_meta vm) EvNormal "CreatedHotplugVolumePod") ;;; Ret None
                        end
                    end
                | _, _ => Ret None
                end) in
             match err with
             | Some e => Ret (Some e)
             | None => delete_old_pods (vm_meta vm) old
             end
         end
   end)%go.

(** The first pod that has a volume of this name. *)
Definition has_volume (name : string) (p : Pod) : bool :=
  bool_decide (name ∈ PodVolume_Name <$> Pod_Volumes (pod_Spec p)).
Definition find_volume_pod (name : string) (pods : list Pod) : option Pod :=
  head (filter (λ p, has_volume name p = true) pods).

(** The loop of the second part does not leave the outer loop: a later pod whose first volume
    has the name takes the place of one found before. *)
Fixpoint inner_search (name : string) (pod : Pod) (vols : list PodVolume) (found : option Pod) : option Pod :=
  match vols with
  | [] => found
  | v :: vols' =>
      if decide (PodVolume_Name v = name) then Some pod
      else match found with Some _ => found | None => inner_search name pod vols' found end
  end.
Definition find_detaching_pod (name : string) (pods : list Pod) : option Pod :=
  foldl (λ found pod, inner_search name pod (Pod_Volumes (pod_Spec pod)) found) None pods.

(** The new status of a volume the VM has. *)
Definition attached_status (m : gmap string VolumeStatus) (pods : list Pod) (v : Volume) : VolumeStatus :=
  let status := default (mkVolumeStatus (Volume_Name v) VolumePhaseUnset None) (m !! Volume_Name v) in
  let phase := if decide (VolumeStatus_Phase status = VolumePhaseUnset) then VolumePending else VolumeStatus_Phase status in
  match find_volume_pod (Volume_Name v) pods with
  | Some pod =>
      mkVolumeStatus (VolumeStatus_Name status)
        (if bool_decide (PodStatus_Phase (pod_Status pod) = PodRunning) && bool_decide (phase = VolumePending)
         then VolumeAttachedToNode else phase)
        (Some (mkHotplugVolumeStatus (om_Name (pod_meta pod)) (om_UID (pod_meta pod))))
  | None => mkVolumeStatus (VolumeStatus_Name status) VolumePending (Some (mkHotplugVolumeStatus "" ""))
  end.

(** The status of a volume the VM does not have any more but a pod still holds.  A status
    without [HotplugVolume] is dereferenced. *)
Fixpoint detaching_statuses (l : list (string * VolumeStatus)) (pods : list Pod) : outcome (list VolumeStatus) :=
  match l with
  | [] => Returned []
  | (name, status) :: l' =>
      match find_detaching_pod name pods with
      | None => detaching_statuses l' pods
      | Some pod =>
          match HotplugVolume status with
          | None => Panicked "nil pointer dereference"
          | Some _ =>
              (let? rest := detaching_statuses l' pods in
               Returned (mkVolumeStatus (VolumeStatus_Name status) VolumeDetaching
                 (Some (mkHotplugVolumeStatus (om_Name (pod_meta pod)) (om_UID (pod_meta pod)))) :: rest))%go
          end
      end
  end.

Definition updateHotplugVolumeStatus (vm : VirtualMachine) (vmPod : Pod) : vmres :=
  let hotplugVolumes := getHotplugVolumes vm vmPod in
  let m := status_map (VolumeStatuses (Status vm)) in
  (let! r := getHotplugVolumePods vmPod in
   match r with
   | Err e => Ret (vm, Some e)
   | Ok pods =>
       (** a volume's entry is deleted from the map once it is used *)
       let '(statuses, m) := foldl (λ acc v, let '(l, m) := acc in
             (l ++ [attached_status m pods v], delete (Volume_Name v) m)) ([], m) hotplugVolumes in
       or_crash (detaching_statuses (map_to_list m) pods) (λ detaching,
         let vm := upd_Status (set_VolumeStatuses (statuses ++ detaching)) vm in
         Ret (vm, if existsb (λ s, bool_decide (VolumeStatus_Phase s = VolumePending)) (VolumeStatuses (Status vm))
                  then Some requeue_minute else None))
   end)%go.

(** ** Conditions *)

Definition migratable_false (reason message : string) : Condition :=
  mkCondition VirtualMachineMigratable ConditionFalse 0 0 reason message.

(** The loops over the networks and their interfaces: the first obstacle. *)
Definition interface_obstacle (net : Network) (iface : Interface) : option Condition :=
  if negb (bool_decide (Interface_Name iface = Network_Name net)) then None
  else if bool_decide (is_Some (Pod_ (Network_Source net))) && bool_decide (is_Some (Bridge (Binding iface))) then
    Some (migratable_false "InterfaceNotMigratable" "migration is disabled when VM has a bridged interface to the pod network")
  else if bool_decide (is_Some (SRIOV (Binding iface))) then
    Some (migratable_false "InterfaceNotMigratable" "migration is disabled when VM has a SR-IOV interface")
  else if bool_decide (is_Some (VhostUser (Binding iface))) then
    Some (migratable_false "InterfaceNotMigratable" "migration is disable when VM has a vhost-user interface")
  else None.

Definition volume_obstacle (v : Volume) : option Condition :=
  if bool_decide (is_Some (ContainerRootfs (Volume_Source v))) then
    Some (migratable_false "VolumeNotMigratable" "migration is disabled when VM has a containerRootfs volume")
  else if bool_decide (is_Some (ContainerDisk (Volume_Source v))) then
    Some (migratable_false "VolumeNotMigratable" "migration is disabled when VM has a containerDisk volume")
  else None.

Definition calculateMigratableCondition (vm : VirtualMachine) : Condition :=
  let inst := Spec_Instance (Spec vm) in
  if DedicatedCPUPlacement (Instance_CPU inst) then
    migratable_false "CPUNotMigratable" "migration is disabled when VM has enabled dedicated CPU placement"
  else
    let obstacles :=
      omap (λ p, interface_obstacle (fst p) (snd p)) (n ← Networks (Spec vm); i ← Interfaces inst; mret (n, i))
      ++ omap volume_obstacle (Volumes (Spec vm)) in
    match obstacles with
    | c :: _ => c
    | [] =>
        match FileSystems inst with
        | _ :: _ => migratable_false "FileSystemNotMigratable" "migration is disabled when VM has a fileSystem"
        | [] => mkCondition VirtualMachineMigratable ConditionTrue 0 0 "Migratable" ""
        end
    end.

Definition ready_condition (c : PodCondition) : Condition :=
  mkCondition VirtualMachineReady (pc_Status c) 0 0 (if decide (pc_Reason c = "") then pc_Status c else pc_Reason c) (pc_Message c).

Fixpoint ready_conditions (l : list PodCondition) (vm : VirtualMachine) : kprog VirtualMachine :=
  match l with
  | [] => Ret vm
  | c :: l' =>
      if decide (pc_Type c = PodReady) then
        (let! now := call Now in
         ready_conditions l' (upd_Status (set_Conditions (SetStatusCondition now (Conditions (Status vm)) (ready_condition c))) vm))%go
      else ready_conditions l' vm
  end.

(** [calculateMigratableCondition] has no error, so neither has [reconcileVMConditions]. *)
Definition reconcileVMConditions (vm : VirtualMachine) (vmPod : Pod) : kprog VirtualMachine :=
  (let! vm := ready_conditions (PodStatus_Conditions (pod_Status vmPod)) vm in
   match FindStatusCondition (Conditions (Status vm)) VirtualMachineMigratable with
   | Some _ => Ret vm
   | None =>
       let! now := call Now in
       Ret (upd_Status (set_Conditions (SetStatusCondition now (Conditions (Status vm)) (calculateMigratableCondition vm))) vm)
   end)%go.

(** ** Pods *)

(** A VM pod that must go away: not already terminating and not skipped. *)
Fixpoint delete_vm_pods (about : ObjectMeta) (skip : Pod → bool) (l : list Pod) : kprog (option goerror) :=
  match l with
  | [] => Ret None
  | pod :: l' =>
      if negb (Time_IsZero (om_DeletionTimestamp (pod_meta pod))) || skip pod then delete_vm_pods about skip l'
      else
        (let! err := call (DeletePod pod) in
         match IgnoreNotFound err with
         | Some e => Ret (Some (ErrFmt "delete VM Pod" e))
         | None => call (Eventf about EvNormal "DeletedVMPod") ;;; delete_vm_pods about skip l'
         end)%go
  end.

Definition gcVMPods (vm : VirtualMachine) : kprog (option goerror) :=
  (let! r := call (ListVMPods (om_UID (vm_meta vm))) in
   match r with
   | Err e => Ret (Some (ErrFmt "list VM Pods" e))
   | Ok items =>
       delete_vm_pods (vm_meta vm) (λ pod,
         bool_decide (om_Name (pod_meta pod) = VMPodName (Status vm)) ||
         match Migration (Status vm) with
         | Some m => bool_decide (om_Name (pod_meta pod) = TargetVMPodName m)
         | None => false
         end) items
   end)%go.

Definition deleteAllVMPods (vm : VirtualMachine) : kprog (result bool) :=
  (let! r := call (ListVMPods (om_UID (vm_meta vm))) in
   match r with
   | Err e => Ret (Err (ErrFmt "list VM Pods" e))
   | Ok [] => Ret (Ok true)
   | Ok items =>
       let! err := delete_vm_pods (vm_meta vm) (λ _, false) items in
       match err with Some e => Ret (Err e) | None => Ret (Ok false) end
   end)%go.

(** [r.Get] of a VM pod: [Ok None] when it is not there or is not the VM's. *)
Definition get_vm_pod (vm : VirtualMachine) (name : string) : kprog (result (option Pod)) :=
  (let! r := call (GetPod (mkNN (om_Namespace (vm_meta vm)) name)) in
   match r with
   | Err e => if IsNotFound e then Ret (Ok None) else Ret (Err (ErrFmt "get VM Pod" e))
   | Ok pod => Ret (Ok (if IsControlledBy (pod_meta pod) (vm_meta vm) then Some pod else None))
   end)%go.

(** Create the pod [build] returns under the given name. *)
Definition create_vm_pod (vm : VirtualMachine) (name reason : string) (wrap : goerror → goerror) (what : string)
    (build : kprog (result (Pod * VirtualMachine))) : vmres :=
  (let! r := build in
   match r with
   | Err e => Ret (vm, Some (wrap e))
   | Ok (pod, vm) =>
       let pod := set_pod_meta (set_NameNamespace name (om_Namespace (vm_meta vm)) (pod_meta pod)) pod in
       match SetControllerReference SchemeGroupVersion VMKind (vm_meta vm) (pod_meta pod) with
       | Err e => Ret (vm, Some (ErrFmt ("set " +:+ what +:+ " controller reference")%string e))
       | Ok m =>
           let! err := call (CreatePod (set_pod_meta m pod)) in
           match err with
           | Some e => Ret (vm, Some (ErrFmt ("create " +:+ what)%string e))
           | None => call (Eventf (vm_meta vm) EvNormal reason) ;;; Ret (vm, None)
           end
       end
   end)%go.

(** ** Phases *)

(** Every hotpluggable volume has a status, the last of its name, that is attached. *)
Definition allHotplugVolumesAttached (vm : VirtualMachine) : bool :=
  forallb (λ v, negb (IsHotpluggable v) ||
    bool_decide (VolumeStatus_Phase <$> status_map (VolumeStatuses (Status vm)) !! Volume_Name v = Some VolumeAttachedToNode))
    (Volumes (Spec vm)).

Definition reconcile_pending (vm : VirtualMachine) : vmres :=
  (let! name := call (GenerateName ("vm-" +:+ om_Name (vm_meta vm) +:+ "-")%string) in
   Ret (upd_Status (λ s, set_Phase VirtualMachineScheduling (set_VMPodName name s)) vm, None))%go.

(** The pod exists: follow its phase. *)
Definition follow_pod_phase (vm : VirtualMachine) (pod : Pod) : VirtualMachine :=
  match PodStatus_Phase (pod_Status pod) with
  | PodRunning =>
      if bool_decide (Phase (Status vm) = VirtualMachineScheduling) && allHotplugVolumesAttached vm
      then upd_Status (set_Phase VirtualMachineScheduled) vm else vm
  | PodSucceeded => upd_Status (set_Phase VirtualMachineSucceeded) vm
  | PodFailed => upd_Status (set_Phase VirtualMachineFailed) vm
  | PodUnknown => upd_Status (set_Phase VirtualMachineUnknown) vm
  | PodPhaseUnset | PodPending => vm
  end.

Definition reconcile_scheduling (vm : VirtualMachine) : vmres :=
  (let! r := get_vm_pod vm (VMPodName (Status vm)) in
   match r with
   | Err e => Ret (vm, Some e)
   | Ok None =>
       if decide (Phase (Status vm) = VirtualMachineScheduling) then
         create_vm_pod vm (VMPodName (Status vm)) "CreatedVMPod" (ErrWrap "build VM Pod") "VM Pod" (buildVMPod params vm)
       else Ret (upd_Status (set_Phase VirtualMachineFailed) vm, None)
   | Ok (Some pod) =>
       let vm := upd_Status (λ s, set_NodeName (Pod_NodeName (pod_Spec pod)) (set_VMPodUID (om_UID (pod_meta pod)) s)) vm in
       let! err := (if decide (Pod_NodeName (pod_Spec pod) = "") then Ret None else handleHotplugVolumes vm pod true) in
       match err with
       | Some e => Ret (vm, Some e)
       | None => updateHotplugVolumeStatus (follow_pod_phase vm pod) pod
       end
   end)%go.

Definition upd_Migration (f : VirtualMachineStatusMigration → VirtualMachineStatusMigration) (vm : VirtualMachine) : VirtualMachine :=
  match Migration (Status vm) with
  | Some m => upd_Status (set_Migration (Some (f m))) vm
  | None => vm
  end.

Definition set_mig_Phase (p : VirtualMachineMigrationPhase) (m : VirtualMachineStatusMigration) : VirtualMachineStatusMigration :=
  let '(mkStatusMigration u _ nn ni np pn pu vu) := m in mkStatusMigration u p nn ni np pn pu vu.
Definition set_mig_TargetVMPodName (n : string) (m : VirtualMachineStatusMigration) : VirtualMachineStatusMigration :=
  let '(mkStatusMigration u p nn ni np _ pu vu) := m in mkStatusMigration u p nn ni np n pu vu.
Definition set_mig_Target (uid node : string) (m : VirtualMachineStatusMigration) : VirtualMachineStatusMigration :=
  let '(mkStatusMigration u p _ ni np pn _ vu) := m in mkStatusMigration u p node ni np pn uid vu.
Definition set_mig_VolumePod (uid : string) (m : VirtualMachineStatusMigration) : VirtualMachineStatusMigration :=
  let '(mkStatusMigration u p nn ni np pn pu _) := m in mkStatusMigration u p nn ni np pn pu uid.

Definition ended (p : PodPhase) : bool :=
  match p with PodFailed | PodSucceeded | PodUnknown => true | _ => false end.

(** The target pod exists: whether its hotplug volumes are attached to its node. *)
Definition target_volumes (vm : VirtualMachine) (pod : Pod) : kprog (VirtualMachine * result bool) :=
  if ended (PodStatus_Phase (pod_Status pod)) then
    Ret (upd_Migration (set_mig_Phase VirtualMachineMigrationFailed) vm, Ok false)
  else
    match getHotplugVolumes vm pod with
    | [] => Ret (vm, Ok true)
    | _ :: _ =>
        if decide (Pod_NodeName (pod_Spec pod) = "") then Ret (vm, Ok false)
        else
          (let! err := handleHotplugVolumes (upd_Status (set_VolumeStatuses []) vm) pod true in
           match err with
           | Some e => Ret (vm, Err e)
           | None =>
               let! r := getHotplugVolumePods pod in
               match r with
               | Err e => Ret (vm, Err e)
               | Ok [] => Ret (vm, Ok false)
               | Ok (vp :: _) =>
                   let vm := upd_Migration (set_mig_VolumePod (om_UID (pod_meta vp))) vm in
                   match PodStatus_Phase (pod_Status vp) with
                   | PodFailed | PodSucceeded | PodUnknown =>
                       Ret (upd_Migration (set_mig_Phase VirtualMachineMigrationFailed) vm, Ok false)
                   | PodRunning => Ret (vm, Ok true)
                   | PodPhaseUnset | PodPending => Ret (vm, Ok false)
                   end
               end
           end)%go
    end.

(** The migration's Scheduling phase.  A target pod that is not found leaves the empty pod,
    which nothing controls. *)
Definition reconcile_migration_scheduling (vm : VirtualMachine) (m : VirtualMachineStatusMigration) : vmres :=
  (let! r := call (GetPod (mkNN (om_Namespace (vm_meta vm)) (TargetVMPodName m))) in
   let pod := match r with
              | Ok p => Ok p
              | Err e => if IsNotFound e then Ok emptyPod else Err (ErrFmt "get target VM Pod" e)
              end in
   match pod with
   | Err e => Ret (vm, Some e)
   | Ok pod =>
       if negb (IsControlledBy (pod_meta pod) (vm_meta vm)) then
         create_vm_pod vm (TargetVMPodName m) "CreatedTargetVMPod" (ErrFmt "build target VM Pod") "target VM Pod"
           (buildTargetVMPod params vm)
       else
         let vm := upd_Migration (set_mig_Target (om_UID (pod_meta pod)) (Pod_NodeName (pod_Spec pod))) vm in
         let! (vm, r) := target_volumes vm pod in
         match r with
         | Err e => Ret (vm, Some e)
         | Ok attached =>
             Ret (if bool_decide (PodStatus_Phase (pod_Status pod) = PodRunning) && attached
                  then upd_Migration (set_mig_Phase VirtualMachineMigrationScheduled) vm else vm, None)
         end
   end)%go.

Definition reconcile_migration (vm : VirtualMachine) (m : VirtualMachineStatusMigration) : vmres :=
  match Migration_Phase m with
  | VirtualMachineMigrationPhaseUnset | VirtualMachineMigrationPending =>
      (let! name := call (GenerateName ("vm-" +:+ om_Name (vm_meta vm) +:+ "-")%string) in
       Ret (upd_Migration (λ m, set_mig_Phase VirtualMachineMigrationScheduling (set_mig_TargetVMPodName name m)) vm, None))%go
  | VirtualMachineMigrationScheduling => reconcile_migration_scheduling vm m
  | _ => Ret (vm, None)
  end.

Definition reconcile_running (vm : VirtualMachine) : vmres :=
  (let! r := get_vm_pod vm (VMPodName (Status vm)) in
   match r with
   | Err e => Ret (vm, Some e)
   | Ok None => Ret (upd_Status (set_Phase VirtualMachineFailed) vm, None)
   | Ok (Some pod) =>
       let vm :=
         match PodStatus_Phase (pod_Status pod) with
         | PodSucceeded =>
             match Migration (Status vm) with
             | None => upd_Status (set_Phase VirtualMachineSucceeded) vm
             | Some _ => vm
             end
         | PodFailed => upd_Status (set_Phase VirtualMachineFailed) vm
         | PodUnknown => upd_Status (set_Phase VirtualMachineUnknown) vm
         | _ => vm
         end in
       if negb (bool_decide (Phase (Status vm) = VirtualMachineRunning)) then Ret (vm, None)
       else
         let! vm := reconcileVMConditions vm pod in
         match Migration (Status vm) with
         | Some m => reconcile_migration vm m
         | None =>
             let! err := handleHotplugVolumes vm pod false in
             match err with
             | Some e => Ret (vm, Some e)
             | None => updateHotplugVolumeStatus vm pod
             end
         end
   end)%go.

(** Whether a VM without pods is started. *)
Definition should_run (policy : RunPolicy) (phase : VirtualMachinePhase) (action : VirtualMachinePowerAction) : bool :=
  let on := bool_decide (action = VirtualMachinePowerOn) in
  match policy with
  | RunPolicyAlways => true
  | RunPolicyRerunOnFailure =>
      bool_decide (phase = VirtualMachineFailed) || bool_decide (phase = VirtualMachinePhaseUnset) || on
  | RunPolicyOnce => bool_decide (phase = VirtualMachinePhaseUnset) || on
  | RunPolicyManual => on
  | RunPolicyUnset | RunPolicyHalted => false
  end.

Definition reconcile_stopped (vm : VirtualMachine) : vmres :=
  (let! r := deleteAllVMPods vm in
   match r with
   | Err e => Ret (vm, Some e)
   | Ok false => Ret (vm, None)
   | Ok true =>
       let s := Status vm in
       let phase := if should_run (Spec_RunPolicy (Spec vm)) (Phase s) (PowerAction s) then VirtualMachinePending else Phase s in
       Ret (set_Status (set_Phase phase emptyVMStatus) vm, None)
   end)%go.

Definition reconcile_phase (vm : VirtualMachine) : vmres :=
  match Phase (Status vm) with
  | VirtualMachinePending => reconcile_pending vm
  | VirtualMachineScheduling | VirtualMachineScheduled => reconcile_scheduling vm
  | VirtualMachineRunning => reconcile_running vm
  | VirtualMachinePhaseUnset | VirtualMachineSucceeded | VirtualMachineFailed => reconcile_stopped vm
  | VirtualMachineUnknown => Ret (vm, None)
  end.

(** The phases in which a VM that is being deleted loses its pods at once. *)
Definition deletable_phase (p : VirtualMachinePhase) : bool :=
  match p with
  | VirtualMachinePhaseUnset | VirtualMachinePending | VirtualMachineScheduling | VirtualMachineFailed
  | VirtualMachineSucceeded => true
  | _ => false
  end.

(** [r.Client.Update] replaces the VM by the server's answer. *)
Definition update_vm (vm : VirtualMachine) : vmres :=
  (let! r := call (UpdateVM vm) in
   match r with Ok vm' => Ret (vm', None) | Err e => Ret (vm, Some e) end)%go.

Definition reconcile (vm : VirtualMachine) : vmres :=
  let deleting := bool_decide (is_Some (om_DeletionTimestamp (vm_meta vm))) in
  if negb deleting && negb (ContainsFinalizer (vm_meta vm) VMProtectionFinalizer) then
    update_vm (set_meta (AddFinalizer (vm_meta vm) VMProtectionFinalizer) vm)
  else if deleting && deletable_phase (Phase (Status vm)) then
    (let! r := deleteAllVMPods vm in
     match r with
     | Err e => Ret (vm, Some e)
     | Ok true => update_vm (set_meta (RemoveFinalizer (vm_meta vm) VMProtectionFinalizer) vm)
     | Ok false => reconcile_phase vm
     end)%go
  else reconcile_phase vm.

(** [Reconcile].  [vm.Status] is a value and [status] a pointer, so the
    [reflect.DeepEqual] before the status update is always false. *)
Definition Reconcile (req : NamespacedName) : kprog (Result * option goerror) :=
  (let! r := call (GetVM req) in
   match r with
   | Err e => Ret (emptyResult, IgnoreNotFound (Some e))
   | Ok vm =>
       let! (vm, rerr) := reconcile vm in
       let! err := call (UpdateVMStatus vm) in
       match err, rerr with
       | Some e, None =>
           if IsConflict e then Ret (mkResult true 0, None)
           else Ret (emptyResult, Some (ErrFmt "update VM status" e))
       | _, Some re =>
           match as_reconcileError re with
           | Some res => Ret (res, None)
           | None => call (Eventf (vm_meta vm) EvWarning "FailedReconcile") ;;; Ret (emptyResult, Some re)
           end
       | None, None =>
           let! gerr := gcVMPods vm in
           match gerr with
           | Some e => Ret (emptyResult, Some (ErrFmt "GC VM Pods" e))
           | None => Ret (emptyResult, None)
           end
       end
   end)%go.

(** ** Watches of [SetupWithManager] *)

(** The [vmUID] index of pods. *)
Definition vmUID (pod : Pod) : list string :=
  match GetControllerOf (pod_meta pod) with
  | Some ref => if decide (or_APIVersion ref = SchemeGroupVersion ∧ or_Kind ref = VMKind) then [or_UID ref] else []
  | None => []
  end.

(** A pod event: the VM that controls the pod, or the pod that controls it. *)
Definition map_pod (pod : Pod) : kprog (list NamespacedName) :=
  let requests (ref : option OwnerReference) :=
    match ref with
    | Some ref => if decide (or_Kind ref = VMKind) then [mkNN (om_Namespace (pod_meta pod)) (or_Name ref)] else []
    | None => []
    end in
  match GetControllerOf (pod_meta pod) with
  | Some ref =>
      if decide (or_Kind ref = "Pod") then
        (let! r := call (GetPod (mkNN (om_Namespace (pod_meta pod)) (or_Name ref))) in
         match r with
         | Err _ => Ret []
         | Ok owner => Ret (requests (GetControllerOf (pod_meta owner)))
         end)%go
      else Ret (requests (Some ref))
  | None => Ret []
  end.

(** A claim event: the VMs of its namespace that use it. *)
Definition map_pvc (namespace name : string) : kprog (list NamespacedName) :=
  (let! r := call (ListVMs namespace) in
   match r with
   | Err _ => Ret []
   | Ok items =>
       Ret (map (λ vm : VirtualMachine, ObjectKey (vm_meta vm))
         (filter (λ vm : VirtualMachine, existsb (λ v, bool_decide (PVCName v = name)) (Volumes (Spec vm)) = true) items))
   end)%go.

End VMController.
