(* ===== verification/VmControllerProofs.v ===== *)
(** * Correctness of the virtual machine controller *)

From stdpp Require Import base gmap strings list sets fin_maps sorting.
From Stdlib Require Import ZArith Lia.
From S2P Require Import Prelude GoStd K8s ApiTypes Kube VmValidate PodBuild PodBuildProofs VmController.
Open Scope Z_scope.

(** ** The transitions the controller makes *)

(** Phases: the controller starts a stopped VM, schedules it, and follows its pod; it never
    makes a VM Running, which is the daemon's part, and never leaves Unknown. *)
Inductive phase_step : VirtualMachinePhase → VirtualMachinePhase → Prop :=
| ps_stay p : phase_step p p
| ps_start : phase_step VirtualMachinePhaseUnset VirtualMachinePending
| ps_restart p : p = VirtualMachineSucceeded ∨ p = VirtualMachineFailed → phase_step p VirtualMachinePending
| ps_schedule : phase_step VirtualMachinePending VirtualMachineScheduling
| ps_scheduled : phase_step VirtualMachineScheduling VirtualMachineScheduled
| ps_end p q :
    p = VirtualMachineScheduling ∨ p = VirtualMachineScheduled ∨ p = VirtualMachineRunning →
    q = VirtualMachineSucceeded ∨ q = VirtualMachineFailed ∨ q = VirtualMachineUnknown → phase_step p q.

(** Migrations: the controller makes a target pod and reports it scheduled or failed; it never
    touches a migration the daemons have taken over. *)
Inductive migration_step : option VirtualMachineStatusMigration → option VirtualMachineStatusMigration → Prop :=
| ms_stay m : migration_step m m
| ms_pick_pod m m' :
    Migration_Phase m = VirtualMachineMigrationPhaseUnset ∨ Migration_Phase m = VirtualMachineMigrationPending →
    Migration_Phase m' = VirtualMachineMigrationScheduling → Migration_UID m' = Migration_UID m →
    migration_step (Some m) (Some m')
| ms_scheduling m m' :
    Migration_Phase m = VirtualMachineMigrationScheduling →
    Migration_Phase m' = VirtualMachineMigrationScheduling ∨ Migration_Phase m' = VirtualMachineMigrationScheduled ∨
      Migration_Phase m' = VirtualMachineMigrationFailed →
    Migration_UID m' = Migration_UID m → TargetVMPodName m' = TargetVMPodName m →
    migration_step (Some m) (Some m').

(** Every volume status records the volume pod; a status without one would be dereferenced. *)
Definition volumes_ok (s : VirtualMachineStatus) : Prop := Forall (λ v, is_Some (HotplugVolume v)) (VolumeStatuses s).

(** The phases in which a VM has its pod. *)
Definition has_pod (p : VirtualMachinePhase) : Prop :=
  p = VirtualMachineScheduling ∨ p = VirtualMachineScheduled ∨ p = VirtualMachineRunning.

Record status_step (s s' : VirtualMachineStatus) : Prop := {
  st_phase : phase_step (Phase s) (Phase s');
  (** a migration is dropped only with the whole status of a stopped VM *)
  st_migration : migration_step (Migration s) (Migration s') ∨ (¬ has_pod (Phase s) ∧ Migration s' = None);
  st_volumes : volumes_ok s → volumes_ok s';
  (** the pod of a VM that has one keeps its name *)
  st_pod : has_pod (Phase s) → VMPodName s' = VMPodName s;
  (** only a running VM's migration is advanced *)
  st_migrating : Migration s' ≠ Migration s → Phase s = VirtualMachineRunning ∨ Migration s' = None;
  (** a VM starts again with an empty status *)
  st_restart : Phase s' = VirtualMachinePending → Phase s ≠ VirtualMachinePending → Migration s' = None
}.

#[local] Hint Constructors phase_step migration_step : core.

Ltac status_split := split; simpl; auto; try congruence; try (intros; intuition congruence).

Lemma status_step_refl s : status_step s s.
Proof. status_split. Qed.

Lemma set_VolumeStatuses_step l s : Forall (λ v, is_Some (HotplugVolume v)) l → status_step s (set_VolumeStatuses l s).
Proof. intros Hl. destruct s. status_split. Qed.
Lemma set_Conditions_step l s : status_step s (set_Conditions l s).
Proof. destruct s. status_split. Qed.

Lemma status_map_elem l k v : status_map l !! k = Some v → v ∈ l.
Proof.
  unfold status_map. cut (∀ m : gmap string VolumeStatus, foldl (λ m s, <[VolumeStatus_Name s := s]> m) m l !! k = Some v →
    v ∈ l ∨ m !! k = Some v).
  { intros Hg E. apply Hg in E as [?|E]; [done|]. by rewrite lookup_empty in E. }
  induction l as [|x l IH]; intros m; simpl; [by right|]. intros E. apply IH in E as [?|E]; [left; by right|].
  destruct (decide (VolumeStatus_Name x = k)) as [<-|].
  - rewrite lookup_insert_eq in E. simplify_eq. left. left.
  - rewrite lookup_insert_ne in E by done. by right.
Qed.

Section Generic.
Context `{K : K8s} {L : QuantityLaws K} (params : BuildParams).
Context {W : Type} (en : env kubeE W) (I : W → Prop).
Hypothesis reads_ok : ∀ X (e : kubeE X), is_read e = true → ok_call en I e.

Abbreviation ok := (ok_call en I).

(** ** Hotplug volumes *)

Lemma getHotplugVolumePods_wp vmPod w :
  I w → wp en (getHotplugVolumePods vmPod) w (λ r w', I w' ∧
    ∀ pods, r = Ok pods → ∀ p, p ∈ pods → IsControlledBy (pod_meta p) (pod_meta vmPod) = true).
Proof.
  intros Hw. unfold getHotplugVolumePods. apply (wp_ok en I); [by apply reads_ok|done|]. intros [items|e] w' Hw'; [|done].
  split; [done|]. intros pods [= <-] p. rewrite merge_sort_Permutation, list_elem_of_filter. tauto.
Qed.

Lemma ready_volumes_wp ns l acc w : I w → wp en (ready_volumes ns l acc) w (λ _ w', I w').
Proof.
  revert acc w. induction l as [|v l IH]; intros acc w Hw; cbn [ready_volumes]; [done|].
  wp_use (IsReady_wp en I reads_ok); [|done]. intros [r|e] w' Hw'; [by apply IH|done].
Qed.

Lemma hotplug_attachments_wp vm l ms ds w : I w → wp en (hotplug_attachments vm l ms ds) w (λ _ w', I w').
Proof.
  revert ms ds w. induction l as [|v l IH]; intros ms ds w Hw; cbn [hotplug_attachments]; [done|].
  destruct (_ && _); [|by apply IH]. wp_use (IsBlock_wp en I reads_ok); [|done].
  intros [[|]|e] w' Hw'; [by apply IH..|done].
Qed.

(** A volume pod of a VM pod. *)
Definition volume_pod_of (vmPod pod : Pod) : Prop :=
  ∃ m, SetControllerReference "v1" "Pod" (pod_meta vmPod) m = Ok (pod_meta pod).

Lemma buildHotplugVolumePod_wp vm vmPod l w :
  I w → wp en (buildHotplugVolumePod params vm vmPod l) w (λ r w', I w' ∧ ∀ pod, r = Ok pod → volume_pod_of vmPod pod).
Proof.
  intros Hw. unfold buildHotplugVolumePod. wp_use hotplug_attachments_wp; [|done].
  intros [[ms ds]|e] w' Hw'; [|done]. destruct (SetControllerReference _ _ _ _) as [m|e] eqn:E; [|done].
  split; [done|]. intros pod [= <-]. eexists. exact E.
Qed.

Lemma delete_old_pods_wp about l w :
  (∀ p, p ∈ l → ok (DeletePod p)) → I w → wp en (delete_old_pods about l) w (λ _ w', I w').
Proof.
  revert w. induction l as [|p l IH]; intros w Hd Hw; cbn [delete_old_pods]; [done|].
  destruct (Time_IsZero _); [|apply IH; [set_solver|done]].
  apply (wp_ok en I); [apply Hd; left|done|]. intros [e|] w' Hw'; [done|]. apply (wp_ok en I); [by apply reads_ok|done|].
  intros _ w'' Hw''. apply IH; [set_solver|done].
Qed.

Lemma split_current_old vs pods cur old cur' old' :
  split_current vs pods cur old = (cur', old') → ∀ p, p ∈ old' → p ∈ old ∨ p ∈ pods.
Proof.
  revert cur old. induction pods as [|q pods IH]; intros cur old; cbn [split_current]; [intros [= <- <-]; by left|].
  destruct (_ && _); intros E p Hp; destruct (IH _ _ E p Hp) as [Ho|Ho]; set_solver.
Qed.

Lemma handleHotplugVolumes_wp vm vmPod wait w :
  (∀ pod, volume_pod_of vmPod pod → ok (CreatePod pod)) →
  (∀ p, IsControlledBy (pod_meta p) (pod_meta vmPod) = true → ok (DeletePod p)) →
  I w → wp en (handleHotplugVolumes params vm vmPod wait) w (λ _ w', I w').
Proof.
  intros Hc Hd Hw. unfold handleHotplugVolumes. wp_use ready_volumes_wp; [|done]. intros [ready|e] w1 Hw1; [|done].
  destruct (_ && _); [done|]. wp_use getHotplugVolumePods_wp; [|done]. intros [pods|e] w2 [Hw2 Hp]; [|done].
  specialize (Hp pods eq_refl). destruct (split_current ready pods None []) as [cur old] eqn:Es.
  assert (Hdel : ∀ w, I w → wp en (delete_old_pods (vm_meta vm) old) w (λ _ w', I w')).
  { intros w3 Hw3. apply delete_old_pods_wp; [|done]. intros p Ho. apply Hd, Hp.
    by destruct (split_current_old _ _ _ _ _ _ Es p Ho) as [?%elem_of_nil|?]. }
  destruct cur as [c|]; [by apply Hdel|]. destruct ready as [|v ready]; [by apply Hdel|].
  apply wp_seq. wp_use buildHotplugVolumePod_wp; [|done]. intros [pod|e] w3 [Hw3 Hpod]; [|done].
  apply (wp_ok en I); [by apply Hc, Hpod|done|]. intros [e|] w4 Hw4; [done|].
  apply (wp_ok en I); [by apply reads_ok|done|]. intros _ w5 Hw5. by apply Hdel.
Qed.

Lemma attached_status_some m pods v : is_Some (HotplugVolume (attached_status m pods v)).
Proof. unfold attached_status. destruct (find_volume_pod _ _); by eexists. Qed.

Lemma detaching_statuses_ok l pods :
  Forall (λ p, is_Some (HotplugVolume p.2)) l →
  ∃ r, detaching_statuses l pods = Returned r ∧ Forall (λ v, is_Some (HotplugVolume v)) r.
Proof.
  induction l as [|[n s] l IH]; simpl; [by exists []|]. rewrite Forall_cons. intros [[h Hs] Hl].
  destruct (IH Hl) as (r & Er & Hr). destruct (find_detaching_pod n pods); [|by exists r]. simpl in Hs. rewrite Hs, Er.
  eexists. split; [reflexivity|]. constructor; [by eexists|done].
Qed.

(** The fold over the volumes: statuses for each, and what is left of the map. *)
Lemma attach_fold pods vs l (m : gmap string VolumeStatus) l' m' :
  foldl (λ acc v, let '(l, m) := acc in (l ++ [attached_status m pods v], delete (Volume_Name v) m)) (l, m) vs = (l', m') →
  Forall (λ v, is_Some (HotplugVolume v)) l → Forall (λ v, is_Some (HotplugVolume v)) l' ∧ ∀ k x, m' !! k = Some x → m !! k = Some x.
Proof.
  revert l m. induction vs as [|v vs IH]; intros l m; simpl; [intros [= <- <-]; done|].
  intros E Hl. destruct (IH _ _ E) as [Hl' Hm'].
  { apply Forall_app. split; [done|]. apply Forall_singleton, attached_status_some. }
  split; [done|]. intros k x Hk. apply Hm' in Hk. by apply lookup_delete_Some in Hk as [_ ?].
Qed.

Lemma updateHotplugVolumeStatus_wp vm vmPod w :
  volumes_ok (Status vm) → I w →
  wp en (updateHotplugVolumeStatus vm vmPod) w (λ r w', I w' ∧
    ∃ l, fst r = upd_Status (set_VolumeStatuses l) vm ∧ Forall (λ v, is_Some (HotplugVolume v)) l).
Proof.
  intros Hv Hw. unfold updateHotplugVolumeStatus. wp_use getHotplugVolumePods_wp; [|done].
  intros [pods|e] w1 [Hw1 _]; [|split; [done|]; exists (VolumeStatuses (Status vm)); split; [by destruct vm as [? ? []]|done]].
  destruct (foldl _ _ _) as [l m] eqn:Ef. destruct (attach_fold _ _ _ _ _ _ Ef) as [Hl Hm]; [done|].
  destruct (detaching_statuses_ok (map_to_list m) pods) as (r & -> & Hr).
  { apply Forall_forall. intros [k s] Hk. apply elem_of_map_to_list, Hm, status_map_elem in Hk.
    unfold volumes_ok in Hv. rewrite Forall_forall in Hv. by apply Hv. }
  cbn [or_crash]. split; [done|]. exists (l ++ r). split; [done|]. by apply Forall_app.
Qed.

(** ** Conditions and pods *)

Lemma reconcileVMConditions_wp vm vmPod w :
  I w → wp en (reconcileVMConditions vm vmPod) w (λ vm' w', I w' ∧ ∃ cs, vm' = upd_Status (set_Conditions cs) vm).
Proof.
  intros Hw. unfold reconcileVMConditions.
  assert (Hr : ∀ l vm w, I w → wp en (ready_conditions l vm) w (λ vm' w', I w' ∧ ∃ cs, vm' = upd_Status (set_Conditions cs) vm)).
  { clear vm w Hw. induction l as [|c l IH]; intros vm w Hw; cbn [ready_conditions].
    - split; [done|]. exists (Conditions (Status vm)). by destruct vm as [? ? []].
    - case_decide; [|by apply IH]. apply (wp_ok en I); [by apply reads_ok|done|]. intros now w' Hw'.
      eapply wp_mono; [|by apply IH]. intros vm' w'' [? (cs & ->)]. split; [done|]. exists cs. by destruct vm as [? ? []]. }
  wp_use Hr; [|done]. intros vm1 w1 [Hw1 (cs & ->)]. destruct (FindStatusCondition _ _); [by split; [|eexists]|].
  apply (wp_ok en I); [by apply reads_ok|done|]. intros now w2 Hw2. split; [done|]. eexists. by destruct vm as [? ? []].
Qed.

Lemma delete_vm_pods_wp about skip l w :
  (∀ p, p ∈ l → skip p = false → ok (DeletePod p)) → I w → wp en (delete_vm_pods about skip l) w (λ _ w', I w').
Proof.
  revert w. induction l as [|p l IH]; intros w Hd Hw; cbn [delete_vm_pods]; [done|].
  destruct (_ || skip p) eqn:E; [apply IH; [set_solver|done]|]. apply orb_false_iff in E as [_ E].
  apply (wp_ok en I); [apply Hd; [left|done]|done|]. intros err w' Hw'. destruct (IgnoreNotFound err); [done|].
  apply (wp_ok en I); [by apply reads_ok|done|]. intros _ w'' Hw''. apply IH; [set_solver|done].
Qed.

Lemma deleteAllVMPods_wp vm w :
  (∀ p, ok (DeletePod p)) → I w → wp en (deleteAllVMPods vm) w (λ _ w', I w').
Proof.
  intros Hd Hw. unfold deleteAllVMPods. apply (wp_ok en I); [by apply reads_ok|done|]. intros [[|p items]|e] w' Hw'; [done| |done].
  wp_use delete_vm_pods_wp; [|intros; apply Hd|done]. by intros [e|] w'' Hw''.
Qed.

(** Garbage collection spares the VM's pod and the migration's target pod. *)
Lemma gcVMPods_wp vm w :
  (∀ p, om_Name (pod_meta p) ≠ VMPodName (Status vm) →
        (∀ m, Migration (Status vm) = Some m → om_Name (pod_meta p) ≠ TargetVMPodName m) → ok (DeletePod p)) →
  I w → wp en (gcVMPods vm) w (λ _ w', I w').
Proof.
  intros Hd Hw. unfold gcVMPods. apply (wp_ok en I); [by apply reads_ok|done|]. intros [items|e] w' Hw'; [|done].
  apply delete_vm_pods_wp; [|done]. intros p _ Hs. apply orb_false_iff in Hs as [H1 H2]. apply Hd.
  - by apply bool_decide_eq_false in H1.
  - intros m Em. rewrite Em in H2. by apply bool_decide_eq_false in H2.
Qed.

Lemma get_vm_pod_wp vm name w :
  I w → wp en (get_vm_pod vm name) w (λ r w', I w' ∧
    ∀ pod, r = Ok (Some pod) → IsControlledBy (pod_meta pod) (vm_meta vm) = true).
Proof.
  intros Hw. unfold get_vm_pod. apply (wp_ok en I); [by apply reads_ok|done|]. intros [pod|e] w' Hw'.
  - split; [done|]. intros pod'. destruct (IsControlledBy (pod_meta pod) (vm_meta vm)) eqn:E; [|done]. by intros [= <-].
  - by destruct (IsNotFound e).
Qed.

Lemma create_vm_pod_wp vm name reason wrap what b w :
  (∀ pod, ok (CreatePod pod)) → I w →
  wp en b w (λ r w', I w' ∧ ∀ pod vm', r = Ok (pod, vm') → same_vm vm vm') →
  wp en (create_vm_pod vm name reason wrap what b) w (λ r w', I w' ∧ Status (fst r) = Status vm ∧ om_UID (vm_meta (fst r)) = om_UID (vm_meta vm)).
Proof.
  intros Hc Hw Hb. unfold create_vm_pod. wp_use Hb. intros [[pod vm1]|e] w1 [Hw1 Hs]; [|done]. specialize (Hs _ _ eq_refl).
  pose proof (sv_status _ _ Hs). pose proof (sv_uid _ _ Hs).
  destruct (SetControllerReference _ _ _ _) as [m|e]; [|done]. apply (wp_ok en I); [apply Hc|done|].
  intros [e|] w2 Hw2; [done|]. apply (wp_ok en I); [by apply reads_ok|done|]. by intros _ w3 Hw3.
Qed.

(** ** The phases *)

(** Requests that the phases with a pod make. *)
Hypothesis creates_ok : ∀ pod, ok (CreatePod pod).

(** A volume pod of a pod of the VM. *)
Definition volume_pod_deletes_ok (vm : VirtualMachine) : Prop :=
  ∀ p vmPod, IsControlledBy (pod_meta vmPod) (vm_meta vm) = true → IsControlledBy (pod_meta p) (pod_meta vmPod) = true →
    ok (DeletePod p).

Definition steps_from (vm : VirtualMachine) (r : VirtualMachine * option goerror) (w : W) : Prop :=
  I w ∧ status_step (Status vm) (Status (fst r)) ∧ om_UID (vm_meta (fst r)) = om_UID (vm_meta vm).

Lemma follow_pod_phase_status vm pod :
  ∃ p, follow_pod_phase vm pod = upd_Status (set_Phase p) vm ∧
    (p = Phase (Status vm) ∨ (Phase (Status vm) = VirtualMachineScheduling ∧ p = VirtualMachineScheduled) ∨
     p = VirtualMachineSucceeded ∨ p = VirtualMachineFailed ∨ p = VirtualMachineUnknown).
Proof.
  assert (Hid : vm = upd_Status (set_Phase (Phase (Status vm))) vm) by (by destruct vm as [? ? []]).
  unfold follow_pod_phase. destruct (PodStatus_Phase _); try (eexists; split; [reflexivity|tauto]);
    try (eexists; split; [exact Hid|by left]).
  case_bool_decide; simpl; [|eexists; split; [exact Hid|by left]].
  destruct (allHotplugVolumesAttached vm); [|eexists; split; [exact Hid|by left]].
  eexists. split; [reflexivity|]. tauto.
Qed.

Lemma reconcile_scheduling_wp vm w :
  Phase (Status vm) = VirtualMachineScheduling ∨ Phase (Status vm) = VirtualMachineScheduled →
  volumes_ok (Status vm) → volume_pod_deletes_ok vm → I w → wp en (reconcile_scheduling params vm) w (steps_from vm).
Proof.
  intros Hph Hv Hd Hw. unfold reconcile_scheduling, steps_from. wp_use get_vm_pod_wp; [|done].
  intros [[pod|]|e] w1 [Hw1 Hp]; [| |split; [done|]; split; [apply status_step_refl|done]].
  - specialize (Hp pod eq_refl). set (vm1 := upd_Status _ vm).
    assert (Hs1 : ∀ p l, (p = Phase (Status vm) ∨ (Phase (Status vm) = VirtualMachineScheduling ∧ p = VirtualMachineScheduled) ∨
                     p = VirtualMachineSucceeded ∨ p = VirtualMachineFailed ∨ p = VirtualMachineUnknown) →
              Forall (λ v, is_Some (HotplugVolume v)) l →
              status_step (Status vm) (Status (upd_Status (set_VolumeStatuses l) (upd_Status (set_Phase p) vm1)))).
    { intros p l Hpl Hl. destruct vm as [? ? []]. simpl in *. status_split.
      destruct Hpl as [->|[[-> ->]|Hend]]; [constructor..|]. apply ps_end; tauto. }
    apply wp_seq. eapply wp_mono; [|instantiate (1 := λ _ w', I w')].
    + intros [e|] w2 Hw2.
      * split; [done|]. split; [|done]. specialize (Hs1 (Phase (Status vm)) (VolumeStatuses (Status vm)) ltac:(by left) Hv).
        by destruct vm as [? ? []].
      * destruct (follow_pod_phase_status vm1 pod) as (p & -> & Hpl).
        eapply wp_mono; [|apply updateHotplugVolumeStatus_wp; [by destruct vm as [? ? []]|done]].
        intros r w3 [Hw3 (l & Er & Hl)]. rewrite Er. split; [done|]. split; [|done].
        apply Hs1; [|done]. by destruct vm as [? ? []].
    + case_decide; [done|]. apply handleHotplugVolumes_wp; [intros; apply creates_ok| |done].
      intros p Hpc. by eapply Hd.
  - case_decide.
    + eapply wp_mono; [|apply create_vm_pod_wp; [apply creates_ok|done|]].
      * intros r w2 (Hw2 & Hs & Hu). split; [done|]. rewrite Hs. split; [apply status_step_refl|done].
      * eapply wp_mono; [|by apply (buildVMPod_wp en I reads_ok)]. intros r w2 [Hw2 Hr]. split; [done|].
        intros pod vm' E. by destruct (Hr pod vm' E).
    + split; [done|]. split; [|done]. destruct vm as [? ? []]. simpl in *. status_split.
      apply ps_end; [tauto|by right; left].
Qed.

Lemma set_Migration_step m m' s :
  Migration s = Some m → Phase s = VirtualMachineRunning → migration_step (Some m) m' → status_step s (set_Migration m' s).
Proof. intros Em Hp Hs. destruct s. simpl in *. subst. status_split. Qed.

Lemma upd_Migration_Some f vm m :
  Migration (Status vm) = Some m → upd_Migration f vm = upd_Status (set_Migration (Some (f m))) vm.
Proof. intros Em. unfold upd_Migration. by rewrite Em. Qed.

(** A migration in its Scheduling phase changes like this. *)
Definition scheduling_change (m m' : VirtualMachineStatusMigration) : Prop :=
  (Migration_Phase m' = VirtualMachineMigrationScheduling ∨ Migration_Phase m' = VirtualMachineMigrationScheduled ∨
   Migration_Phase m' = VirtualMachineMigrationFailed) ∧ Migration_UID m' = Migration_UID m ∧ TargetVMPodName m' = TargetVMPodName m.

Lemma target_volumes_wp vm pod m w :
  Migration (Status vm) = Some m → Migration_Phase m = VirtualMachineMigrationScheduling →
  IsControlledBy (pod_meta pod) (vm_meta vm) = true → volume_pod_deletes_ok vm → I w →
  wp en (target_volumes params vm pod) w (λ r w', I w' ∧ ∃ m', fst r = upd_Status (set_Migration (Some m')) vm ∧ scheduling_change m m').
Proof.
  intros Em Hph Hc Hd Hw. unfold target_volumes.
  assert (Hsame : vm = upd_Status (set_Migration (Some m)) vm) by (destruct vm as [? ? []]; simpl in *; by subst).
  assert (Hstay : scheduling_change m m) by (split_and!; [by left|done..]).
  assert (Hf : ∀ m1, scheduling_change m m1 → scheduling_change m (set_mig_Phase VirtualMachineMigrationFailed m1))
    by (intros [] (? & ? & ?); simpl in *; split_and!; [by right; right|done..]).
  destruct (ended _). { split; [done|]. rewrite (upd_Migration_Some _ _ _ Em). eexists. split; [reflexivity|auto]. }
  destruct (getHotplugVolumes vm pod). { split; [done|]. by exists m. }
  case_decide. { split; [done|]. by exists m. }
  wp_use handleHotplugVolumes_wp; [|intros; apply creates_ok|intros p Hp; by eapply Hd|done].
  intros [e|] w1 Hw1; [split; [done|]; by exists m|].
  wp_use getHotplugVolumePods_wp; [|done]. intros [[|vp pods]|e] w2 [Hw2 _]; [split; [done|]; by exists m| |split; [done|]; by exists m].
  rewrite (upd_Migration_Some _ _ _ Em). set (m1 := set_mig_VolumePod _ m).
  assert (Hm1 : scheduling_change m m1) by (unfold m1; destruct m; split_and!; simpl in *; [by left|done..]).
  assert (Em1 : Migration (Status (upd_Status (set_Migration (Some m1)) vm)) = Some m1) by (by destruct vm as [? ? []]).
  destruct (PodStatus_Phase _); (split; [done|]); try (exists m1; split; [done|done]);
    (rewrite (upd_Migration_Some _ _ _ Em1); eexists; split; [by destruct vm as [? ? []]|auto]).
Qed.

Lemma reconcile_migration_wp vm m w :
  Phase (Status vm) = VirtualMachineRunning → Migration (Status vm) = Some m → volumes_ok (Status vm) →
  volume_pod_deletes_ok vm → I w → wp en (reconcile_migration params vm m) w (steps_from vm).
Proof.
  intros Hph Em Hv Hd Hw. unfold reconcile_migration, steps_from.
  assert (Hstay : status_step (Status vm) (Status vm)) by apply status_step_refl.
  assert (Hstep : ∀ m', migration_step (Some m) (Some m') → status_step (Status vm) (Status (upd_Status (set_Migration (Some m')) vm)))
    by (intros m' Hm'; by apply (set_Migration_step m)).
  destruct (Migration_Phase m) eqn:Emp; try done.
  1,2: apply (wp_ok en I); [by apply reads_ok|done|]; intros name w1 Hw1; rewrite (upd_Migration_Some _ _ _ Em);
       (split; [done|]); (split; [|done]); apply Hstep, ms_pick_pod; destruct m; simpl in *; tauto.
  unfold reconcile_migration_scheduling. apply (wp_ok en I); [by apply reads_ok|done|]. intros r w1 Hw1.
  destruct (match r with Ok _ => _ | Err _ => _ end) as [pod|e] eqn:Ep; [|done].
  destruct (IsControlledBy (pod_meta pod) (vm_meta vm)) eqn:Ec; cbn [negb].
  - rewrite (upd_Migration_Some _ _ _ Em). set (m1 := set_mig_Target _ _ m).
    set (vm1 := upd_Status (set_Migration (Some m1)) vm).
    assert (Em1 : Migration (Status vm1) = Some m1) by (unfold vm1; by destruct vm as [? ? []]).
    wp_use (target_volumes_wp vm1 pod m1); [|done|by unfold m1; destruct m|done|done|done].
    intros [vm2 res] w2 [Hw2 (m2 & E2 & (Hp2 & Hu2 & Hn2))]. simpl in E2. subst vm2.
    assert (Hall : ∀ m', (Migration_Phase m' = VirtualMachineMigrationScheduling ∨ Migration_Phase m' = VirtualMachineMigrationScheduled ∨
       Migration_Phase m' = VirtualMachineMigrationFailed) → Migration_UID m' = Migration_UID m2 → TargetVMPodName m' = TargetVMPodName m2 →
       status_step (Status vm) (Status (upd_Status (set_Migration (Some m')) vm))).
    { intros m' H1 H2 H3. apply Hstep, ms_scheduling; [done|done|..]; unfold m1 in *; destruct m; simpl in *; congruence. }
    assert (Evm : ∀ m', upd_Status (set_Migration (Some m')) vm1 = upd_Status (set_Migration (Some m')) vm)
      by (intros; unfold vm1; by destruct vm as [? ? []]).
    destruct res as [att|e]; (split; [done|]); cbn [fst].
    + destruct (_ && att).
      * rewrite (upd_Migration_Some _ _ m2) by (unfold vm1; by destruct vm as [? ? []]).
        replace (upd_Status (set_Migration (Some (set_mig_Phase VirtualMachineMigrationScheduled m2)))
                   (upd_Status (set_Migration (Some m2)) vm1))
          with (upd_Status (set_Migration (Some (set_mig_Phase VirtualMachineMigrationScheduled m2))) vm)
          by (unfold vm1; by destruct vm as [? ? []]).
        split; [|done]. apply Hall; destruct m2; simpl; [by right; left|done..].
      * rewrite Evm. split; [|done]. by apply Hall.
    + rewrite Evm. split; [|done]. by apply Hall.
  - eapply wp_mono; [|apply create_vm_pod_wp; [apply creates_ok|done|]].
    + intros r' w2 (Hw2 & Hs & Hu). split; [done|]. by rewrite Hs.
    + eapply wp_mono; [|by apply (buildTargetVMPod_wp en I reads_ok)]. intros r' w2 [Hw2 Hr]. split; [done|].
      intros pod' vm' E. by destruct (Hr pod' vm' E) as (_ & ? & _).
Qed.

Lemma status_step_conditions s cs s' :
  status_step (set_Conditions cs s) s' → status_step s s'.
Proof. destruct s. intros [H1 H2 H3 H4 H5 H6]. by split. Qed.

Lemma reconcile_running_wp vm w :
  Phase (Status vm) = VirtualMachineRunning → volumes_ok (Status vm) → volume_pod_deletes_ok vm → I w →
  wp en (reconcile_running params vm) w (steps_from vm).
Proof.
  intros Hph Hv Hd Hw. unfold reconcile_running, steps_from. wp_use get_vm_pod_wp; [|done].
  assert (Hend : ∀ p, p = VirtualMachineSucceeded ∨ p = VirtualMachineFailed ∨ p = VirtualMachineUnknown →
    status_step (Status vm) (Status (upd_Status (set_Phase p) vm))).
  { intros p Hp. destruct vm as [? ? []]. simpl in *. status_split. }
  intros [[pod|]|e] w1 [Hw1 Hp]; [| |split; [done|]; split; [apply status_step_refl|done]].
  2:{ split; [done|]. split; [|done]. apply Hend. tauto. }
  specialize (Hp pod eq_refl).
  set (vm1 := match PodStatus_Phase (pod_Status pod) with PodSucceeded => _ | _ => _ end).
  assert (Hvm1 : vm1 = vm ∨ ∃ p, vm1 = upd_Status (set_Phase p) vm ∧
    (p = VirtualMachineSucceeded ∨ p = VirtualMachineFailed ∨ p = VirtualMachineUnknown)).
  { unfold vm1. destruct (PodStatus_Phase _); auto; [destruct (Migration _); [by left|]| |]; right; eexists; (split; [reflexivity|tauto]). }
  destruct Hvm1 as [->|(p & -> & Hpe)].
  - rewrite bool_decide_eq_true_2 by done. cbn [negb]. wp_use reconcileVMConditions_wp; [|done].
    intros vm2 w2 [Hw2 (cs & ->)].
    assert (Hback : ∀ s', status_step (Status (upd_Status (set_Conditions cs) vm)) s' → status_step (Status vm) s')
      by (intros s'; apply status_step_conditions).
    assert (Hph2 : Phase (Status (upd_Status (set_Conditions cs) vm)) = VirtualMachineRunning) by (by destruct vm as [? ? []]).
    assert (Hv2 : volumes_ok (Status (upd_Status (set_Conditions cs) vm))) by (by destruct vm as [? ? []]).
    destruct (Migration (Status (upd_Status (set_Conditions cs) vm))) as [m|] eqn:Em.
    + eapply wp_mono; [|by apply reconcile_migration_wp]. intros r w3 (? & ? & ?). auto.
    + wp_use handleHotplugVolumes_wp; [|intros; apply creates_ok|intros q Hq; by eapply Hd|done].
      intros [e|] w3 Hw3; [split; [done|]; split; [apply Hback, status_step_refl|done]|].
      eapply wp_mono; [|by apply updateHotplugVolumeStatus_wp]. intros r w4 [Hw4 (l & Er & Hl)]. rewrite Er.
      split; [done|]. split; [|done]. apply Hback. by apply set_VolumeStatuses_step.
  - rewrite bool_decide_eq_false_2.
    + split; [done|]. split; [by apply Hend|done].
    + destruct vm as [? ? []]. simpl. destruct Hpe as [->|[->| ->]]; done.
Qed.

(** *** The phases without a pod, and finalizers *)

Hypothesis deletes_ok : ∀ p, ok (DeletePod p).

Lemma reconcile_stopped_wp vm w :
  Phase (Status vm) = VirtualMachinePhaseUnset ∨ Phase (Status vm) = VirtualMachineSucceeded ∨ Phase (Status vm) = VirtualMachineFailed →
  I w → wp en (reconcile_stopped vm) w (steps_from vm).
Proof.
  intros Hph Hw. unfold reconcile_stopped, steps_from. wp_use deleteAllVMPods_wp; [|done..].
  intros [[|]|e] w1 Hw1; [|split; [done|]; split; [apply status_step_refl|done]..].
  split; [done|]. split; [|done]. set (b := should_run _ _ _). split; simpl.
  - destruct b; [|constructor]. destruct Hph as [->|[->| ->]]; [constructor|apply ps_restart; by left|apply ps_restart; by right].
  - right. split; [|done]. intros [?|[?|?]]; destruct Hph as [?|[?|?]]; congruence.
  - intros _. apply Forall_nil_2.
  - intros [?|[?|?]]; destruct Hph as [?|[?|?]]; congruence.
  - by right.
  - done.
Qed.

Lemma reconcile_phase_wp vm w :
  volumes_ok (Status vm) → I w → wp en (reconcile_phase params vm) w (steps_from vm).
Proof.
  intros Hv Hw. unfold reconcile_phase. assert (volume_pod_deletes_ok vm) by (intros ? ? ? ?; apply deletes_ok).
  destruct (Phase (Status vm)) eqn:Hph.
  - apply reconcile_stopped_wp; tauto.
  - apply (wp_ok en I); [by apply reads_ok|done|]. intros name w1 Hw1. split; [done|]. split; [|done].
    destruct vm as [? ? []]. simpl in *. subst. status_split. by intros [?|[?|?]].
  - apply reconcile_scheduling_wp; tauto.
  - apply reconcile_scheduling_wp; tauto.
  - by apply reconcile_running_wp.
  - apply reconcile_stopped_wp; tauto.
  - apply reconcile_stopped_wp; tauto.
  - split; [done|]. split; [apply status_step_refl|done].
Qed.

(** The finalizer updates: the server's answer keeps the status, which is a subresource. *)
Hypothesis updates_ok : ∀ vm w, I w → allowed en (UpdateVM vm) w ∧
  ∀ r w', answers en (UpdateVM vm) w r w' → I w' ∧
    ∀ vm', r = Ok vm' → Status vm' = Status vm ∧ om_UID (vm_meta vm') = om_UID (vm_meta vm).
Hypothesis finalizers_keep : ∀ m f, om_UID (AddFinalizer m f) = om_UID m ∧ om_UID (RemoveFinalizer m f) = om_UID m.

Lemma update_vm_wp vm0 vm w :
  Status vm = Status vm0 → om_UID (vm_meta vm) = om_UID (vm_meta vm0) → I w → wp en (update_vm vm) w (steps_from vm0).
Proof.
  intros Hs Hu Hw. destruct (updates_ok vm w Hw) as [Ha Hr]. split; [done|]. intros r w' Hans.
  destruct (Hr _ _ Hans) as [Hw' Hvm']. destruct r as [vm'|e]; cbn; unfold steps_from; cbn.
  - destruct (Hvm' vm' eq_refl) as [-> ->]. rewrite Hs. split; [done|]. split; [apply status_step_refl|done].
  - rewrite Hs. split; [done|]. split; [apply status_step_refl|done].
Qed.

Lemma reconcile_wp vm w :
  volumes_ok (Status vm) → I w → wp en (reconcile params vm) w (steps_from vm).
Proof.
  intros Hv Hw. unfold reconcile. destruct (negb _ && negb _).
  { apply update_vm_wp; [done|by apply finalizers_keep|done]. }
  destruct (_ && deletable_phase _); [|by apply reconcile_phase_wp].
  wp_use deleteAllVMPods_wp; [|done..]. intros [[|]|e] w1 Hw1.
  - apply update_vm_wp; [done|by apply finalizers_keep|done].
  - by apply reconcile_phase_wp.
  - split; [done|]. split; [apply status_step_refl|done].
Qed.
End Generic.

(** ** The controller's promises

    Each is a statement about the calls [Reconcile] makes, for every behaviour of the API
    server that an environment admits. *)

Lemma finalizers_keep_uid `{K : K8s} (M : MetaLaws K) m f :
  om_UID (AddFinalizer m f) = om_UID m ∧ om_UID (RemoveFinalizer m f) = om_UID m.
Proof.
  destruct (AddFinalizer_spec (MetaLaws := M) m f) as (l & -> & _).
  destruct (RemoveFinalizer_spec (MetaLaws := M) m f) as (l' & -> & _). by destruct m.
Qed.

Section Promises.
Context `{K : K8s}.

(** What the theorems rely on: stored volume statuses record a volume pod (the status
    updates of both controllers keep this), and an update of the VM leaves its status, a
    subresource, and its UID alone. *)
Definition server_ok {X} (e : kubeE X) : X → Prop :=
  match e with
  | GetVM _ => λ r, ∀ vm, r = Ok vm → volumes_ok (Status vm)
  | UpdateVM vm => λ r, ∀ vm', r = Ok vm' → Status vm' = Status vm ∧ om_UID (vm_meta vm') = om_UID (vm_meta vm)
  | _ => λ _, True
  end.

(** The server, the requests it may get, and what is remembered of the exchange. *)
Definition server_env {W} (may : ∀ X, kubeE X → W → Prop) (track : ∀ X, kubeE X → X → W → W) : env kubeE W :=
  mkEnv may (λ X e w x w', server_ok e x ∧ w' = track X e x w) False.

(** The VM that was fetched. *)
Definition track_vm X (e : kubeE X) : X → option VirtualMachine → option VirtualMachine :=
  match e with
  | GetVM _ => λ r w, match r with Ok vm => Some vm | Err _ => w end
  | _ => λ _ w, w
  end.

Definition may_update_status X (e : kubeE X) (w : option VirtualMachine) : Prop :=
  match e with
  | UpdateVMStatus vm => ∃ vm0, w = Some vm0 ∧ status_step (Status vm0) (Status vm)
  | _ => True
  end.

(** A VM whose pod is in use: scheduled or running, or being scheduled and not deleted. *)
Definition in_use (vm : VirtualMachine) : Prop :=
  Phase (Status vm) = VirtualMachineScheduled ∨ Phase (Status vm) = VirtualMachineRunning ∨
  (Phase (Status vm) = VirtualMachineScheduling ∧ om_DeletionTimestamp (vm_meta vm) = None).

#[global] Instance in_use_dec vm : Decision (in_use vm).
Proof. unfold in_use. apply _. Defined.

(** The migration has its target pod. *)
Definition target_picked (m : VirtualMachineStatusMigration) : Prop :=
  Migration_Phase m ≠ VirtualMachineMigrationPhaseUnset ∧ Migration_Phase m ≠ VirtualMachineMigrationPending.

(** The pods that may be deleted while the VM's own pods are in use: volume pods of its pods,
    and pods that are neither its pod nor the target of its migration. *)
Definition expendable (vm : VirtualMachine) (p : Pod) : Prop :=
  (∃ vmPod, IsControlledBy (pod_meta vmPod) (vm_meta vm) = true ∧ IsControlledBy (pod_meta p) (pod_meta vmPod) = true) ∨
  (om_Name (pod_meta p) ≠ VMPodName (Status vm) ∧
   ∀ m, Migration (Status vm) = Some m → target_picked m → om_Name (pod_meta p) ≠ TargetVMPodName m).

Definition may_delete X (e : kubeE X) (w : option VirtualMachine) : Prop :=
  match e with
  | DeletePod p => ∃ vm, w = Some vm ∧ (in_use vm → expendable vm p)
  | _ => True
  end.

Context {L : QuantityLaws K} (M : MetaLaws K) (params : BuildParams).

(** A program whose requests are all allowed when [w] is remembered. *)
Lemma server_ok_call {W} (may : ∀ X, kubeE X → W → Prop) (track : ∀ X, kubeE X → X → W → W) (w : W) X (e : kubeE X) :
  may X e w → (∀ x, track X e x w = w) → ok_call (server_env may track) (λ w', w' = w) e.
Proof. intros Hm Ht w' ->. split; [done|]. intros x w'' [_ ->]. apply Ht. Qed.

Lemma server_update_ok {W} (may : ∀ X, kubeE X → W → Prop) (track : ∀ X, kubeE X → X → W → W) (w : W) :
  (∀ vm, may _ (UpdateVM vm) w) → (∀ vm x, track _ (UpdateVM vm) x w = w) →
  ∀ vm w', w' = w → allowed (server_env may track) (UpdateVM vm) w' ∧
    ∀ r w'', answers (server_env may track) (UpdateVM vm) w' r w'' → w'' = w ∧
      ∀ vm', r = Ok vm' → Status vm' = Status vm ∧ om_UID (vm_meta vm') = om_UID (vm_meta vm).
Proof. intros Hm Ht vm w' ->. split; [apply Hm|]. intros r w'' [Hs ->]. by split; [apply Ht|]. Qed.


Definition ok_now {W} (en : env kubeE W) (I : W → Prop) {X} (e : kubeE X) (w : W) : Prop :=
  allowed en e w ∧ ∀ x w', answers en e w x w' → I w'.

(** What follows the reconciliation, when the status update and the garbage collection are
    allowed. *)
Lemma Reconcile_wp {W} (en : env kubeE W) req w :
  allowed en (GetVM req) w →
  (∀ vm0 w1, answers en (GetVM req) w (Ok vm0) w1 →
     ∃ I : W → Prop, I w1 ∧ (∀ X (e : kubeE X), is_read e = true → ok_call en I e) ∧
       wp en (reconcile params vm0) w1 (λ r w2, ok_now en I (UpdateVMStatus (fst r)) w2 ∧
         ∀ p, om_Name (pod_meta p) ≠ VMPodName (Status (fst r)) →
           (∀ m, Migration (Status (fst r)) = Some m → om_Name (pod_meta p) ≠ TargetVMPodName m) →
           ok_call en I (DeletePod p))) →
  wp en (Reconcile params req) w (λ _ _, True).
Proof.
  intros Ha Hr. unfold Reconcile. cbn [pbind call]. apply wp_call; [done|]. intros [vm0|e] w1 Hans; [|done].
  destruct (Hr _ _ Hans) as (I & Hw1 & Hreads & Hrec). wp_use Hrec.
  intros [vm rerr] w2 ([Hu1 Hu2] & Hd). cbn [fst] in *. cbn [pbind call]. apply wp_call; [exact Hu1|].
  assert (Hev : ∀ re w, I w → wp en (match as_reconcileError re with Some res => Ret (res, None)
      | None => (call (Eventf (vm_meta vm) EvWarning "FailedReconcile") ;;; Ret (emptyResult, Some re))%go end) w (λ _ _, True)).
  { intros re w' Hw'. destruct (as_reconcileError re); [done|]. by apply (wp_ok en I); [apply Hreads|done|]. }
  intros [e|] w3 Hw3%Hu2; destruct rerr as [re|]; [by apply Hev|by destruct (IsConflict e)|by apply Hev|].
  wp_use (gcVMPods_wp en I Hreads); [|exact Hd|done]. by intros [e|] w4 Hw4.
Qed.

(** The status updates of [Reconcile] are steps from the fetched status. *)
Lemma Reconcile_status_wp (may : ∀ X, kubeE X → option VirtualMachine → Prop) req :
  (∀ X (e : kubeE X) w, (∀ vm, existT X e ≠ existT _ (UpdateVMStatus vm)) → may X e w) →
  (∀ vm0 vm, status_step (Status vm0) (Status vm) → may _ (UpdateVMStatus vm) (Some vm0)) →
  wp (server_env may track_vm) (Reconcile params req) None (λ _ _, True).
Proof.
  intros Hother Hstep. apply Reconcile_wp; [by apply Hother|]. intros vm0 w1 [Hv ->]. cbn in Hv.
  exists (λ w, w = Some vm0). split; [done|].
  assert (Hok : ∀ X (e : kubeE X), may X e (Some vm0) → (∀ x, track_vm X e x (Some vm0) = Some vm0) →
    ok_call (server_env may track_vm) (λ w, w = Some vm0) e) by (intros; by apply server_ok_call).
  assert (Hreads : ∀ X (e : kubeE X), is_read e = true → ok_call (server_env may track_vm) (λ w, w = Some vm0) e)
    by (intros X []; try done; intros; apply Hok; try done; by apply Hother).
  split; [done|]. eapply wp_mono; [|apply (reconcile_wp params _ (λ w, w = Some vm0))]; auto.
  - intros [vm err] w2 (-> & Hs & _). cbn [fst] in *. split; [|intros; apply Hok; [by apply Hother|done]].
    apply Hok; [by apply Hstep|done..].
  - apply server_update_ok; [intros; by apply Hother|done].
  - apply (finalizers_keep_uid M).
Qed.


(** While a VM's pod is in use, the status written keeps what spares its pods. *)
Lemma spared_by_gc s s' p :
  has_pod (Phase s) → status_step s s' → om_Name (pod_meta p) ≠ VMPodName s' →
  (∀ m, Migration s' = Some m → om_Name (pod_meta p) ≠ TargetVMPodName m) →
  om_Name (pod_meta p) ≠ VMPodName s ∧
  ∀ m, Migration s = Some m → target_picked m → om_Name (pod_meta p) ≠ TargetVMPodName m.
Proof.
  intros Hp [_ Hm _ Hn _ _] H1 H2. rewrite (Hn Hp) in H1. split; [done|]. intros m Em [Hu Hpe].
  destruct Hm as [Hm|[? _]]; [|done]. rewrite Em in Hm.
  inversion Hm as [m0 E1 E2|m0 m' Hph _ _ E1 E2|m0 m' _ _ _ Ht E1 E2]; subst.
  - by apply H2.
  - tauto.
  - rewrite <- Ht. by apply H2.
Qed.

Lemma in_use_has_pod vm : in_use vm → has_pod (Phase (Status vm)).
Proof. unfold in_use, has_pod. tauto. Qed.

Lemma reconcile_in_use_wp {W} (en : env kubeE W) (I : W → Prop) vm w :
  (∀ X (e : kubeE X), is_read e = true → ok_call en I e) → (∀ pod, ok_call en I (CreatePod pod)) →
  (∀ vm w, I w → allowed en (UpdateVM vm) w ∧ ∀ r w', answers en (UpdateVM vm) w r w' → I w' ∧
     ∀ vm', r = Ok vm' → Status vm' = Status vm ∧ om_UID (vm_meta vm') = om_UID (vm_meta vm)) →
  volume_pod_deletes_ok en I vm → in_use vm → volumes_ok (Status vm) → I w →
  wp en (reconcile params vm) w (steps_from I vm).
Proof.
  intros Hr Hc Hu Hd Hin Hv Hw. unfold reconcile. destruct (negb _ && negb _).
  { apply update_vm_wp; [done|done|by apply (finalizers_keep_uid M)|done]. }
  assert (bool_decide (is_Some (om_DeletionTimestamp (vm_meta vm))) && deletable_phase (Phase (Status vm)) = false) as ->.
  { destruct Hin as [->|[->|[-> ->]]]; [by rewrite andb_false_r..|done]. }
  unfold reconcile_phase. destruct Hin as [Hp|[Hp|[Hp _]]]; rewrite Hp.
  - apply reconcile_scheduling_wp; auto.
  - apply reconcile_running_wp; auto.
  - apply reconcile_scheduling_wp; auto.
Qed.


(** The pods the call just made listed, and for which VM. *)
Definition track_list X (e : kubeE X) : X → option (string * list Pod) → option (string * list Pod) :=
  match e with
  | ListVMPods uid => λ r _, match r with Ok l => Some (uid, l) | Err _ => None end
  | _ => λ _ _, None
  end.

Definition may_release X (e : kubeE X) (w : option (string * list Pod)) : Prop :=
  match e with
  | UpdateVM vm => VMProtectionFinalizer ∈ om_Finalizers (vm_meta vm) ∨ w = Some (om_UID (vm_meta vm), [])
  | _ => True
  end.

Lemma update_vm_released vm w :
  may_release _ (UpdateVM vm) w → wp (server_env may_release track_list) (update_vm vm) w (λ _ _, True).
Proof. intros Hm. split; [done|]. by intros [vm'|e] w' _. Qed.

(** C5: the protection finalizer of a VM is given up only when the list of its pods, fetched
    just before, is empty. *)
Theorem finalizer_guards_pods req :
  wp (server_env may_release track_list) (Reconcile params req) None (λ _ _, True).
Proof.
  apply Reconcile_wp; [done|]. intros vm0 w1 [Hv _]. cbn in Hv. exists (λ _, True). split; [done|].
  set (en := server_env _ _).
  assert (Hok : ∀ X (e : kubeE X), (∀ vm, existT X e ≠ existT _ (UpdateVM vm)) → ok_call en (λ _, True) e).
  { intros X e He w _. split; [|done]. destruct e; try done. by edestruct He. }
  assert (Hreads : ∀ X (e : kubeE X), is_read e = true → ok_call en (λ _, True) e) by (intros X []; try done; intros; by apply Hok).
  split; [done|]. eapply wp_mono; [|instantiate (1 := λ _ _, True)]; [intros r w _; split; [by apply Hok|intros; by apply Hok]|].
  assert (Hph : ∀ w, wp en (reconcile_phase params vm0) w (λ _ _, True)).
  { intros w. eapply wp_mono; [|apply (reconcile_phase_wp params en (λ _, True))]; auto; intros; by apply Hok. }
  unfold reconcile. destruct (negb _ && negb _).
  { apply update_vm_released. left. simpl. destruct (AddFinalizer_spec (MetaLaws := M) (vm_meta vm0) VMProtectionFinalizer) as (l & -> & Hl).
    destruct (vm_meta vm0). apply Hl. by left. }
  destruct (_ && deletable_phase _); [|by apply Hph]. unfold deleteAllVMPods. cbn [pbind call]. apply wp_call; [done|].
  intros [[|p items]|e] w2 [_ ->]; [| |done].
  - apply update_vm_released. right. simpl. by rewrite (proj2 (finalizers_keep_uid M _ _)).
  - apply wp_seq. wp_use (delete_vm_pods_wp en (λ _, True) Hreads); [|intros; by apply Hok|done]. intros [e|] w3 _; [done|]. apply Hph.
Qed.

(** The VM that was fetched, and the pods that were fetched since. *)
Definition track_pods X (e : kubeE X) : X → option VirtualMachine * list (NamespacedName * Pod) → option VirtualMachine * list (NamespacedName * Pod) :=
  match e with
  | GetVM _ => λ r w, match r with Ok vm => (Some vm, []) | Err _ => w end
  | GetPod key => λ r w, match r with Ok p => (fst w, (key, p) :: snd w) | Err _ => w end
  | _ => λ _ w, w
  end.

(** The VM's own pod was fetched, runs, and is what the status says of it. *)
Definition pod_seen (vm0 : VirtualMachine) (s : VirtualMachineStatus) (seen : list (NamespacedName * Pod)) : Prop :=
  ∃ p, (mkNN (om_Namespace (vm_meta vm0)) (VMPodName (Status vm0)), p) ∈ seen ∧
    IsControlledBy (pod_meta p) (vm_meta vm0) = true ∧ PodStatus_Phase (pod_Status p) = PodRunning ∧
    NodeName s = Pod_NodeName (pod_Spec p) ∧ VMPodUID s = om_UID (pod_meta p).

Definition may_schedule X (e : kubeE X) (w : option VirtualMachine * list (NamespacedName * Pod)) : Prop :=
  match e with
  | UpdateVMStatus vm =>
      ∃ vm0, fst w = Some vm0 ∧
        (Phase (Status vm) = VirtualMachineScheduled → Phase (Status vm0) ≠ VirtualMachineScheduled →
         pod_seen vm0 (Status vm) (snd w) ∧ allHotplugVolumesAttached vm0 = true)
  | _ => True
  end.

(** What is known of the exchange once a pod was fetched. *)
Definition has_seen (vm0 : VirtualMachine) (seen : list (NamespacedName * Pod)) (w : option VirtualMachine * list (NamespacedName * Pod)) : Prop :=
  fst w = Some vm0 ∧ ∀ x, x ∈ seen → x ∈ snd w.

Lemma has_seen_ok vm0 seen X (e : kubeE X) :
  (∀ k, existT X e ≠ existT _ (GetVM k)) → (∀ vm, existT X e ≠ existT _ (UpdateVMStatus vm)) →
  ok_call (server_env may_schedule track_pods) (has_seen vm0 seen) e.
Proof.
  intros H1 H2 w [Hf Hs]. split; [destruct e; try done; by edestruct H2|]. intros x w' [_ ->].
  destruct e; try done; [by edestruct H1|]. destruct x as [p|err]; [|done]. split; [done|]. simpl. set_solver.
Qed.

Lemma reconcile_scheduling_seen vm0 w :
  volumes_ok (Status vm0) → has_seen vm0 [] w →
  wp (server_env may_schedule track_pods) (reconcile_scheduling params vm0) w (λ r w', fst w' = Some vm0 ∧
    (Phase (Status (fst r)) = VirtualMachineScheduled → Phase (Status vm0) = VirtualMachineScheduling →
     pod_seen vm0 (Status (fst r)) (snd w') ∧ allHotplugVolumesAttached vm0 = true)).
Proof.
  intros Hv Hw. unfold reconcile_scheduling, get_vm_pod. cbn [pbind call]. apply wp_call; [done|].
  assert (Hreads : ∀ seen X (e : kubeE X), is_read e = true → ok_call (server_env may_schedule track_pods) (has_seen vm0 seen) e)
    by (intros seen X e He; apply has_seen_ok; intros ? ?; by destruct e).
  assert (Hnew : ∀ w', has_seen vm0 [] w' → wp (server_env may_schedule track_pods)
    (if decide (Phase (Status vm0) = VirtualMachineScheduling) then
         create_vm_pod vm0 (VMPodName (Status vm0)) "CreatedVMPod" (ErrWrap "build VM Pod") "VM Pod" (buildVMPod params vm0)
       else Ret (upd_Status (set_Phase VirtualMachineFailed) vm0, None)) w' (λ r w', fst w' = Some vm0 ∧
    (Phase (Status (fst r)) = VirtualMachineScheduled → Phase (Status vm0) = VirtualMachineScheduling →
     pod_seen vm0 (Status (fst r)) (snd w') ∧ allHotplugVolumesAttached vm0 = true))).
  { intros w' Hw'. case_decide as Hp; [|split; [apply Hw'|by destruct vm0 as [? ? []]]].
    eapply wp_mono; [|apply (create_vm_pod_wp _ (has_seen vm0 []) (Hreads [])); [intros; by apply has_seen_ok|done|]].
    - intros r w2 ([Hf _] & -> & _). split; [done|]. congruence.
    - eapply wp_mono; [|by apply (buildVMPod_wp _ _ (Hreads []))]. intros r w2 [Hw2 Hr]. split; [done|].
      intros pod vm' E. by destruct (Hr pod vm' E). }
  intros [pod|e] w1 [_ ->]; cbn [track_pods].
  2:{ destruct (IsNotFound e); [by apply Hnew|]. split; [apply Hw|]. intros ? ?. simpl in *. congruence. }
  set (key := mkNN _ _). set (w1 := (fst w, (key, pod) :: snd w)).
  destruct (IsControlledBy (pod_meta pod) (vm_meta vm0)) eqn:Ec; [|apply Hnew; split; [apply Hw|by intros ? ?%elem_of_nil]].
  assert (Hw1 : has_seen vm0 [(key, pod)] w1) by (split; [apply Hw|]; unfold w1; set_solver).
  cbn [pbind]. set (vm1 := upd_Status _ vm0). apply wp_seq. eapply wp_mono; [|instantiate (1 := λ _ w', has_seen vm0 [(key, pod)] w')].
  - intros [e|] w2 Hw2.
    + split; [apply Hw2|]. destruct vm0 as [? ? []]. simpl. congruence.
    + eapply wp_mono; [|apply (updateHotplugVolumeStatus_wp _ _ (Hreads [(key, pod)])); [|exact Hw2]].
      2:{ destruct (follow_pod_phase_status vm1 pod) as (p & -> & _). by destruct vm0 as [? ? []]. }
      intros r w3 [[Hf Hseen] (l & -> & _)]. split; [done|]. intros Hp Hp0.
      assert (Hp1 : Phase (Status vm1) = VirtualMachineScheduling) by (by destruct vm0 as [? ? []]).
      assert (Hfp : Phase (Status (follow_pod_phase vm1 pod)) = VirtualMachineScheduled)
        by (by destruct (follow_pod_phase vm1 pod) as [? ? []]).
      assert (Ha : allHotplugVolumesAttached vm1 = allHotplugVolumesAttached vm0) by (by destruct vm0 as [? ? []]).
      unfold follow_pod_phase in Hfp |- *. destruct (PodStatus_Phase (pod_Status pod)) eqn:Epp; try congruence;
        try (unfold vm1 in *; destruct vm0 as [? ? []]; simpl in Hfp; congruence).
      rewrite bool_decide_eq_true_2 in Hfp |- * by done. destruct (allHotplugVolumesAttached vm1) eqn:Eall; simpl in *; [|congruence].
      split; [|done]. exists pod. split_and!; [apply Hseen; left|done|done|by destruct vm0 as [? ? []]..].
  - clear Hnew. case_decide; [exact Hw1|]. apply handleHotplugVolumes_wp; [apply Hreads|intros; by apply has_seen_ok|intros; by apply has_seen_ok|done].
Qed.

(** C6: a VM becomes Scheduled, which hands it to the daemon of its node, only when its own
    pod was just fetched and runs, its hotplug volumes are all attached, and the node and pod
    UID in the status are that pod's. *)
Theorem scheduled_with_running_pod req :
  wp (server_env may_schedule track_pods) (Reconcile params req) (None, []) (λ _ _, True).
Proof.
  apply Reconcile_wp; [done|]. intros vm0 w1 [Hv ->]. specialize (Hv vm0 eq_refl). cbn [track_pods]. set (en := server_env _ _).
  exists (has_seen vm0 []). split; [by split|].
  assert (Hok : ∀ X (e : kubeE X), (∀ k, existT X e ≠ existT _ (GetVM k)) → (∀ vm, existT X e ≠ existT _ (UpdateVMStatus vm)) →
    ok_call en (has_seen vm0 []) e) by (intros; by apply has_seen_ok).
  assert (Hreads : ∀ X (e : kubeE X), is_read e = true → ok_call en (has_seen vm0 []) e)
    by (intros X e He; apply Hok; intros ? ?; by destruct e).
  split; [done|]. set (Q := λ (r : VirtualMachine * option goerror) (w : option VirtualMachine * list (NamespacedName * Pod)),
    fst w = Some vm0 ∧ (Phase (Status (fst r)) = VirtualMachineScheduled → Phase (Status vm0) ≠ VirtualMachineScheduled →
     pod_seen vm0 (Status (fst r)) (snd w) ∧ allHotplugVolumesAttached vm0 = true)).
  eapply wp_mono; [|instantiate (1 := Q)].
  { intros [vm err] w2 [Hf Hq]. split; [|intros; by apply Hok]. split; [by exists vm0|]. intros x w3 [_ ->]. split; [done|].
    by intros y ?%elem_of_nil. }
  assert (Hstay : ∀ err w, has_seen vm0 [] w → Q (vm0, err) w) by (intros err w [Hf _]; by split).
  assert (Hupd : ∀ vm w, Status vm = Status vm0 → has_seen vm0 [] w → wp en (update_vm vm) w Q).
  { intros vm w Hs [Hf _]. apply wp_call; [done|]. intros [vm'|e] w' [Hans ->]; (split; [done|]); cbn [fst].
    - cbn in Hans. destruct (Hans vm' eq_refl) as [-> _]. by rewrite Hs.
    - by rewrite Hs. }
  assert (Hph : ∀ w, has_seen vm0 [] w → wp en (reconcile_phase params vm0) w Q).
  { intros w Hw. destruct (decide (Phase (Status vm0) = VirtualMachineScheduling)) as [Hp|Hp].
    - unfold reconcile_phase. rewrite Hp. eapply wp_mono; [|apply reconcile_scheduling_seen; [exact Hv|exact Hw]].
      intros r w' [Hf Hq]. split; [done|]. intros H1 _. by apply Hq.
    - eapply wp_mono; [|apply (reconcile_phase_wp params en (has_seen vm0 []) Hreads); [intros; by apply Hok..|done|done]].
      intros r w' ([Hf _] & [Hst _ _ _ _ _] & _). split; [done|]. intros H1 H2. rewrite H1 in Hst. inversion Hst; subst; try congruence.
      intuition congruence. }
  unfold reconcile. destruct (negb _ && negb _); [by apply Hupd|]. destruct (_ && deletable_phase _); [|by apply Hph].
  wp_use (deleteAllVMPods_wp en (has_seen vm0 []) Hreads); [|intros; by apply Hok|done].
  intros [[|]|e] w1 Hw1; [by apply Hupd|by apply Hph|by apply Hstay].
Qed.

End Promises.

Section Garbage.
Context `{K : K8s}.

(** An API server that holds these pods of a VM and deletes what it is asked to delete; the
    world is what was deleted. *)
Definition gc_env (uid : string) (items : list Pod) : env kubeE (list Pod) :=
  mkEnv (λ X e _, match e with ListVMPods u => u = uid | DeletePod _ | Eventf _ _ _ => True | _ => False end)
    (λ X e w, match e in kubeE X return X → list Pod → Prop with
       | ListVMPods _ => λ r w', r = Ok items ∧ w' = w
       | DeletePod p => λ err w', IgnoreNotFound err = None ∧ w' = w ++ [p]
       | _ => λ _ w', w' = w
       end) False.

(** Not terminating, neither the VM's pod nor the target of its migration. *)
Definition garbage (vm : VirtualMachine) (p : Pod) : Prop :=
  Time_IsZero (om_DeletionTimestamp (pod_meta p)) = true ∧
  om_Name (pod_meta p) ∉ VMPodName (Status vm) :: from_option (λ m, [TargetVMPodName m]) [] (Migration (Status vm)).
#[global] Instance garbage_dec vm : ∀ p, Decision (garbage vm p).
Proof. intros p. unfold garbage. apply _. Defined.

(** Garbage collection deletes exactly the pods of the VM that are neither its pod nor
    the target of its migration and that are not terminating already. *)
Theorem gc_deletes_garbage vm items :
  wp (gc_env (om_UID (vm_meta vm)) items) (gcVMPods vm) [] (λ err deleted, err = None ∧ deleted = filter (garbage vm) items).
Proof.
  unfold gcVMPods. cbn [pbind call]. apply wp_call; [done|]. intros r w [-> ->]. set (skip := λ p, _).
  assert (Hskip : ∀ p, negb (Time_IsZero (om_DeletionTimestamp (pod_meta p))) || skip p = false ↔ garbage vm p).
  { intros p. rewrite orb_false_iff, negb_false_iff. unfold skip, garbage. rewrite orb_false_iff, bool_decide_eq_false.
    destruct (Migration (Status vm)); simpl; [rewrite bool_decide_eq_false|]; rewrite ?not_elem_of_cons; set_solver. }
  cut (∀ done, wp (gc_env (om_UID (vm_meta vm)) items) (delete_vm_pods (vm_meta vm) skip items) done
    (λ err deleted, err = None ∧ deleted = done ++ filter (garbage vm) items)); [intros Hc; apply (Hc [])|].
  clearbody skip. generalize items at 2 3 as l. induction l as [|p l IH]; intros done; cbn [delete_vm_pods].
  { by rewrite app_nil_r. }
  rewrite filter_cons. destruct (_ || _) eqn:E.
  - rewrite decide_False; [apply IH|]. rewrite <- Hskip. by rewrite E.
  - rewrite decide_True by (by apply Hskip). cbn [pbind call]. apply wp_call; [done|]. intros err w [-> ->].
    cbn [pbind call]. apply wp_call; [done|]. intros _ w ->. eapply wp_mono; [|apply IH]. intros r w' [-> ->].
    by rewrite <- app_assoc.
Qed.
End Garbage.

(** ** A concrete exchange *)

Section Sample.
#[local] Existing Instance k8s_concrete.
#[local] Existing Instance k8s_concrete_laws.

(** A VM being scheduled whose pod runs. *)
Definition schedulingVM : VirtualMachine :=
  mkVM (set_Finalizers [VMProtectionFinalizer] (sampleMeta "vm" "vm-uid")) (sampleSpec [sampleDisk])
    (set_Phase VirtualMachineScheduling (set_VMPodName "vm-vm-x1" emptyVMStatus)).

Definition ownedPod (name : string) : Pod :=
  mkPod (set_OwnerReferences [mkOwnerReference SchemeGroupVersion VMKind "vm" "vm-uid" (Some true) (Some true)] (sampleMeta name (name +:+ "-uid")))
    (mkPodSpec "node-1" false None [] None [] [] []) (mkPodStatus PodRunning [] "10.1.0.4" []).

(** A server that holds [vm], its pod, and a stale pod. *)
Definition sample_answer (vm : VirtualMachine) X (e : kubeE X) : X :=
  match e with
  | GetVM _ => Ok vm
  | GetVMM _ | GetPVC_ _ | GetNAD _ => Err (ErrMsg "unavailable")
  | GetPod _ => Ok (ownedPod "vm-vm-x1")
  | IsPopulated _ _ => Ok true
  | ListPods _ => Ok []
  | ListVMPods _ => Ok [ownedPod "vm-vm-x1"; ownedPod "vm-vm-x0"]
  | ListVMs _ => Ok [vm]
  | ListVMMs _ => Ok []
  | CreatePod _ | DeletePod _ | UpdateVMStatus _ | UpdateVMMStatus _ => None
  | UpdateVM vm' => Ok vm'
  | GenerateName base => (base +:+ "abcde")%string
  | Eventf _ _ _ => tt
  | Now => 0
  end.

Definition sample_handler {W} (track : ∀ X, kubeE X → X → W → W) (vm : VirtualMachine) : handler kubeE W :=
  λ X e w, let x := sample_answer vm X e in (x, track X e x w).

Lemma sample_conforms {W} (may : ∀ X, kubeE X → W → Prop) (track : ∀ X, kubeE X → X → W → W) vm :
  volumes_ok (Status vm) → conforms (server_env may track) (sample_handler track vm).
Proof. intros Hv X e w _. split; [|done]. destruct e; try done; [by intros ? [= <-]|by intros ? [= <-]]. Qed.



Lemma finalizer_guards_pods_witness :
  ∃ res w', run (sample_handler track_list schedulingVM) (Reconcile sampleParams (mkNN "default" "vm")) None = (Returned res, w').
Proof.
  destruct (wp_run (server_env may_release track_list) (sample_handler track_list schedulingVM)
    (Reconcile sampleParams (mkNN "default" "vm")) None (λ _ _, True)) as (res & w' & E & _).
  - apply sample_conforms. apply Forall_nil_2.
  - intros [].
  - apply (finalizer_guards_pods k8s_concrete_meta).
  - exists res, w'. exact E.
Defined.

Lemma scheduled_with_running_pod_witness :
  ∃ res w', run (sample_handler track_pods schedulingVM) (Reconcile sampleParams (mkNN "default" "vm")) (None, []) = (Returned res, w').
Proof.
  destruct (wp_run (server_env may_schedule track_pods) (sample_handler track_pods schedulingVM)
    (Reconcile sampleParams (mkNN "default" "vm")) (None, []) (λ _ _, True)) as (res & w' & E & _).
  - apply sample_conforms. apply Forall_nil_2.
  - intros [].
  - apply (scheduled_with_running_pod k8s_concrete_meta).
  - exists res, w'. exact E.
Defined.

(** The statuses written and the pods deleted. *)
Definition track_writes X (e : kubeE X) (_ : X) (w : list VirtualMachinePhase * list string) : list VirtualMachinePhase * list string :=
  match e with
  | UpdateVMStatus vm => (Phase (Status vm) :: fst w, snd w)
  | DeletePod p => (fst w, om_Name (pod_meta p) :: snd w)
  | _ => w
  end.

(** In the exchange above the VM becomes Scheduled and the stale pod goes away. *)
Example sample_exchange :
  run (sample_handler track_writes schedulingVM) (Reconcile sampleParams (mkNN "default" "vm")) ([], []) =
    (Returned (emptyResult, None), ([VirtualMachineScheduled], ["vm-vm-x0"])).
Proof. vm_compute. reflexivity. Qed.

End Sample.
