(* ===== verification/ReplicaSet.v ===== *)
(** * Replica sets of virtual machines: pkg/controller/vmrs_webhook.go and vmrs_controller.go

    The admission handlers are functions; the controller is a program over the calls of
    [rsE]: requests to the API server, the event recorder, the work queue, the clock, the
    goroutine scheduler, and the operations on the expectations that the controller shares
    with its event handlers. *)

From stdpp Require Import base gmap strings list sets fin_maps sorting.
From Stdlib Require Import ZArith Lia.
From S2P Require Import Prelude GoStd K8s ApiTypes Goroutines Expectations VmValidate.
Open Scope Z_scope.

(** ** Admission: vmrs_webhook.go *)

Section Webhook.
Context `{K8s}.

Definition defaultReplicas : Z := 1.

Definition set_Replicas (r : option Z) (s : VirtualMachineReplicaSetSpec) : VirtualMachineReplicaSetSpec :=
  mkRSSpec r (Paused s) (Selector s) (Template s).
Definition set_vmrs_Spec (s : VirtualMachineReplicaSetSpec) (v : VirtualMachineReplicaSet) : VirtualMachineReplicaSet :=
  mkVMRS (vmrs_meta v) s (vmrs_Status v).
Definition set_vmrs_Status (s : VirtualMachineReplicaSetStatus) (v : VirtualMachineReplicaSet) : VirtualMachineReplicaSet :=
  mkVMRS (vmrs_meta v) (vmrs_Spec v) s.

Definition MutateVMReplicaSet (vmrs : VirtualMachineReplicaSet) (oldVMR : option VirtualMachineReplicaSet)
    : result VirtualMachineReplicaSet :=
  Ok match Replicas (vmrs_Spec vmrs) with
     | None => set_vmrs_Spec (set_Replicas (Some defaultReplicas) (vmrs_Spec vmrs)) vmrs
     | Some _ => vmrs
     end.

Definition VMReplicaSetMutator_Handle (marshal : VirtualMachineReplicaSet → result string) (op : Operation)
    (decoded decodedOld : result VirtualMachineReplicaSet) : Response string :=
  let finish r :=
    match r with
    | Err e => Errored StatusInternalServerError e
    | Ok v => match marshal v with
              | Err e => Errored StatusInternalServerError (ErrFmt "marshal VMReplicaSet" e)
              | Ok json => Patched json
              end
    end in
  match decoded with
  | Err e => Errored StatusBadRequest (ErrFmt "unmarshal VMReplicaSet" e)
  | Ok vmrs =>
      match op with
      | OpCreate => finish (MutateVMReplicaSet vmrs None)
      | OpUpdate => match decodedOld with
                    | Err e => Errored StatusBadRequest (ErrFmt "unmarshal old VMReplicaSet" e)
                    | Ok old => finish (MutateVMReplicaSet vmrs (Some old))
                    end
      | OpOther => Allowed
      end
  end.

Definition child3 (p : fieldPath) (a b c : string) : fieldPath := child (child (child p a) b) c.

Definition ValidateVMReplicaSetSpec (spec : option VirtualMachineReplicaSetSpec) (p : fieldPath) : ErrorList :=
  nonnil spec p (λ spec,
    err_if (negb (is_some (Selector spec))) (Required (child p "selector") "")
    ++ match Replicas spec with
       | Some r => err_if (r <? 0) (Invalid (child p "replicas") (BadInt r) "must be greater than or equal to 0")
       | None => []
       end
    ++ match Template spec with
       | None => [Required (child p "template") ""]
       | Some t =>
           match om_Labels (Template_meta t), Selector spec with
           | None, _ => [Required (child3 p "template" "metadata" "labels") ""]
           | Some _, None => []
           | Some ls, Some sel =>
               match LabelSelectorAsSelector (Some sel) with
               | Err _ => [Invalid (child p "selector") BadSelector "invalid selector"]
               | Ok matches_ =>
                   err_if (negb (matches_ ls))
                     (Invalid (child3 p "template" "metadata" "labels") (BadLabels ls) "must match selector")
               end
           end
       end).

Definition ValidateVMReplicaSetUpdate (vmrs old : VirtualMachineReplicaSet) : outcome ErrorList :=
  let selErrs := err_if (negb (bool_decide (Selector (vmrs_Spec vmrs) = Selector (vmrs_Spec old))))
    (Forbidden (child spec_path "selector") "field is immutable") in
  match Template (vmrs_Spec vmrs), Template (vmrs_Spec old) with
  | Some t, Some t' =>
      Returned (selErrs ++ err_if (negb (bool_decide (Template_Spec t = Template_Spec t')))
        (Forbidden (child (child spec_path "template") "spec") "field is immutable"))
  | _, _ => Panicked "nil pointer dereference"
  end.

Definition ValidateVMReplicaSet (vmrs : VirtualMachineReplicaSet) (old : option VirtualMachineReplicaSet) : outcome ErrorList :=
  let errs := ValidateVMReplicaSetSpec (Some (vmrs_Spec vmrs)) spec_path in
  match old with
  | None => Returned errs
  | Some o => (let? errs' := ValidateVMReplicaSetUpdate vmrs o in Returned (errs ++ errs'))%go
  end.

Definition VMReplicaSetValidator_Handle (op : Operation) (decoded decodedOld : result VirtualMachineReplicaSet)
    : outcome (Response string) :=
  match decoded with
  | Err e => Returned (Errored StatusBadRequest (ErrFmt "unmarshal VMReplicaSet" e))
  | Ok vmrs =>
      match op with
      | OpCreate => (let? errs := ValidateVMReplicaSet vmrs None in Returned (deny_if_any errs))%go
      | OpUpdate => match decodedOld with
                    | Err e => Returned (Errored StatusBadRequest (ErrFmt "unmarshal old VMReplicaSet" e))
                    | Ok old => (let? errs := ValidateVMReplicaSet vmrs (Some old) in Returned (deny_if_any errs))%go
                    end
      | OpOther => Returned Allowed
      end
  end.

End Webhook.

(** ** The controller's calls *)

Abbreviation Tracking := (UIDTracking.State (S := gmap string ControlleeExpectations)).

Section Controller.
Context `{K8s}.

Inductive rsE : Type → Type :=
| RS_Get (key : NamespacedName) : rsE (result VirtualMachineReplicaSet)
(** [List] of the VMs of a namespace whose [vmrUID] index holds the UID *)
| RS_ListVMs (namespace uid : string) : rsE (result (list VirtualMachine))
| RS_ListReplicaSets (namespace : string) : rsE (result (list VirtualMachineReplicaSet))
| RS_Create (vm : VirtualMachine) : rsE (option goerror)
| RS_Delete (vm : VirtualMachine) : rsE (option goerror)
| RS_StatusUpdate (vmrs : VirtualMachineReplicaSet) : rsE (option goerror)
| RS_Eventf (about : ObjectMeta) (type reason : string) : rsE unit
| RS_Enqueue (key : NamespacedName) : rsE unit
| RS_Now : rsE Z
| RS_Pick (n : nat) : rsE nat
(** an atomic operation on the shared expectations, at the current time *)
| RS_Expectations {X : Type} (op : Z → Tracking → X * Tracking) : rsE X.

Definition update_expectations (f : Z → Tracking → Tracking) : prog rsE unit :=
  call (RS_Expectations (λ now u, (tt, f now u))).

Definition EventTypeWarning : string := "Warning".
Definition EventTypeNormal : string := "Normal".

Definition RSKind : string := "VirtualMachineReplicaSet".

Definition BurstReplicas : Z := 10.

Definition key_of (m : ObjectMeta) : string := NN_String (ObjectKey m).

(** *** Helpers *)

Definition isVMFinal (vm : VirtualMachine) : bool :=
  bool_decide (Phase (Status vm) = VirtualMachineFailed) || bool_decide (Phase (Status vm) = VirtualMachineSucceeded).

Definition isVMActive (vm : VirtualMachine) : bool :=
  negb (isVMFinal vm) && Time_IsZero (om_DeletionTimestamp (vm_meta vm)).

Definition isVMReady (vm : VirtualMachine) : bool :=
  negb (bool_decide (Phase (Status vm) = VirtualMachinePhaseUnset)) && isVMActive vm
  && bool_decide (Phase (Status vm) = VirtualMachineRunning)
  && IsStatusConditionTrue (Conditions (Status vm)) VirtualMachineReady.

Definition isVMAvailable (vm : VirtualMachine) : bool :=
  isVMReady vm && negb (bool_decide (Phase (Status vm) = VirtualMachineUnknown)).

Definition isVMFinished (vm : VirtualMachine) : bool :=
  bool_decide (Phase (Status vm) = VirtualMachineFailed) || bool_decide (Phase (Status vm) = VirtualMachineSucceeded).

Definition isVMUnknown (vm : VirtualMachine) : bool := bool_decide (Phase (Status vm) = VirtualMachineUnknown).

Definition filter_vms (vms : list VirtualMachine) (f : VirtualMachine → bool) : list VirtualMachine :=
  filter (λ vm, f vm = true) vms.

Definition filterFinishedVMs (vms : list VirtualMachine) : list VirtualMachine := filter_vms vms isVMFinished.
Definition filterUnknownVMs (vms : list VirtualMachine) : list VirtualMachine := filter_vms vms isVMUnknown.
Definition filterReadyVMs (vms : list VirtualMachine) : list VirtualMachine := filter_vms vms isVMReady.
Definition filterActiveVMs (vms : list VirtualMachine) : list VirtualMachine := filter_vms vms isVMActive.

(** [sort.Slice] by creation time. *)
Definition older (a b : VirtualMachine) : Prop := om_CreationTimestamp (vm_meta a) ≤ om_CreationTimestamp (vm_meta b).
Definition newer (a b : VirtualMachine) : Prop := om_CreationTimestamp (vm_meta b) ≤ om_CreationTimestamp (vm_meta a).

#[export] Instance older_dec : RelDecision older.
Proof. intros a b. unfold older. apply _. Defined.
#[export] Instance newer_dec : RelDecision newer.
Proof. intros a b. unfold newer. apply _. Defined.

Definition sortVMsByCreationTimestamp (vms : list VirtualMachine) (ascending : bool) : list VirtualMachine :=
  if ascending then merge_sort older vms else merge_sort newer vms.

(** The VMs to delete; the sort is in place, but only their number is used afterwards. *)
Definition getVMsToDelete (filterVms : list VirtualMachine) (diff : Z) : outcome (list VirtualMachine) :=
  let l := if diff <? Z.of_nat (length filterVms) then sortVMsByCreationTimestamp filterVms false else filterVms in
  if Z.of_nat (length filterVms) <? diff then Panicked "slice bounds out of range"
  else Returned (take (Z.to_nat diff) l).

Definition deepcopyVMsLabelSet (t : VirtualMachineTemplateSpec) : gmap string string :=
  default ∅ (om_Labels (Template_meta t)).
Definition deepcopyVMsAnnotationSet (t : VirtualMachineTemplateSpec) : gmap string string :=
  default ∅ (om_Annotations (Template_meta t)).

Definition OwnerRef (rs : VirtualMachineReplicaSet) : OwnerReference :=
  mkOwnerReference SchemeGroupVersion RSKind (om_Name (vmrs_meta rs)) (om_UID (vmrs_meta rs)) (Some true) (Some true).

(** *** Conditions of the status *)

Definition getCondition (s : VirtualMachineReplicaSetStatus) (ty : string) : option VirtualMachineReplicaSetCondition :=
  head (filter (λ c, rc_Type c = ty) (rs_Conditions s)).

Definition hasCondition (s : VirtualMachineReplicaSetStatus) (ty : string) : bool :=
  existsb (λ c, bool_decide (rc_Type c = ty)) (rs_Conditions s).

Definition filterOutCondition (cs : list VirtualMachineReplicaSetCondition) (ty : string)
    : list VirtualMachineReplicaSetCondition := filter (λ c, rc_Type c ≠ ty) cs.

Definition set_rs_Conditions (cs : list VirtualMachineReplicaSetCondition) (s : VirtualMachineReplicaSetStatus)
    : VirtualMachineReplicaSetStatus :=
  mkRSStatus (rs_Replicas s) (rs_ReadyReplicas s) (rs_AvailableReplicas s) (rs_ObservedGeneration s) cs.

Definition removeCondition (s : VirtualMachineReplicaSetStatus) (ty : string) : VirtualMachineReplicaSetStatus :=
  set_rs_Conditions (filterOutCondition (rs_Conditions s) ty) s.

(** *** Creating and deleting VMs *)

Definition DeleteVM (vm : VirtualMachine) (obj : ObjectMeta) : prog rsE (option goerror) :=
  (let! err := call (RS_Delete vm) in
   match err with
   | Some e =>
       if IsNotFound e then call (RS_Eventf obj EventTypeNormal "SuccessfulDelete") ;;; Ret None
       else
         update_expectations (λ _, UIDTracking.DeletionObserved (key_of obj) (key_of (vm_meta vm))) ;;;
         call (RS_Eventf obj EventTypeWarning "FailedDelete") ;;;
         Ret (Some e)
   | None => call (RS_Eventf obj EventTypeNormal "SuccessfulDelete") ;;; Ret None
   end)%go.

(** The VM a replica set creates, before its owner is set. *)
Definition newVM (t : VirtualMachineTemplateSpec) (parent : ObjectMeta) : VirtualMachine :=
  mkVM (mkObjectMeta "" (om_Name parent +:+ "-") (om_Namespace parent) "" "" 0 0 None
          (Some (deepcopyVMsLabelSet t)) (Some (deepcopyVMsAnnotationSet t)) [] [])
       (Template_Spec t) emptyVMStatus.

Definition createVM (template : option VirtualMachineTemplateSpec) (parent : ObjectMeta) : prog rsE (option goerror) :=
  match template with
  | None => Crash "nil pointer dereference"
  | Some t =>
      let vm := newVM t parent in
      match SetControllerReference SchemeGroupVersion RSKind parent (vm_meta vm) with
      | Err e => Ret (Some (ErrFmt "failed to set controller reference" e))
      | Ok m =>
          (let! err := call (RS_Create (set_meta m vm)) in
           match err with
           | Some e =>
               update_expectations (λ _, UIDTracking.CreationObserved (key_of parent)) ;;;
               (if negb (IsNamespaceTerminating e)
                then call (RS_Eventf parent EventTypeWarning "FailedCreate") else Ret tt) ;;;
               Ret (Some e)
           | None => call (RS_Eventf parent EventTypeNormal "SuccessfulCreate") ;;; Ret None
           end)%go
      end
  end.

(** [maxDiff]: at most [BurstReplicas] at a time. *)
Definition maxDiff (diff : Z) : Z := Z.min (Z.abs diff) BurstReplicas.

(** Each goroutine makes at most five calls. *)
Definition group_fuel (n : nat) : nat := (6 * n)%nat.

Definition scaleVMs (vmrs : VirtualMachineReplicaSet) (vms : list VirtualMachine) : prog rsE (option goerror) :=
  let replicas := default 1 (Replicas (vmrs_Spec vmrs)) in
  let diff := Z.of_nat (length vms) - replicas in
  let key := key_of (vmrs_meta vmrs) in
  if diff =? 0 then Ret None
  else if diff <? 0 then
    (update_expectations (λ now, UIDTracking.ExpectCreations now key (maxDiff diff)) ;;;
     let! errs := group RS_Pick (group_fuel (Z.to_nat (maxDiff diff))) (maxDiff diff)
       (replicate (Z.to_nat (maxDiff diff)) (createVM (Template (vmrs_Spec vmrs)) (vmrs_meta vmrs))) [] in
     Ret (first_error errs))%go
  else
    match getVMsToDelete vms (maxDiff diff) with
    | Panicked why => Crash why
    | Returned vmToDelete =>
        (update_expectations (λ now, UIDTracking.ExpectDeletions now key ((key_of ∘ vm_meta) <$> vmToDelete)) ;;;
         let! errs := group RS_Pick (group_fuel (length vmToDelete)) (maxDiff diff)
           ((λ vm, let! err := DeleteVM vm (vmrs_meta vmrs) in
                   match err with
                   | Some e => call (RS_Eventf (vmrs_meta vmrs) EventTypeWarning "FailedDelete") ;;; Ret (Some e)
                   | None => Ret None
                   end) <$> vmToDelete) [] in
         Ret (first_error errs))%go
    end.

Definition cleanVMs (vmrs : VirtualMachineReplicaSet) (vms : list VirtualMachine) : prog rsE (option goerror) :=
  (let! errs := group RS_Pick (group_fuel (length vms)) (maxDiff (Z.of_nat (length vms)))
     ((λ vm, DeleteVM vm (vmrs_meta vmrs)) <$> vms) [] in
   Ret (first_error errs))%go.

Definition getControlledVMs (vmrs : VirtualMachineReplicaSet) : prog rsE (result (list VirtualMachine)) :=
  (let! r := call (RS_ListVMs (om_Namespace (vmrs_meta vmrs)) (om_UID (vmrs_meta vmrs))) in
   match r with
   | Err e => Ret (Err e)
   | Ok items =>
       match LabelSelectorAsSelector (Selector (vmrs_Spec vmrs)) with
       | Err e => Ret (Err (ErrWrap "failed to convert label selector" e))
       | Ok matches_ => Ret (Ok (filter_vms items (λ vm, matches_ (default ∅ (om_Labels (vm_meta vm))))))
       end
   end)%go.

(** *** Status *)

(** The [ReplicaFailure] block. *)
Definition failure_condition (vmrs : VirtualMachineReplicaSet) (vms : list VirtualMachine) (scaleErr : option goerror)
    : prog rsE VirtualMachineReplicaSetStatus :=
  let st := vmrs_Status vmrs in
  match scaleErr, getCondition st VirtualMachineReplicaSetReplicaFailure with
  | Some e, None =>
      match Replicas (vmrs_Spec vmrs) with
      | None => Crash "nil pointer dereference"
      | Some r =>
          let diff := Z.of_nat (length vms) - r in
          let reason := if diff <? 0 then "FailedCreate" else if 0 <? diff then "FailedDelete" else "" in
          (let! t1 := call RS_Now in
           let! t2 := call RS_Now in
           Ret (set_rs_Conditions (rs_Conditions st ++
             [mkRSCondition VirtualMachineReplicaSetReplicaFailure ConditionTrue t2 t1 reason e]) st))%go
      end
  | None, Some _ => Ret (removeCondition st VirtualMachineReplicaSetReplicaFailure)
  | _, _ => Ret st
  end.

(** The [ReplicaPaused] block. *)
Definition paused_condition (paused : bool) (st : VirtualMachineReplicaSetStatus) : prog rsE VirtualMachineReplicaSetStatus :=
  if paused && negb (hasCondition st VirtualMachineReplicaSetPaused) then
    (let! t1 := call RS_Now in
     let! t2 := call RS_Now in
     Ret (set_rs_Conditions (rs_Conditions st ++
       [mkRSCondition VirtualMachineReplicaSetPaused ConditionTrue t2 t1 "Paused"
          (ErrMsg "VirtualMachineReplicaSet is paused")]) st))%go
  else if negb paused && hasCondition st VirtualMachineReplicaSetPaused then
    Ret (removeCondition st VirtualMachineReplicaSetPaused)
  else Ret st.

Definition calculateStatus (vmrs : VirtualMachineReplicaSet) (vms : list VirtualMachine) (scaleErr : option goerror)
    : prog rsE (VirtualMachineReplicaSet * option goerror) :=
  match Template (vmrs_Spec vmrs) with
  | None => Crash "nil pointer dereference"
  | Some t =>
      let matching := filter_vms vms (λ vm,
        SetMatches (default ∅ (om_Labels (Template_meta t))) (default ∅ (om_Labels (vm_meta vm)))) in
      (let! st := failure_condition vmrs vms scaleErr in
       let! st := paused_condition (Paused (vmrs_Spec vmrs)) st in
       Ret (set_vmrs_Status
              (mkRSStatus (i32 (Z.of_nat (length vms)))
                 (i32 (Z.of_nat (length (filterReadyVMs matching))))
                 (i32 (Z.of_nat (length (filter_vms matching isVMAvailable))))
                 (om_Generation (vmrs_meta vmrs)) (rs_Conditions st)) vmrs, None))%go
  end.

(** *** Reconcile *)

Definition reconcile (vmrs : VirtualMachineReplicaSet) : prog rsE (VirtualMachineReplicaSet * option goerror) :=
  (let! needsSync := call (RS_Expectations (λ now u, (UIDTracking.SatisfiedExpectations now (key_of (vmrs_meta vmrs)) u, u))) in
   let! r := getControlledVMs vmrs in
   match r with
   | Err e => Ret (vmrs, Some (ErrFmt "failed to get controlled VMs" e))
   | Ok vms =>
       let activeVms := filterActiveVMs vms in
       let finishedVms := filterFinishedVMs vms ++ filterUnknownVMs vms in
       let! scaleErr :=
         (if needsSync && negb (Paused (vmrs_Spec vmrs)) && Time_IsZero (om_DeletionTimestamp (vmrs_meta vmrs)) then
            let! scaleErr := scaleVMs vmrs activeVms in
            match finishedVms, scaleErr with
            | _ :: _, None => cleanVMs vmrs finishedVms
            | _, _ => Ret scaleErr
            end
          else Ret None) in
       calculateStatus vmrs activeVms scaleErr
   end)%go.

Definition same_status (a b : VirtualMachineReplicaSetStatus) : bool :=
  (rs_Replicas a =? rs_Replicas b) && (rs_ReadyReplicas a =? rs_ReadyReplicas b)
  && (rs_AvailableReplicas a =? rs_AvailableReplicas b) && (rs_ObservedGeneration a =? rs_ObservedGeneration b)
  && bool_decide (rs_Conditions a = rs_Conditions b).

(** [Reconcile].  [oldStatus] is a pointer and [vmrs.Status] a value, so the
    [reflect.DeepEqual] before the status update is always false. *)
Definition Reconcile (req : NamespacedName) : prog rsE (Result * option goerror) :=
  (let! r := call (RS_Get req) in
   match r with
   | Err e =>
       update_expectations (λ _, UIDTracking.DeleteExpectations (NN_String req)) ;;;
       Ret (emptyResult, IgnoreNotFound (Some e))
   | Ok vmrs =>
       let! (vmrs', rerr) := reconcile vmrs in
       if same_status (vmrs_Status vmrs) (vmrs_Status vmrs') then Ret (emptyResult, None)
       else
         let! err := call (RS_StatusUpdate vmrs') in
         match err, rerr with
         | Some e, None =>
             if IsConflict e then Ret (mkResult true 0, None)
             else Ret (emptyResult, Some (ErrFmt "update VMReplicaSet status" e))
         | _, Some re =>
             match as_reconcileError re with
             | Some res => Ret (res, None)
             | None => call (RS_Eventf (vmrs_meta vmrs') EventTypeWarning "FailedReconcile") ;;; Ret (emptyResult, Some re)
             end
         | None, None => Ret (emptyResult, None)
         end
   end)%go.

(** *** Event handlers of [SetupWithManager] *)

Definition resolveControllerRef (namespace : string) (ref : OwnerReference) : prog rsE (option VirtualMachineReplicaSet) :=
  if negb (bool_decide (or_Kind ref = RSKind)) then Ret None
  else
    (let! r := call (RS_Get (mkNN namespace (or_Name ref))) in
     match r with
     | Err _ => Ret None
     | Ok vmrs => if decide (om_UID (vmrs_meta vmrs) = or_UID ref) then Ret (Some vmrs) else Ret None
     end)%go.

Fixpoint matching_controllers (ls : gmap string string) (items : list VirtualMachineReplicaSet)
    : option (list VirtualMachineReplicaSet) :=
  match items with
  | [] => Some []
  | rs :: items' =>
      match LabelSelectorAsSelector (Selector (vmrs_Spec rs)) with
      | Err _ => None
      | Ok matches_ =>
          rest ← matching_controllers ls items';
          Some (if matches_ ls then rs :: rest else rest)
      end
  end.

Definition getMatchingControllers (vm : VirtualMachine) : prog rsE (list VirtualMachineReplicaSet) :=
  (let! r := call (RS_ListReplicaSets (om_Namespace (vm_meta vm))) in
   match r with
   | Err _ => Ret []
   | Ok items => Ret (default [] (matching_controllers (default ∅ (om_Labels (vm_meta vm))) items))
   end)%go.

Fixpoint enqueue_all (l : list VirtualMachineReplicaSet) : prog rsE unit :=
  match l with
  | [] => Ret tt
  | rs :: l' => (call (RS_Enqueue (ObjectKey (vmrs_meta rs))) ;;; enqueue_all l')%go
  end.

Definition deleteVM (vm : VirtualMachine) : prog rsE unit :=
  match GetControllerOf (vm_meta vm) with
  | None => Ret tt
  | Some ref =>
      let namespace := om_Namespace (vm_meta vm) in
      (let! rs := resolveControllerRef namespace ref in
       match rs with
       | None => Ret tt
       | Some vmrs =>
           update_expectations (λ _, UIDTracking.DeletionObserved (NN_String (mkNN namespace (or_Name ref)))
             (NN_String (mkNN namespace (om_Name (vm_meta vm))))) ;;;
           call (RS_Enqueue (ObjectKey (vmrs_meta vmrs)))
       end)%go
  end.

Definition CreateFunc (vm : VirtualMachine) : prog rsE unit :=
  if negb (Time_IsZero (om_DeletionTimestamp (vm_meta vm))) then deleteVM vm
  else
    match GetControllerOf (vm_meta vm) with
    | Some ref =>
        (let! rs := resolveControllerRef (om_Namespace (vm_meta vm)) ref in
         match rs with
         | Some rs =>
             update_expectations (λ _, UIDTracking.CreationObserved (key_of (vmrs_meta rs))) ;;;
             call (RS_Enqueue (ObjectKey (vmrs_meta rs)))
         | None => Ret tt
         end)%go
    | None => (let! rss := getMatchingControllers vm in enqueue_all rss)%go
    end.

Definition DeleteFunc (vm : VirtualMachine) : prog rsE unit := deleteVM vm.

(** [equality.Semantic.DeepEqual] does not tell a nil map from an empty one. *)
Definition same_labels (a b : VirtualMachine) : bool :=
  bool_decide (default ∅ (om_Labels (vm_meta a)) = (default ∅ (om_Labels (vm_meta b)) : gmap string string)).

Definition UpdateFunc (oldVM newVM : VirtualMachine) : prog rsE unit :=
  if decide (om_ResourceVersion (vm_meta oldVM) = om_ResourceVersion (vm_meta newVM)) then Ret tt
  else
    let labelChanged := negb (same_labels oldVM newVM) in
    ((if negb (Time_IsZero (om_DeletionTimestamp (vm_meta newVM))) then
        deleteVM newVM ;;; (if labelChanged then deleteVM oldVM else Ret tt)
      else Ret tt) ;;;
     let oldRef := GetControllerOf (vm_meta oldVM) in
     let newRef := GetControllerOf (vm_meta newVM) in
     let controllerRefChanged := negb (bool_decide (newRef = oldRef)) in
     (match oldRef with
      | Some ref =>
          if controllerRefChanged then
            let! rs := resolveControllerRef (om_Namespace (vm_meta oldVM)) ref in
            match rs with Some rs => call (RS_Enqueue (ObjectKey (vmrs_meta rs))) | None => Ret tt end
          else Ret tt
      | None => Ret tt
      end) ;;;
     match newRef with
     | Some ref =>
         let! rs := resolveControllerRef (om_Namespace (vm_meta newVM)) ref in
         match rs with Some rs => call (RS_Enqueue (ObjectKey (vmrs_meta rs))) | None => Ret tt end
     | None =>
         if labelChanged || controllerRefChanged then
           let! rss := getMatchingControllers newVM in enqueue_all rss
         else Ret tt
     end)%go.

(** The [vmrUID] field index. *)
Definition vmrUID (vm : VirtualMachine) : list string :=
  match GetControllerOf (vm_meta vm) with
  | Some ref => if decide (or_APIVersion ref = SchemeGroupVersion ∧ or_Kind ref = RSKind) then [or_UID ref] else []
  | None => []
  end.

End Controller.
