(* ===== verification/ReplicaSetProofs.v ===== *)
(** * Correctness of the replica set controller

    [rs_env] is the environment of one reconciliation: the API server answers as it
    likes, and between any two calls the watch may report creations and deletions, of any
    controller, to the shared expectations. *)

From stdpp Require Import base gmap strings list sets fin_maps sorting.
From Stdlib Require Import ZArith Lia.
From S2P Require Import Prelude GoStd K8s ApiTypes Goroutines Expectations VmValidate ReplicaSet.
Open Scope Z_scope.

#[local] Arguments GetExpectations : simpl never.
#[local] Arguments CreationObserved : simpl never.
#[local] Arguments DeletionObserved : simpl never.
#[local] Arguments ExpectCreations : simpl never.
#[local] Arguments ExpectDeletions : simpl never.

Section Proofs.
Context `{K : K8s}.

(** ** The environment *)

(** The expectations, the VMs this reconciliation created, the delete requests it made, and
    how many of the created ones the watch has reported. *)
Record rsW := mkW {
  w_tracking : Tracking;
  w_created : list VirtualMachine;
  w_deleted : list VirtualMachine;
  w_seen : Z
}.

(** The watch reports to the expectations: of the creations of [key] at most the ones made. *)
Definition rely (key : string) (w w' : rsW) : Prop :=
  ∃ obs, w' = mkW (foldl UIDTracking.observe (w_tracking w) obs) (w_created w) (w_deleted w)
                  (w_seen w + UIDTracking.creations key obs) ∧
         w_seen w' ≤ Z.of_nat (length (w_created w)).

(** The effect of a call.  An error of [Create] means the object was not created. *)
Definition rs_do {X} (e : rsE X) : rsW → X → rsW → Prop :=
  match e in rsE X return rsW → X → rsW → Prop with
  | RS_Create vm => λ w x w',
      match x with
      | None => w' = mkW (w_tracking w) (w_created w ++ [vm]) (w_deleted w) (w_seen w)
      | Some _ => w' = w
      end
  | RS_Delete vm => λ w x w', w' = mkW (w_tracking w) (w_created w) (w_deleted w ++ [vm]) (w_seen w)
  | RS_Expectations op => λ w x w',
      ∃ now tr, op now (w_tracking w) = (x, tr) ∧ w' = mkW tr (w_created w) (w_deleted w) (w_seen w)
  | _ => λ w x w', w' = w
  end.

Definition rs_env (key : string) : env rsE rsW := mkEnv
  (λ X e w, True) (λ X e w x w', ∃ w1, rs_do e w x w1 ∧ rely key w1 w') False.

(** ** Creating VMs *)

Section Create.
Context (t : VirtualMachineTemplateSpec) (parent : ObjectMeta) (m : ObjectMeta).
Hypothesis Hm : SetControllerReference SchemeGroupVersion RSKind parent (vm_meta (newVM t parent)) = Ok m.

Let key := key_of parent.
Let vm := set_meta m (newVM t parent).

(** Where a goroutine of [createVM] stands: before its request, after a failed one whose
    expectation is still to be lowered, or only about to record an event and return. *)
Inductive cstate := CStart | CFailed (e : goerror) | CTail (n : nat).

Definition tail_of (n : nat) (p : prog rsE (option goerror)) : Prop :=
  match n with
  | O => ∃ r, p = Ret r
  | S _ => ∃ m ty re r, p = Call (RS_Eventf m ty re) (λ _, Ret r)
  end.

Definition cT (g : cstate) (p : prog rsE (option goerror)) : Prop :=
  match g with
  | CStart => p = createVM (Some t) parent
  | CFailed e => p = (update_expectations (λ _, UIDTracking.CreationObserved key) ;;;
      (if negb (IsNamespaceTerminating e) then call (RS_Eventf parent EventTypeWarning "FailedCreate") else Ret tt) ;;;
      Ret (Some e))%go
  | CTail n => tail_of n p
  end.

Definition ccost (g : cstate) : nat := match g with CStart => 4 | CFailed _ => 3 | CTail n => n end.

(** One while the goroutine's expectation is neither lowered nor turned into a VM. *)
Definition live (g : cstate) : nat := match g with CTail _ => 0 | _ => 1 end.

(** The creation counter is the number of VMs created and not reported, plus the goroutines
    that have not settled. *)
Record cJ (n : nat) (gs : list cstate) (w : rsW) (errs : list goerror) : Prop := {
  cj_exp : ∃ e, GetExpectations key (UIDTracking.base (w_tracking w)) = Some e ∧
    exp_add e = Z.of_nat (sum_list_with live gs) + Z.of_nat (length (w_created w)) - w_seen w;
  cj_seen : 0 ≤ w_seen w ≤ Z.of_nat (length (w_created w));
  cj_count : (sum_list_with live gs + length (w_created w) ≤ n)%nat;
  cj_vms : Forall (λ v, v = vm) (w_created w);
  cj_del : w_deleted w = []
}.

Lemma rely_cJ n gs w w' errs : (n ≤ 10)%nat → cJ n gs w errs → rely key w w' → cJ n gs w' errs.
Proof.
  intros Hn [(e & Ee & Ha) Hs Hc Hv Hd] (obs & -> & Hs'). simpl in *.
  assert (0 ≤ UIDTracking.creations key obs) by (unfold UIDTracking.creations; lia).
  destruct (UIDTracking.observe_add key obs (w_tracking w) e Ee) as (e' & Ee' & Ha' & _); [lia..|].
  split; simpl; [|lia|done..]. exists e'. split; [done|]. lia.
Qed.

(** A call that keeps the invariant keeps it whatever the watch reports next. *)
Lemma cJ_then_rely n (gs : cstate → list cstate) w {X} (x : X) (e : rsE X) g errs (Q : cstate → Prop) :
  (n ≤ 10)%nat →
  (∀ w1, rs_do e w x w1 → ∃ g', Q g' ∧ (ccost g' < ccost g)%nat ∧ cJ n (gs g') w1 errs) →
  ∀ w', answers (rs_env key) e w x w' → ∃ g', Q g' ∧ (ccost g' < ccost g)%nat ∧ cJ n (gs g') w' errs.
Proof.
  intros Hn Hstep w' (w1 & Hdo & Hrely). destruct (Hstep w1 Hdo) as (g' & ? & ? & ?).
  exists g'. split_and!; [done..|by eapply rely_cJ].
Qed.

Lemma cJ_step n gs w errs i g p :
  (n ≤ 10)%nat → cJ n gs w errs → gs !! i = Some g → cT g p →
  match p with
  | Call e k =>
      allowed (rs_env key) e w ∧ ∀ x w', answers (rs_env key) e w x w' →
        ∃ g', cT g' (k x) ∧ (ccost g' < ccost g)%nat ∧ cJ n (<[i := g']> gs) w' errs
  | Ret r => cJ n (delete i gs) w (errs ++ option_list r)
  | Crash _ => False
  end.
Proof.
  intros Hn HJ Hi HT. destruct g as [|er|[|r]]; cbn [cT tail_of] in HT.
  - unfold createVM in HT. rewrite Hm in HT. subst p. cbn [pbind call]. split; [done|]. intros x.
    apply (cJ_then_rely n (λ g', <[i := g']> gs) w x _ CStart errs (λ g', cT g' _) Hn).
    intros w1 Hdo. simpl in Hdo. destruct HJ as [(ex & Ee & Ha) Hs Hc Hv Hd]. destruct x as [er|]; subst w1.
    + exists (CFailed er). split; [done|]. split; [simpl; lia|].
      pose proof (sum_list_with_insert live _ _ _ (CFailed er) Hi). simpl in *. split; [|done|lia|done..].
      exists ex. split; [done|]. lia.
    + exists (CTail 1). split; [by eexists _, _, _, _|]. split; [simpl; lia|].
      pose proof (sum_list_with_insert live _ _ _ (CTail 1) Hi). simpl in *.
      split; simpl; rewrite ?length_app; simpl; [|lia|lia| |done].
      * exists ex. split; [done|]. lia.
      * apply Forall_app. split; [done|]. by apply Forall_singleton.
  - subst p. cbn [pbind call update_expectations]. split; [done|]. intros x.
    apply (cJ_then_rely n (λ g', <[i := g']> gs) w x _ (CFailed er) errs (λ g', cT g' _) Hn).
    intros w1 (now & tr & Htr & ->). simplify_eq. destruct HJ as [(ex & Ee & Ha) Hs Hc Hv Hd].
    pose proof (sum_list_with_insert live _ _ _ (CTail (if negb (IsNamespaceTerminating er) then 1 else 0)) Hi).
    exists (CTail (if negb (IsNamespaceTerminating er) then 1 else 0)). split_and!.
    + destruct (IsNamespaceTerminating er); simpl; [by eexists|by eexists _, _, _, _].
    + destruct (IsNamespaceTerminating er); simpl; lia.
    + simpl in *. split; simpl; [|done|lia|done..].
      eexists. rewrite Get_CreationObserved, decide_True, Ee by done. split; [reflexivity|]. simpl.
      rewrite i64_small; lia.
  - destruct HT as [r ->]. pose proof (sum_list_with_delete live _ _ _ Hi). simpl in *.
    destruct HJ as [(ex & Eex & Hax) ? ? ? ?]. split; [|done|lia|done..]. exists ex. split; [done|]. lia.
  - destruct HT as (m' & ty & re & r' & ->). split; [done|]. intros x.
    apply (cJ_then_rely n (λ g', <[i := g']> gs) w x _ (CTail (S r)) errs (λ g', cT g' _) Hn).
    intros w1 Hdo. simpl in Hdo. subst w1.
    exists (CTail 0). split; [by eexists|]. split; [simpl; lia|].
    pose proof (sum_list_with_insert live _ _ _ (CTail 0) Hi). simpl in *.
    destruct HJ as [(ex & Ee & Ha) Hs Hc Hv Hd]. split; [|done|lia|done..]. exists ex. split; [done|]. lia.
Qed.

Lemma create_group n w :
  (n ≤ 10)%nat → w_created w = [] → w_deleted w = [] → w_seen w = 0 →
  (∃ e, GetExpectations key (UIDTracking.base (w_tracking w)) = Some e ∧ exp_add e = Z.of_nat n) →
  wp (rs_env key) (group RS_Pick (group_fuel n) (Z.of_nat n) (replicate n (createVM (Some t) parent)) []) w
    (λ errs w', cJ n [] w' errs).
Proof.
  intros Hn Hc Hd Hs (e & Ee & Ha).
  assert (Hsum : sum_list_with live (replicate n CStart) = n).
  { clear. induction n; simpl; lia. }
  replace (Z.of_nat n) with (Z.of_nat (length (replicate n (createVM (Some t) parent)))) at 1 by (by rewrite length_replicate).
  apply (wp_group RS_Pick (rs_env key) cT ccost (cJ n)) with (gs := replicate n CStart).
  - intros k w1 gs errs HJ. split; [done|]. intros i w' (w2 & Hdo & Hr). simpl in Hdo. subst w2. by eapply rely_cJ.
  - intros. by eapply cJ_step.
  - apply Forall2_replicate. done.
  - split; rewrite ?Hsum, ?Hc, ?Hs; simpl; [|lia|lia|done|done]. exists e. split; [done|]. lia.
  - unfold budget, group_fuel. clear. induction n; simpl in *; lia.
Qed.
End Create.

(** ** Deleting VMs *)

(** What a goroutine does after its delete request: at most [n] calls to the recorder or the
    expectations. *)
Fixpoint quiet (n : nat) (p : prog rsE (option goerror)) : Prop :=
  match p with
  | Ret _ => True
  | @Call _ _ X e k =>
      match n with
      | O => False
      | S n' => match e with RS_Eventf _ _ _ | RS_Expectations _ => True | _ => False end ∧ ∀ x, quiet n' (k x)
      end
  | Crash _ => False
  end.

Lemma quiet_unfold n p :
  quiet n p = match p with
  | Ret _ => True
  | @Call _ _ X e k =>
      match n with
      | O => False
      | S n' => match e with RS_Eventf _ _ _ | RS_Expectations _ => True | _ => False end ∧ ∀ x, quiet n' (k x)
      end
  | Crash _ => False
  end.
Proof. by destruct n. Qed.

(** A goroutine that asks for the deletion of one VM and then is quiet. *)
Definition deletes (vm : VirtualMachine) (p : prog rsE (option goerror)) : Prop :=
  match p with
  | Call e k => match e in rsE X return (X → prog rsE (option goerror)) → Prop with
                | RS_Delete v => λ k, v = vm ∧ ∀ x, quiet 3 (k x)
                | _ => λ _, False
                end k
  | _ => False
  end.

Lemma DeleteVM_deletes vm obj : deletes vm (DeleteVM vm obj).
Proof. split; [done|]. intros [e|]; simpl; [destruct (IsNotFound e); simpl|]; repeat (done || (split; [done|intros ?])). Qed.

Section Delete.
Context (key : string).

Inductive dstate := DStart (vm : VirtualMachine) | DQuiet (n : nat).

Definition dT (g : dstate) (p : prog rsE (option goerror)) : Prop :=
  match g with DStart vm => deletes vm p | DQuiet n => quiet n p end.
Definition dcost (g : dstate) : nat := match g with DStart _ => 4 | DQuiet n => n end.
Definition pending (gs : list dstate) : list VirtualMachine :=
  omap (λ g, match g with DStart vm => Some vm | DQuiet _ => None end) gs.

Record dJ (vms : list VirtualMachine) (gs : list dstate) (w : rsW) (errs : list goerror) : Prop := {
  dj_perm : w_deleted w ++ pending gs ≡ₚ vms;
  dj_created : w_created w = []
}.

Lemma pending_insert gs i vm n :
  gs !! i = Some (DStart vm) → vm :: pending (<[i := DQuiet n]> gs) ≡ₚ pending gs.
Proof.
  unfold pending. revert i. induction gs as [|g gs IH]; intros [|i] Hi; simpl in *; simplify_eq; [done|].
  specialize (IH i Hi). destruct g; simpl; [|done]. rewrite <-IH. apply Permutation_swap.
Qed.
Lemma pending_quiet gs i n n' :
  gs !! i = Some (DQuiet n) → pending (<[i := DQuiet n']> gs) = pending gs ∧ pending (delete i gs) = pending gs.
Proof.
  unfold pending. revert i. induction gs as [|g gs IH]; intros [|i] Hi; simpl in *; simplify_eq; [done|].
  destruct (IH i Hi) as [E1 E2]. destruct g; (split; [first [exact E1 | apply f_equal, E1]|first [exact E2 | apply f_equal, E2]]).
Qed.

Lemma rely_dJ vms gs w w' errs : dJ vms gs w errs → rely key w w' → dJ vms gs w' errs.
Proof. intros [? ?] (obs & -> & _). by split. Qed.

Lemma dJ_step vms gs w errs i g p :
  dJ vms gs w errs → gs !! i = Some g → dT g p →
  match p with
  | Call e k =>
      allowed (rs_env key) e w ∧ ∀ x w', answers (rs_env key) e w x w' →
        ∃ g', dT g' (k x) ∧ (dcost g' < dcost g)%nat ∧ dJ vms (<[i := g']> gs) w' errs
  | Ret r => dJ vms (delete i gs) w (errs ++ option_list r)
  | Crash _ => False
  end.
Proof.
  intros HJ Hi HT. destruct g as [vm|n]; cbn [dT] in HT.
  - destruct p as [|X e k|]; [done| |done]. destruct e; try done. destruct HT as [-> Hq]. split; [done|].
    intros x w' (w1 & -> & Hr). exists (DQuiet 3). split; [apply Hq|]. split; [simpl; lia|]. eapply rely_dJ; [|done].
    destruct HJ as [Hp Hc]. split; [|done]. simpl. rewrite <-app_assoc. simpl. by rewrite (pending_insert _ _ _ 3 Hi).
  - rewrite quiet_unfold in HT. destruct p as [r|X e k|]; [| |done].
    + destruct HJ as [Hp Hc]. split; [|done]. by rewrite (proj2 (pending_quiet _ _ _ 0 Hi)).
    + destruct n as [|n]; [done|]. destruct HT as [He Hq]. split; [done|].
      intros x w' (w1 & Hdo & Hr). exists (DQuiet n). split; [apply Hq|]. split; [simpl; lia|]. eapply rely_dJ; [|done].
      destruct HJ as [Hp Hc]. assert (Hw : w_deleted w1 = w_deleted w ∧ w_created w1 = w_created w).
      { destruct e; try done; simpl in Hdo; [by subst|]. by destruct Hdo as (? & ? & _ & ->). }
      destruct Hw as [Hw1 Hw2]. split; [|congruence]. by rewrite Hw1, (proj1 (pending_quiet _ _ _ n Hi)).
Qed.

Lemma delete_group vms (body : VirtualMachine → prog rsE (option goerror)) w :
  (∀ vm, deletes vm (body vm)) → w_created w = [] → w_deleted w = [] →
  wp (rs_env key) (group RS_Pick (group_fuel (length vms)) (Z.of_nat (length vms)) (body <$> vms) []) w
    (λ errs w', w_deleted w' ≡ₚ vms ∧ w_created w' = []).
Proof.
  intros Hb Hc Hd. apply (wp_mono _ _ _ (λ errs w', dJ vms [] w' errs)).
  { intros errs w' [Hp ?]. by rewrite app_nil_r in Hp. }
  replace (Z.of_nat (length vms)) with (Z.of_nat (length (body <$> vms))) by (by rewrite length_fmap).
  apply (wp_group RS_Pick (rs_env key) dT dcost (dJ vms)) with (gs := DStart <$> vms).
  - intros k w1 gs errs HJ. split; [done|]. intros i w' (w2 & Hdo & Hr). simpl in Hdo. subst w2. by eapply rely_dJ.
  - intros. by eapply dJ_step.
  - rewrite Forall2_fmap. apply Forall_Forall2_diag. apply Forall_forall. intros vm _. apply Hb.
  - split; [|done]. rewrite Hd. simpl. unfold pending.
    assert (omap (λ g, match g with DStart vm => Some vm | DQuiet _ => None end) (DStart <$> vms) = vms) as ->; [|done].
    clear. induction vms as [|v l IH]; [done|]. csimpl. by rewrite IH.
  - unfold budget, group_fuel. clear. induction vms; csimpl; lia.
Qed.
End Delete.

(** ** What scaling does *)

Definition start (w : rsW) : Prop := w_created w = [] ∧ w_deleted w = [] ∧ w_seen w = 0.

(** C33: scaling up creates at most the missing VMs, ten at a time, each a copy of the
    template owned by the replica set; whatever interleaving of the goroutines and of the
    watch, the creation counter is then the number of VMs created and not yet reported. *)
Theorem scale_up vmrs vms t m w :
  Template (vmrs_Spec vmrs) = Some t →
  SetControllerReference SchemeGroupVersion RSKind (vmrs_meta vmrs) (vm_meta (newVM t (vmrs_meta vmrs))) = Ok m →
  Z.of_nat (length vms) < default 1 (Replicas (vmrs_Spec vmrs)) → start w →
  wp (rs_env (key_of (vmrs_meta vmrs))) (scaleVMs vmrs vms) w (λ err w',
    Z.of_nat (length vms) + Z.of_nat (length (w_created w')) ≤ default 1 (Replicas (vmrs_Spec vmrs)) ∧
    Z.of_nat (length (w_created w')) ≤ BurstReplicas ∧
    Forall (λ v, v = set_meta m (newVM t (vmrs_meta vmrs))) (w_created w') ∧ w_deleted w' = [] ∧
    ∃ e, GetExpectations (key_of (vmrs_meta vmrs)) (UIDTracking.base (w_tracking w')) = Some e ∧
      exp_add e = Z.of_nat (length (w_created w')) - w_seen w').
Proof.
  intros Ht Hm Hlen (Hc & Hd & Hs). unfold scaleVMs. rewrite Ht.
  set (r := default 1 _) in *. set (diff := Z.of_nat (length vms) - r).
  rewrite (proj2 (Z.eqb_neq _ _)), (proj2 (Z.ltb_lt _ _)) by lia.
  assert (Hmax : maxDiff diff = Z.of_nat (Z.to_nat (maxDiff diff)) ∧ maxDiff diff ≤ 10 ∧ maxDiff diff ≤ - diff)
    by (unfold maxDiff, BurstReplicas; lia).
  destruct Hmax as (E & Hle & Hle'). set (n := Z.to_nat (maxDiff diff)) in *.
  split; [done|]. intros x w' (w1 & (now & tr & Htr & ->) & (obs & -> & Hseen)). simpl in *. simplify_eq.
  assert (Hz : UIDTracking.creations (key_of (vmrs_meta vmrs)) obs = 0).
  { unfold UIDTracking.creations in *. rewrite Hc in Hseen. simpl in Hseen. lia. }
  apply wp_seq. apply (wp_mono _ _ _ (λ errs w', cJ t (vmrs_meta vmrs) m n [] w' errs)).
  { intros errs w' [(e & Ee & Ha) ? Hcnt Hv ?]. simpl in *. unfold BurstReplicas. split_and!; [lia|lia|done..|]. exists e.
    split; [done|]. lia. }
  rewrite E. apply create_group; simpl; [done|lia|done|done|lia|].
  edestruct (UIDTracking.observe_add (key_of (vmrs_meta vmrs)) obs
    (UIDTracking.ExpectCreations now (key_of (vmrs_meta vmrs)) (Z.of_nat n) (w_tracking w))) as (e & Ee & Ha & _).
  - simpl. by rewrite Get_ExpectCreations, decide_True.
  - simpl. lia.
  - simpl. lia.
  - exists e. split; [exact Ee|]. simpl in Ha. lia.
Qed.

Lemma newer_total : Total newer.
Proof. intros a b. unfold newer. lia. Qed.
Lemma newer_trans : Transitive newer.
Proof. intros a b c. unfold newer. lia. Qed.

Lemma sorted_take_drop {A} (R : A → A → Prop) n l :
  StronglySorted R l → ∀ x y, x ∈ take n l → y ∈ drop n l → R x y.
Proof.
  intros Hs. revert n. induction Hs as [|a l Hl IH Ha]; intros [|n] x y; simpl; try set_solver.
  rewrite elem_of_cons. intros [->|Hx] Hy; [|by eapply IH].
  rewrite Forall_forall in Ha. apply Ha. rewrite <-(take_drop n l). set_solver.
Qed.

Lemma getVMsToDelete_spec vms n :
  0 ≤ n ≤ Z.of_nat (length vms) →
  ∃ del kept, getVMsToDelete vms n = Returned del ∧ vms ≡ₚ del ++ kept ∧ Z.of_nat (length del) = n ∧
    ∀ d k, d ∈ del → k ∈ kept → newer d k.
Proof.
  intros Hn. unfold getVMsToDelete, sortVMsByCreationTimestamp. rewrite (proj2 (Z.ltb_ge (Z.of_nat _) _)) by lia.
  set (l := if n <? _ then _ else _). assert (Hl : l ≡ₚ vms) by (unfold l; destruct (_ <? _); [apply merge_sort_Permutation|done]).
  exists (take (Z.to_nat n) l), (drop (Z.to_nat n) l). split_and!; [done| | |].
  - by rewrite take_drop.
  - rewrite length_take. apply Permutation_length in Hl. lia.
  - unfold l. destruct (n <? _) eqn:E; bools.
    + apply sorted_take_drop. pose proof newer_total. pose proof newer_trans. by apply StronglySorted_merge_sort.
    + intros d k _. rewrite drop_ge by lia. set_solver.
Qed.

(** C34: scaling down asks for the deletion of the newest VMs only, at most ten and never so
    many that fewer than the wanted replicas are left, and creates none. *)
Theorem scale_down vmrs vms w :
  0 ≤ default 1 (Replicas (vmrs_Spec vmrs)) < Z.of_nat (length vms) → start w →
  wp (rs_env (key_of (vmrs_meta vmrs))) (scaleVMs vmrs vms) w (λ err w',
    w_created w' = [] ∧ ∃ kept, vms ≡ₚ w_deleted w' ++ kept ∧
      Z.of_nat (length (w_deleted w')) = Z.min (Z.of_nat (length vms) - default 1 (Replicas (vmrs_Spec vmrs))) BurstReplicas ∧
      default 1 (Replicas (vmrs_Spec vmrs)) ≤ Z.of_nat (length kept) ∧
      ∀ d k, d ∈ w_deleted w' → k ∈ kept → newer d k).
Proof.
  intros Hlen (Hc & Hd & Hs). unfold scaleVMs.
  set (r := default 1 _) in *. set (diff := Z.of_nat (length vms) - r).
  rewrite (proj2 (Z.eqb_neq _ _)), (proj2 (Z.ltb_ge _ _)) by lia.
  assert (Hmax : maxDiff diff = Z.min diff BurstReplicas) by (unfold maxDiff, BurstReplicas; lia).
  destruct (getVMsToDelete_spec vms (maxDiff diff)) as (del & kept & -> & Hp & Hl & Hnew); [unfold BurstReplicas in *; lia|].
  split; [done|]. intros x w' (w1 & (now & tr & Htr & ->) & (obs & -> & Hseen)). simpl in *. simplify_eq.
  apply wp_seq. apply (wp_mono _ _ _ (λ errs w', w_deleted w' ≡ₚ del ∧ w_created w' = [])).
  { intros errs w' [Hdel Hcr]. simpl. split; [done|]. exists kept. rewrite Hdel. split_and!; [done| | |].
    - unfold BurstReplicas in *. lia.
    - apply Permutation_length in Hp. rewrite length_app in Hp. unfold BurstReplicas in *. lia.
    - intros d k Hdd. rewrite Hdel in Hdd. by apply Hnew. }
  rewrite <-Hl. apply delete_group; [|done..].
  intros vm. split; [done|].
  intros [e|]; simpl; [destruct (IsNotFound e); simpl|]; repeat (done || (split; [done|intros ?])).
Qed.

(** ** When the controller must not act *)

(** An environment in which creating and deleting VMs is not allowed; the expectations are
    looked at once, at time [now]. *)
Definition frozen_env (now : Z) (tr : Tracking) : env rsE unit := mkEnv
  (λ X e _, match e with RS_Create _ | RS_Delete _ => False | _ => True end)
  (λ X e _, match e in rsE X return X → unit → Prop with
            | RS_Expectations op => λ x _, x = fst (op now tr)
            | _ => λ _ _, True
            end) False.

Lemma paused_condition_wp now tr b st : wp (frozen_env now tr) (paused_condition b st) tt (λ _ _, True).
Proof. unfold paused_condition. repeat case_match; simpl; tauto. Qed.

(** While the expectations of earlier creations or deletions are not met, and on a
    replica set that is paused or being deleted, a reconciliation neither creates nor deletes
    a VM; it still completes. *)
Theorem reconcile_waits vmrs t now tr :
  Template (vmrs_Spec vmrs) = Some t →
  UIDTracking.SatisfiedExpectations now (key_of (vmrs_meta vmrs)) tr = false ∨ Paused (vmrs_Spec vmrs) = true ∨
    Time_IsZero (om_DeletionTimestamp (vmrs_meta vmrs)) = false →
  wp (frozen_env now tr) (reconcile vmrs) tt (λ _ _, True).
Proof.
  intros Ht Hstop. unfold reconcile. split; [done|]. intros needs [] ->. cbn [fst].
  apply wp_seq. split; [done|]. intros r [] _. destruct r as [items|e]; [|done].
  destruct (LabelSelectorAsSelector _) as [f|e]; [|done]. cbn [wp].
  assert (Hn : UIDTracking.SatisfiedExpectations now (key_of (vmrs_meta vmrs)) tr && negb (Paused (vmrs_Spec vmrs)) &&
    Time_IsZero (om_DeletionTimestamp (vmrs_meta vmrs)) = false).
  { destruct Hstop as [->|[->| ->]]; by rewrite ?andb_false_r. }
  rewrite Hn. cbn [pbind]. unfold calculateStatus. rewrite Ht.
  unfold failure_condition. destruct (getCondition _ _); cbn [pbind]; apply wp_seq;
    (eapply wp_mono; [|apply paused_condition_wp]; done).
Qed.

(** ** Too many finished VMs *)


(** ** The VMs a replica set creates are its own *)

Lemma ValidateVMReplicaSetSpec_nil spec p :
  ValidateVMReplicaSetSpec (Some spec) p = [] ↔
  ∃ sel t ls f, Selector spec = Some sel ∧ (∀ r, Replicas spec = Some r → 0 ≤ r) ∧ Template spec = Some t ∧
    om_Labels (Template_meta t) = Some ls ∧ LabelSelectorAsSelector (Some sel) = Ok f ∧ f ls = true.
Proof.
  unfold ValidateVMReplicaSetSpec. cbn [nonnil]. rewrite !app_nil, err_if_nil, negb_false_iff.
  assert (Hr : match Replicas spec with Some r => err_if (r <? 0) (Invalid (child p "replicas") (BadInt r)
      "must be greater than or equal to 0") | None => [] end = [] ↔ ∀ r, Replicas spec = Some r → 0 ≤ r).
  { destruct (Replicas spec) as [r|]; [|naive_solver]. rewrite err_if_nil, Z.ltb_ge. naive_solver. }
  rewrite Hr. clear Hr. split.
  - destruct (Selector spec) as [sel|]; [|by intros [? _]]. destruct (Template spec) as [t|]; [|by intros (_ & _ & ?)].
    destruct (om_Labels (Template_meta t)) as [ls|] eqn:El; [|by intros (_ & _ & ?)].
    destruct (LabelSelectorAsSelector (Some sel)) as [f|] eqn:Ef; [|by intros (_ & _ & ?)].
    rewrite err_if_nil, negb_false_iff. intros (_ & ? & ?). by exists sel, t, ls, f.
  - intros (sel & t & ls & f & -> & ? & -> & -> & -> & Hf). by rewrite Hf.
Qed.

(** A VM created for an admitted replica set is one the controller finds again: it is
    in the replica set's namespace, indexed under its UID, active, and selected by
    [getControlledVMs]; so it counts towards the replicas. *)
Theorem created_vm_is_controlled (M : MetaLaws K) {W} (h : handler rsE W) vmrs t m items p w :
  ValidateVMReplicaSetSpec (Some (vmrs_Spec vmrs)) p = [] → Template (vmrs_Spec vmrs) = Some t →
  SetControllerReference SchemeGroupVersion RSKind (vmrs_meta vmrs) (vm_meta (newVM t (vmrs_meta vmrs))) = Ok m →
  let vm := set_meta m (newVM t (vmrs_meta vmrs)) in
  fst (h _ (RS_ListVMs (om_Namespace (vmrs_meta vmrs)) (om_UID (vmrs_meta vmrs))) w) = Ok items → vm ∈ items →
  om_Namespace (vm_meta vm) = om_Namespace (vmrs_meta vmrs) ∧ vmrUID vm = [om_UID (vmrs_meta vmrs)] ∧
  ∃ l w', run h (getControlledVMs vmrs) w = (Returned (Ok l), w') ∧ vm ∈ filterActiveVMs l.
Proof.
  intros Hv Ht Hm vm Hh Hin. apply ValidateVMReplicaSetSpec_nil in Hv as (sel & t' & ls & f & Hsel & _ & Ht' & Hls & Hf & Hfl).
  assert (t' = t) as -> by congruence.
  destruct (SetControllerReference_Ok (MetaLaws := M) _ _ _ _ _ Hm) as ((r & Hr & Hu & Hk & Ha & _) & Hset).
  assert (Hmeta : om_Namespace m = om_Namespace (vmrs_meta vmrs) ∧ om_Labels m = Some (deepcopyVMsLabelSet t) ∧
                  om_DeletionTimestamp m = None).
  { destruct m. simpl in Hset. by injection Hset. }
  destruct Hmeta as (Hns & Hlab & Hdel). simpl. split; [done|]. split.
  - unfold vmrUID. simpl. by rewrite Hr, decide_True, Hu.
  - unfold getControlledVMs. simpl. destruct (h _ _ w) as [x w1]. simpl in Hh. subst x. rewrite Hsel, Hf. simpl.
    eexists _, _. split; [reflexivity|]. unfold filterActiveVMs, filter_vms. rewrite !list_elem_of_filter.
    split_and!; [|simpl; rewrite Hlab; unfold deepcopyVMsLabelSet; rewrite Hls; done|done].
    unfold isVMActive, isVMFinal. simpl. by rewrite Hdel.
Qed.
End Proofs.

(** ** Concrete instances *)

Section Sample.
#[local] Existing Instance k8s_concrete.

Definition sampleTemplate : VirtualMachineTemplateSpec :=
  mkTemplate (set_Labels (Some {["app" := "web"]}) emptyMeta) (sampleSpec [sampleDisk]).

Definition sampleRS : VirtualMachineReplicaSet :=
  mkVMRS (sampleMeta "rs" "rs-uid") (mkRSSpec (Some 3) false (Some {["app" := "web"]}) (Some sampleTemplate))
    (mkRSStatus 0 0 0 0 []).

Definition sampleOwned (created : Z) (name : string) : VirtualMachine :=
  mkVM (mkObjectMeta name "" "default" name "1" 1 created None (Some {["app" := "web"]}) None
          [OwnerRef sampleRS] []) (sampleSpec [sampleDisk]) emptyVMStatus.

Definition sampleW : rsW := mkW empty_tracking [] [] 0.

Lemma scale_up_witness :
  wp (rs_env "default/rs") (scaleVMs sampleRS []) sampleW (λ err w', Z.of_nat (length (w_created w')) ≤ 3).
Proof.
  eapply wp_mono; [|apply (scale_up sampleRS [] sampleTemplate); [reflexivity|reflexivity|reflexivity|by split]].
  simpl. intros err w' (Hlt & _). lia.
Defined.

Lemma scale_down_witness :
  wp (rs_env "default/rs") (scaleVMs sampleRS (sampleOwned 1 <$> ["a"; "b"; "c"; "d"])) sampleW
    (λ err w', length (w_deleted w') = 1%nat).
Proof.
  eapply wp_mono; [|apply (scale_down sampleRS (sampleOwned 1 <$> ["a"; "b"; "c"; "d"])); [simpl; lia|by split]].
  simpl. intros err w' (_ & kept & _ & Hl & _). unfold BurstReplicas in Hl. lia.
Defined.

Lemma reconcile_waits_witness :
  wp (frozen_env 10 (UIDTracking.ExpectCreations 10 "default/rs" 2 empty_tracking)) (reconcile sampleRS) tt (λ _ _, True).
Proof. apply (reconcile_waits sampleRS sampleTemplate); [reflexivity|]. left. vm_compute. reflexivity. Defined.

(** A handler that answers every call with a default. *)
Definition quiet_handler (items : list VirtualMachine) : handler rsE unit :=
  λ X e _, match e in rsE X return X * unit with
  | RS_Get _ => (Ok sampleRS, tt)
  | RS_ListVMs _ _ => (Ok items, tt)
  | RS_ListReplicaSets _ => (Ok [], tt)
  | RS_Create _ | RS_Delete _ | RS_StatusUpdate _ => (None, tt)
  | RS_Eventf _ _ _ | RS_Enqueue _ => (tt, tt)
  | RS_Now => (0, tt)
  | RS_Pick _ => (0%nat, tt)
  | RS_Expectations op => (fst (op 0 empty_tracking), tt)
  end.


Definition sampleCreated : VirtualMachine :=
  set_meta (set_OwnerReferences [OwnerRef sampleRS] (vm_meta (newVM sampleTemplate (vmrs_meta sampleRS))))
    (newVM sampleTemplate (vmrs_meta sampleRS)).

Lemma created_vm_is_controlled_witness :
  ∃ l w', run (quiet_handler [sampleCreated]) (getControlledVMs sampleRS) tt = (Returned (Ok l), w') ∧
    sampleCreated ∈ filterActiveVMs l.
Proof.
  apply (created_vm_is_controlled k8s_concrete_meta (quiet_handler [sampleCreated]) sampleRS sampleTemplate
    (vm_meta sampleCreated) [sampleCreated] [] tt).
  - apply ValidateVMReplicaSetSpec_nil. eexists _, _, _, _. split_and!; [reflexivity| |reflexivity..|vm_compute; reflexivity].
    intros r [= <-]. lia.
  - reflexivity.
  - reflexivity.
  - reflexivity.
  - left.
Defined.

End Sample.
