(* ===== verification/Migration.v ===== *)
(** * Migrations: pkg/controller/vmm_controller.go and pkg/controller/vmm_webhook.go

    A [VirtualMachineMigration] claims the [Migration] field of its VM's status, follows the
    migration recorded there, and gives the field up when it is over. *)

From stdpp Require Import base gmap strings list sets fin_maps.
From Stdlib Require Import ZArith Lia.
From S2P Require Import Prelude GoStd K8s ApiTypes Kube VmValidate VmController.
Open Scope Z_scope.

Section Migration.
Context `{K8s}.

Abbreviation kprog := (prog kubeE).

Definition set_vmm_Status (s : VirtualMachineMigrationStatus) (vmm : VirtualMachineMigration) : VirtualMachineMigration :=
  mkVMM (vmm_meta vmm) (VMName vmm) s.

Definition finished (p : VirtualMachineMigrationPhase) : bool :=
  match p with VirtualMachineMigrationSucceeded | VirtualMachineMigrationFailed => true | _ => false end.

(** The VM is there, is not being deleted, and its migration, if any, is this one. *)
Definition usable_vm (vmm : VirtualMachineMigration) (vm : option VirtualMachine) : option VirtualMachine :=
  match vm with
  | Some vm =>
      if negb (Time_IsZero (om_DeletionTimestamp (vm_meta vm))) then None
      else match Migration (Status vm) with
           | Some m => if decide (Migration_UID m = om_UID (vmm_meta vmm)) then Some vm else None
           | None => Some vm
           end
  | None => None
  end.

(** A migration that is over: drop it from the VM, if it is still there. *)
Definition release_vm (vmm : VirtualMachineMigration) (vm : option VirtualMachine) : kprog (VirtualMachineMigration * option goerror) :=
  match usable_vm vmm vm with
  | Some vm =>
      match Migration (Status vm) with
      | None => Ret (vmm, None)
      | Some _ =>
          (let! err := call (UpdateVMStatus (upd_Status (set_Migration None) vm)) in
           Ret (vmm, match err with Some e => Some (ErrFmt "reset vm migration status" e) | None => None end))%go
      end
  | None => Ret (vmm, None)
  end.

Definition newMigration (uid : string) : VirtualMachineStatusMigration :=
  mkStatusMigration uid VirtualMachineMigrationPhaseUnset "" "" 0 "" "" "".

(** A migration that is not over: claim the VM, or follow it. *)
Definition follow_vm (vmm : VirtualMachineMigration) (vm : option VirtualMachine) : kprog (VirtualMachineMigration * option goerror) :=
  let st := vmm_Status vmm in
  match usable_vm vmm vm with
  | None => Ret (set_vmm_Status (mkVMMStatus VirtualMachineMigrationFailed (SourceNodeName st) (VMM_TargetNodeName st)) vmm, None)
  | Some vm =>
      match Migration (Status vm) with
      | None =>
          (let! err := call (UpdateVMStatus (upd_Status (set_Migration (Some (newMigration (om_UID (vmm_meta vmm))))) vm)) in
           match err with
           | Some e => Ret (vmm, Some (ErrFmt "set VM migration status" e))
           | None => Ret (set_vmm_Status (mkVMMStatus (VMM_Phase st) (NodeName (Status vm)) (VMM_TargetNodeName st)) vmm, None)
           end)%go
      | Some m =>
          Ret (set_vmm_Status (mkVMMStatus (Migration_Phase m) (SourceNodeName st)
                 (if decide (TargetNodeName m = "") then VMM_TargetNodeName st else TargetNodeName m)) vmm, None)
      end
  end.

Definition reconcile (vmm : VirtualMachineMigration) : kprog (VirtualMachineMigration * option goerror) :=
  if negb (Time_IsZero (om_DeletionTimestamp (vmm_meta vmm))) then Ret (vmm, None)
  else
    (let! r := call (GetVM (mkNN (om_Namespace (vmm_meta vmm)) (VMName vmm))) in
     match r with
     | Err e => if IsNotFound e then
                  (if finished (VMM_Phase (vmm_Status vmm)) then release_vm vmm None else follow_vm vmm None)
                else Ret (vmm, Some (ErrFmt "get vm" e))
     | Ok vm => if finished (VMM_Phase (vmm_Status vmm)) then release_vm vmm (Some vm) else follow_vm vmm (Some vm)
     end)%go.

(** [reflect.DeepEqual] compares the status with a pointer to its copy, which is never equal. *)
Definition Reconcile (req : NamespacedName) : kprog (Result * option goerror) :=
  (let! r := call (GetVMM req) in
   match r with
   | Err e => Ret (emptyResult, IgnoreNotFound (Some e))
   | Ok vmm =>
       let! (vmm, rerr) := reconcile vmm in
       match rerr with
       | Some e => call (Eventf (vmm_meta vmm) EvWarning "FailedReconcile") ;;; Ret (emptyResult, Some e)
       | None =>
           let! err := call (UpdateVMMStatus vmm) in
           match err with
           | None => Ret (emptyResult, None)
           | Some e => if IsConflict e then Ret (mkResult true 0, None)
                       else Ret (emptyResult, Some (ErrFmt "update VMM status" e))
           end
       end
   end)%go.

(** A VM event: the migrations it names. *)
Definition map_vm (vm : VirtualMachine) : kprog (list NamespacedName) :=
  match Migration (Status vm) with
  | None => Ret []
  | Some m =>
      if decide (Migration_UID m = "") then Ret []
      else
        (let! r := call (ListVMMs (Migration_UID m)) in
         match r with
         | Err _ => Ret []
         | Ok items => Ret (map (λ vmm : VirtualMachineMigration, ObjectKey (vmm_meta vmm)) items)
         end)%go
  end.

(** ** The webhook *)

Definition ValidateVMName (namespace vmName : string) (p : list segment) : kprog (list FieldError) :=
  if decide (vmName = "") then Ret [Required p ""]
  else
    (let! r := call (GetVM (mkNN namespace vmName)) in
     match r with
     | Err e => Ret (if IsNotFound e then [NotFound p vmName] else [InternalError p e])
     | Ok vm =>
         match FindStatusCondition (Conditions (Status vm)) VirtualMachineMigratable with
         | None => Ret [Forbidden p "VM migratable condition status is unknown"]
         | Some c => Ret (err_if (negb (bool_decide (c_Status c = ConditionTrue))) (Forbidden p (c_Message c)))
         end
     end)%go.

(** The spec is passed by the address of a field, so it is never nil. *)
Definition ValidateVMMSpec (namespace : string) (vmName : string) (p : list segment) : kprog (list FieldError) :=
  ValidateVMName namespace vmName (child p "vmName").

Definition ValidateVMM (vmm : VirtualMachineMigration) (oldVMM : option VirtualMachineMigration) : kprog (list FieldError) :=
  ValidateVMMSpec (om_Namespace (vmm_meta vmm)) (VMName vmm) [Child "spec"].

(** [diff.Diff] of two specs reports a change exactly when their only field, a string, differs. *)
Definition VMMValidator_Handle (op : Operation) (decoded decodedOld : result VirtualMachineMigration)
    : kprog (Response VirtualMachineMigration) :=
  match decoded with
  | Err e => Ret (Errored StatusBadRequest (ErrFmt "unmarshal VMM" e))
  | Ok vmm =>
      match op with
      | OpCreate => (let! errs := ValidateVMM vmm None in Ret (deny_if_any errs))%go
      | OpUpdate =>
          match decodedOld with
          | Err e => Ret (Errored StatusBadRequest (ErrFmt "unmarshal old VMM" e))
          | Ok oldVMM =>
              (let! errs := ValidateVMM vmm (Some oldVMM) in
               Ret (deny_if_any (errs ++ err_if (negb (bool_decide (VMName oldVMM = VMName vmm)))
                 (Forbidden [Child "spec"] "VMM spec may not be updated"))))%go
          end
      | OpOther => Ret Allowed
      end
  end.

End Migration.

(** ** What a migration does to its VM *)

Section Proofs.
Context `{K : K8s}.

(** The migration and the VM that were fetched. *)
Definition track_vmm X (e : kubeE X) : X → option VirtualMachineMigration * option VirtualMachine →
    option VirtualMachineMigration * option VirtualMachine :=
  match e with
  | GetVMM _ => λ r w, match r with Ok vmm => (Some vmm, None) | Err _ => w end
  | GetVM _ => λ r w, match r with Ok vm => (fst w, Some vm) | Err _ => w end
  | _ => λ _ w, w
  end.

(** The change of a VM: a migration that is not over takes a VM that has none, one that is
    over drops itself; neither touches a VM that is being deleted. *)
Definition claim_step (vmm : VirtualMachineMigration) (vm vm' : VirtualMachine) : Prop :=
  Time_IsZero (om_DeletionTimestamp (vm_meta vm)) = true ∧
  ((finished (VMM_Phase (vmm_Status vmm)) = false ∧ Migration (Status vm) = None ∧
    vm' = upd_Status (set_Migration (Some (newMigration (om_UID (vmm_meta vmm))))) vm) ∨
   (finished (VMM_Phase (vmm_Status vmm)) = true ∧ (∃ m, Migration (Status vm) = Some m ∧ Migration_UID m = om_UID (vmm_meta vmm)) ∧
    vm' = upd_Status (set_Migration None) vm)).

(** Another migration has the VM. *)
Definition rival (vmm : VirtualMachineMigration) (vm : VirtualMachine) : Prop :=
  ∃ m, Migration (Status vm) = Some m ∧ Migration_UID m ≠ om_UID (vmm_meta vmm).

(** The change of the migration: none once it is over; it fails when the VM is gone, deleted
    or another's, and else follows what the VM's status records under its UID. *)
Record vmm_step (vmm : VirtualMachineMigration) (vm : option VirtualMachine) (vmm' : VirtualMachineMigration) : Prop := {
  vs_same : vmm_meta vmm' = vmm_meta vmm ∧ VMName vmm' = VMName vmm;
  vs_over : finished (VMM_Phase (vmm_Status vmm)) = true → vmm' = vmm;
  vs_phase : VMM_Phase (vmm_Status vmm') = VMM_Phase (vmm_Status vmm) ∨ VMM_Phase (vmm_Status vmm') = VirtualMachineMigrationFailed ∨
    ∃ v m, vm = Some v ∧ Migration (Status v) = Some m ∧ Migration_UID m = om_UID (vmm_meta vmm) ∧
      VMM_Phase (vmm_Status vmm') = Migration_Phase m;
  vs_rival : ∀ v, vm = Some v → rival vmm v → Time_IsZero (om_DeletionTimestamp (vmm_meta vmm)) = true →
    finished (VMM_Phase (vmm_Status vmm')) = true
}.

Definition may_claim X (e : kubeE X) (w : option VirtualMachineMigration * option VirtualMachine) : Prop :=
  match e with
  | UpdateVMStatus vm' => ∃ vmm vm, w = (Some vmm, Some vm) ∧ claim_step vmm vm vm'
  | UpdateVMMStatus vmm' => ∃ vmm, fst w = Some vmm ∧ vmm_step vmm (snd w) vmm'
  | CreatePod _ | DeletePod _ | UpdateVM _ => False
  | _ => True
  end.

(** Any answers of the API server. *)
Definition claim_env : env kubeE (option VirtualMachineMigration * option VirtualMachine) :=
  mkEnv may_claim (λ X e w x w', w' = track_vmm X e x w) False.

Lemma usable_vm_Some vmm o vm :
  usable_vm vmm o = Some vm → o = Some vm ∧ Time_IsZero (om_DeletionTimestamp (vm_meta vm)) = true ∧
    ∀ m, Migration (Status vm) = Some m → Migration_UID m = om_UID (vmm_meta vmm).
Proof.
  destruct o as [v|]; [|done]. simpl. destruct (Time_IsZero _) eqn:Et; [|done]. simpl.
  destruct (Migration (Status v)) as [m|] eqn:Em; [case_decide; [|done]|]; intros [= <-]; split_and!; try done; intros m'; rewrite Em; naive_solver.
Qed.

Lemma usable_vm_rival vmm o vm v : usable_vm vmm o = Some vm → o = Some v → ¬ rival vmm v.
Proof. intros (-> & _ & Hm)%usable_vm_Some [= <-] (m & Em & Hne). by apply Hne, Hm. Qed.

Lemma vmm_step_refl vmm vm :
  (∀ v, vm = Some v → rival vmm v → Time_IsZero (om_DeletionTimestamp (vmm_meta vmm)) = true → finished (VMM_Phase (vmm_Status vmm)) = true) →
  vmm_step vmm vm vmm.
Proof. intros Hr. split; auto. Qed.

(** What [reconcile] guarantees, for the fetched VM. *)
Abbreviation vmm_post vmm vm := (λ r (w : option VirtualMachineMigration * option VirtualMachine),
  w = (Some vmm, vm) ∧ (snd r = None → vmm_step vmm vm (fst r))).

Lemma release_vm_wp vmm vm :
  finished (VMM_Phase (vmm_Status vmm)) = true →
  wp claim_env (release_vm vmm vm) (Some vmm, vm) (vmm_post vmm vm).
Proof.
  intros Hf. assert (Hs : vmm_step vmm vm vmm) by (by apply vmm_step_refl). unfold release_vm.
  destruct (usable_vm vmm vm) as [v|] eqn:Eu; [|by split]. apply usable_vm_Some in Eu as (-> & Ht & Hm).
  destruct (Migration (Status v)) as [m|] eqn:Em; [|by split]. apply wp_call.
  - eexists vmm, v. split; [done|]. split; [done|]. right. split_and!; [done|by exists m; auto|done].
  - by intros err w' ->.
Qed.

Lemma follow_vm_wp vmm vm :
  finished (VMM_Phase (vmm_Status vmm)) = false →
  wp claim_env (follow_vm vmm vm) (Some vmm, vm) (vmm_post vmm vm).
Proof.
  intros Hf. unfold follow_vm. destruct (usable_vm vmm vm) as [v|] eqn:Eu.
  2:{ split; [done|]. intros _. split; simpl; [done|by rewrite Hf|by right; left|done]. }
  pose proof (usable_vm_rival _ _ _ v Eu) as Hr. apply usable_vm_Some in Eu as (-> & Ht & Hm). specialize (Hr eq_refl).
  destruct (Migration (Status v)) as [m|] eqn:Em.
  - split; [done|]. intros _. split; simpl; [done|by rewrite Hf| |by intros v' [= <-] ?].
    right. right. exists v, m. auto.
  - apply wp_call; [by exists vmm, v; split; [|split; [|left]]|]. intros [e|] w' ->; [done|].
    split; [done|]. intros _. split; simpl; [done|by rewrite Hf|by left|by intros v' [= <-] ?].
Qed.

(** The writes of [Reconcile] are these steps. *)
Lemma Reconcile_claim_wp (may : ∀ X, kubeE X → option VirtualMachineMigration * option VirtualMachine → Prop) req :
  (∀ X (e : kubeE X) w, may_claim X e w → may X e w) →
  wp (mkEnv may (λ X e w x w', w' = track_vmm X e x w) False) (Reconcile req) (None, None) (λ _ _, True).
Proof.
  intros Hmay. eapply (wp_weaken claim_env); [apply Hmay|done|done|]. clear Hmay.
  unfold Reconcile. cbn [pbind call]. apply wp_call; [done|]. intros [vmm|e] w ->; [|done]. cbn [track_vmm].
  assert (Hpost : ∀ vm r w, vmm_post vmm vm r w → wp claim_env
    (match r with (vmm, rerr) => match rerr with
       | Some e => (call (Eventf (vmm_meta vmm) EvWarning "FailedReconcile") ;;; Ret (emptyResult, Some e))
       | None =>
           let! err := call (UpdateVMMStatus vmm) in
           match err with
           | None => Ret (emptyResult, None)
           | Some e => if IsConflict e then Ret (mkResult true 0, None)
                       else Ret (emptyResult, Some (ErrFmt "update VMM status" e))
           end
       end end)%go w (λ _ _, True)).
  { intros vm [vmm' [e|]] w [-> Hs]; [by apply wp_call|]. apply wp_call; [by exists vmm; split; [|apply Hs]|].
    intros [e|] w' _; [|done]. by destruct (IsConflict e). }
  apply wp_seq. unfold reconcile. destruct (Time_IsZero _) eqn:Et; cbn [negb].
  2:{ apply (Hpost None). by split; [|intros _; apply vmm_step_refl]. }
  cbn [pbind call]. apply wp_call; [done|]. intros r w ->.
  destruct r as [vm|e]; cbn [track_vmm fst].
  - destruct (finished _) eqn:Ef; (eapply wp_mono; [apply (Hpost (Some vm))|]); [by apply release_vm_wp|by apply follow_vm_wp].
  - destruct (IsNotFound e); [|by apply (Hpost None)].
    destruct (finished _) eqn:Ef; (eapply wp_mono; [apply (Hpost None)|]); [by apply release_vm_wp|by apply follow_vm_wp].
Qed.


(** ** Which VMs may be migrated *)

(** What stands in the way of a migration: dedicated CPUs, an interface bridged to the pod
    network, SR-IOV or vhost-user interfaces, volumes in the pod and shared file systems. *)
Record migratable (vm : VirtualMachine) : Prop := {
  mg_cpu : DedicatedCPUPlacement (Instance_CPU (Spec_Instance (Spec vm))) = false;
  mg_iface : ∀ n i, n ∈ Networks (Spec vm) → i ∈ Interfaces (Spec_Instance (Spec vm)) → Interface_Name i = Network_Name n →
    (Pod_ (Network_Source n) = None ∨ Bridge (Binding i) = None) ∧ SRIOV (Binding i) = None ∧ VhostUser (Binding i) = None;
  mg_volume : ∀ v, v ∈ Volumes (Spec vm) → ContainerRootfs (Volume_Source v) = None ∧ ContainerDisk (Volume_Source v) = None;
  mg_fs : FileSystems (Spec_Instance (Spec vm)) = []
}.

Lemma interface_obstacle_None n i :
  interface_obstacle n i = None ↔ (Interface_Name i = Network_Name n →
    (Pod_ (Network_Source n) = None ∨ Bridge (Binding i) = None) ∧ SRIOV (Binding i) = None ∧ VhostUser (Binding i) = None).
Proof.
  unfold interface_obstacle. case_bool_decide as Hn; simpl; [|naive_solver].
  destruct (Pod_ (Network_Source n)), (Bridge (Binding i)), (SRIOV (Binding i)), (VhostUser (Binding i)); simpl; naive_solver.
Qed.

Lemma volume_obstacle_None v :
  volume_obstacle v = None ↔ ContainerRootfs (Volume_Source v) = None ∧ ContainerDisk (Volume_Source v) = None.
Proof. unfold volume_obstacle. destruct (ContainerRootfs _), (ContainerDisk _); simpl; naive_solver. Qed.

Lemma omap_nil {A B} (f : A → option B) l : omap f l = [] ↔ ∀ x, x ∈ l → f x = None.
Proof.
  induction l as [|x l IH]; simpl; [by split; [intros _ x ?%elem_of_nil|]|].
  setoid_rewrite elem_of_cons. destruct (f x) eqn:E; [split; [done|naive_solver]|]. rewrite IH. naive_solver.
Qed.

Lemma obstacles_false vm c :
  c ∈ omap (λ p, interface_obstacle (fst p) (snd p)) (n ← Networks (Spec vm); i ← Interfaces (Spec_Instance (Spec vm)); mret (n, i))
      ++ omap volume_obstacle (Volumes (Spec vm)) → c_Status c = ConditionFalse.
Proof.
  rewrite elem_of_app, !list_elem_of_omap. intros [([n i] & _ & E)|(v & _ & E)]; simpl in E.
  - unfold interface_obstacle in E. repeat case_match; simplify_eq; done.
  - unfold volume_obstacle in E. repeat case_match; simplify_eq; done.
Qed.

(** The Migratable condition the controller computes is True exactly when nothing
    stands in the way of a migration. *)
Theorem migratable_condition_iff vm :
  c_Status (calculateMigratableCondition vm) = ConditionTrue ↔ migratable vm.
Proof.
  unfold calculateMigratableCondition. destruct (DedicatedCPUPlacement _) eqn:Ec.
  { split; [done|]. intros [H _ _ _]. by rewrite H in Ec. }
  pose proof (obstacles_false vm) as Hf. set (l := _ ++ _) in *. destruct l as [|c l'] eqn:El; subst l.
  - apply app_nil in El as [H1 H2]. rewrite omap_nil in H1. rewrite omap_nil in H2.
    destruct (FileSystems (Spec_Instance (Spec vm))) as [|f fs] eqn:Efs; (split; [intros Hc|intros [_ _ _ Hfs]]); try done.
    2:{ by rewrite Hfs in Efs. }
    split; try done.
    + intros n i Hn Hi. apply interface_obstacle_None, (H1 (n, i)). rewrite list_elem_of_bind. exists n. split; [|done].
      rewrite list_elem_of_bind. exists i. split; [|done]. by apply list_elem_of_singleton.
    + intros v Hv. by apply volume_obstacle_None, H2.
  - rewrite (Hf c) by left. split; [done|]. intros [_ Hi Hv _]. exfalso. assert (Hc : c ∈ c :: l') by left.
    rewrite <- El, elem_of_app, !list_elem_of_omap in Hc. destruct Hc as [([n i] & Hin & E)|(v & Hin & E)].
    + rewrite list_elem_of_bind in Hin. destruct Hin as (n' & Hin & Hn). rewrite list_elem_of_bind in Hin.
      destruct Hin as (i' & Hin%list_elem_of_singleton & Hi'). simplify_eq. simpl in E.
      by rewrite (proj2 (interface_obstacle_None _ _) (Hi n' i' Hn Hi')) in E.
    + by rewrite (proj2 (volume_obstacle_None _) (Hv v Hin)) in E.
Qed.

(** A new migration is admitted exactly when it names a VM that exists and whose
    Migratable condition is True. *)
Theorem migration_admitted_iff {W} (h : handler kubeE W) vmm old w :
  (∃ w', run h (VMMValidator_Handle OpCreate (Ok vmm) old) w = (Returned Allowed, w')) ↔
  VMName vmm ≠ "" ∧ ∃ vm w' c, h _ (GetVM (mkNN (om_Namespace (vmm_meta vmm)) (VMName vmm))) w = (Ok vm, w') ∧
    FindStatusCondition (Conditions (Status vm)) VirtualMachineMigratable = Some c ∧ c_Status c = ConditionTrue.
Proof.
  simpl. unfold ValidateVMM, ValidateVMMSpec, ValidateVMName. case_decide as Hn; simpl; [naive_solver|].
  destruct (h _ _ w) as [[vm|e] w1]; simpl; [|destruct (IsNotFound e); naive_solver].
  destruct (FindStatusCondition _ _) as [c|] eqn:Ec; simpl; [|naive_solver].
  case_bool_decide as Hc; simpl; naive_solver.
Qed.
End Proofs.
