(* ===== verification/Prerunner.v ===== *)
(** * The pre-runner: cmd/virt-prerunner/main.go

    The first process of a VM pod.  It turns the VM it finds in VM_DATA into the
    configuration of cloud-hypervisor, connects the pod's network to the VM (bridges, taps,
    address translation, a DHCP server), starts virtiofsd for the file systems, and leaves the
    configuration where the node daemon picks it up.  netlink, the file system, processes and
    the JSON codecs are calls of [preE]. *)

From stdpp Require Import base gmap strings list sets fin_maps.
From Stdlib Require Import ZArith Lia Ascii.
From S2P Require Import Prelude GoStd GoNet K8s ApiTypes CpuSet VmValidate.
Open Scope Z_scope.

(** ** The hypervisor's configuration (pkg/cloudhypervisor/client.go)

    The fields the pre-runner sets; the others keep their zero values. *)

Record ConsoleConfig := mkConsoleConfig { cc_Mode : string; cc_File : string; cc_Socket : string; cc_Iommu : bool }.
Record PayloadConfig := mkPayload { Payload_Kernel : string; Payload_Cmdline : string }.
Record CpuAffinity := mkCpuAffinity { Vcpu : Z; HostCpus : list Z }.
Record CpuTopology := mkTopology { Packages : Z; DiesPerPackage : Z; CoresPerDie : Z; ThreadsPerCore : Z }.
Record CpusConfig := mkCpusConfig { MaxVcpus : Z; BootVcpus : Z; Topology : CpuTopology; Cpus_Affinity : list CpuAffinity }.
Record MemoryConfig := mkMemoryConfig { Memory_Size : Z; Memory_UseHugepages : bool; Memory_Shared : bool }.
Record DiskConfig := mkDiskConfig { Disk_Id : string; Disk_Path : string; Disk_Direct : bool; Disk_Readonly : bool }.
Record FsConfig := mkFsConfig { Fs_Id : string; Fs_Socket : string; Fs_Tag : string; Fs_NumQueues : Z; Fs_QueueSize : Z }.
Record NetConfig := mkNetConfig {
  Net_Id : string; Net_Mac : string; Net_Mtu : Z; Net_Tap : string;
  Net_VhostUser : bool; Net_VhostMode : string; Net_VhostSocket : string }.
Record DeviceConfig := mkDeviceConfig { Device_Id : string; Device_Path : string }.
Record VdpaConfig := mkVdpaConfig { Vdpa_Id : string; Vdpa_NumQueues : Z; Vdpa_Iommu : bool; Vdpa_Path : string }.

Record VmConfig := mkVmConfig {
  vc_Console : ConsoleConfig; vc_Serial : ConsoleConfig; vc_Payload : PayloadConfig;
  vc_Cpus : CpusConfig; vc_Memory : MemoryConfig;
  vc_Disks : list DiskConfig; vc_Fs : list FsConfig; vc_Net : list NetConfig;
  vc_Devices : list DeviceConfig; vc_Vdpa : list VdpaConfig }.

Definition set_Mtu (m : Z) (n : NetConfig) : NetConfig :=
  let '(mkNetConfig i a _ t v o s) := n in mkNetConfig i a m t v o s.
Definition set_Mac (a : string) (n : NetConfig) : NetConfig :=
  let '(mkNetConfig i _ m t v o s) := n in mkNetConfig i a m t v o s.
Definition set_Tap (t : string) (n : NetConfig) : NetConfig :=
  let '(mkNetConfig i a m _ v o s) := n in mkNetConfig i a m t v o s.
Definition set_VhostSocket (s : string) (n : NetConfig) : NetConfig :=
  let '(mkNetConfig i a m t v o _) := n in mkNetConfig i a m t v o s.

(** ** What the libraries pass *)

(** [netlink.Link]: a handle with the attributes read when it was fetched. *)
Inductive LinkKind := DeviceLink | BridgeLink | DummyLink | TapLink.
Record Link := mkLink { Link_Kind : LinkKind; Link_Name : string; Link_MTU : Z; Link_HardwareAddr : list Z }.

Record Route := mkRoute { Dst : option IPNet; Src : list Z; Gw : list Z }.

(** [netv1.NetworkStatus], with the PCI address or the vDPA path of its device. *)
Record NetworkStatus := mkNetworkStatus { ns_Interface : string; ns_Pci : option string; ns_Vdpa : option string }.

(** [userspacecni.ConfigurationData]. *)
Record ConfigurationData := mkConfigurationData { cd_IfName : string; cd_ContainerId : string; cd_Socketfile : string }.

Section Prerunner.
Context `{K8s}.

Inductive preE : Type → Type :=
| Getenv (name : string) : preE string
(** base64 and JSON decoding of the flag [vm-data] *)
| DecodeVM (data : string) : preE (result VirtualMachine)
| DecodeNetworkStatus (json : string) : preE (result (list NetworkStatus))
| DecodeUserspaceConfig (json : string) : preE (result (list ConfigurationData))
| IsCgroup2UnifiedMode : preE bool
| ReadFile (path : string) : preE (result string)
(** [os.Stat]: [Ok false] when the path does not exist *)
| Stat (path : string) : preE (result bool)
| MkdirAll (path : string) : preE (option goerror)
| CreateFile (path : string) : preE (option goerror)
| WriteFile (path content : string) : preE (option goerror)
| WriteConfig (config : VmConfig) : preE (option goerror)
(** [exec.Command(...).CombinedOutput] and [exec.Command(...).Start] *)
| Exec (name : string) (args : list string) : preE (result string)
| Start (name : string) (args : list string) : preE (option goerror)
(** [resolvconf.Get], [GetNameservers] and [GetSearchDomains] *)
| ResolvConf : preE (result (list string * list string))
(** netlink *)
| LinkByName (name : string) : preE (result Link)
| LinkAdd (link : Link) : preE (option goerror)
| LinkSetUp (link : Link) : preE (option goerror)
| LinkSetDown (link : Link) : preE (option goerror)
| LinkSetName (link : Link) (name : string) : preE (option goerror)
| LinkSetMaster (link master : Link) : preE (option goerror)
| AddrList (link : Link) : preE (result (list IPNet))
| AddrAdd (link : Link) (addr : IPNet) : preE (option goerror)
| AddrDel (link : Link) (addr : IPNet) : preE (option goerror)
| AddrReplace (link : Link) (addr : IPNet) : preE (option goerror)
| RouteList (link : Link) : preE (result (list Route))
(** [libmacouflage.SpoofMacSameVendor] *)
| SpoofMac (name : string) : preE (option goerror)
(** a loop that does not end *)
| Diverge : preE Empty_set.

Abbreviation pprog := (prog preE).

(** A call whose error is returned with a message in front. *)
Definition must (msg : string) (e : preE (option goerror)) : pprog (result unit) :=
  (let! o := call e in Ret (match o with Some err => Err (ErrFmt msg err) | None => Ok tt end))%go.
Definition get {A} (msg : string) (e : preE (result A)) : pprog (result A) :=
  (let! r := call e in Ret (map_err (ErrFmt msg) r))%go.
Definition within {A} (msg : string) (p : pprog (result A)) : pprog (result A) :=
  (let! r := p in Ret (map_err (ErrFmt msg) r))%go.

Definition executeCommand (msg name : string) (args : list string) : pprog (result unit) :=
  (try! _ := get msg (Exec name args) in Ret (Ok tt))%go.

(** ** Addresses *)

(** The loop of [nextIP] over the bytes, the last one first. *)
Fixpoint inc_bytes (l : list Z) : list Z :=
  match l with
  | [] => []
  | b :: r => let b' := u8 (b + 1) in if 0 <? b' then b' :: r else b' :: inc_bytes r
  end.

Definition nextIP (ip : list Z) (subnet : option IPNet) : result (list Z) :=
  let nextIP := rev (inc_bytes (rev ip)) in
  match subnet with
  | Some n => if Contains n nextIP then Ok nextIP
              else Err (ErrMsg ("no more available IP in subnet " +:+ IPNet_String n)%string)
  | None => Ok nextIP
  end.

(** ** The DHCP server *)

(** The values of the template; a map without the key [gateway] has [None]. *)
Record dnsmasqData := mkDnsmasqData {
  dd_iface : string; dd_mac : string; dd_ip : string; dd_mask : string; dd_routes : string;
  dd_dnsServer : string; dd_domainSearch : string; dd_gateway : option string }.

Definition newline : string := String (chr 10) EmptyString.

(** The template cmd/virt-prerunner/dnsmasq.conf. *)
Definition dnsmasqConf (d : dnsmasqData) : string :=
  (let line s := s +:+ newline in
   line "port=0" +:+ line ("interface=" +:+ dd_iface d) +:+ line "bind-interfaces" +:+
   line ("dhcp-range=" +:+ dd_ip d +:+ ",static," +:+ dd_mask d) +:+
   line ("dhcp-host=" +:+ dd_mac d +:+ "," +:+ dd_ip d +:+ ",infinite") +:+
   match dd_gateway d with
   | Some gw => if bool_decide (gw = "") then "" else line ("dhcp-option=option:router," +:+ gw)
   | None => ""
   end +:+
   line ("dhcp-option=option:classless-static-route," +:+ dd_routes d) +:+
   line ("dhcp-option=option:dns-server," +:+ dd_dnsServer d) +:+
   line ("dhcp-option=option:domain-search," +:+ dd_domainSearch d) +:+
   line "dhcp-authoritative" +:+
   ("shared-network=" +:+ dd_iface d +:+ "," +:+ dd_ip d))%string.

Definition zero4 : list Z := v4InV6Prefix ++ [0; 0; 0; 0].

(** [sortAndFormatRoutes]: the default routes come last. *)
Definition format_route (r : Route) : list string :=
  let gw := match Gw r with [] => zero4 | g => g end in
  let dst := default (mkIPNet zero4 (CIDRMask 0 32)) (Dst r) in
  [IPNet_String dst; IP_String gw].
Definition sortRoutes (routes : list Route) : list Route :=
  filter (λ r, Dst r ≠ None) routes ++ filter (λ r, Dst r = None) routes.
Definition sortAndFormatRoutes (routes : list Route) : string :=
  Strings.Join (concat (map format_route (sortRoutes routes))) ",".

Definition dnsmasqPIDPath (ifaceName : string) : string := ("/var/run/virtink/dnsmasq/" +:+ ifaceName +:+ ".pid")%string.
Definition dnsmasqConfPath (ifaceName : string) : string := ("/var/run/virtink/dnsmasq/" +:+ ifaceName +:+ ".conf")%string.

Definition startDHCPServer (ifaceName : string) (mac : list Z) (ipNet : IPNet) (gateway : list Z) (routes : list Route)
    : pprog (result unit) :=
  (try! rc := get "get resolvconf" ResolvConf in
   try! _ := must "create dnsmasq PID dir" (MkdirAll "/var/run/virtink/dnsmasq") in
   try! _ := must "create dnsmasq config dir" (MkdirAll "/var/run/virtink/dnsmasq") in
   try! _ := must "create dnsmasq config file" (CreateFile (dnsmasqConfPath ifaceName)) in
   let data := mkDnsmasqData ifaceName (MAC_String mac) (IP_String (IPNet_IP ipNet)) (IP_String (IPNet_Mask ipNet))
     (sortAndFormatRoutes routes) (Strings.Join rc.1 ",") (Strings.Join rc.2 ",")
     (match gateway with [] => None | _ => Some (IP_String gateway) end) in
   try! _ := must "write dnsmasq config file" (WriteFile (dnsmasqConfPath ifaceName) (dnsmasqConf data)) in
   executeCommand "start dnsmasq" "dnsmasq"
     ["--conf-file=" +:+ dnsmasqConfPath ifaceName; "--pid-file=" +:+ dnsmasqPIDPath ifaceName]%string)%go.

(** ** Links *)

Definition createBridge (bridgeName : string) (bridgeIPNet : IPNet) (mtu : Z) : pprog (result Link) :=
  let bridge := mkLink BridgeLink bridgeName mtu [] in
  (try! _ := check (call (LinkAdd bridge)) in
   try! _ := must "set bridge addr" (AddrAdd bridge bridgeIPNet) in
   try! _ := must "up bridge" (LinkSetUp bridge) in
   Ret (Ok bridge))%go.

Definition createTap (bridge : Link) (tapName : string) (mtu : Z) : pprog (result Link) :=
  let tap := mkLink TapLink tapName mtu [] in
  (try! _ := check (call (LinkAdd tap)) in
   try! _ := must "add tap to bridge" (LinkSetMaster tap bridge) in
   try! _ := must "up tap" (LinkSetUp tap) in
   get "get tap" (LinkByName tapName))%go.

(** [net.ParseCIDR] and the first address of its network. *)
Definition parseCIDR (cidr : string) : result IPNet :=
  match ParseCIDR cidr with
  | Some (_, subnet) => Ok subnet
  | None => Err (ErrFmt "parse CIDR" (ErrMsg ("invalid CIDR address: " +:+ cidr)%string))
  end.

Definition bridgeName (linkName : string) : string := ("br-" +:+ linkName)%string.
Definition tapName (linkName : string) : string := ("tap-" +:+ linkName)%string.

(** ** The bridge binding *)

(** The pod's address moves from the link to a dummy link that takes its name; the result is
    the name the link has then. *)
Definition move_address (link : Link) (linkAddrs : list IPNet) : pprog (result string) :=
  match linkAddrs with
  | [] => Ret (Ok (Link_Name link))
  | addr :: _ =>
      let newLinkName := (Link_Name link +:+ "-nic")%string in
      let dummy := mkLink DummyLink (Link_Name link) 0 [] in
      (try! _ := must "delete link address" (AddrDel link addr) in
       try! _ := must "rename link" (LinkSetName link newLinkName) in
       try! _ := must "add dummy interface" (LinkAdd dummy) in
       try! _ := must "replace dummy interface address" (AddrReplace dummy addr) in
       Ret (Ok newLinkName))%go
  end.

(** The routes handed to the VM, and its gateway: that of the first default route that has
    one. *)
Definition passed_routes (linkRoutes : list Route) : list Route :=
  filter (λ r, ¬ (Dst r = None ∧ Src r = [] ∧ Gw r = [])) linkRoutes.
Fixpoint link_gateway (routes : list Route) (gw : list Z) : list Z :=
  match routes with
  | [] => gw
  | r :: routes' => link_gateway routes' (if bool_decide (gw = []) && bool_decide (Dst r = None) then Gw r else gw)
  end.

Definition setupBridgeNetwork (linkName cidr : string) (netConfig : NetConfig) : pprog (result NetConfig) :=
  (try! subnet := Ret (parseCIDR cidr) in
   try! bridgeIP := Ret (map_err (ErrFmt "generate bridge IP") (nextIP (IPNet_IP subnet) (Some subnet))) in
   try! link := get "get link" (LinkByName linkName) in
   try! bridge := within "create bridge"
     (createBridge (bridgeName linkName) (mkIPNet bridgeIP (IPNet_Mask subnet)) (Link_MTU link)) in
   let linkMAC := Link_HardwareAddr link in
   try! linkAddrs := get "list link addrs" (AddrList link) in
   try! linkRoutes := get "list link routes" (RouteList link) in
   try! _ := must "down link" (LinkSetDown link) in
   try! _ := must "spoof link MAC" (SpoofMac linkName) in
   try! newLinkName := move_address link linkAddrs in
   try! _ := must "add link to bridge" (LinkSetMaster link bridge) in
   try! _ := must "up link" (LinkSetUp link) in
   try! _ := executeCommand "disable port MAC learning on bridge" "bridge"
     ["link"; "set"; "dev"; newLinkName; "learning"; "off"] in
   try! _ := within "create tap" (createTap bridge (tapName linkName) (Link_MTU link)) in
   try! _ := match linkAddrs with
             | [] => Ret (Ok tt)
             | linkAddr :: _ =>
                 let routes := passed_routes linkRoutes in
                 within "start DHCP server"
                   (startDHCPServer (bridgeName linkName) linkMAC linkAddr (link_gateway routes []) routes)
             end in
   Ret (Ok (set_Tap (tapName linkName) (set_Mac (MAC_String linkMAC) (set_Mtu (Link_MTU link) netConfig)))))%go.

(** ** The masquerade binding *)

Definition setupMasqueradeNetwork (linkName cidr : string) (netConfig : NetConfig) : pprog (result NetConfig) :=
  (try! subnet := Ret (parseCIDR cidr) in
   try! bridgeIP := Ret (map_err (ErrFmt "generate bridge IP") (nextIP (IPNet_IP subnet) (Some subnet))) in
   try! link := get "get link" (LinkByName linkName) in
   try! bridge := within "create bridge"
     (createBridge (bridgeName linkName) (mkIPNet bridgeIP (IPNet_Mask subnet)) (Link_MTU link)) in
   try! vmIP := Ret (map_err (ErrFmt "generate vm IP") (nextIP bridgeIP (Some subnet))) in
   try! _ := executeCommand "add masquerade rule" "iptables"
     ["-t"; "nat"; "-A"; "POSTROUTING"; "-o"; linkName; "-j"; "MASQUERADE"] in
   try! _ := executeCommand "add prerouting rule" "iptables"
     ["-t"; "nat"; "-A"; "PREROUTING"; "-i"; linkName; "-j"; "DNAT"; "--to-destination"; IP_String vmIP] in
   try! _ := within "create tap" (createTap bridge (tapName linkName) (Link_MTU link)) in
   try! vmMAC := Ret (match ParseMAC (Net_Mac netConfig) with
                      | Some m => Ok m
                      | None => Err (ErrFmt "parse VM MAC" (ErrMsg ("invalid MAC address " +:+ Net_Mac netConfig)%string))
                      end) in
   try! _ := within "start DHCP server"
     (startDHCPServer (bridgeName linkName) vmMAC (mkIPNet vmIP (IPNet_Mask subnet)) bridgeIP []) in
   Ret (Ok (set_Tap (tapName linkName) (set_Mtu (Link_MTU link) netConfig))))%go.

(** ** The vhost-user binding *)

(** The socket and the MTU.  In the case [kube-ovn] the socket's path is assigned to a
    variable of the case's own scope, so that the result keeps the empty path. *)
Definition userspace_socket (linkName : string) : pprog (result string) :=
  (let! data := call (Getenv "USERSPACE_CONFIGURATION_DATA") in
   if decide (data = "") then Ret (Err (ErrMsg "userspace configuration data not found"))
   else
     try! configData := get "unmarshal userspace configuration data" (DecodeUserspaceConfig data) in
     let '(containerID, socketFile) :=
       match list_find (λ c, cd_IfName c = linkName) configData with
       | Some (_, c) => (cd_ContainerId c, cd_Socketfile c)
       | None => ("", "")
       end in
     if bool_decide (containerID = "") || bool_decide (socketFile = "")
     then Ret (Err (ErrMsg "vhost-user link not found"))
     else if (String.length containerID <? 12)%nat then Crash "slice bounds out of range"
     else
       let socketDir := ("/var/run/vhost-user/" +:+ String.substring 0 12 containerID)%string in
       let! st := call (Stat socketDir) in
       Ret (match st with
            | Err e => Err e
            | Ok false => Ok ("/var/run/vhost-user/" +:+ socketFile)%string
            | Ok true => Ok (socketDir +:+ "/" +:+ socketFile)%string
            end))%go.

Definition setupVhostUserNetwork (linkName : string) (netConfig : NetConfig) : pprog (result NetConfig) :=
  (let! netType := call (Getenv "NET_TYPE") in
   if decide (netType = "") then Ret (Err (ErrMsg "network type not found"))
   else
     try! sm :=
       if decide (netType = "kube-ovn") then
         let! socketPath := call (Getenv "VHOST_USER_SOCKET") in
         if decide (socketPath = "") then Ret (Err (ErrMsg "vhost-user socket path not found"))
         else
           try! link := get "get link" (LinkByName "eth0") in
           Ret (Ok ("", Link_MTU link))
       else if decide (netType = "userspace") then
         try! socketPath := userspace_socket linkName in Ret (Ok (socketPath, 1500))
       else Ret (Ok ("", 1500)) in
     let '(socketPath, mtu) := sm in
     Ret (Ok (set_VhostSocket socketPath (set_Mtu mtu netConfig))))%go.

(** ** The configuration *)

Definition console_config (c : Console) : ConsoleConfig :=
  mkConsoleConfig (Console_Mode c) (Console_File c) (Console_Socket c) (Console_IOMMU c).
Definition or_default (s d : string) : string := if bool_decide (s = "") then d else s.
Definition serial_config (c : Console) : ConsoleConfig :=
  mkConsoleConfig (or_default (Console_Mode c) "Socket") (Console_File c)
    (or_default (Console_Socket c) "/var/run/virtink/serial.sock") (Console_IOMMU c).

(** The part that only depends on the VM; [arm64] is [runtime.GOARCH == arm64]. *)
Definition payload_config (arm64 : bool) (i : Instance_) : PayloadConfig :=
  match Instance_Kernel i with
  | Some k => mkPayload "/mnt/virtink-kernel/vmlinux" (Cmdline k)
  | None => mkPayload (if arm64 then "/var/lib/cloud-hypervisor/CLOUDHV_EFI.fd"
                       else "/var/lib/cloud-hypervisor/hypervisor-fw") ""
  end.
Definition base_config (arm64 : bool) (i : Instance_) (affinity : list CpuAffinity) : VmConfig :=
  let cpu := Instance_CPU i in
  mkVmConfig
    (match Instance_Console i with Some c => console_config c | None => mkConsoleConfig "Pty" "" "" false end)
    (match Instance_Serial i with Some c => serial_config c | None => mkConsoleConfig "Tty" "" "" false end)
    (payload_config arm64 i)
    (mkCpusConfig (numVCPUs cpu) (numVCPUs cpu) (mkTopology (Sockets cpu) 1 (CoresPerSocket cpu) 1) affinity)
    (mkMemoryConfig (q_Value (Size (Instance_Memory i))) (is_some (Memory_Hugepages (Instance_Memory i))) false)
    [] [] [] [] [].

(** [cpuset.Get]; a range that exhausts the fuel stands for the loop that does not end. *)
Definition getCPUSet (fuel : nat) : pprog (result CPUSet) :=
  (let! unified := call IsCgroup2UnifiedMode in
   let! content := call (ReadFile (cpuSetPath unified)) in
   match Get fuel unified (λ _, content) with
   | Some r => Ret r
   | None => let! x := call Diverge in match (x : Empty_set) with end
   end)%go.

Definition vcpu_affinity (pcpus : list Z) : list CpuAffinity :=
  imap (λ i c, mkCpuAffinity (Z.of_nat i) [c]) pcpus.

Definition cpu_affinity (fuel : nat) (cpu : CPU) : pprog (result (list CpuAffinity)) :=
  if DedicatedCPUPlacement cpu then
    (try! cpuSet := within "get CPU set" (getCPUSet fuel) in
     let pcpus := ToSlice cpuSet in
     if negb (Z.of_nat (length pcpus) =? numVCPUs cpu)
     then Ret (Err (ErrMsg "number of pCPUs and vCPUs must match"))
     else Ret (Ok (vcpu_affinity pcpus)))%go
  else Ret (Ok []).

(** *** Disks *)

Definition disk_path (blockVolumes : gset string) (v : Volume) : result string :=
  let name := Volume_Name v in
  let s := Volume_Source v in
  match ContainerDisk s, CloudInit s, ContainerRootfs s, PersistentVolumeClaim s, DataVolume s with
  | Some _, _, _, _, _ => Ok ("/mnt/" +:+ name +:+ "/disk.raw")%string
  | None, Some _, _, _, _ => Ok ("/mnt/" +:+ name +:+ "/cloud-init.iso")%string
  | None, None, Some _, _, _ => Ok ("/mnt/" +:+ name +:+ "/rootfs.raw")%string
  | None, None, None, None, None => Err (ErrMsg ("invalid source of volume " +:+ name)%string)
  | None, None, None, _, _ =>
      Ok (if bool_decide (name ∈ blockVolumes) then
            if IsHotpluggable v then ("/hotplug-volumes/" +:+ name)%string else ("/mnt/" +:+ name)%string
          else if IsHotpluggable v then JoinPath ["/hotplug-volumes"; (name +:+ ".img")%string]
               else JoinPath ["/mnt"; name; "disk.img"])
  end.

(** The configurations of the disks that name a volume, in order. *)
Fixpoint disk_configs (blockVolumes : gset string) (volumes : list Volume) (disks : list Disk) : result (list DiskConfig) :=
  match disks with
  | [] => Ok []
  | d :: disks' =>
      match find_volume (Disk_Name d) volumes with
      | None => disk_configs blockVolumes volumes disks'
      | Some v =>
          match disk_path blockVolumes v with
          | Err e => Err e
          | Ok path =>
              let config := mkDiskConfig (Disk_Name d) path true (default false (ReadOnly d)) in
              match disk_configs blockVolumes volumes disks' with
              | Ok l => Ok (config :: l)
              | Err e => Err e
              end
          end
      end
  end.

Definition block_volumes (env : string) : gset string := list_to_set (Strings.Split ","%char env).

(** *** File systems *)

Definition virtiofsd (msg source : string) (name : string) : pprog (result FsConfig) :=
  let socketPath := ("/var/run/virtink/virtiofsd/" +:+ name +:+ ".sock")%string in
  (try! _ := must msg (Start "/usr/lib/qemu/virtiofsd"
     ["--socket-path=" +:+ socketPath; "-o"; "source=" +:+ source; "-o"; "sandbox=chroot"]%string) in
   Ret (Ok (mkFsConfig name socketPath name 1 1024)))%go.

Fixpoint fs_configs (volumes : list Volume) (l : list FileSystem) : pprog (result (list FsConfig)) :=
  match l with
  | [] => Ret (Ok [])
  | fs :: l' =>
      let name := FileSystem_Name fs in
      let source := ("/mnt/" +:+ name)%string in
      (try! _ := must "create virtiofsd socket dir" (MkdirAll "/var/run/virtink/virtiofsd") in
       try! one :=
         match find_volume name volumes with
         | Some _ => try! c := virtiofsd "start virtiofsd" source name in Ret (Ok [c])
         | None =>
             let! st := call (Stat source) in
             match st with
             | Ok true => try! c := virtiofsd "start virtiofsd for sidecar volume" source name in Ret (Ok [c])
             | _ => Ret (Ok [])
             end
         end in
       try! rest := fs_configs volumes l' in
       Ret (Ok (one ++ rest)))%go
  end.

(** *** Interfaces *)

(** What the interfaces add to the configuration. *)
Record netConfigs := mkNetConfigs {
  nc_Net : list NetConfig; nc_Devices : list DeviceConfig; nc_Vdpa : list VdpaConfig; nc_Shared : bool }.
Definition no_nets : netConfigs := mkNetConfigs [] [] [] false.
Definition add_nets (a b : netConfigs) : netConfigs :=
  mkNetConfigs (nc_Net a ++ nc_Net b) (nc_Devices a ++ nc_Devices b) (nc_Vdpa a ++ nc_Vdpa b) (nc_Shared a || nc_Shared b).
Definition one_net (n : NetConfig) (shared : bool) : netConfigs := mkNetConfigs [n] [] [] shared.

Definition link_name (networkIndex : nat) (network : Network) : result string :=
  match Pod_ (Network_Source network), Multus (Network_Source network) with
  | Some _, _ => Ok "eth0"
  | None, Some _ => Ok ("net" +:+ Strconv.FormatInt (Z.of_nat networkIndex))%string
  | None, None => Err (ErrMsg ("invalid source of network " +:+ Network_Name network)%string)
  end.

Definition bridge_cidr (networkIndex : nat) : string :=
  ("169.254." +:+ Strconv.FormatInt (200 + Z.of_nat networkIndex) +:+ ".1/30")%string.

Definition sriov_devices (name linkName : string) (l : list NetworkStatus) : list DeviceConfig :=
  omap (λ s, if decide (ns_Interface s = linkName) then
               (λ a, mkDeviceConfig name ("/sys/bus/pci/devices/" +:+ a)) <$> ns_Pci s
             else None) l.
Definition vdpa_devices (name linkName : string) (v : InterfaceVDPA) (l : list NetworkStatus) : list VdpaConfig :=
  omap (λ s, if decide (ns_Interface s = linkName) then
               (λ p, mkVdpaConfig name (VDPA_NumQueues v) (VDPA_IOMMU v) p) <$> ns_Vdpa s
             else None) l.

Definition setup_interface (statuses : list NetworkStatus) (iface : Interface) (networkIndex : nat) (network : Network)
    : pprog (result netConfigs) :=
  let b := Binding iface in
  let name := Interface_Name iface in
  let net0 mac := mkNetConfig name mac 0 "" false "" "" in
  (try! linkName := Ret (link_name networkIndex network) in
   match Bridge b, Masquerade b, SRIOV b, VDPA b, VhostUser b with
   | Some _, _, _, _, _ =>
       try! n := within "setup bridge network" (setupBridgeNetwork linkName (bridge_cidr networkIndex) (net0 "")) in
       Ret (Ok (one_net n false))
   | None, Some m, _, _, _ =>
       try! n := within "setup masquerade network" (setupMasqueradeNetwork linkName (CIDR m) (net0 (MAC iface))) in
       Ret (Ok (one_net n false))
   | None, None, Some _, _, _ => Ret (Ok (mkNetConfigs [] (sriov_devices name linkName statuses) [] false))
   | None, None, None, Some v, _ => Ret (Ok (mkNetConfigs [] [] (vdpa_devices name linkName v statuses) false))
   | None, None, None, None, Some _ =>
       try! n := within "setup vhost-user network"
         (setupVhostUserNetwork linkName (mkNetConfig name (MAC iface) 0 "" true "Server" "")) in
       Ret (Ok (one_net n true))
   | None, None, None, None, None => Ret (Ok no_nets)
   end)%go.

Fixpoint setup_networks (statuses : list NetworkStatus) (iface : Interface) (i : nat) (networks : list Network)
    : pprog (result netConfigs) :=
  match networks with
  | [] => Ret (Ok no_nets)
  | network :: networks' =>
      if decide (Network_Name network = Interface_Name iface) then
        (try! a := setup_interface statuses iface i network in
         try! b := setup_networks statuses iface (S i) networks' in
         Ret (Ok (add_nets a b)))%go
      else setup_networks statuses iface (S i) networks'
  end.

Fixpoint setup_interfaces (statuses : list NetworkStatus) (ifaces : list Interface) (networks : list Network)
    : pprog (result netConfigs) :=
  match ifaces with
  | [] => Ret (Ok no_nets)
  | iface :: ifaces' =>
      (try! a := setup_networks statuses iface 0 networks in
       try! b := setup_interfaces statuses ifaces' networks in
       Ret (Ok (add_nets a b)))%go
  end.

Definition complete (c : VmConfig) (disks : list DiskConfig) (fs : list FsConfig) (fileSystems : list FileSystem)
    (nets : netConfigs) : VmConfig :=
  let '(mkVmConfig co se pa cp (mkMemoryConfig sz hp _) _ _ _ _ _) := c in
  let shared := match fileSystems with [] => nc_Shared nets | _ => true end in
  mkVmConfig co se pa cp (mkMemoryConfig sz hp shared) disks fs (nc_Net nets) (nc_Devices nets) (nc_Vdpa nets).

Definition buildVMConfig (arm64 : bool) (fuel : nat) (vm : VirtualMachine) : pprog (result VmConfig) :=
  let spec := Spec vm in
  let i := Spec_Instance spec in
  (try! affinity := cpu_affinity fuel (Instance_CPU i) in
   let! blocks := call (Getenv "BLOCK_VOLUMES") in
   try! disks := Ret (disk_configs (block_volumes blocks) (Volumes spec) (Disks i)) in
   try! fs := fs_configs (Volumes spec) (FileSystems i) in
   let! json := call (Getenv "NETWORK_STATUS") in
   try! statuses := if decide (json = "") then Ret (Ok []) else call (DecodeNetworkStatus json) in
   try! nets := setup_interfaces statuses (Interfaces i) (Networks spec) in
   Ret (Ok (complete (base_config arm64 i affinity) disks fs (FileSystems i) nets)))%go.

(** [main]: an error ends the process with a message, which fails the pod. *)
Definition main (arm64 : bool) (fuel : nat) (vmData : string) (receiveMigration : bool) : pprog (result unit) :=
  (try! vm := get "Failed to decode VM" (DecodeVM vmData) in
   try! vmConfig := within "Failed to build VM config" (buildVMConfig arm64 fuel vm) in
   if receiveMigration then Ret (Ok tt)
   else
     try! _ := must "Failed to create VM config file" (CreateFile "/var/run/virtink/vm-config.json") in
     must "Failed to write VM config to file" (WriteConfig vmConfig))%go.

End Prerunner.
