(* ===== verification/PrerunnerProofs.v ===== *)
(** * Correctness of the pre-runner

    The addresses it gives to the bridge and to the VM, the configuration it leaves to the
    node daemon, and its agreement with the pod the VM controller built around it. *)

From stdpp Require Import base gmap strings list sets fin_maps sorting.
From Stdlib Require Import ZArith Lia Ascii.
From S2P Require Import Prelude GoStd GoNet K8s ApiTypes Kube CpuSet VmValidate PodBuild PodBuildProofs Prerunner.
Open Scope Z_scope.

(** ** Addresses *)

(** The number an address stands for, the first byte being the most significant. *)
Definition ip_value (ip : list Z) : Z := foldl (λ a b, a * 256 + b) 0 ip.

Lemma ip_value_snoc pre b : ip_value (pre ++ [b]) = ip_value pre * 256 + b.
Proof. unfold ip_value. by rewrite foldl_app. Qed.

Lemma ip_value_range ip : Forall byte_ok ip → 0 ≤ ip_value ip < 256 ^ Z.of_nat (length ip).
Proof.
  induction ip as [|b pre IH] using rev_ind; [done|]. intros [Hp [Hb _]%Forall_cons]%Forall_app.
  rewrite ip_value_snoc, length_app. specialize (IH Hp). unfold byte_ok in Hb.
  rewrite Nat2Z.inj_add, Z.pow_add_r by lia. change (256 ^ Z.of_nat (length [b])) with 256. nia.
Qed.

(** The successor of an address, which wraps around after the last one. *)
Lemma inc_bytes_value ip :
  Forall byte_ok ip →
  ip_value (rev (inc_bytes (rev ip))) = (ip_value ip + 1) `mod` 256 ^ Z.of_nat (length ip).
Proof.
  induction ip as [|b pre IH] using rev_ind; [done|]. intros [Hp [Hb _]%Forall_cons]%Forall_app.
  pose proof (ip_value_range pre Hp) as Hr. unfold byte_ok in Hb.
  rewrite rev_app_distr, length_app, Nat2Z.inj_add, Z.pow_add_r by lia. cbn [app rev inc_bytes].
  change (256 ^ Z.of_nat (length [b])) with 256. rewrite ip_value_snoc.
  set (M := 256 ^ Z.of_nat (length pre)) in *. unfold u8. change (2 ^ 8) with 256.
  destruct (decide (b = 255)) as [->|Hne].
  - cbn [rev]. change ((255 + 1) `mod` 256) with 0. cbn [Z.ltb Z.compare rev]. rewrite ip_value_snoc, IH by done.
    replace (ip_value pre * 256 + 255 + 1) with ((ip_value pre + 1) * 256) by lia.
    rewrite Z.mul_mod_distr_r by lia. lia.
  - rewrite Z.mod_small by lia. replace (0 <? b + 1) with true by (symmetry; apply Z.ltb_lt; lia).
    cbn [rev]. rewrite rev_involutive, ip_value_snoc, Z.mod_small by nia. lia.
Qed.

Lemma inc_bytes_last pre b : 0 ≤ b < 255 → rev (inc_bytes (rev (pre ++ [b]))) = pre ++ [b + 1].
Proof.
  intros Hb. rewrite rev_app_distr. cbn [app rev inc_bytes]. unfold u8. rewrite Z.mod_small by lia.
  replace (0 <? b + 1) with true by (symmetry; apply Z.ltb_lt; lia). cbn [rev]. by rewrite rev_involutive.
Qed.

(** Membership depends on the masked last byte when the others agree. *)
Lemma Contains_last n pre pm b c m :
  IPNet_IP n = pre ++ [b] → IPNet_Mask n = pm ++ [m] → length pre = length pm →
  (length pre = 3 ∨ length pre = 15)%nat → Z.land c m = Z.land b m → Contains n (pre ++ [c]) = true.
Proof.
  intros Hip Hm Hl H34 Hland.
  assert (Hz : zip_with Z.land (pre ++ [b]) (pm ++ [m]) = zip_with Z.land (pre ++ [c]) (pm ++ [m])).
  { rewrite !zip_with_app by done. simpl. by rewrite Hland. }
  unfold Contains, networkNumberAndMask, To4. rewrite Hip, Hm, !length_app, <-Hl. cbn [length].
  destruct H34 as [H3|H15]; [rewrite H3|rewrite H15]; simpl; rewrite ?length_app, ?H3, ?H15, <-?Hl; simpl.
  - rewrite length_app, H3. by rewrite !bool_decide_eq_true_2 by done.
  - rewrite !take_app_le by lia. destruct (bool_decide (take 12 pre = v4InV6Prefix)) eqn:E; simpl.
    + rewrite !length_drop, !length_app, H15. simpl.
      rewrite bool_decide_eq_true_2; [done|]. by rewrite <-!zip_with_drop, Hz.
    + rewrite !length_app, H15. simpl. by rewrite !bool_decide_eq_true_2 by done.
Qed.

Definition last_zero (mask : list Z) : bool :=
  match last mask with Some m => (0 <=? m) && (m <? 256) && (m `mod` 4 =? 0) | None => false end.

(** The last byte of a network with room for four addresses takes three steps. *)
Lemma masked_last x m k :
  byte_ok x → byte_ok m → m `mod` 4 = 0 → 0 ≤ k < 4 →
  Z.land (Z.land x m + k) m = Z.land (Z.land x m) m ∧ 0 ≤ Z.land x m < 253.
Proof.
  intros Hx Hm H4 Hk.
  pose (P := λ x m k : nat, let '(x, m, k) := (Z.of_nat x, 4 * Z.of_nat m, Z.of_nat k) in
    (Z.land (Z.land x m + k) m =? Z.land (Z.land x m) m) && (0 <=? Z.land x m) && (Z.land x m <? 253)).
  assert (HP : forallb (λ x, forallb (λ m, forallb (P x m) (seq 0 4)) (seq 0 64)) (seq 0 256) = true) by (vm_compute; reflexivity).
  rewrite forallb_forall in HP. unfold byte_ok in *.
  specialize (HP (Z.to_nat x) ltac:(apply in_seq; lia)). rewrite forallb_forall in HP.
  specialize (HP (Z.to_nat (m / 4)) ltac:(apply in_seq; lia_div)). rewrite forallb_forall in HP.
  specialize (HP (Z.to_nat k) ltac:(apply in_seq; lia)). unfold P in HP.
  rewrite !Z2Nat.id in HP by lia_div. replace (4 * (m / 4)) with m in HP by lia_div. bools. lia.
Qed.

Lemma CIDRMask_last ones bits :
  bits = 32 ∨ bits = 128 → 0 ≤ ones → 2 ≤ bits - ones → last_zero (CIDRMask ones bits) = true.
Proof.
  intros Hb Ho H2.
  pose proof (prefix_lengths (λ o b, (b - o <? 2) || last_zero (CIDRMask o b))) as Hp.
  specialize (Hp ltac:(vm_compute; reflexivity) ltac:(vm_compute; reflexivity) ones bits Hb ltac:(lia)). cbv beta in Hp.
  by replace (bits - ones <? 2) with false in Hp by (symmetry; apply Z.ltb_ge; lia).
Qed.

(** The two addresses the pre-runner takes from a network: the successors of its number. *)
Record addresses (n : IPNet) (bridgeIP vmIP : list Z) : Prop := {
  ad_bridge : nextIP (IPNet_IP n) (Some n) = Ok bridgeIP;
  ad_vm : nextIP bridgeIP (Some n) = Ok vmIP;
  ad_bridge_value : ip_value bridgeIP = ip_value (IPNet_IP n) + 1;
  ad_vm_value : ip_value vmIP = ip_value (IPNet_IP n) + 2;
  ad_inside : Contains n bridgeIP = true ∧ Contains n vmIP = true;
  ad_length : length bridgeIP = length (IPNet_IP n) ∧ length vmIP = length (IPNet_IP n) ∧ bridgeIP ≠ []
}.

Lemma usable_addresses n ones bits ip :
  cidr_block n ones bits ip → 2 ≤ bits - ones → ∃ bridgeIP vmIP, addresses n bridgeIP vmIP.
Proof.
  intros [Hb Ho Hm Hl Hok Hip] H2. pose proof (CIDRMask_last ones bits Hb ltac:(lia) H2) as Hz.
  pose proof (CIDRMask_length ones bits) as Hlen.
  assert (Hn : (length ip = 4 ∨ length ip = 16)%nat) by (rewrite Hl; destruct Hb as [-> | ->]; auto).
  rewrite <-Hm in *. set (mask := IPNet_Mask n) in *.
  destruct (exists_last (l := ip)) as (xs & x & ->); [by intros ->; destruct Hn|].
  destruct (exists_last (l := mask)) as (ms & m & Em); [by intros E; rewrite E in Hlen; destruct Hb as [-> | ->]|].
  rewrite Em in *. unfold last_zero in Hz. rewrite last_snoc in Hz. bools.
  rewrite !length_app in *. cbn [length] in *.
  rewrite zip_with_app in Hip by lia. cbn [zip_with] in Hip. apply Forall_app in Hok as [_ [Hx _]%Forall_cons].
  set (pre := zip_with Z.land xs ms) in *. assert (length pre = length ms) by (subst pre; rewrite length_zip_with; lia).
  assert (Hk : ∀ k, 0 ≤ k < 4 → Contains n (pre ++ [Z.land x m + k]) = true ∧ 0 ≤ Z.land x m < 253).
  { intros k Hk. destruct (masked_last x m k) as [E1 E2]; [done|by unfold byte_ok|done|done|].
    split; [|done]. eapply Contains_last; [exact Hip|exact Em|done|lia|exact E1]. }
  destruct (Hk 1) as [C1 Hr], (Hk 2) as [C2 _]; [lia..|].
  assert (N1 : nextIP (IPNet_IP n) (Some n) = Ok (pre ++ [Z.land x m + 1])).
  { unfold nextIP. by rewrite Hip, inc_bytes_last, C1 by lia. }
  assert (N2 : nextIP (pre ++ [Z.land x m + 1]) (Some n) = Ok (pre ++ [Z.land x m + 2])).
  { unfold nextIP. rewrite inc_bytes_last by lia. replace (Z.land x m + 1 + 1) with (Z.land x m + 2) by lia. by rewrite C2. }
  exists (pre ++ [Z.land x m + 1]), (pre ++ [Z.land x m + 2]). rewrite Hip in *.
  split; rewrite ?Hip, ?ip_value_snoc, ?length_app; [done..|lia|lia|done|]. split_and!; [done..|]. by destruct pre.
Qed.

(** ** Executions of the pre-runner *)

Definition result_failed {A} (r : result A) : bool := match r with Ok _ => false | Err _ => true end.

Section Runs.
Context `{K : K8s}.

(** Whether an answer is an error. *)
Definition failure {X} (e : preE X) : X → bool :=
  match e in preE X return X → bool with
  | Getenv _ | IsCgroup2UnifiedMode | Diverge => λ _, false
  | DecodeVM _ | DecodeNetworkStatus _ | DecodeUserspaceConfig _ | ReadFile _ | Stat _ | Exec _ _ | ResolvConf
  | LinkByName _ | AddrList _ | RouteList _ => result_failed
  | MkdirAll _ | CreateFile _ | WriteFile _ _ | WriteConfig _ | Start _ _ | LinkAdd _ | LinkSetUp _ | LinkSetDown _
  | LinkSetName _ _ | LinkSetMaster _ _ | AddrAdd _ _ | AddrDel _ _ | AddrReplace _ _ | SpoofMac _ => is_some
  end.

(** A node on which the calls that satisfy [ok] may be made, whose answers satisfy [ans]; the
    world records whether a call failed. *)
Definition pre_env (ok : ∀ X, preE X → Prop) (ans : ∀ X, preE X → X → Prop) : env preE bool :=
  mkEnv (λ X e _, ok X e) (λ X e w x w', ans X e x ∧ w' = w || failure e x) False.

(** The program ends with a result that satisfies [P], or with an error after a failed call. *)
Definition succeeds {A} (P : A → Prop) (r : result A) (failed : bool) : Prop :=
  match r with Ok a => P a | Err _ => failed = true end.

Context (ok : ∀ X, preE X → Prop) (ans : ∀ X, preE X → X → Prop).

Lemma wp_then {A B} (p : prog preE (result A)) (f : A → prog preE (result B)) w P Q :
  wp (pre_env ok ans) p w (succeeds P) → (∀ a w', P a → wp (pre_env ok ans) (f a) w' (succeeds Q)) →
  wp (pre_env ok ans) (tbind p f) w (succeeds Q).
Proof. intros Hp Hf. eapply wp_try; [exact Hp|intros a w' Ha; by apply Hf|done]. Qed.

Lemma wp_must msg e w :
  ok _ e → (∀ x, failure e x = is_some x) → wp (pre_env ok ans) (must msg e) w (succeeds (λ _, True)).
Proof.
  intros Ho Hf. split; [done|]. intros x w' [_ ->]. rewrite Hf. destruct x; [|done]. simpl. by rewrite orb_true_r.
Qed.
Lemma wp_check_call e w :
  ok _ e → (∀ x, failure e x = is_some x) → wp (pre_env ok ans) (check (call e)) w (succeeds (λ _, True)).
Proof.
  intros Ho Hf. split; [done|]. intros x w' [_ ->]. rewrite Hf. destruct x; [|done]. simpl. by rewrite orb_true_r.
Qed.
Lemma wp_get {A} msg (e : preE (result A)) w (P : A → Prop) :
  ok _ e → (∀ x, failure e x = result_failed x) → (∀ a, ans _ e (Ok a) → P a) →
  wp (pre_env ok ans) (get msg e) w (succeeds P).
Proof.
  intros Ho Hf HP. split; [done|]. intros x w' [Hx ->]. rewrite Hf. destruct x; [by apply HP|]. simpl. by rewrite orb_true_r.
Qed.
Lemma wp_within {A} msg (p : prog preE (result A)) w P :
  wp (pre_env ok ans) p w (succeeds P) → wp (pre_env ok ans) (within msg p) w (succeeds P).
Proof. intros Hp. apply wp_seq. eapply wp_mono; [|exact Hp]. by intros [a|e] w'. Qed.
Lemma wp_pure {A} (r : result A) (a : A) w P : r = Ok a → P a → wp (pre_env ok ans) (Ret r) w (succeeds P).
Proof. by intros ->. Qed.
Lemma wp_executeCommand msg name args w :
  ok _ (Exec name args) → wp (pre_env ok ans) (executeCommand msg name args) w (succeeds (λ _, True)).
Proof. intros Ho. eapply wp_then; [by apply (wp_get msg _ w (λ _, True))|done]. Qed.

End Runs.

(** One call of the sequence: the permission is left when it is not immediate. *)
Ltac pre_step :=
  lazymatch goal with
  | |- wp _ (tbind (must _ _) _) _ _ => eapply wp_then; [apply wp_must; [try done|done]|intros _ ? _]
  | |- wp _ (tbind (check (call _)) _) _ _ => eapply wp_then; [apply wp_check_call; [try done|done]|intros _ ? _]
  | |- wp _ (tbind (executeCommand _ _ _) _) _ _ => eapply wp_then; [apply wp_executeCommand; try done|intros _ ? _]
  | |- wp _ (tbind (get _ _) _) _ _ => eapply (wp_then _ _ _ _ _ (λ _, True)); [apply wp_get; [try done|done|done]|intros ? ? _]
  | |- wp _ (executeCommand _ _ _) _ _ => apply wp_executeCommand; try done
  | |- wp _ (Ret (Ok _)) _ _ => try done
  end.

(** ** The masquerade binding *)

Section Masquerade.
Context `{K : K8s} (linkName : string) (mask bridgeIP vmIP mac : list Z).

(** The DHCP server's configuration: one lease, for the VM, whose router is the bridge. *)
Definition masquerade_lease (content : string) : Prop :=
  ∃ dns search, content = dnsmasqConf
    (mkDnsmasqData (bridgeName linkName) (MAC_String mac) (IP_String vmIP) (IP_String mask) "" dns search
       (Some (IP_String bridgeIP))).

(** The changes a masqueraded interface makes to the pod: a bridge with the first address, a
    tap on it, address translation on the pod's link, which itself stays as it is, and a DHCP
    server that gives the VM the second address. *)
Definition masquerade_call X (e : preE X) : Prop :=
  match e with
  | LinkAdd l | LinkSetUp l => Link_Name l = bridgeName linkName ∨ Link_Name l = tapName linkName
  | LinkSetMaster l m => Link_Name l = tapName linkName ∧ Link_Name m = bridgeName linkName
  | AddrAdd l a => Link_Name l = bridgeName linkName ∧ a = mkIPNet bridgeIP mask
  | WriteFile path content => path = dnsmasqConfPath (bridgeName linkName) ∧ masquerade_lease content
  | Exec name args =>
      name = "iptables" ∧
        (args = ["-t"; "nat"; "-A"; "POSTROUTING"; "-o"; linkName; "-j"; "MASQUERADE"] ∨
         args = ["-t"; "nat"; "-A"; "PREROUTING"; "-i"; linkName; "-j"; "DNAT"; "--to-destination"; IP_String vmIP]) ∨
      name = "dnsmasq"
  | LinkByName name => name = linkName ∨ name = tapName linkName
  | MkdirAll _ | CreateFile _ | ResolvConf => True
  | _ => False
  end.

Lemma createTap_wp (ok : ∀ X, preE X → Prop) ans bridge name mtu w :
  ok _ (LinkAdd (mkLink TapLink name mtu [])) → ok _ (LinkSetMaster (mkLink TapLink name mtu []) bridge) →
  ok _ (LinkSetUp (mkLink TapLink name mtu [])) → ok _ (LinkByName name) →
  wp (pre_env ok ans) (createTap bridge name mtu) w (succeeds (λ _, True)).
Proof. intros. unfold createTap. do 3 pre_step. by apply wp_get. Qed.

Lemma createBridge_wp (ok : ∀ X, preE X → Prop) ans name net mtu w :
  ok _ (LinkAdd (mkLink BridgeLink name mtu [])) → ok _ (AddrAdd (mkLink BridgeLink name mtu []) net) →
  ok _ (LinkSetUp (mkLink BridgeLink name mtu [])) →
  wp (pre_env ok ans) (createBridge name net mtu) w (succeeds (λ b, b = mkLink BridgeLink name mtu [])).
Proof. intros. unfold createBridge. by do 4 pre_step. Qed.

(** The DHCP server starts when its configuration may be written. *)
Lemma startDHCPServer_wp (ok : ∀ X, preE X → Prop) ans iface hw net gw routes w :
  ok _ ResolvConf → ok _ (MkdirAll "/var/run/virtink/dnsmasq") → ok _ (CreateFile (dnsmasqConfPath iface)) →
  (∀ dns search, ok _ (WriteFile (dnsmasqConfPath iface) (dnsmasqConf
     (mkDnsmasqData iface (MAC_String hw) (IP_String (IPNet_IP net)) (IP_String (IPNet_Mask net))
       (sortAndFormatRoutes routes) dns search (match gw with [] => None | _ => Some (IP_String gw) end))))) →
  (∀ args, ok _ (Exec "dnsmasq" args)) →
  wp (pre_env ok ans) (startDHCPServer iface hw net gw routes) w (succeeds (λ _, True)).
Proof. intros. unfold startDHCPServer. repeat pre_step. Qed.

End Masquerade.

Section Networks.
Context `{K : K8s}.

Lemma setupMasquerade_wp ans linkName cidr n addr bridgeIP vmIP mac cfg w :
  ParseCIDR cidr = Some (addr, n) → addresses n bridgeIP vmIP → ParseMAC (Net_Mac cfg) = Some mac →
  wp (pre_env (masquerade_call linkName (IPNet_Mask n) bridgeIP vmIP mac) ans)
    (setupMasqueradeNetwork linkName cidr cfg) w
    (succeeds (λ c, ∃ mtu, c = set_Tap (tapName linkName) (set_Mtu mtu cfg))).
Proof.
  intros Hc Ha Hm. unfold setupMasqueradeNetwork, parseCIDR. rewrite Hc. cbn [tbind pbind].
  rewrite (ad_bridge _ _ _ Ha). cbn [map_err pbind tbind]. pre_step; [by left|].
  eapply wp_then; [apply wp_within, createBridge_wp; [by left|done|by left]|]. intros b w1 ->.
  rewrite (ad_vm _ _ _ Ha). cbn [map_err pbind tbind].
  pre_step; [left; split; [done|by left]|]. pre_step; [left; split; [done|by right]|].
  eapply wp_then; [apply wp_within, createTap_wp; [by right|done|by right|by right]|]. intros _ w2 _.
  rewrite Hm. cbn [pbind tbind].
  eapply wp_then; [apply wp_within, startDHCPServer_wp|]; try done.
  - intros dns search. split; [done|]. exists dns, search. f_equal.
    destruct bridgeIP; [|done]. by destruct (ad_length _ _ _ Ha) as (_ & _ & ?).
  - by right.
  - intros _ w3 _. by eexists.
Qed.

(** C29: for every network the webhook admits for a masqueraded interface there are two
    addresses, one and two above the network's number and inside the network, such that
    setting up the interface only creates the bridge (with the first address), a tap on it,
    the two address translation rules (to the second) and a DHCP server that leases the second
    with the first as router; it leaves the pod's own link alone and fails only when a call
    fails. *)
Theorem masquerade_network linkName cidr cfg p :
  ValidateCIDR cidr 4 p = [] → is_Some (ParseMAC (Net_Mac cfg)) →
  ∃ addr n bridgeIP vmIP mac, ParseCIDR cidr = Some (addr, n) ∧ addresses n bridgeIP vmIP ∧
    ∀ ans, wp (pre_env (masquerade_call linkName (IPNet_Mask n) bridgeIP vmIP mac) ans)
      (setupMasqueradeNetwork linkName cidr cfg) false
      (succeeds (λ c, ∃ mtu, c = set_Tap (tapName linkName) (set_Mtu mtu cfg))).
Proof.
  intros Hv [mac Hm]. apply ValidateCIDR_nil in Hv as (addr & n & ones & bits & ip & Hc & Hb & H2 & _).
  destruct (usable_addresses n ones bits ip Hb H2) as (bridgeIP & vmIP & Ha).
  exists addr, n, bridgeIP, vmIP, mac. split_and!; [done..|]. intros ans. by eapply setupMasquerade_wp.
Qed.

(** A pod whose environment gives the variables [genv]. *)
Definition env_answers (genv : string → string) X (e : preE X) : X → Prop :=
  match e in preE X return X → Prop with
  | Getenv name => λ v, v = genv name
  | _ => λ _, True
  end.

Lemma setupVhostUser_wp (ok : ∀ X, preE X → Prop) (ans : ∀ X, preE X → X → Prop) genv linkName cfg w :
  (∀ X (e : preE X) x, ans X e x → env_answers genv X e x) → (∀ name, ok _ (Getenv name)) → ok _ (LinkByName "eth0") →
  genv "NET_TYPE" = "kube-ovn" → genv "VHOST_USER_SOCKET" ≠ "" →
  wp (pre_env ok ans) (setupVhostUserNetwork linkName cfg) w
    (succeeds (λ c, ∃ mtu, c = set_VhostSocket "" (set_Mtu mtu cfg))).
Proof.
  intros Ha Hg Hl Hty Hs. split; [apply Hg|]. intros ty w1 [->%Ha _]. rewrite Hty. simpl.
  split; [apply Hg|]. intros s w2 [->%Ha _]. rewrite decide_False by done. simpl.
  split; [apply Hl|]. intros [link|e] w3 [_ ->]; simpl; [by eexists|]. by rewrite orb_true_r.
Qed.

(** An interface with the vhost-user binding on kube-ovn gets no socket: the set-up
    succeeds unless the pod's link is missing, and the configuration's vhost socket is the
    empty path although VHOST_USER_SOCKET names one. *)
Theorem kube_ovn_socket_lost genv linkName cfg :
  genv "NET_TYPE" = "kube-ovn" → genv "VHOST_USER_SOCKET" ≠ "" →
  wp (pre_env (λ _ _, True) (env_answers genv)) (setupVhostUserNetwork linkName cfg) false
    (succeeds (λ c, Net_VhostSocket c = "" ∧ Net_VhostUser c = Net_VhostUser cfg ∧ Net_Id c = Net_Id cfg)).
Proof.
  intros Ht Hs. eapply wp_mono; [|by apply (setupVhostUser_wp _ (env_answers genv) genv)].
  intros [c|e] w; [|done]. intros [mtu ->]. by destruct cfg.
Qed.
End Networks.

(** ** The whole configuration *)

Section Build.
Context `{K : K8s}.

(** Interfaces that become network devices, when a network has their name. *)
Definition wired (i : Interface) : bool :=
  is_some (Bridge (Binding i)) || is_some (Masquerade (Binding i)) || is_some (VhostUser (Binding i)).
Definition plugged (nets : list Network) (i : Interface) : bool :=
  wired i && bool_decide (Interface_Name i ∈ Network_Name <$> nets).

(** What the configuration of [vm] has on a pod with the CPUs [cpus]. *)
Record config_for (vm : VirtualMachine) (cpus : CPUSet) (c : VmConfig) : Prop := {
  cf_vcpus : BootVcpus (vc_Cpus c) = numVCPUs (Instance_CPU (Spec_Instance (Spec vm))) ∧
    MaxVcpus (vc_Cpus c) = BootVcpus (vc_Cpus c);
  (** dedicated vCPUs are pinned one to one to the pod's CPUs *)
  cf_affinity : DedicatedCPUPlacement (Instance_CPU (Spec_Instance (Spec vm))) = true →
    ∃ pcpus, Cpus_Affinity (vc_Cpus c) = imap (λ i p, mkCpuAffinity (Z.of_nat i) [p]) pcpus ∧
      Z.of_nat (length pcpus) = BootVcpus (vc_Cpus c) ∧ StronglySorted Z.lt pcpus ∧ ∀ p, p ∈ pcpus ↔ p ∈ cpus;
  cf_disks : Disk_Id <$> vc_Disks c =
    filter (λ n, n ∈ Volume_Name <$> Volumes (Spec vm)) (Disk_Name <$> Disks (Spec_Instance (Spec vm)));
  cf_fs : ∀ n, n ∈ FileSystem_Name <$> FileSystems (Spec_Instance (Spec vm)) → n ∈ Volume_Name <$> Volumes (Spec vm) →
    n ∈ Fs_Tag <$> vc_Fs c;
  cf_nets : Net_Id <$> vc_Net c =
    Interface_Name <$> filter (λ i, plugged (Networks (Spec vm)) i = true) (Interfaces (Spec_Instance (Spec vm)));
  (** a network device is served by a tap or by a vhost-user back end, which needs shared memory *)
  cf_served : Forall (λ n, (∃ l, Net_Tap n = tapName l) ∨ Net_VhostUser n = true ∧ Memory_Shared (vc_Memory c) = true) (vc_Net c);
  cf_shared : FileSystems (Spec_Instance (Spec vm)) ≠ [] → Memory_Shared (vc_Memory c) = true
}.

(** *** Disks *)

Lemma disk_path_ok blocks v : wf_volume v → ∃ path, disk_path blocks v = Ok path.
Proof. intros [_ Hs]. unfold disk_path. destruct Hs; simpl; eauto. Qed.

Lemma disk_configs_ok blocks volumes disks :
  Forall wf_volume volumes → ∃ l, disk_configs blocks volumes disks = Ok l ∧
    Disk_Id <$> l = filter (λ n, n ∈ Volume_Name <$> volumes) (Disk_Name <$> disks) ∧
    ∀ c, c ∈ l → ∃ d v, d ∈ disks ∧ find_volume (Disk_Name d) volumes = Some v ∧ Disk_Id c = Disk_Name d ∧
      disk_path blocks v = Ok (Disk_Path c).
Proof.
  intros Hv. induction disks as [|d disks (l & IH1 & IH2 & IH3)]; [exists []; split_and!; [done..|set_solver]|].
  simpl. rewrite IH1. destruct (find_volume (Disk_Name d) volumes) as [v|] eqn:E.
  - pose proof (find_volume_Some _ _ _ E) as [Hin Hn].
    destruct (disk_path_ok blocks v) as [path Hp]; [by rewrite Forall_forall in Hv; apply Hv|]. rewrite Hp.
    eexists. split; [reflexivity|]. rewrite filter_cons_True by (rewrite <-Hn; by apply list_elem_of_fmap_2).
    split; [by rewrite fmap_cons, IH2|]. intros c [->|Hc]%elem_of_cons; simpl.
    + exists d, v. split_and!; [left|done..].
    + destruct (IH3 c Hc) as (d' & v' & ? & ?). exists d', v'. split; [by right|done].
  - apply find_volume_None in E. exists l. rewrite filter_cons_False by done. split_and!; [done..|].
    intros c Hc. destruct (IH3 c Hc) as (d' & v' & ? & ?). exists d', v'. split; [by right|done].
Qed.

(** *** A node on which every part of the set-up can be carried out *)

Context (genv : string → string) (content : string) (cpus : CPUSet) (fuel : nat).
Context (written : VmConfig → Prop).
Hypothesis cpus_read : ∀ unified, Get fuel unified (λ _, Ok content) = Some (Ok cpus).

Definition node_call X (e : preE X) : Prop :=
  match e with WriteConfig c => written c | Diverge => False | _ => True end.
Definition node_answers (vm : VirtualMachine) X (e : preE X) : X → Prop :=
  match e in preE X return X → Prop with
  | Getenv name => λ v, v = genv name
  | ReadFile _ => λ r, ∀ s, r = Ok s → s = content
  | DecodeVM _ => λ r, ∀ v, r = Ok v → v = vm
  | _ => λ _, True
  end.
Context (vm : VirtualMachine).
Abbreviation E := (pre_env node_call (node_answers vm)).

Lemma cpu_affinity_wp cpu w :
  (DedicatedCPUPlacement cpu = true → Z.of_nat (size cpus) = numVCPUs cpu) →
  wp E (cpu_affinity fuel cpu) w (succeeds (λ a, DedicatedCPUPlacement cpu = true →
    a = vcpu_affinity (ToSlice cpus) ∧ Z.of_nat (length (ToSlice cpus)) = numVCPUs cpu)).
Proof.
  intros Hn. unfold cpu_affinity. destruct (DedicatedCPUPlacement cpu); [|done]. specialize (Hn eq_refl).
  assert (Hl : length (ToSlice cpus) = size cpus) by (unfold ToSlice, size, set_size; by rewrite merge_sort_Permutation).
  eapply (wp_then _ _ _ _ _ (λ s, s = cpus)).
  - apply wp_within. split; [done|]. intros u w1 _. split; [done|]. intros r w2 [Hr Hw]. destruct r as [s|e].
    + cbn [pbind call]. rewrite (Hr s eq_refl), cpus_read. done.
    + cbn. rewrite Hw. apply orb_true_r.
  - intros s w1 ->. rewrite Hl, Hn, Z.eqb_refl. done.
Qed.

Lemma fs_configs_wp volumes l w :
  wp E (fs_configs volumes l) w (succeeds (λ c, ∀ n, n ∈ FileSystem_Name <$> l → n ∈ Volume_Name <$> volumes → n ∈ Fs_Tag <$> c)).
Proof.
  revert w. induction l as [|fs l IH]; intros w; [by intros n ?%elem_of_nil|]. cbn [fs_configs]. pre_step.
  assert (Hv : ∀ msg src n w, wp E (try! c := virtiofsd msg src n in Ret (Ok [c]))%go w (succeeds (λ c, n ∈ Fs_Tag <$> c))).
  { intros msg src n w0. eapply wp_then; [|intros c w2 Hc; exact Hc]. unfold virtiofsd. pre_step. simpl. set_solver. }
  eapply (wp_then _ _ _ _ _ (λ c, FileSystem_Name fs ∈ Volume_Name <$> volumes → FileSystem_Name fs ∈ Fs_Tag <$> c)).
  - destruct (find_volume _ _) eqn:Ef.
    + eapply wp_mono; [|apply Hv]. intros [c|e] w3; [|done]. by intros ? ?.
    + apply find_volume_None in Ef. split; [done|]. intros [[|]|e] w3 _; [|intros Hin; by destruct (Ef Hin)..].
      eapply wp_mono; [|apply Hv]. intros [c|e'] w2; [|done]. by intros ? ?.
  - intros one w1 Hone. eapply wp_then; [apply IH|]. intros rest w2 Hrest. simpl.
    intros n. rewrite fmap_app, elem_of_app. intros [->|Hn]%elem_of_cons ?; [left; auto|right; auto].
Qed.

(** *** Interfaces *)

Lemma bridge_cidr_ok i :
  (i < 56)%nat → ∃ addr n ip, ParseCIDR (bridge_cidr i) = Some (addr, n) ∧ nextIP (IPNet_IP n) (Some n) = Ok ip.
Proof.
  pose (f := λ i, match ParseCIDR (bridge_cidr i) with
                  | Some (_, n) => negb (result_failed (nextIP (IPNet_IP n) (Some n))) | None => false end).
  assert (Hf : forallb f (seq 0 56) = true) by (vm_compute; reflexivity).
  rewrite forallb_forall in Hf. intros Hi. specialize (Hf i ltac:(apply in_seq; lia)). unfold f in Hf.
  destruct (ParseCIDR _) as [[addr n]|]; [|done]. destruct (nextIP _ _) as [ip|] eqn:En; [|done]. eauto.
Qed.

(** The 57th network has no address left for its bridge. *)
Example bridge_cidr_limit : ParseCIDR (bridge_cidr 56) = None.
Proof. vm_compute. reflexivity. Qed.

Lemma setupBridge_wp linkName i cfg w :
  (i < 56)%nat → wp E (setupBridgeNetwork linkName (bridge_cidr i) cfg) w
    (succeeds (λ c, ∃ mtu mac, c = set_Tap (tapName linkName) (set_Mac mac (set_Mtu mtu cfg)))).
Proof.
  intros (addr & n & ip & Hc & Hn)%bridge_cidr_ok. unfold setupBridgeNetwork, parseCIDR. rewrite Hc. cbn [pbind tbind].
  rewrite Hn. cbn [map_err pbind tbind]. pre_step. eapply wp_then; [by apply wp_within, createBridge_wp|]. intros b w1 _.
  do 4 pre_step. eapply (wp_then _ _ _ _ _ (λ _, True)); [unfold move_address; case_goal; repeat pre_step|]. intros nm w2 _.
  do 3 pre_step. eapply wp_then; [by apply wp_within, createTap_wp|]. intros _ w3 _.
  eapply (wp_then _ _ _ _ _ (λ _, True)); [case_goal; [done|by apply wp_within, startDHCPServer_wp]|]. intros _ w4 _.
  by eexists _, _.
Qed.

Definition vhost_ready : Prop := genv "NET_TYPE" = "kube-ovn" ∧ genv "VHOST_USER_SOCKET" ≠ "".

(** What one interface contributes. *)
Definition contributes (present : bool) (i : Interface) (c : netConfigs) : Prop :=
  Net_Id <$> nc_Net c = (if wired i && present then [Interface_Name i] else []) ∧
  Forall (λ n, (∃ l, Net_Tap n = tapName l) ∨ Net_VhostUser n = true ∧ nc_Shared c = true) (nc_Net c).

Lemma contributes_one i n shared :
  wired i = true → Net_Id n = Interface_Name i → ((∃ l, Net_Tap n = tapName l) ∨ Net_VhostUser n = true ∧ shared = true) →
  contributes true i (one_net n shared).
Proof. intros Hw Hi Ht. unfold contributes. rewrite Hw. simpl. rewrite Hi. split; [done|]. by apply Forall_singleton. Qed.

Lemma setup_interface_wp inst statuses iface i network w :
  (i < 56)%nat → wf_interface inst iface → wf_network network → (is_Some (VhostUser (Binding iface)) → vhost_ready) →
  wp E (setup_interface statuses iface i network) w (succeeds (contributes true iface)).
Proof.
  intros Hi [_ [mac Hmac] Hb _] [_ Hn] Hv. unfold setup_interface.
  assert (∃ linkName, link_name i network = Ok linkName) as [linkName ->] by (unfold link_name; destruct Hn; simpl; eauto).
  cbn [pbind tbind]. destruct iface as [name mac' b]. cbn [Binding Interface_Name MAC] in *.
  destruct Hb as [b'|m Hm|s|v|v]; cbn [Bridge Masquerade SRIOV VDPA VhostUser] in *.
  - eapply wp_then; [by apply wp_within, setupBridge_wp|]. intros c w1 (mtu & mac1 & ->).
    apply contributes_one; [done..|left; by eexists].
  - destruct Hm as (addr & n & ones & bits & ip & Hc & Hblk & H2 & _).
    destruct (usable_addresses n ones bits ip Hblk H2) as (bridgeIP & vmIP & Ha).
    eapply wp_then; [apply wp_within; eapply wp_weaken; [| | |by eapply (setupMasquerade_wp (node_answers vm))]; [|done..]; by intros X []|].
    intros c w1 (mtu & ->). apply contributes_one; [done..|left; by eexists].
  - by split; [|constructor].
  - by split; [|constructor].
  - destruct (Hv ltac:(eauto)) as [H1 H2].
    eapply wp_then; [eapply wp_within, setupVhostUser_wp; try done; intros X e x; by destruct e|].
    intros c w1 (mtu & ->). apply contributes_one; [done..|by right].
Qed.

Lemma contributes_add p q i a b :
  (p && q = false) → contributes p i a → contributes q i b → contributes (p || q) i (add_nets a b).
Proof.
  intros Hpq [Ha Fa] [Hb Fb]. split; simpl.
  - rewrite fmap_app, Ha, Hb. destruct (wired i), p, q; simplify_eq/=; done.
  - apply Forall_app. split; (eapply Forall_impl; [eassumption|]); intros n [Ht|[Hn Hs]]; [by left| |by left|];
      right; rewrite Hs, ?orb_true_r; done.
Qed.

Lemma setup_networks_wp inst statuses iface i nets w :
  (i + length nets ≤ 56)%nat → wf_interface inst iface → Forall wf_network nets → NoDup (Network_Name <$> nets) →
  (is_Some (VhostUser (Binding iface)) → vhost_ready) →
  wp E (setup_networks statuses iface i nets) w
    (succeeds (contributes (bool_decide (Interface_Name iface ∈ Network_Name <$> nets)) iface)).
Proof.
  intros Hi Hif Hn Hd Hv. revert i w Hi. induction nets as [|net nets IH]; intros i w Hi.
  { split; [|constructor]. by rewrite andb_false_r. }
  apply Forall_cons in Hn as [Hnet Hn]. rewrite fmap_cons, NoDup_cons in Hd. destruct Hd as [Hnew Hd].
  cbn [length] in Hi. cbn [setup_networks].
  destruct (decide (Network_Name net = Interface_Name iface)) as [En|En].
  - eapply wp_then; [eapply setup_interface_wp; [lia|done..]|]. intros a w1 Ha.
    eapply wp_then; [apply IH; [done..|lia]|]. intros b w2 Hb. simpl.
    rewrite En in Hnew. rewrite bool_decide_eq_false_2 in Hb by done.
    rewrite bool_decide_eq_true_2 by (rewrite <-En; left). by apply (contributes_add true false).
  - eapply wp_mono; [|apply IH; [done..|lia]]. intros [c|e] w'; [|done]. unfold succeeds.
    rewrite fmap_cons. by rewrite (bool_decide_ext (Interface_Name iface ∈ Network_Name net :: _)
      (Interface_Name iface ∈ Network_Name <$> nets)) by set_solver.
Qed.

Lemma setup_interfaces_wp inst statuses ifaces nets w :
  (length nets ≤ 56)%nat → Forall (wf_interface inst) ifaces → Forall wf_network nets → NoDup (Network_Name <$> nets) →
  (∀ i, i ∈ ifaces → is_Some (VhostUser (Binding i)) → vhost_ready) →
  wp E (setup_interfaces statuses ifaces nets) w (succeeds (λ c,
    Net_Id <$> nc_Net c = Interface_Name <$> filter (λ i, plugged nets i = true) ifaces ∧
    Forall (λ n, (∃ l, Net_Tap n = tapName l) ∨ Net_VhostUser n = true ∧ nc_Shared c = true) (nc_Net c))).
Proof.
  intros Hl Hi Hn Hd Hv. revert w. induction ifaces as [|iface ifaces IH]; intros w; [by split; [|constructor]|].
  apply Forall_cons in Hi as [Hif Hi]. cbn [setup_interfaces].
  eapply wp_then; [eapply setup_networks_wp; [done..|intros; eapply Hv; [left|done]]|]. intros a w1 [Ha Fa].
  eapply wp_then; [apply IH; [done|intros i Hin; apply Hv; by right]|]. intros b w2 [Hb Fb]. split; simpl.
  - rewrite fmap_app, Ha, Hb. fold (plugged nets iface).
    destruct (plugged nets iface) eqn:Ep; [rewrite filter_cons_True by done|rewrite filter_cons_False by (by rewrite Ep)]; done.
  - apply Forall_app. split; (eapply Forall_impl; [eassumption|]); intros n [Ht|[Hm Hs]]; [by left| |by left|];
      right; rewrite Hs, ?orb_true_r; done.
Qed.

Record node_ready (v : VirtualMachine) : Prop := {
  nr_cpus : DedicatedCPUPlacement (Instance_CPU (Spec_Instance (Spec v))) = true →
    Z.of_nat (size cpus) = numVCPUs (Instance_CPU (Spec_Instance (Spec v)));
  nr_networks : (length (Networks (Spec v)) ≤ 56)%nat;
  nr_vhost : ∀ i, i ∈ Interfaces (Spec_Instance (Spec v)) → is_Some (VhostUser (Binding i)) → vhost_ready
}.

Lemma buildVMConfig_wp arm64 w :
  wf_spec (Spec vm) → node_ready vm → wp E (buildVMConfig arm64 fuel vm) w (succeeds (config_for vm cpus)).
Proof.
  intros Hs [Hc Hl Hv]. unfold buildVMConfig.
  eapply wp_then; [by apply cpu_affinity_wp|]. intros aff w1 Haff.
  split; [done|]. intros blocks w2 _. cbn [pbind].
  destruct (disk_configs_ok (block_volumes blocks) (Volumes (Spec vm)) (Disks (Spec_Instance (Spec vm))))
    as (disks & Ed & Hids & _); [apply Hs|].
  eapply wp_then; [by eapply (wp_pure _ _ _ disks _ (λ d, d = disks))|]. intros ? w3 ->.
  eapply wp_then; [apply fs_configs_wp|]. intros fs w4 Hfs.
  split; [done|]. intros json w5 _. cbn [pbind].
  eapply (wp_then _ _ _ _ _ (λ _, True)).
  { case_decide; [done|]. split; [done|]. intros [st|e] w6 [_ ->]; [done|]. apply orb_true_r. }
  intros statuses w6 _. eapply wp_then; [eapply setup_interfaces_wp; [done|apply (wfs_instance _ Hs)|apply Hs|apply Hs|done]|].
  intros nets w7 [Hn Hserved]. simpl. split; simpl; try done.
  - intros Hd. destruct (Haff Hd) as [-> Hlen]. destruct (ToSlice_sorted cpus). by exists (ToSlice cpus).
  - eapply Forall_impl; [exact Hserved|]. intros n [Ht|[Hm Hsh]]; [by left|right]. split; [done|].
    by destruct (FileSystems (Spec_Instance (Spec vm))).
  - intros Hne. by destruct (FileSystems (Spec_Instance (Spec vm))).
Qed.
End Build.

Section Main.
Context `{K : K8s}.

End Main.

Section Sample.
#[local] Existing Instance k8s_concrete.

Definition sampleNet : NetConfig := mkNetConfig "pod" "52:54:00:12:34:56" 0 "" false "" "".
Definition kubeOvnEnv (name : string) : string :=
  if decide (name = "NET_TYPE") then "kube-ovn"
  else if decide (name = "VHOST_USER_SOCKET") then "/var/run/vhost-user/sock" else "".

Lemma masquerade_network_witness :
  ∃ addr n bridgeIP vmIP mac, ParseCIDR "10.0.2.0/30" = Some (addr, n) ∧ addresses n bridgeIP vmIP ∧
    ∀ ans, wp (pre_env (masquerade_call "eth0" (IPNet_Mask n) bridgeIP vmIP mac) ans)
      (setupMasqueradeNetwork "eth0" "10.0.2.0/30" sampleNet) false
      (succeeds (λ c, ∃ mtu, c = set_Tap "tap-eth0" (set_Mtu mtu sampleNet))).
Proof.
  apply (masquerade_network "eth0" "10.0.2.0/30" sampleNet []); [vm_compute; reflexivity|].
  vm_compute. by eexists.
Defined.

Lemma kube_ovn_socket_lost_witness :
  wp (pre_env (λ _ _, True) (env_answers kubeOvnEnv))
    (setupVhostUserNetwork "net1" (mkNetConfig "dpdk" "" 0 "" true "Server" "")) false
    (succeeds (λ c, Net_VhostSocket c = "" ∧ Net_VhostUser c = true ∧ Net_Id c = "dpdk")).
Proof. apply (kube_ovn_socket_lost kubeOvnEnv "net1" (mkNetConfig "dpdk" "" 0 "" true "Server" "")); done. Defined.


(** The two addresses of the sample network. *)
Example sample_addresses :
  match ParseCIDR "10.0.2.0/30" with
  | Some (_, n) => (nextIP (IPNet_IP n) (Some n), nextIP [10; 0; 2; 1] (Some n), nextIP [10; 0; 2; 3] (Some n))
  | None => (Ok [], Ok [], Ok [])
  end = (Ok [10; 0; 2; 1], Ok [10; 0; 2; 2], Err (ErrMsg "no more available IP in subnet 10.0.2.0/30")).
Proof. vm_compute. reflexivity. Qed.
End Sample.
