(* ===== verification/PodContract.v ===== *)
(** * The contract between the pod builder and the pre-runner

    The VM controller builds the pod ([PodBuild]) and the pre-runner inside it computes the
    paths of the disks ([Prerunner]).  The two agree through the mounts and devices of the
    pod, the files its init containers write and the variable BLOCK_VOLUMES. *)

From stdpp Require Import base gmap strings list sets fin_maps.
From Stdlib Require Import ZArith Lia Ascii.
From S2P Require Import Prelude GoStd GoNet K8s ApiTypes Kube VmValidate PodBuild PodBuildProofs Prerunner PrerunnerProofs.
Open Scope Z_scope.

(** ** Names of volumes *)

(** A name that is one component of a path and one element of a list: every DNS label is. *)
Definition plain_name (n : string) : Prop := path_element n ∧ Strings.lacks ","%char n.

Lemma JoinPath_img n : Strings.lacks "/"%char n → JoinPath ["/hotplug-volumes"; (n +:+ ".img")%string] = ("/hotplug-volumes/" +:+ n +:+ ".img")%string.
Proof.
  intros Hs. change (JoinPath _) with (Clean ("" +:+ String "/" ("hotplug-volumes" +:+ String "/" (n +:+ ".img")))). unfold Clean.
  assert (He : path_element (n +:+ ".img")%string) by (apply path_element_suffix; [done|by vm_compute|simpl; lia]).
  rewrite !Strings.Split_app, Strings.Split_lacks by (done || apply He). simpl. by rewrite clean_component_element.
Qed.

Lemma JoinPath_disk n : plain_name n → JoinPath ["/mnt"; n; "disk.img"] = ("/mnt/" +:+ n +:+ "/disk.img")%string.
Proof.
  intros [He _].
  change (JoinPath _) with (Clean ("" +:+ String "/" ("mnt" +:+ String "/" (n +:+ String "/" "disk.img")))). unfold Clean.
  rewrite !Strings.Split_app by (done || apply He). simpl. by rewrite clean_component_element.
Qed.

Lemma block_volumes_Join blocks n :
  n ≠ "" → Forall (Strings.lacks ","%char) blocks → n ∈ block_volumes (Strings.Join blocks ",") ↔ n ∈ blocks.
Proof.
  intros Hn Hb. unfold block_volumes. rewrite elem_of_list_to_set. destruct blocks as [|b blocks].
  - simpl. rewrite list_elem_of_singleton, elem_of_nil. done.
  - by rewrite Strings.Split_Join.
Qed.

Section Contract.
Context `{K : K8s} {L : QuantityLaws K} (params : BuildParams).

(** ** The pod under construction only grows *)

Definition block_env (l : list EnvVar) : list EnvVar := filter (λ e, Env_Name e = "BLOCK_VOLUMES") l.

Record grows (b b' : build) : Prop := {
  gr_mounts : bd_mounts b ⊆ bd_mounts b';
  gr_devices : bd_devices b ⊆ bd_devices b';
  gr_init : bd_init b ⊆ bd_init b';
  gr_env : block_env (bd_env b') = block_env (bd_env b)
}.

#[local] Instance grows_preorder : PreOrder grows.
Proof.
  split; [by split|]. intros a b c [] []. split; [by etrans..|congruence].
Qed.

Ltac grow_step :=
  intros Hg; etrans; [exact Hg|]; match goal with |- grows ?b _ => destruct b end; split; simpl; [set_solver..|].

Lemma grows_refl b : grows b b.
Proof. by split. Qed.
Lemma grows_volume v b b' : grows b b' → grows b (add_volume v b').
Proof. by grow_step. Qed.
Lemma grows_init c b b' : grows b b' → grows b (add_init c b').
Proof. by grow_step. Qed.
Lemma grows_mount m b b' : grows b b' → grows b (add_mount m b').
Proof. by grow_step. Qed.
Lemma grows_device d b b' : grows b b' → grows b (add_device d b').
Proof. by grow_step. Qed.
Lemma grows_annot k v b b' : grows b b' → grows b (set_annot k v b').
Proof. by grow_step. Qed.
Lemma grows_nodeSel k v b b' : grows b b' → grows b (set_nodeSel k v b').
Proof. by grow_step. Qed.
Lemma grows_label k v b b' : grows b b' → grows b (set_label k v b').
Proof. by grow_step. Qed.
Lemma grows_env n v b b' : n ≠ "BLOCK_VOLUMES" → grows b b' → grows b (add_env (mkEnvVar n v) b').
Proof. intros Hn. grow_step. unfold block_env. by rewrite filter_app, filter_cons_False, filter_nil, app_nil_r. Qed.
Lemma grows_increment r b b' b'' : incrementContainerResource r b' = Returned b'' → grows b b' → grows b b''.
Proof. destruct (incrementContainerResource_spec r b') as (q & l & ->). intros [= <-] Hg. etrans; [exact Hg|]. by split. Qed.

Create HintDb grow.
Hint Resolve grows_refl grows_volume grows_init grows_mount grows_device grows_annot grows_nodeSel grows_label : grow.
Hint Extern 1 (grows _ (add_env _ _)) => apply grows_env; [done|] : grow.

(** ** Where a volume is *)

(** An init container writes the file [f] of the volume. *)
Definition prepared (init : list Container) (name f : string) : Prop :=
  ∃ c, c ∈ init ∧ mnt name ∈ VolumeMounts c ∧ ("/mnt/" +:+ name +:+ "/" +:+ f)%string ∈ Args c.

Definition claim_placed (b : build) (isBlock : Prop) (v : Volume) : Prop :=
  IsHotpluggable v = false →
    (isBlock ∧ mkVolumeDevice (Volume_Name v) ("/mnt/" +:+ Volume_Name v) ∈ bd_devices b) ∨
    (¬ isBlock ∧ mnt (Volume_Name v) ∈ bd_mounts b).

Inductive placed (b : build) (isBlock : Prop) (v : Volume) : Prop :=
| placed_file f : mnt (Volume_Name v) ∈ bd_mounts b → prepared (bd_init b) (Volume_Name v) f →
    (∀ blocks, disk_path blocks v = Ok ("/mnt/" +:+ Volume_Name v +:+ "/" +:+ f)%string) → placed b isBlock v
| placed_claim : ContainerDisk (Volume_Source v) = None → CloudInit (Volume_Source v) = None →
    ContainerRootfs (Volume_Source v) = None → claim_placed b isBlock v → placed b isBlock v.

Lemma placed_grows b b' (P Q : Prop) v : grows b b' → (P ↔ Q) → placed b P v → placed b' Q v.
Proof.
  intros [Hm Hd Hi _] HPQ [f Hmt (c & Hc & Hp) Hpath|H1 H2 H3 Hc].
  - eapply placed_file; [by apply Hm|exists c; split; [by apply Hi|done]|exact Hpath].
  - apply placed_claim; [done..|]. intros Hh. rewrite <-HPQ. destruct (Hc Hh) as [[? ?]|[? ?]]; [left|right]; auto.
Qed.

(** ** The steps of the builder *)

Abbreviation R := reading_env.

Lemma add_claim_placed vm v b w :
  wp R (add_claim vm v b) w (λ r _, ∀ b' blk, r = Ok (b', blk) → grows b b' ∧ claim_placed b' (blk = true) v).
Proof.
  assert (Hrest : ∀ w, wp R (let! r := IsBlock (om_Namespace (vm_meta vm)) v in
     match r with
     | Err e => Ret (Err e)
     | Ok isBlock =>
         if IsHotpluggable v then Ret (Ok (b, isBlock))
         else
           let b := add_volume (mkPodVolume (Volume_Name v) (PVCVolume (PVCName v))) b in
           Ret (Ok (if isBlock then add_device (mkVolumeDevice (Volume_Name v) ("/mnt/" +:+ Volume_Name v)) b
                    else add_mount (mnt (Volume_Name v)) b, isBlock))
     end)%go w (λ r _, ∀ b' blk, r = Ok (b', blk) → grows b b' ∧ claim_placed b' (blk = true) v)).
  { intros w1. wp_use (IsBlock_wp R (λ _, True) reading_env_ok); [|done]. intros [blk|e] w2 _; [|done]. unfold claim_placed.
    destruct (IsHotpluggable v); cbn [wp]; intros b' blk' E; simplify_eq; [done|]. destruct blk'.
    - split; [eauto with grow|]. intros _. left. split; [done|]. destruct b; simpl. set_solver.
    - split; [eauto with grow|]. intros _. right. split; [done|]. destruct b; simpl. set_solver. }
  unfold add_claim. wp_use (IsReady_wp R (λ _, True) reading_env_ok); [|done]. intros [[|]|e] w' _; [by apply Hrest| |done].
  destruct (DataVolume _); [|done]. wp_use (GetPVC_wp R (λ _, True) reading_env_ok); [|done].
  intros [[pvc|]|e] w'' _; [|by apply Hrest|done]. destruct (negb _); [done|by apply Hrest].
Qed.

Lemma add_cloudInit_grows vm n c b : grows b (add_cloudInit params vm n c b).
Proof.
  unfold add_cloudInit.
  destruct (negb (bool_decide (UserData c = ""))), (negb (bool_decide (UserDataBase64 c = ""))),
    (negb (bool_decide (UserDataSecretName c = ""))), (negb (bool_decide (NetworkData c = ""))),
    (negb (bool_decide (NetworkDataBase64 c = ""))), (negb (bool_decide (NetworkDataSecretName c = "")));
    cbv beta zeta iota; eauto 8 with grow.
Qed.

(** The last steps of a volume with a file: a volume, a mount, and the container that writes it. *)
Lemma file_placed v c f P b :
  VolumeMounts c = [mnt (Volume_Name v)] ∨ (∃ l, VolumeMounts c = l ++ [mnt (Volume_Name v)]) →
  ("/mnt/" +:+ Volume_Name v +:+ "/" +:+ f)%string ∈ Args c →
  (∀ blocks, disk_path blocks v = Ok ("/mnt/" +:+ Volume_Name v +:+ "/" +:+ f)%string) →
  placed (add_init c (add_mount (mnt (Volume_Name v)) (add_volume (emptyDir (Volume_Name v)) b))) P v.
Proof.
  intros Hm Ha Hd. eapply placed_file; [destruct b; simpl; set_solver| |exact Hd].
  exists c. split; [destruct b; simpl; set_solver|]. split; [|done]. destruct Hm as [->|[l ->]]; set_solver.
Qed.

Lemma add_vm_volume_placed vm v b blocks w :
  wf_volume v → Volume_Name v ∉ blocks →
  wp R (add_vm_volume params vm v b blocks) w (λ r _, ∀ b' bl, r = Ok (b', bl) →
    grows b b' ∧ placed b' (Volume_Name v ∈ bl) v ∧ (bl = blocks ∨ bl = blocks ++ [Volume_Name v])).
Proof.
  intros [_ Hs] Hn. unfold add_vm_volume. destruct v as [name s]. simpl in Hs, Hn |- *.
  assert (Hclaim : ContainerDisk s = None → CloudInit s = None → ContainerRootfs s = None →
    wp R (let! r := add_claim vm (mkVolume name s) b in
       match r with
       | Err e => Ret (Err e)
       | Ok (b, isBlock) => Ret (Ok (b, if isBlock then blocks ++ [name] else blocks))
       end)%go w (λ r _, ∀ b' bl, r = Ok (b', bl) →
         grows b b' ∧ placed b' (name ∈ bl) (mkVolume name s) ∧ (bl = blocks ∨ bl = blocks ++ [name]))).
  { intros H1 H2 H3. wp_use add_claim_placed. intros [[b1 blk]|e] w' Hb; [|done]. destruct (Hb _ _ eq_refl) as [Hg Hp].
    intros b' bl [= <- <-]. split; [done|]. split; [|by destruct blk; auto].
    apply placed_claim; [done..|]. intros Hh. destruct (Hp Hh) as [[-> ?]|[? ?]]; [left; set_solver|right].
    destruct blk; done. }
  assert (Hf : ∀ f, (("/mnt/" +:+ name) +:+ "/" +:+ f = "/mnt/" +:+ name +:+ "/" +:+ f)%string) by (intros f; apply Strings.append_assoc).
  destruct Hs as [c|c|c|c|c]; cbn [ContainerDisk CloudInit ContainerRootfs PersistentVolumeClaim DataVolume];
    try (by apply Hclaim); intros b' bl [= <- <-].
  - split; [unfold add_containerDisk; eauto with grow|]. split; [|by left].
    unfold add_containerDisk. apply (file_placed (mkVolume name _) _ "disk.raw"); [by left| |done].
    apply elem_of_cons. left. exact (eq_sym (Hf "disk.raw")).
  - split; [apply add_cloudInit_grows|]. split; [|by left]. unfold add_cloudInit.
    repeat match goal with |- context [if ?x then _ else _] => destruct x end;
      (apply (file_placed (mkVolume name _) _ "cloud-init.iso");
       [right; by eexists|cbn [Args init_container]; rewrite !elem_of_cons; do 4 right; left; exact (eq_sym (Hf "cloud-init.iso"))|done]).
  - split; [unfold add_containerRootfs; eauto with grow|]. split; [|by left].
    unfold add_containerRootfs. apply (file_placed (mkVolume name _) _ "rootfs.raw"); [by left| |done].
    apply elem_of_cons. left. exact (eq_sym (Hf "rootfs.raw")).
Qed.

(** After the volumes [vs]: each is placed, and the block list only has names of theirs. *)
Definition volumes_placed (vs : list Volume) (b : build) (blocks : list string) : Prop :=
  (∀ v, v ∈ vs → placed b (Volume_Name v ∈ blocks) v) ∧ blocks ⊆ Volume_Name <$> vs.

Lemma add_vm_volumes_placed vm vs done b blocks w :
  Forall wf_volume vs → NoDup (Volume_Name <$> done ++ vs) → volumes_placed done b blocks →
  wp R (add_vm_volumes params vm vs b blocks) w (λ r _, ∀ b' bl, r = Ok (b', bl) →
    grows b b' ∧ volumes_placed (done ++ vs) b' bl).
Proof.
  revert done b blocks w. induction vs as [|v vs IH]; intros done b blocks w Hwf Hnd [Hpl Hbl]; cbn [add_vm_volumes].
  { intros b' bl [= <- <-]. rewrite app_nil_r. by split; [|split]. }
  apply Forall_cons in Hwf as [Hv Hwf].
  assert (Hnew : Volume_Name v ∉ Volume_Name <$> done).
  { rewrite fmap_app, NoDup_app in Hnd. destruct Hnd as (_ & Hnd & _). intros Hin. apply (Hnd _ Hin). left. }
  wp_use add_vm_volume_placed; [|done|set_solver]. intros [[b1 bl1]|e] w' H1; [|done].
  destruct (H1 _ _ eq_refl) as (Hg & Hpv & Hbl1).
  assert (Hp1 : volumes_placed (done ++ [v]) b1 bl1).
  { split; [|rewrite fmap_app; destruct Hbl1 as [->| ->]; set_solver]. intros u [Hu| ->%list_elem_of_singleton]%elem_of_app; [|done].
    eapply placed_grows; [exact Hg| |by apply Hpl].
    assert (Volume_Name u ≠ Volume_Name v) by (intros E; apply Hnew; rewrite <-E; by apply list_elem_of_fmap_2).
    destruct Hbl1 as [->| ->]; [done|]. rewrite elem_of_app, list_elem_of_singleton. tauto. }
  eapply wp_mono; [|apply (IH (done ++ [v])); [done|by rewrite <-app_assoc|exact Hp1]].
  intros r w2 Hr b' bl ->. destruct (Hr b' bl eq_refl) as [Hg' Hp']. split; [by etrans|]. by rewrite <-app_assoc in Hp'.
Qed.

Lemma add_sysctls_grows i iface b : grows b (add_sysctls params i iface b).
Proof. unfold add_sysctls. destruct (Masquerade (Binding iface)), (Bridge (Binding iface)); eauto with grow. Qed.

Lemma add_multus_grows vm i iface m b n w :
  wp R (add_multus params vm i iface m b n) w (λ r _, ∀ b' el n', r = Ok (b', el, n') → grows b b').
Proof.
  unfold add_multus. apply (wp_read R (λ _, True) reading_env_ok); [done..|]. intros [nad|e] w' _; [|done].
  set (rn := default "" _).
  assert (∃ b1, (if decide (rn = "") then Returned b else incrementContainerResource rn b) = Returned b1 ∧ grows b b1)
    as (b1 & -> & Hb1).
  { case_decide; [by exists b|]. destruct (incrementContainerResource_spec rn b) as (q & l & E). eexists. split; [exact E|].
    eapply grows_increment; [exact E|done]. }
  cbn [or_crash]. set (b2 := add_env _ b1). assert (Hb2 : grows b b2) by (subst b2; eauto with grow).
  destruct (VhostUser (Binding iface)); [|by intros b' el n' [= <- _ _]].
  unfold add_vhost_user. destruct (UnmarshalNADConfig params (nad_Config nad)) as [cfg|]; [|done].
  repeat case_decide; try done; intros b' el n' [= <- _ _]; eauto 8 with grow.
Qed.

Lemma add_vm_networks_grows vm i nets b elems n w :
  wp R (add_vm_networks params vm i nets b elems n) w (λ r _, ∀ b' el, r = Ok (b', el) → grows b b').
Proof.
  revert i b elems n w. induction nets as [|net nets IH]; intros i b elems n w; cbn [add_vm_networks].
  { by intros b' el [= <- _]. }
  destruct (find_interface _ _) as [iface|]; [|done]. pose proof (add_sysctls_grows i iface b) as Hs.
  destruct (Multus _) as [m|].
  - wp_use add_multus_grows. intros [[[b1 el] n1]|e] w' H1; [|done]. specialize (H1 _ _ _ eq_refl).
    eapply wp_mono; [|apply IH]. intros r w2 Hr b' el' E. etrans; [exact Hs|]. etrans; [exact H1|]. by eapply Hr.
  - eapply wp_mono; [|apply IH]. intros r w2 Hr b' el' E. etrans; [exact Hs|]. by eapply Hr.
Qed.

(** ** The finished pod *)

(** The value a container sees of a variable that is set literally. *)
Definition literal_env (name : string) (l : list EnvVar) : string :=
  match last (filter (λ e, Env_Name e = name) l) with
  | Some (mkEnvVar _ (EnvLiteral v)) => v
  | _ => ""
  end.

(** What [buildVMPod] leaves in the builder. *)
Lemma built_volumes vm w :
  wf_spec (Spec vm) →
  wp R (buildVMPod params vm) w (λ r _, ∀ pod vm', r = Ok (pod, vm') → ∃ b blocks,
    pod = finish params vm b ∧ vm' = shared_vm vm b ∧ volumes_placed (Volumes (Spec vm)) b blocks ∧
    literal_env "BLOCK_VOLUMES" (bd_env b) = Strings.Join blocks "," ∧
    mkVolumeMount "hotplug-volumes" "/hotplug-volumes" (Some "HostToContainer") ∈ bd_mounts b).
Proof.
  intros Hwf. unfold buildVMPod.
  destruct (incrementContainerResource_spec "devices.virtink.io/kvm" (initial vm)) as (q & l & E1). rewrite E1. cbn [outcome_bind].
  set (b1 := mkBuild _ _ _ _ _ _ _ _ _ _) in *.
  destruct (incrementContainerResource_spec "devices.virtink.io/tun" b1) as (q' & l' & E2). rewrite E2. cbn [or_crash].
  set (b2 := add_hugepages _ _).
  assert (Hb2 : grows (initial vm) b2).
  { assert (grows (initial vm) b1) by (by split). eapply grows_increment in E2; [|done]. subst b2.
    unfold add_hugepages, add_kernel. destruct (Memory_Hugepages _), (Instance_Kernel _); eauto 8 with grow. }
  wp_use (add_vm_volumes_placed vm (Volumes (Spec vm)) []); [|apply Hwf|apply Hwf|by split; [set_solver|]].
  intros [[b3 bl]|e] w1 H3; [|done]. destruct (H3 _ _ eq_refl) as [Hb3 [Hpl Hbl]].
  wp_use add_vm_networks_grows. intros [[b5 el]|e] w2 H5; [|done]. specialize (H5 _ _ eq_refl).
  assert (Hann : ∀ b6, match el with [] => Ok b5 | _ => match MarshalNetworks params el with
      | Err e => Err (ErrFmt "marshal networks" e) | Ok json => Ok (set_annot "k8s.v1.cni.cncf.io/networks" json b5) end end
      = Ok b6 → grows b5 b6).
  { intros b6. destruct el; [by intros [= <-]|]. destruct (MarshalNetworks _ _); [|done]. intros [= <-]. eauto with grow. }
  destruct (match el with [] => _ | _ => _ end) as [b6|e]; [|done]. specialize (Hann b6 eq_refl).
  destruct (MarshalVM params (shared_vm vm b6)) as [json|e]; [|done]. intros pod vm' [= <- <-].
  set (b7 := add_env _ b6). assert (Hb7 : grows (add_blocks bl b3) b7).
  { etrans; [exact H5|]. etrans; [exact Hann|]. subst b7. eauto with grow. }
  exists b7, bl. split; [done|]. split; [by destruct b6|].
  assert (Hlists : bd_mounts b3 ⊆ bd_mounts b7 ∧ bd_devices b3 ⊆ bd_devices b7 ∧ bd_init b3 ⊆ bd_init b7).
  { destruct Hb7 as [? ? ? _]. unfold add_blocks in *. destruct bl; [done|]. by destruct b3. }
  destruct Hlists as (Hm & Hd & Hi). split_and!.
  - split; [|done]. intros v Hv. specialize (Hpl v Hv).
    set (b3' := mkBuild (bd_labels b7) (bd_annots b7) (bd_nodeSel b7) (bd_requests b7) (bd_limits b7) (bd_volumes b7)
      (bd_init b7) (bd_mounts b7) (bd_devices b7) (bd_env b3)).
    assert (Hp' : placed b3' (Volume_Name v ∈ bl) v) by (eapply placed_grows; [|done|exact Hpl]; by split).
    destruct Hp'; [by eapply placed_file|by apply placed_claim].
  - unfold literal_env. fold (block_env (bd_env b7)). rewrite (gr_env _ _ Hb7). unfold add_blocks.
    assert (E0 : block_env (bd_env b3) = []) by (rewrite (gr_env _ _ Hb3), (gr_env _ _ Hb2); done).
    destruct bl as [|x bl]; [by rewrite E0|]. destruct b3. simpl in E0 |- *. unfold block_env in *. by rewrite filter_app, E0.
  - apply Hm, (gr_mounts _ _ Hb3), (gr_mounts _ _ Hb2). simpl. set_solver.
Qed.

(** The file or device [path] of a volume is there when the container starts: it is a block
    device of the pod; or a file an init container wrote to the mounted volume; or a file of a
    mounted claim; or it will appear under the mount through which volumes are hotplugged. *)
Inductive backed (init : list Container) (c : Container) (v : Volume) (path : string) : Prop :=
| backed_device d : d ∈ VolumeDevices c → vd_Name d = Volume_Name v → DevicePath d = path → backed init c v path
| backed_file f : mnt (Volume_Name v) ∈ VolumeMounts c → path = ("/mnt/" +:+ Volume_Name v +:+ "/" +:+ f)%string →
    prepared init (Volume_Name v) f ∨ PVCName v ≠ "" → backed init c v path
| backed_hotplug m f : IsHotpluggable v = true → m ∈ VolumeMounts c → MountPropagation m = Some "HostToContainer" →
    MountPath m = "/hotplug-volumes" → path = ("/hotplug-volumes/" +:+ f)%string →
    f = Volume_Name v ∨ f = (Volume_Name v +:+ ".img")%string → backed init c v path.

Lemma PVCName_nonempty v :
  wf_volume v → ContainerDisk (Volume_Source v) = None → CloudInit (Volume_Source v) = None →
  ContainerRootfs (Volume_Source v) = None → PVCName v ≠ "".
Proof. intros [_ Hs]. unfold PVCName. by destruct Hs; simpl. Qed.

Lemma placed_backed vm b P blocks v path :
  mkVolumeMount "hotplug-volumes" "/hotplug-volumes" (Some "HostToContainer") ∈ bd_mounts b →
  wf_volume v → plain_name (Volume_Name v) → (P ↔ Volume_Name v ∈ blocks) →
  placed b P v → disk_path blocks v = Ok path →
  ∃ c, head (Pod_Containers (pod_Spec (finish params vm b))) = Some c ∧
    backed (Pod_InitContainers (pod_Spec (finish params vm b))) c v path.
Proof.
  intros Hh Hwf Hn HP Hpl Hp. eexists. split; [reflexivity|]. destruct Hpl as [f Hm (c & Hc & Hvm & Ha) Hd|H1 H2 H3 Hc].
  - rewrite Hd in Hp. simplify_eq. eapply backed_file; [simpl; apply elem_of_app; by left|done|left].
    exists (set_container_Resources (Spec_Resources (Spec (shared_vm vm b))) c). split; [by apply list_elem_of_fmap_2|by destruct c].
  - pose proof (PVCName_nonempty v Hwf H1 H2 H3) as Hpvc. unfold disk_path in Hp. rewrite H1, H2, H3 in Hp.
    assert (Hp' : (if bool_decide (Volume_Name v ∈ blocks) then
            if IsHotpluggable v then ("/hotplug-volumes/" +:+ Volume_Name v)%string else ("/mnt/" +:+ Volume_Name v)%string
          else if IsHotpluggable v then JoinPath ["/hotplug-volumes"; (Volume_Name v +:+ ".img")%string]
               else JoinPath ["/mnt"; Volume_Name v; "disk.img"]) = path).
    { destruct (PersistentVolumeClaim (Volume_Source v)), (DataVolume (Volume_Source v)); congruence. }
    clear Hp. unfold claim_placed in Hc. destruct (IsHotpluggable v) eqn:Ehp.
    + eapply (backed_hotplug _ _ _ _ _ (if bool_decide (Volume_Name v ∈ blocks) then Volume_Name v else Volume_Name v +:+ ".img"));
        [done|simpl; apply elem_of_app; left; exact Hh|done|done| |].
      * rewrite <-Hp'. case_bool_decide; [reflexivity|]. rewrite JoinPath_img by apply Hn. reflexivity.
      * case_bool_decide; [by left|by right].
    + destruct (Hc eq_refl) as [[HPt Hdev]|[HPf Hm]].
      * rewrite bool_decide_eq_true_2 in Hp' by (by apply HP). eapply backed_device; [simpl; exact Hdev|done|exact Hp'].
      * rewrite bool_decide_eq_false_2 in Hp' by (by rewrite <-HP). rewrite JoinPath_disk in Hp' by done.
        eapply (backed_file _ _ _ _ "disk.img"); [simpl; apply elem_of_app; by left|by rewrite <-Hp'|by right].
Qed.

(** C17: the pre-runner finds the disks where the VM controller put them: for every VM the
    webhook admits whose volume names are DNS labels, with the VM of VM_DATA and the variable
    BLOCK_VOLUMES of the pod that [buildVMPod] returns, the disk configurations are computed
    without error, and each disk's path is a block device of the pod's container, a file an
    init container wrote there, a file of a mounted claim, or a name under the hotplug mount. *)
Theorem disks_are_mounted vm oldVM :
  ValidateVM vm oldVM = Returned [] → (∀ v, v ∈ Volumes (Spec vm) → plain_name (Volume_Name v)) →
  wp reading_env (buildVMPod params vm) tt (λ r _, ∀ pod vm', r = Ok (pod, vm') → ∃ c disks,
    head (Pod_Containers (pod_Spec pod)) = Some c ∧
    disk_configs (block_volumes (literal_env "BLOCK_VOLUMES" (Env c))) (Volumes (Spec vm')) (Disks (Spec_Instance (Spec vm')))
      = Ok disks ∧
    ∀ d, d ∈ disks → ∃ v, find_volume (Disk_Id d) (Volumes (Spec vm)) = Some v ∧
      backed (Pod_InitContainers (pod_Spec pod)) c v (Disk_Path d)).
Proof.
  intros [Hwf _]%ValidateVM_nil Hnames. eapply wp_mono; [|by apply built_volumes].
  intros r w Hr pod vm' E. destruct (Hr pod vm' E) as (b & blocks & -> & -> & [Hpl Hbl] & Henv & Hh).
  destruct (shared_vm_same vm b) as [_ _ _ _ _ _ Hinst Hvols _ _]. rewrite Hinst, Hvols.
  eexists. destruct (disk_configs_ok (block_volumes (literal_env "BLOCK_VOLUMES" (bd_env b))) (Volumes (Spec vm))
    (Disks (Spec_Instance (Spec vm)))) as (disks & Ed & _ & Hd); [apply Hwf|].
  exists disks. split; [reflexivity|]. split; [exact Ed|]. intros d (d' & v & _ & Hf & Hid & Hpath)%Hd.
  exists v. rewrite Hid. split; [done|]. pose proof (find_volume_Some _ _ _ Hf) as [Hin _].
  rewrite Henv in Hpath. pose proof (Hnames v Hin) as Hplain.
  destruct (placed_backed vm b (Volume_Name v ∈ blocks) (block_volumes (Strings.Join blocks ",")) v (Disk_Path d))
    as (c & [= <-] & Hb); [done|by apply (proj1 (Forall_forall _ _) (wfs_volumes _ Hwf))|done| |by apply Hpl|done|exact Hb].
  symmetry. apply block_volumes_Join; [apply Hplain|]. apply Forall_forall. intros n Hn.
  apply Hbl, list_elem_of_fmap in Hn as (u & -> & Hu). apply (Hnames u Hu).
Qed.
End Contract.

Section Sample.
#[local] Existing Instance k8s_concrete.
#[local] Existing Instance k8s_concrete_laws.

Lemma disks_are_mounted_witness :
  wp reading_env (buildVMPod sampleParams (sampleVM [sampleDisk; sampleData])) tt (λ r _, ∀ pod vm', r = Ok (pod, vm') → ∃ c disks,
    head (Pod_Containers (pod_Spec pod)) = Some c ∧
    disk_configs (block_volumes (literal_env "BLOCK_VOLUMES" (Env c))) (Volumes (Spec vm')) (Disks (Spec_Instance (Spec vm')))
      = Ok disks ∧
    ∀ d, d ∈ disks → ∃ v, find_volume (Disk_Id d) [sampleDisk; sampleData] = Some v ∧
      backed (Pod_InitContainers (pod_Spec pod)) c v (Disk_Path d)).
Proof.
  apply (disks_are_mounted sampleParams (sampleVM [sampleDisk; sampleData]) None).
  - assert (Ha : admitted (VMValidator_Handle OpCreate (Ok (sampleVM [sampleDisk; sampleData])) (Err (ErrMsg ""))) = true)
      by (vm_compute; reflexivity).
    by apply admitted_eq, Handle_create in Ha.
  - intros v [->|[->|[]%elem_of_nil]%elem_of_cons]%elem_of_cons; vm_compute; split_and!; done.
Defined.

(** The paths of the sample VM's disks in a pod whose data volume is a block device. *)
Example sample_paths :
  match disk_configs (block_volumes "data") [sampleDisk; sampleData] [mkDisk "root" None; mkDisk "data" (Some true)] with
  | Ok l => map Disk_Path l
  | Err _ => []
  end = ["/mnt/root/disk.raw"; "/hotplug-volumes/data"].
Proof. vm_compute. reflexivity. Qed.
End Sample.
