(* ===== verification/NodeUtil.v ===== *)
(** * Sockets and certificates of a node (pkg/daemon/pid, pkg/daemon/tcpproxy, pkg/tlsutil)

    The process behind a unix socket, the migration relays and the TLS material.  The proxy library
    of the relays is a parameter.
    Descriptors are numbers that the operating system hands out; a deferred close runs on every
    path, the last one first. *)

From stdpp Require Import base gmap strings list sets fin_maps.
From Stdlib Require Import Ascii ZArith Lia.
From S2P Require Import Prelude GoStd.
Open Scope Z_scope.

(** The [DialContext] of a route: where a connection is passed on to. *)
Inductive dialer := DialTLS (tcpAddr : string) | DialSocket (socketPath : string).

Inductive sysE : Type → Type :=
(** [net.Dial] of a unix socket *)
| DialUnix (socket : string) : sysE (result Z)
(** [UnixConn.File]: a duplicate of the connection's descriptor *)
| ConnFile (conn : Z) : sysE (result Z)
(** [syscall.GetsockoptUcred] with [SO_PEERCRED]: the pid is an [int32] *)
| GetsockoptUcred (fd : Z) : sysE (result Z)
| CloseFd (fd : Z) : sysE unit
| SysMkdirAll (path : string) : sysE (option goerror)
(** [os.Remove]; the error of a missing file is told apart *)
| SysRemove (path : string) : sysE (option (goerror * bool))
| ListenUnix (path : string) : sysE (result Z)
(** [tls.Listen], and the port that was bound *)
| ListenTLS (addr : string) : sysE (result (Z * Z))
(** the proxy accepts connections on a listener and passes each on through the dialer *)
| ServeRoute (listener : Z) (dial : dialer) : sysE unit
(** [go func() { <-ctx.Done(); proxy.Close() }()] *)
| GoCloseOnDone (ctx : nat) : sysE unit
| SysReadFile (path : string) : sysE (result string)
(** [tls.LoadX509KeyPair] *)
| LoadX509KeyPair (cert key : string) : sysE (result string)
(** [AppendCertsFromPEM] on an empty pool: how many certificates were found *)
| AppendCertsFromPEM (data : string) : sysE nat.

Abbreviation sprog := (prog sysE).

(** [defer q] for the rest of a function; no call here panics. *)
Definition deferring {A} (q : sprog unit) (p : sprog A) : sprog A := (let! a := p in q ;;; Ret a)%go.

(** An error with its prefix ([fmt.Errorf]). *)
Definition wrap {A} (msg : string) (r : result A) : result A := match r with Ok a => Ok a | Err e => Err (ErrFmt msg e) end.

(** ** pkg/daemon/pid/pid.go *)

Definition GetPIDBySocket (socket : string) : sprog (result Z) :=
  (let! conn := call (DialUnix socket) in
   try! conn := Ret (wrap "dial socket" conn) in
   deferring (call (CloseFd conn))
     (let! f := call (ConnFile conn) in
      try! f := Ret (wrap "get connection file" f) in
      deferring (call (CloseFd f))
        (let! ucred := call (GetsockoptUcred f) in
         try! pid := Ret (wrap "get ucred" ucred) in
         Ret (Ok pid))))%go.

(** ** pkg/daemon/tcpproxy/relay_provider.go *)

(** [filepath.Dir]. *)
Definition Dir (path : string) : string :=
  match removelast (Strings.Split "/"%char path) with
  | [] => Clean ""
  | dirs => Clean (Strings.Join dirs "/" +:+ "/")
  end.
Example Dir_examples : Dir "/var/run/tx.sock" = "/var/run" ∧ Dir "/a" = "/" ∧ Dir "a" = "." ∧ Dir "a/b//c" = "a/b".
Proof. done. Qed.

(** The listen functions of the relays. *)
Definition RelaySocketToTCP_listen (socketPath : string) : sprog (result Z) :=
  (let! err := call (SysMkdirAll (Dir socketPath)) in
   match err with
   | Some e => Ret (Err (ErrFmt "create socket directory" e))
   | None =>
       let! err := call (SysRemove socketPath) in
       match err with
       | Some (e, false) => Ret (Err (ErrFmt "remove stale socket" e))
       | _ => call (ListenUnix socketPath)
       end
   end)%go.

(** The listener, and the port that is stored in the variable outside. *)
Definition RelayTCPToSocket_listen (tcpAddr : string) (port : Z) : sprog (result Z * Z) :=
  (let! l := call (ListenTLS tcpAddr) in
   match l with
   | Err e => Ret (Err e, port)
   | Ok (fd, p) => Ret (Ok fd, p)
   end)%go.

(** [Proxy.Start] of the proxy library, for a proxy with this [ListenFunc] and these routes.  The
    function may write a variable outside of it, which is passed along. *)
Definition proxy_Start_type : Type :=
  ∀ S : Type, (S → string → string → sprog (result Z * S)) → list (string * dialer) → S → sprog (option goerror * S).

(** What the library documents of a proxy with one route: Start creates the listener with
    [ListenFunc], whose error it returns, and serves it with the destination of the route. *)
Definition proxy_documented (proxy_Start : proxy_Start_type) : Prop :=
  ∀ S listen ipPort dial (s : S),
    proxy_Start S listen [(ipPort, dial)] s =
      (let! (l, s) := listen s "tcp" ipPort in
       match l with
       | Err e => Ret (Some e, s)
       | Ok fd => call (ServeRoute fd dial) ;;; Ret (None, s)
       end)%go.

Section Relays.
Context (proxy_Start : proxy_Start_type).

Definition RelaySocketToTCP (ctx : nat) (socketPath tcpAddr : string) : sprog (option goerror) :=
  (call (GoCloseOnDone ctx) ;;;
   let! (err, _) := proxy_Start unit (λ s _ _, let! l := RelaySocketToTCP_listen socketPath in Ret (l, s))
                      [("", DialTLS tcpAddr)] tt in
   Ret err)%go.

Definition RelayTCPToSocket (ctx : nat) (tcpAddr socketPath : string) : sprog (result Z) :=
  (call (GoCloseOnDone ctx) ;;;
   let! (err, port) := proxy_Start Z (λ port _ _, RelayTCPToSocket_listen tcpAddr port) [("", DialSocket socketPath)] 0 in
   match err with Some e => Ret (Err e) | None => Ret (Ok port) end)%go.

End Relays.

(** ** pkg/tlsutil/tlsutil.go *)

Definition LoadCert (certDirPath : string) : sprog (result string) :=
  call (LoadX509KeyPair (JoinPath [certDirPath; "tls.crt"]) (JoinPath [certDirPath; "tls.key"])).

(** The pool, as the number of its certificates. *)
Definition LoadCACert (certDirPath : string) : sprog (result nat) :=
  (let! caCertData := call (SysReadFile (JoinPath [certDirPath; "ca.crt"])) in
   try! caCertData := Ret (wrap "read CA cert file" caCertData) in
   let! n := call (AppendCertsFromPEM caCertData) in
   Ret (Ok n))%go.

(** ** Proofs *)

(** The operating system: the open descriptors, each with the socket it is connected to; a new
    descriptor is one that is not open.  [peer] is the process that listens on a socket.  Only
    open descriptors may be used and closed. *)
Definition fd_env (peer : string → Z) : env sysE (gmap Z string) := mkEnv
  (λ X e w, match e with ConnFile fd | GetsockoptUcred fd | CloseFd fd => is_Some (w !! fd) | _ => True end)
  (λ X e w, match e in sysE X return X → gmap Z string → Prop with
     | DialUnix socket => λ r w', match r with Ok fd => w !! fd = None ∧ w' = <[fd := socket]> w | Err _ => w' = w end
     | ConnFile c => λ r w', match r with Ok fd => w !! fd = None ∧ ∃ s, w !! c = Some s ∧ w' = <[fd := s]> w | Err _ => w' = w end
     | GetsockoptUcred fd => λ r w', w' = w ∧ ∀ p, r = Ok p → ∃ s, w !! fd = Some s ∧ p = peer s
     | CloseFd fd => λ _ w', w' = delete fd w
     | _ => λ _ w', w' = w
     end) False.

(** [GetPIDBySocket], which runs in the daemon for every reconciliation, leaks no descriptor: on
    every path, errors included, it closes what it opened, each descriptor once and while it is open,
    and what it returns is the process that listens on the socket. *)
Theorem GetPIDBySocket_closes peer socket w :
  wp (fd_env peer) (GetPIDBySocket socket) w (λ r w', w' = w ∧ ∀ p, r = Ok p → p = peer socket).
Proof.
  unfold GetPIDBySocket, deferring. cbn. split; [done|]. intros [conn|e] w1; [intros [Hc ->]|by intros ->]. cbn.
  split; [by rewrite lookup_insert_eq|]. intros [f|e] w2; cbn.
  - intros (Hf & s & Hs & ->). rewrite lookup_insert_eq in Hs. injection Hs as <-.
    assert (Hn : f ≠ conn) by (intros ->; by rewrite lookup_insert_eq in Hf).
    split; [by rewrite lookup_insert_eq|]. intros r w3 [-> Hr].
    assert (Hclean : delete conn (delete f (<[f := socket]> (<[conn := socket]> w))) = w).
    { rewrite delete_insert_id by done. by rewrite delete_insert_id. }
    destruct r as [p|e]; cbn; (split; [by rewrite lookup_insert_eq|]); intros [] w4 ->; cbn;
      (split; [rewrite lookup_delete_ne, lookup_insert_ne, lookup_insert_eq by done; done|]); intros [] w5 ->; (split; [done|]); [|done].
    intros q [= <-]. destruct (Hr p eq_refl) as (s & Hs & ->). rewrite lookup_insert_eq in Hs. by injection Hs as <-.
  - intros ->. split; [by rewrite lookup_insert_eq|]. intros [] w3 ->. split; [|done]. by rewrite delete_insert_id.
Qed.

(** A readable CA file gives a pool whatever it holds, also one without any certificate. *)
Lemma LoadCACert_empty_pool {W} (h : handler sysE W) dir data w w1 w2 :
  h _ (SysReadFile (JoinPath [dir; "ca.crt"])) w = (Ok data, w1) → h _ (AppendCertsFromPEM data) w1 = (0%nat, w2) →
  run h (LoadCACert dir) w = (Returned (Ok 0%nat), w2).
Proof. intros H1 H2. unfold LoadCACert. cbn [run pbind call]. rewrite H1. cbn [wrap tbind pbind call run]. by rewrite H2. Qed.
