(* ===== verification/Daemon.v ===== *)
(** * The node daemon's VM controller: pkg/daemon/vm_controller.go

    The daemon of each node drives the hypervisor of the VMs on the node: it boots them,
    carries out power actions, hotplugs volumes, and moves VMs to other nodes.  The node's
    operating system, the hypervisor's API and the relays are calls of [nodeE]; the
    migration control blocks, the daemon's only state, are passed explicitly. *)

From stdpp Require Import base gmap strings list sets fin_maps.
From Stdlib Require Import ZArith Lia Ascii.
From S2P Require Import Prelude GoStd K8s ApiTypes Kube VmController.
Open Scope Z_scope.

(** ** The hypervisor's data (pkg/cloudhypervisor/client.go), as far as the daemon uses it *)

Record DiskConfig := mkDiskConfig { Disk_Id : string; Disk_Path : string }.
Record VmConfig := mkVmConfig {
  Config_Devices : list string;
  Config_Vdpa : list string;
  Config_Disks : list DiskConfig;
  (** [Memory.Size], when [Memory] is set *)
  Config_MemorySize : option Z;
  (** the other fields, which are passed on *)
  Config_rest : string
}.
Record VmInfo := mkVmInfo { Info_Config : option VmConfig; Info_State : string }.

(** Requests to the hypervisor that answer with an error or nothing. *)
Inductive chRequest :=
| VmCreate (config : VmConfig)
| VmBoot | VmShutdown | VmPowerButton | VmReboot | VmPause | VmResume | VmDelete
| VmAddDisk (disk : DiskConfig)
| VmRemoveDevice (id : string).

Record volumeMountRecord := mkVolumeRecord { Record_Volume : string; Record_Target : string }.
Abbreviation vmMountRecord := (list volumeMountRecord).

(** A block device rule of a cgroup: [rwm] permissions, allowed or not. *)
Record deviceRule := mkDeviceRule { Rule_Major : Z; Rule_Minor : Z; Rule_Allow : bool }.

(** A line of /proc/<pid>/mountinfo. *)
Record mountInfo := mkMountInfo { mi_Major : Z; mi_Minor : Z; mi_Root : string; mi_Mountpoint : string }.

Section Node.
Context `{K8s}.

(** ** The node's calls *)

Inductive nodeE : Type → Type :=
| Kube {X} (e : kubeE X) : nodeE X
(** the hypervisor behind a socket *)
| GetVmInfo (socket : string) : nodeE (result VmInfo)
| ChRequest (socket : string) (req : chRequest) : nodeE (option goerror)
(** [go VmReceiveMigration] and [go VmSendMigration] under a cancelable context: the channel
    their error comes from *)
| GoReceiveMigration (socket : string) (ctx : nat) (url : string) : nodeE nat
| GoSendMigration (socket : string) (ctx : nat) (url : string) : nodeE nat
(** [select { case err := <-ch: ...; default: ... }] *)
| TryReceive (ch : nat) : nodeE (option goerror)
(** [context.WithCancel], as the handle of its cancel function, and a call of that function *)
| WithCancel : nodeE nat
| CancelContext (ctx : nat) : nodeE unit
| RelayTCPToSocket (ctx : nat) (addr socket : string) : nodeE (result Z)
| RelaySocketToTCP (ctx : nat) (socket addr : string) : nodeE (option goerror)
| LoadCACert (dir : string) : nodeE (option goerror)
(** [os.Stat]: [Ok false] when the path does not exist *)
| Stat (path : string) : nodeE (result bool)
(** [os.Open] and JSON decoding: [Ok None] when the file does not exist *)
| ReadVmConfig (path : string) : nodeE (result (option VmConfig))
| ReadRecord (path : string) : nodeE (result vmMountRecord)
| MkdirAll (path : string) : nodeE (option goerror)
| WriteRecord (path : string) (r : vmMountRecord) : nodeE (option goerror)
| CreateFile (path : string) : nodeE (option goerror)
| RemoveAll (path : string) : nodeE (option goerror)
(** [exec.Command(...).CombinedOutput] *)
| Exec (name : string) (args : list string) : nodeE (result string)
| Mounted (path : string) : nodeE (result bool)
| MountInfos (pid : Z) : nodeE (result (list mountInfo))
| GetPIDBySocket (socket : string) : nodeE (result Z)
(** [unix.Prlimit] of [RLIMIT_MEMLOCK] *)
| PrlimitMemlock (pid limit : Z) : nodeE (option goerror)
(** the rest of [cgroup.NewManager], and [Manager.Set] *)
| OpenCgroup (pid : Z) : nodeE (result nat)
| CgroupSet (manager : nat) (rule : deviceRule) : nodeE (option goerror)
(** one interval of [wait.PollImmediate] *)
| Sleep : nodeE unit.

#[export] Instance nodeE_kube : HasKube nodeE := λ X e, Kube e.

Abbreviation nprog := (prog nodeE).

Definition Eventf_ (vm : VirtualMachine) (type reason : string) : nprog unit := kube (Eventf (vm_meta vm) type reason).

(** ** Paths *)

Definition podDir (uid : string) (sub : list string) : string := JoinPath (["/var/lib/kubelet/pods"; uid] ++ sub).

Definition getVMDataDirPath (vm : VirtualMachine) : string :=
  podDir (VMPodUID (Status vm)) ["volumes/kubernetes.io~empty-dir/virtink/"].
Definition chSocket (vm : VirtualMachine) : string := JoinPath [getVMDataDirPath vm; "ch.sock"].
Definition getMigrationTargetVMSocketDirPath (m : VirtualMachineStatusMigration) : string :=
  podDir (TargetVMPodUID m) ["volumes/kubernetes.io~empty-dir/virtink/"].
Definition targetSocket (m : VirtualMachineStatusMigration) : string := JoinPath [getMigrationTargetVMSocketDirPath m; "ch.sock"].
Definition getVMMountRecordFile (uid : string) : string := JoinPath ["/var/run/virtink/hotplug-volume-mount-record"; uid].

(** [wait.PollImmediate(time.Second, n*time.Second, cond)]: the condition is tested at once
    and after each interval until the timeout. *)
Fixpoint PollImmediate (n : nat) (cond : nprog (result bool)) : nprog (option goerror) :=
  (let! r := cond in
   match r, n with
   | Err e, _ => Ret (Some e)
   | Ok true, _ => Ret None
   | Ok false, O => Ret (Some (ErrMsg "timed out waiting for the condition"))
   | Ok false, S n' => call Sleep ;;; PollImmediate n' cond
   end)%go.

(** The text of an error, as far as the code tests it. *)
Fixpoint error_text (e : goerror) : string :=
  match e with
  | ErrMsg m | ErrAPI _ m => m
  | ErrFmt m c | ErrWrap m c => (m +:+ ": " +:+ error_text c)%string
  | ErrReconcile _ => "reconcile error"
  end.

Definition isVMNotCreatedError (e : goerror) : bool := Strings.Contains (error_text e) "VM is not created".

(** ** Mount records *)

Definition getVMMountRecord (uid : string) : nprog (result vmMountRecord) :=
  let path := getVMMountRecordFile uid in
  (try! exists_ := call (Stat path) in
   if exists_ : bool then call (ReadRecord path) else Ret (Ok []))%go.

Definition writeVMMountRecord (uid : string) (r : vmMountRecord) : nprog (result unit) :=
  (try! _ := check (call (MkdirAll "/var/run/virtink/hotplug-volume-mount-record")) in
   check (call (WriteRecord (getVMMountRecordFile uid) r)))%go.

(** The record as it is afterwards, also when it could not be written. *)
Definition addVolumeToVMMountRecord (uid volume target : string) (r : vmMountRecord) : nprog (vmMountRecord * option goerror) :=
  if existsb (λ v, bool_decide (Record_Volume v = volume)) r then Ret (r, None)
  else
    let r' := r ++ [mkVolumeRecord volume target] in
    (let! res := writeVMMountRecord uid r' in
     Ret (r', match res with Err e => Some e | Ok _ => None end))%go.

Definition removeVMMountRecord (uid : string) : nprog (result unit) := check (call (RemoveAll (getVMMountRecordFile uid))).

(** ** Devices and mounts *)

Definition getBlockFileMajorMinor (path : string) : nprog (result (Z * Z)) :=
  (let! r := call (Exec "/bin/stat" [path; "-L"; "-c%t,%T,%a,%F"]) in
   match r with
   | Err e => Ret (Err (ErrFmt "/bin/stat" e))
   | Ok output =>
       match Strings.Split ","%char output with
       | [major; minor; _; _] =>
           match Strconv.ParseInt 16 32 major, Strconv.ParseInt 16 32 minor with
           | Some major, Some minor => Ret (Ok (major, minor))
           | _, _ => Ret (Err (ErrMsg "invalid syntax"))
           end
       | _ => Ret (Err (ErrMsg "output is invalid"))
       end
   end)%go.

Definition isBlockFile (path : string) : nprog bool :=
  (let! r := call (Exec "/usr/bin/stat" [path; "-L"; "-c%F"]) in
   Ret match r with Ok output => bool_decide (Strings.TrimSpace output = "block special file") | Err _ => false end)%go.

Definition isMounted (path : string) : nprog (result bool) :=
  (try! exists_ := call (Stat path) in
   if exists_ : bool then call (Mounted path) else Ret (Ok false))%go.

(** pkg/daemon/cgroup/manager.go: no manager ([Ok None]) when the hypervisor has no socket. *)
Definition NewManager (vm : VirtualMachine) : nprog (result (option nat)) :=
  (try! exists_ := call (Stat (chSocket vm)) in
   if negb exists_ then Ret (Ok None)
   else
     try! pid := call (GetPIDBySocket (chSocket vm)) in
     try! m := call (OpenCgroup pid) in
     Ret (Ok (Some m)))%go.

Definition getHotplugVolumeSourcePathOnHost (volume volumePodUID : string) : nprog (result string) :=
  (try! pid := call (GetPIDBySocket ("/var/lib/kubelet/pods/" +:+ volumePodUID +:+ "/volumes/kubernetes.io~empty-dir/hotplug/hp.sock")%string) in
   try! mounts := call (MountInfos pid) in
   match filter (λ m, mi_Mountpoint m = ("/mnt/" +:+ volume)%string) mounts with
   | [] => Ret (Err (ErrMsg "no mount info in volume pod"))
   | m0 :: _ =>
       try! host := call (MountInfos 1) in
       match filter (λ m, mi_Major m = mi_Major m0 ∧ mi_Minor m = mi_Minor m0 ∧
               Strings.HasPrefix (mi_Root m0) (mi_Root m) = true ∧ Strings.Contains (mi_Mountpoint m) volumePodUID = true) host with
       | [] => Ret (Err (ErrMsg "n mount info on host"))
       | m :: _ => Ret (Ok (mi_Mountpoint m))
       end
   end)%go.

(** Let the VM's hypervisor use the device.  The manager is used without a test for nil. *)
Definition allow_device (vm : VirtualMachine) (major minor : Z) : nprog (result unit) :=
  (try! manager := NewManager vm in
   match manager with
   | None => Crash "nil pointer dereference"
   | Some m =>
       let! err := call (CgroupSet m (mkDeviceRule major minor true)) in
       Ret match err with Some e => Err (ErrFmt "set cgroup for volume device" e) | None => Ok tt end
   end)%go.

(** *** Mounting.  Both return the mount record, which they extend. *)

Definition mountBlockVolume (vm : VirtualMachine) (volume vmPodUID volumePodUID : string) (r : vmMountRecord)
    : nprog (vmMountRecord * option goerror) :=
  let target := podDir vmPodUID ["volumes/kubernetes.io~empty-dir/hotplug-volumes/"; volume] in
  let source := podDir volumePodUID ["volumes/kubernetes.io~empty-dir/hotplug/"; volume] in
  (let! st := call (Stat target) in
   match st with
   | Err e => Ret (r, Some e)
   | Ok mounted =>
       let! dev := getBlockFileMajorMinor source in
       match dev with
       | Err e => Ret (r, Some e)
       | Ok (major, minor) =>
           let! (r, err) := addVolumeToVMMountRecord (om_UID (vm_meta vm)) volume target r in
           match err with
           | Some e => Ret (r, Some e)
           | None =>
               let! res :=
                 (try! _ := (if mounted : bool then Ret (Ok tt)
                             else let! out := call (Exec "/bin/mknod" [target; "b"; Strconv.FormatInt major; Strconv.FormatInt minor]) in
                                  Ret match out with Ok _ => Ok tt | Err e => Err (ErrFmt "mknod" e) end) in
                  allow_device vm major minor) in
               Ret (r, match res with Err e => Some e | Ok _ => None end)
           end
       end
   end)%go.

Definition mountFileSystemVolume (vm : VirtualMachine) (volume vmPodUID volumePodUID : string) (r : vmMountRecord)
    : nprog (vmMountRecord * option goerror) :=
  let target := ("/var/lib/kubelet/pods/" +:+ vmPodUID +:+ "/volumes/kubernetes.io~empty-dir/hotplug-volumes/" +:+ volume +:+ ".img")%string in
  (let! mounted := isMounted target in
   match mounted with
   | Err e => Ret (r, Some e)
   | Ok true => Ret (r, None)
   | Ok false =>
       let! source := getHotplugVolumeSourcePathOnHost volume volumePodUID in
       match source with
       | Err e => Ret (r, Some e)
       | Ok source =>
           let! (r, err) := addVolumeToVMMountRecord (om_UID (vm_meta vm)) volume target r in
           match err with
           | Some e => Ret (r, Some e)
           | None =>
               let! res :=
                 (try! exists_ := call (Stat target) in
                  try! _ := (if exists_ : bool then Ret (Ok tt) else check (call (CreateFile target))) in
                  let! out := call (Exec "mount" ["-o"; "bind"; JoinPath [source; "disk.img"]; target]) in
                  Ret match out with Ok _ => Ok tt | Err e => Err (ErrFmt "mount volume" e) end) in
               Ret (r, match res with Err e => Some e | Ok _ => None end)
           end
       end
   end)%go.

(** The first status of this name, and the status list with its phase changed. *)
Definition find_status (name : string) (l : list VolumeStatus) : option (nat * VolumeStatus) :=
  list_find (λ s, VolumeStatus_Name s = name) l.
Definition set_status_phase (i : nat) (p : VolumePhase) (vm : VirtualMachine) : VirtualMachine :=
  upd_Status (λ s, set_VolumeStatuses (alter (λ v, mkVolumeStatus (VolumeStatus_Name v) p (HotplugVolume v)) i (VolumeStatuses s)) s) vm.

(** The loop of [mountHotplugVolumes].  [volumePodUID] is a parameter that the first attached
    volume sets for the ones after it. *)
Fixpoint mount_volumes (l : list Volume) (vmPodUID volumePodUID : string) (r : vmMountRecord) (vm : VirtualMachine)
    : nprog (VirtualMachine * option goerror) :=
  match l with
  | [] => Ret (vm, None)
  | volume :: l' =>
      match (if IsHotpluggable volume then find_status (Volume_Name volume) (VolumeStatuses (Status vm)) else None) with
      | Some (i, status) =>
          match HotplugVolume status with
          | None => mount_volumes l' vmPodUID volumePodUID r vm
          | Some hv =>
              let attached := bool_decide (VolumeStatus_Phase status = VolumeAttachedToNode) in
              let mark (vm : VirtualMachine) : nprog VirtualMachine :=
                (if attached then Eventf_ vm EvNormal "MountVolumeToPod" ;;; Ret (set_status_phase i VolumeMountedToPod vm)
                 else Ret vm)%go in
              if negb (bool_decide (volumePodUID = "")) || attached then
                let volumePodUID := if decide (volumePodUID = "") then VolumePodUID hv else volumePodUID in
                (let! b := IsBlock (om_Namespace (vm_meta vm)) volume in
                 match b with
                 | Err e => Ret (vm, Some e)
                 | Ok isBlock =>
                     let! (r, err) := (if isBlock : bool then mountBlockVolume vm (Volume_Name volume) vmPodUID volumePodUID r
                                       else mountFileSystemVolume vm (Volume_Name volume) vmPodUID volumePodUID r) in
                     match err with
                     | Some e => Ret (vm, Some e)
                     | None => let! vm := mark vm in mount_volumes l' vmPodUID volumePodUID r vm
                     end
                 end)%go
              else (let! vm := mark vm in mount_volumes l' vmPodUID volumePodUID r vm)%go
          end
      | None => mount_volumes l' vmPodUID volumePodUID r vm
      end
  end.

Definition mountHotplugVolumes (vm : VirtualMachine) (vmPodUID volumePodUID : string) : nprog (VirtualMachine * option goerror) :=
  let vmPodUID := if decide (vmPodUID = "") then VMPodUID (Status vm) else vmPodUID in
  (let! r := getVMMountRecord (om_UID (vm_meta vm)) in
   match r with
   | Err e => Ret (vm, Some e)
   | Ok r => mount_volumes (Volumes (Spec vm)) vmPodUID volumePodUID r vm
   end)%go.

(** *** Unmounting *)

Definition umountHotplugVolume (vm : VirtualMachine) (v : volumeMountRecord) : nprog (result unit) :=
  let target := Record_Target v in
  let event := (Eventf_ vm EvNormal "UmountVolumeFromPod" ;;; Ret (Ok tt))%go in
  (let! block := isBlockFile target in
   if block : bool then
     try! exists_ := call (Stat target) in
     if negb exists_ then Ret (Ok tt)
     else
       try! (major, minor) := getBlockFileMajorMinor target in
       try! manager := NewManager vm in
       try! _ := (match manager with
                  | Some m => check (call (CgroupSet m (mkDeviceRule major minor false)))
                  | None => Ret (Ok tt)
                  end) in
       try! _ := check (call (RemoveAll target)) in
       event
   else
     try! mounted := isMounted target in
     if mounted : bool then
       let! out := call (Exec "umount" [target]) in
       match out with
       | Err e => Ret (Err (ErrFmt "umount volume from VM pod" e))
       | Ok _ => event
       end
     else event)%go.

(** The loop of [umountHotplugVolumes]: the records of volumes that still have a status stay. *)
Fixpoint umount_gone (vm : VirtualMachine) (l : vmMountRecord) (kept : vmMountRecord) : nprog (result vmMountRecord) :=
  match l with
  | [] => Ret (Ok kept)
  | v :: l' =>
      if bool_decide (Record_Volume v ∈ VolumeStatus_Name <$> VolumeStatuses (Status vm)) then umount_gone vm l' (kept ++ [v])
      else (try! _ := umountHotplugVolume vm v in umount_gone vm l' kept)%go
  end.

Definition umountHotplugVolumes (vm : VirtualMachine) : nprog (result unit) :=
  (try! r := getVMMountRecord (om_UID (vm_meta vm)) in
   try! kept := umount_gone vm r [] in
   match kept with
   | [] => removeVMMountRecord (om_UID (vm_meta vm))
   | _ :: _ => writeVMMountRecord (om_UID (vm_meta vm)) kept
   end)%go.

Fixpoint umount_all (vm : VirtualMachine) (l : vmMountRecord) : nprog (result unit) :=
  match l with
  | [] => Ret (Ok tt)
  | v :: l' =>
      (try! _ := umountHotplugVolume vm v in
       Eventf_ vm EvNormal "UmountVolumeFromPod" ;;; umount_all vm l')%go
  end.

Definition umountAllHotplugVolumes (vm : VirtualMachine) : nprog (result unit) :=
  (try! r := getVMMountRecord (om_UID (vm_meta vm)) in
   try! _ := umount_all vm r in
   removeVMMountRecord (om_UID (vm_meta vm)))%go.

Definition cleanup (vm : VirtualMachine) : nprog (result unit) := umountAllHotplugVolumes vm.

(** *** Disks of a running VM *)

(** The last status of this name: the search does not stop at the first. *)
Fixpoint last_status (name : string) (l : list VolumeStatus) : option (nat * VolumeStatus) :=
  match l with
  | [] => None
  | s :: l' =>
      match last_status name l' with
      | Some (i, s') => Some (S i, s')
      | None => if decide (VolumeStatus_Name s = name) then Some (0%nat, s) else None
      end
  end.

Fixpoint add_disks (l : list Volume) (disks : list DiskConfig) (vm : VirtualMachine) : nprog (VirtualMachine * option goerror) :=
  match l with
  | [] => Ret (vm, None)
  | volume :: l' =>
      match (if IsHotpluggable volume then last_status (Volume_Name volume) (VolumeStatuses (Status vm)) else None) with
      | Some (i, status) =>
          if decide (VolumeStatus_Phase status = VolumeMountedToPod) then
            let name := VolumeStatus_Name status in
            (let! err :=
               (if bool_decide (name ∈ Disk_Id <$> disks) then Ret None
                else
                  let! b := IsBlock (om_Namespace (vm_meta vm)) volume in
                  match b with
                  | Err e => Ret (Some e)
                  | Ok isBlock =>
                      let path := JoinPath ["/hotplug-volumes"; if isBlock : bool then name else (name +:+ ".img")%string] in
                      let! err := call (ChRequest (chSocket vm) (VmAddDisk (mkDiskConfig name path))) in
                      match err with
                      | Some e => Ret (Some (ErrFmt "add disk" e))
                      | None => Eventf_ vm EvNormal "AddDiskToVM" ;;; Ret None
                      end
                  end) in
             match err with
             | Some e => Ret (vm, Some e)
             | None => add_disks l' disks (set_status_phase i VolumeReady vm)
             end)%go
          else add_disks l' disks vm
      | None => add_disks l' disks vm
      end
  end.

(** [vmInfo.Config.Disks]. *)
Definition info_disks {A} (info : VmInfo) (k : list DiskConfig → nprog A) : nprog A :=
  match Info_Config info with Some c => k (Config_Disks c) | None => Crash "nil pointer dereference" end.

Definition addHotplugVolumesToVM (vm : VirtualMachine) (info : VmInfo) : nprog (VirtualMachine * option goerror) :=
  info_disks info (λ disks, add_disks (Volumes (Spec vm)) disks vm).

Fixpoint remove_disks (vm : VirtualMachine) (l : list DiskConfig) : nprog (result unit) :=
  match l with
  | [] => Ret (Ok tt)
  | disk :: l' =>
      if bool_decide (Disk_Id disk ∈ Volume_Name <$> Volumes (Spec vm)) then remove_disks vm l'
      else
        (let! err := call (ChRequest (chSocket vm) (VmRemoveDevice (Disk_Id disk))) in
         match err with
         | Some e => Ret (Err (ErrFmt "remove disk from VM" e))
         | None => Eventf_ vm EvNormal "RemoveDiskFromVM" ;;; remove_disks vm l'
         end)%go
  end.

Definition removeHotplugVolumesFromVM (vm : VirtualMachine) (info : VmInfo) : nprog (result unit) :=
  info_disks info (remove_disks vm).

Definition reconcileHotplugVolumes (vm : VirtualMachine) (info : VmInfo) : nprog (VirtualMachine * option goerror) :=
  (let! (vm, err) := mountHotplugVolumes vm "" "" in
   match err with
   | Some e => Ret (vm, Some e)
   | None =>
       let! (vm, err) := addHotplugVolumesToVM vm info in
       match err with
       | Some e => Ret (vm, Some e)
       | None =>
           let! r := (try! _ := removeHotplugVolumesFromVM vm info in umountHotplugVolumes vm) in
           Ret (vm, match r with Err e => Some e | Ok _ => None end)
       end
   end)%go.

(** ** Booting *)

Definition vfioMemoryLockSizeBytes : Z := 2 ^ 30.

(** The hypervisor has no VM yet: create it from the prerunner's configuration and boot it. *)
Definition create_and_boot (vm : VirtualMachine) : nprog (result unit) :=
  (try! config := call (ReadVmConfig (JoinPath [getVMDataDirPath vm; "vm-config.json"])) in
   match config with
   | None => Ret (Err (ErrMsg "waiting prerunner prepare VM config"))
   | Some config =>
       try! _ :=
         (match Config_Devices config ++ Config_Vdpa config with
          | [] => Ret (Ok tt)
          | _ :: _ =>
              let! pid := call (GetPIDBySocket (chSocket vm)) in
              match pid with
              | Err e => Ret (Err (ErrFmt "get cloud-hypervisor process pid" e))
              | Ok pid =>
                  match Config_MemorySize config with
                  | None => Crash "nil pointer dereference"
                  | Some size =>
                      let! err := call (PrlimitMemlock pid (u64 (i64 (size + vfioMemoryLockSizeBytes)))) in
                      Ret match err with Some e => Err (ErrFmt "set cloud-hypervisor process memlock" e) | None => Ok tt end
                  end
              end
          end) in
       let! err := call (ChRequest (chSocket vm) (VmCreate config)) in
       match err with
       | Some e => Ret (Err (ErrFmt "create VM" e))
       | None => check (call (ChRequest (chSocket vm) VmBoot))
       end
   end)%go.

Definition ok_vm (vm : VirtualMachine) (p : nprog (result unit)) : nprog (VirtualMachine * option goerror) :=
  (let! r := p in Ret (vm, match r with Err e => Some e | Ok _ => None end))%go.

Definition reconcile_scheduled (vm : VirtualMachine) : nprog (VirtualMachine * option goerror) :=
  (let! (vm, err) := mountHotplugVolumes vm "" "" in
   match err with
   | Some e => Ret (vm, Some e)
   | None =>
       let! info := call (GetVmInfo (chSocket vm)) in
       match info with
       | Err e => if isVMNotCreatedError e then ok_vm vm (create_and_boot vm) else Ret (vm, Some (ErrFmt "get VM info" e))
       | Ok info =>
           if decide (Info_State info = "Created") then ok_vm vm (check (call (ChRequest (chSocket vm) VmBoot)))
           else if decide (Info_State info = "Running" ∨ Info_State info = "Paused") then
             Ret (upd_Status (set_Phase VirtualMachineRunning) vm, None)
           else if decide (Info_State info = "Shutdown") then Ret (upd_Status (set_Phase VirtualMachineFailed) vm, None)
           else Ret (vm, None)
       end
   end)%go.

(** ** Power actions *)

(** The request of a power action and the reasons of its two events. *)
Definition power_request (a : VirtualMachinePowerAction) : option (chRequest * string * string) :=
  match a with
  | VirtualMachinePowerOff => Some (VmShutdown, "PoweredOff", "FailedPowerOff")
  | VirtualMachineShutdown => Some (VmPowerButton, "Shutdown", "FailedShutdown")
  | VirtualMachineReset => Some (VmReboot, "Reset", "FailedReset")
  | VirtualMachineReboot => Some (VmReboot, "Rebooted", "FailedReboot")
  | VirtualMachinePause => Some (VmPause, "Paused", "FailedPause")
  | VirtualMachineResume => Some (VmResume, "Resumed", "FailedResume")
  | VirtualMachinePowerActionUnset | VirtualMachinePowerOn => None
  end.

Definition power_action (vm : VirtualMachine) : nprog (VirtualMachine * option goerror) :=
  ((match power_request (PowerAction (Status vm)) with
    | Some (req, done, failed) =>
        let! err := call (ChRequest (chSocket vm) req) in
        match err with Some _ => Eventf_ vm EvWarning failed | None => Eventf_ vm EvNormal done end
    | None => Ret tt
    end) ;;; Ret (upd_Status (set_PowerAction VirtualMachinePowerActionUnset) vm, None))%go.

(** A running VM that is not being migrated, on its node. *)
Definition reconcile_running_here (vm : VirtualMachine) : nprog (VirtualMachine * option goerror) :=
  (let! info := call (GetVmInfo (chSocket vm)) in
   match info with
   | Err e => Ret (vm, Some (ErrFmt "get VM info" e))
   | Ok info =>
       if decide (Info_State info = "Running" ∨ Info_State info = "Paused") then
         if decide (Spec_RunPolicy (Spec vm) = RunPolicyHalted) then
           let! err := call (ChRequest (chSocket vm) VmShutdown) in
           match err with
           | Some e => Eventf_ vm EvWarning "FailedPowerOff" ;;; Ret (vm, Some (ErrFmt "power off VM" e))
           | None => reconcileHotplugVolumes vm info
           end
         else if decide (PowerAction (Status vm) = VirtualMachinePowerActionUnset) then reconcileHotplugVolumes vm info
         else power_action vm
       else Ret (upd_Status (set_Phase VirtualMachineSucceeded) vm, None)
   end)%go.

(** ** Migrations *)

Record migrationControlBlock := mkControlBlock {
  SendMigrationErrCh : option nat;
  SendMigrationCancelFunc : option nat;
  ReceiveMigrationErrCh : option nat;
  ReceiveMigrationCancelFunc : option nat
}.
Definition emptyControlBlock : migrationControlBlock := mkControlBlock None None None None.
Abbreviation controlBlocks := (gmap string migrationControlBlock).

(** A migration step: the VM, and either the control block to store or an early return,
    which leaves the stored block as it is. *)
Abbreviation migres := (nprog (VirtualMachine * (option goerror + migrationControlBlock))).

Definition daemonCertDirPath : string := "/var/lib/virtink/daemon/cert".

Definition fail_migration (vm : VirtualMachine) : VirtualMachine := upd_Migration (set_mig_Phase VirtualMachineMigrationFailed) vm.

Definition set_mig_Endpoint (ip : string) (port : Z) (m : VirtualMachineStatusMigration) : VirtualMachineStatusMigration :=
  let '(mkStatusMigration u p nn _ _ pn pu vu) := m in mkStatusMigration u p nn ip port pn pu vu.

(** The wait for the receive socket: an error of the receiving goroutine ends it. *)
Definition receive_ready (ch : nat) (socket : string) : nprog (result bool) :=
  (let! err := call (TryReceive ch) in
   match err with
   | Some e => Ret (Err e)
   | None => call (Stat socket)
   end)%go.

(** The relay to the receive socket and the volumes of the target pod. *)
Definition open_target (NodeIP : string) (vm : VirtualMachine) (m : VirtualMachineStatusMigration) (ctx : nat) (rx : string)
    (b : migrationControlBlock) : migres :=
  (let! err := call (LoadCACert daemonCertDirPath) in
   match err with
   | Some e => Ret (vm, inl (Some (ErrFmt "load CA cert" e)))
   | None =>
       let! port := call (RelayTCPToSocket ctx "0.0.0.0:0" rx) in
       match port with
       | Err e => Ret (vm, inl (Some (ErrFmt "start target relay" e)))
       | Ok port =>
           let! (vm, err) := mountHotplugVolumes vm (TargetVMPodUID m) (TargetVolumePodUID m) in
           match err with
           | Some e => Ret (vm, inl (Some e))
           | None => Ret (upd_Migration (λ m, set_mig_Phase VirtualMachineMigrationTargetReady (set_mig_Endpoint NodeIP port m)) vm, inr b)
           end
       end
   end)%go.

(** Migration Scheduled, on the target node. *)
Definition migrate_receive (NodeIP : string) (vm : VirtualMachine) (m : VirtualMachineStatusMigration) (b : migrationControlBlock) : migres :=
  let rx := JoinPath [getMigrationTargetVMSocketDirPath m; "rx.sock"] in
  let failed (vm : VirtualMachine) : migres := (Eventf_ vm EvWarning "FailedMigrate" ;;; Ret (fail_migration vm, inl None))%go in
  (let! err := PollImmediate 3 (call (Stat (targetSocket m))) in
   match err with
   | Some _ => failed vm
   | None =>
       let! ctx := call WithCancel in
       let b := mkControlBlock (SendMigrationErrCh b) (SendMigrationCancelFunc b) (ReceiveMigrationErrCh b) (Some ctx) in
       let! st := call (Stat rx) in
       match st with
       | Err e => Ret (vm, inl (Some e))
       | Ok true => open_target NodeIP vm m ctx rx b
       | Ok false =>
           let! ch := call (GoReceiveMigration (targetSocket m) ctx "unix:/var/run/virtink/rx.sock") in
           let b := mkControlBlock (SendMigrationErrCh b) (SendMigrationCancelFunc b) (Some ch) (Some ctx) in
           let! err := PollImmediate 10 (receive_ready ch rx) in
           match err with
           | Some _ => failed vm
           | None => open_target NodeIP vm m ctx rx b
           end
       end
   end)%go.

(** Migration TargetReady, on the source node. *)
Definition migrate_send (vm : VirtualMachine) (m : VirtualMachineStatusMigration) (b : migrationControlBlock) : migres :=
  (let! ctx := call WithCancel in
   let b := mkControlBlock (SendMigrationErrCh b) (Some ctx) (ReceiveMigrationErrCh b) (ReceiveMigrationCancelFunc b) in
   let! err := call (RelaySocketToTCP ctx (JoinPath [getVMDataDirPath vm; "tx.sock"])
                       (TargetNodeIP m +:+ ":" +:+ Strconv.FormatInt (TargetNodePort m))%string) in
   match err with
   | Some e => Ret (vm, inl (Some (ErrFmt "start source relay" e)))
   | None =>
       let! ch := call (GoSendMigration (chSocket vm) ctx "unix:/var/run/virtink/tx.sock") in
       Ret (upd_Migration (set_mig_Phase VirtualMachineMigrationRunning) vm,
            inr (mkControlBlock (Some ch) (SendMigrationCancelFunc b) (ReceiveMigrationErrCh b) (ReceiveMigrationCancelFunc b)))
   end)%go.

Definition cancel_if (c : option nat) : nprog unit :=
  match c with Some ctx => call (CancelContext ctx) | None => Ret tt end.

(** Migration Running, on the source node. *)
Definition migrate_sending (vm : VirtualMachine) (vmPod : Pod) (b : migrationControlBlock) : migres :=
  let finish (vm : VirtualMachine) : migres := (cancel_if (SendMigrationCancelFunc b) ;;; Ret (vm, inr b))%go in
  if decide (PodStatus_Phase (pod_Status vmPod) = PodSucceeded) then
    (let! r := cleanup vm in
     match r with
     | Err e => Ret (vm, inl (Some e))
     | Ok _ => finish (upd_Migration (set_mig_Phase VirtualMachineMigrationSent) vm)
     end)%go
  else
    match SendMigrationErrCh b with
    | None => finish (fail_migration vm)
    | Some ch =>
        (let! err := call (TryReceive ch) in
         match err with
         | Some _ => Eventf_ vm EvWarning "FailedMigrate" ;;; finish (fail_migration vm)
         | None => Ret (vm, inl None)
         end)%go
    end.

(** Migration Sent, on the target node: the VM is the target's from here on. *)
Definition hand_over (m : VirtualMachineStatusMigration) (vm : VirtualMachine) : VirtualMachine :=
  upd_Status (λ s, set_NodeName (TargetNodeName m) (set_VMPodName (TargetVMPodName m) (set_VMPodUID (TargetVMPodUID m) s)))
    (upd_Migration (set_mig_Phase VirtualMachineMigrationSucceeded) vm).

Definition migrate_arrived (vm : VirtualMachine) (m : VirtualMachineStatusMigration) (b : migrationControlBlock) : migres :=
  (let! info := call (GetVmInfo (targetSocket m)) in
   match info with
   | Err e => Ret (vm, inl (Some e))
   | Ok info =>
       if decide (Info_State info = "Running") then
         cancel_if (ReceiveMigrationCancelFunc b) ;;; Ret (hand_over m vm, inr b)
       else Ret (vm, inl None)
   end)%go.

Definition migrate_step (NodeName_ NodeIP : string) (vm : VirtualMachine) (vmPod : Pod) (m : VirtualMachineStatusMigration)
    (b : migrationControlBlock) : migres :=
  let source := bool_decide (NodeName (Status vm) = NodeName_) in
  let target := bool_decide (TargetNodeName m = NodeName_) in
  match Migration_Phase m with
  | VirtualMachineMigrationScheduled => if target then migrate_receive NodeIP vm m b else Ret (vm, inr b)
  | VirtualMachineMigrationTargetReady => if source then migrate_send vm m b else Ret (vm, inr b)
  | VirtualMachineMigrationRunning => if source then migrate_sending vm vmPod b else Ret (vm, inr b)
  | VirtualMachineMigrationSent => if target then migrate_arrived vm m b else Ret (vm, inr b)
  | _ => Ret (vm, inr b)
  end.

(** The control block is dropped when the migration is over for this node. *)
Definition over_here (NodeName_ : string) (vm : VirtualMachine) : bool :=
  match Migration_Phase <$> Migration (Status vm) with
  | Some VirtualMachineMigrationFailed | Some VirtualMachineMigrationSucceeded => true
  | Some VirtualMachineMigrationSent => bool_decide (NodeName (Status vm) = NodeName_)
  | _ => false
  end.

Definition reconcile_migrating (NodeName_ NodeIP : string) (vm : VirtualMachine) (vmPod : Pod) (m : VirtualMachineStatusMigration)
    (blocks : controlBlocks) : nprog (VirtualMachine * controlBlocks * option goerror) :=
  let uid := om_UID (vm_meta vm) in
  (let! (vm, r) := migrate_step NodeName_ NodeIP vm vmPod m (default emptyControlBlock (blocks !! uid)) in
   match r with
   | inl err => Ret (vm, blocks, err)
   | inr b => Ret (vm, if over_here NodeName_ vm then delete uid (<[uid := b]> blocks) else <[uid := b]> blocks, None)
   end)%go.

(** ** Reconciliation *)

Definition reconcileDeletingVM (vm : VirtualMachine) (vmPod : Pod) : nprog (VirtualMachine * option goerror) :=
  (let! err := (if decide (PodStatus_Phase (pod_Status vmPod) = PodRunning) then call (ChRequest (chSocket vm) VmDelete) else Ret None) in
   let finish := ok_vm (upd_Status (set_Phase VirtualMachineSucceeded) vm) (cleanup vm) in
   match err with
   | Some e => if Strings.Contains (error_text e) "VmNotCreated" then finish else Ret (vm, Some e)
   | None => finish
   end)%go.

(** The VM is on this node, or is being migrated to it. *)
Definition concerned (NodeName_ : string) (vm : VirtualMachine) : bool :=
  (negb (bool_decide (NodeName (Status vm) = "")) && bool_decide (NodeName (Status vm) = NodeName_)) ||
  match Migration (Status vm) with
  | Some m => negb (bool_decide (TargetNodeName m = "")) && bool_decide (TargetNodeName m = NodeName_)
  | None => false
  end.

Definition with_blocks (blocks : controlBlocks) (p : nprog (VirtualMachine * option goerror))
    : nprog (VirtualMachine * controlBlocks * option goerror) :=
  (let! (vm, err) := p in Ret (vm, blocks, err))%go.

(** Every error of the pod lookup ends the reconciliation, a missing pod included. *)
Definition reconcile (NodeName_ NodeIP : string) (vm : VirtualMachine) (blocks : controlBlocks)
    : nprog (VirtualMachine * controlBlocks * option goerror) :=
  if negb (concerned NodeName_ vm) then Ret (vm, blocks, None)
  else
    (let! r := kube (GetPod (mkNN (om_Namespace (vm_meta vm)) (VMPodName (Status vm)))) in
     match r with
     | Err e => Ret (vm, blocks, Some (ErrFmt "get VM Pod" e))
     | Ok vmPod =>
         let here := bool_decide (NodeName (Status vm) = NodeName_) in
         if bool_decide (is_Some (om_DeletionTimestamp (vm_meta vm))) then
           if here then with_blocks blocks (reconcileDeletingVM vm vmPod) else Ret (vm, blocks, None)
         else
           match Phase (Status vm) with
           | VirtualMachineScheduled => with_blocks blocks (reconcile_scheduled vm)
           | VirtualMachineRunning =>
               match Migration (Status vm) with
               | None => if here then with_blocks blocks (reconcile_running_here vm) else Ret (vm, blocks, None)
               | Some m => reconcile_migrating NodeName_ NodeIP vm vmPod m blocks
               end
           | VirtualMachineSucceeded | VirtualMachineFailed => with_blocks blocks (ok_vm vm (cleanup vm))
           | _ => Ret (vm, blocks, None)
           end
     end)%go.

(** [reflect.DeepEqual] of a status and a pointer is false, so the status is always updated. *)
Definition Reconcile (NodeName_ NodeIP : string) (req : NamespacedName) (blocks : controlBlocks)
    : nprog (controlBlocks * (Result * option goerror)) :=
  (let! r := kube (GetVM req) in
   match r with
   | Err e => Ret (blocks, (emptyResult, IgnoreNotFound (Some e)))
   | Ok vm =>
       let! (vm, blocks, rerr) := reconcile NodeName_ NodeIP vm blocks in
       (match rerr with Some _ => Eventf_ vm EvWarning "FailedReconcile" | None => Ret tt end) ;;;
       let! err := kube (UpdateVMStatus vm) in
       match rerr, err with
       | Some e, _ => Ret (blocks, (emptyResult, Some e))
       | None, Some e => Ret (blocks, if IsConflict e then (mkResult true 0, None) else (emptyResult, Some (ErrFmt "update VM status" e)))
       | None, None => Ret (blocks, (mkResult false 15, None))
       end
   end)%go.

End Node.
