(* ===== verification/DaemonProofs.v ===== *)
(** * Correctness of the node daemon *)

From stdpp Require Import base gmap strings list sets fin_maps.
From Stdlib Require Import ZArith Lia.
From S2P Require Import Prelude GoStd K8s ApiTypes Kube VmValidate PodBuildProofs VmController VmControllerProofs Daemon.
Open Scope Z_scope.

(** ** The transitions the daemon makes *)

Section Steps.
Context `{K : K8s}.

(** What a daemon does to a migration, by its role.  The target node receives and takes the
    VM over, the source node sends. *)
Inductive handover_step (node : string) (s : VirtualMachineStatus) (m m' : VirtualMachineStatusMigration) : Prop :=
| hs_ready ip port :
    Migration_Phase m = VirtualMachineMigrationScheduled → TargetNodeName m = node →
    m' = set_mig_Phase VirtualMachineMigrationTargetReady (set_mig_Endpoint ip port m) → handover_step node s m m'
| hs_refuse :
    Migration_Phase m = VirtualMachineMigrationScheduled → TargetNodeName m = node →
    m' = set_mig_Phase VirtualMachineMigrationFailed m → handover_step node s m m'
| hs_send :
    Migration_Phase m = VirtualMachineMigrationTargetReady → NodeName s = node →
    m' = set_mig_Phase VirtualMachineMigrationRunning m → handover_step node s m m'
| hs_sent p :
    Migration_Phase m = VirtualMachineMigrationRunning → NodeName s = node →
    p = VirtualMachineMigrationSent ∨ p = VirtualMachineMigrationFailed → m' = set_mig_Phase p m → handover_step node s m m'
| hs_arrived :
    Migration_Phase m = VirtualMachineMigrationSent → TargetNodeName m = node →
    m' = set_mig_Phase VirtualMachineMigrationSucceeded m → handover_step node s m m'.

(** Phases: the daemon reports a scheduled VM running or failed, a running one that is not
    migrating ended, and one that is being deleted ended. *)
Inductive daemon_phase (node : string) (vm : VirtualMachine) : VirtualMachinePhase → Prop :=
| dp_stay p : p = Phase (Status vm) → daemon_phase node vm p
| dp_boot p : Phase (Status vm) = VirtualMachineScheduled → om_DeletionTimestamp (vm_meta vm) = None →
    p = VirtualMachineRunning ∨ p = VirtualMachineFailed → daemon_phase node vm p
| dp_end : Phase (Status vm) = VirtualMachineRunning → Migration (Status vm) = None → NodeName (Status vm) = node →
    daemon_phase node vm VirtualMachineSucceeded
| dp_delete : is_Some (om_DeletionTimestamp (vm_meta vm)) → NodeName (Status vm) = node →
    daemon_phase node vm VirtualMachineSucceeded.

(** Volume statuses keep their names and volume pods. *)
Definition volume_key (v : VolumeStatus) : string * option HotplugVolumeStatus := (VolumeStatus_Name v, HotplugVolume v).

Definition place (s : VirtualMachineStatus) : string * string * string := (NodeName s, VMPodName s, VMPodUID s).

Record daemon_step (node : string) (vm vm' : VirtualMachine) : Prop := {
  dt_vm : vm_meta vm' = vm_meta vm ∧ Spec vm' = Spec vm;
  dt_phase : daemon_phase node vm (Phase (Status vm'));
  dt_migration :
    match Migration (Status vm), Migration (Status vm') with
    | None, None => True
    | Some m, Some m' => m' = m ∨ Phase (Status vm) = VirtualMachineRunning ∧ handover_step node (Status vm) m m'
    | _, _ => False
    end;
  dt_volumes : volume_key <$> VolumeStatuses (Status vm') = volume_key <$> VolumeStatuses (Status vm);
  (** the VM moves exactly when its migration succeeds, and to the migration's target *)
  dt_place : place (Status vm') = place (Status vm) ∨
    ∃ m m', Migration (Status vm) = Some m ∧ Migration (Status vm') = Some m' ∧
      Migration_Phase m = VirtualMachineMigrationSent ∧ Migration_Phase m' = VirtualMachineMigrationSucceeded ∧
      place (Status vm') = (TargetNodeName m, TargetVMPodName m, TargetVMPodUID m);
  dt_power : PowerAction (Status vm') = PowerAction (Status vm) ∨ PowerAction (Status vm') = VirtualMachinePowerActionUnset
}.

Lemma daemon_step_refl node vm : daemon_step node vm vm.
Proof. split; auto; [by constructor|]. destruct (Migration _); [|done]. by left. Qed.

(** Changes of the volume phases only. *)
Definition volumes_moved (vm vm' : VirtualMachine) : Prop :=
  ∃ l, vm' = upd_Status (set_VolumeStatuses l) vm ∧ volume_key <$> l = volume_key <$> VolumeStatuses (Status vm).

Lemma volumes_moved_refl vm : volumes_moved vm vm.
Proof. exists (VolumeStatuses (Status vm)). split; [by destruct vm as [? ? []]|done]. Qed.

Lemma volumes_moved_trans vm1 vm2 vm3 : volumes_moved vm1 vm2 → volumes_moved vm2 vm3 → volumes_moved vm1 vm3.
Proof.
  intros (l & -> & Hl) (l' & -> & Hl'). exists l'. split; [by destruct vm1 as [? ? []]|].
  rewrite Hl'. by destruct vm1 as [? ? []].
Qed.

Lemma alter_phase_key p i (l : list VolumeStatus) :
  volume_key <$> alter (λ v, mkVolumeStatus (VolumeStatus_Name v) p (HotplugVolume v)) i l = volume_key <$> l.
Proof. revert i. induction l as [|v l IH]; intros [|i]; try done. cbn. by rewrite IH. Qed.

Lemma volumes_moved_socket vm vm' : volumes_moved vm vm' → chSocket vm' = chSocket vm.
Proof. intros (l & -> & _). by destruct vm as [? ? []]. Qed.

Lemma set_status_phase_moved i p vm : volumes_moved vm (set_status_phase i p vm).
Proof. eexists. split; [by destruct vm as [? ? []]|]. apply alter_phase_key. Qed.

Lemma volumes_moved_step node vm vm' : volumes_moved vm vm' → daemon_step node vm vm'.
Proof.
  intros (l & -> & Hl). destruct vm as [me sp [ph ? ? ? ? mg ? ?]]. simpl in *. split; simpl; auto; [by constructor|].
  destruct mg; [|done]. by left.
Qed.

Lemma migration_daemon_step node vm m m' :
  Phase (Status vm) = VirtualMachineRunning → Migration (Status vm) = Some m → handover_step node (Status vm) m m' →
  daemon_step node vm (upd_Status (set_Migration (Some m')) vm).
Proof.
  intros Hp Em Hs. destruct vm as [me sp [ph ? ? ? ? mg ? ?]]. simpl in *. subst mg. split; simpl; auto. by apply dp_stay.
Qed.

(** A step from a VM with other volume phases. *)
Lemma daemon_step_after_volumes node vm vm1 vm2 : volumes_moved vm vm1 → daemon_step node vm1 vm2 → daemon_step node vm vm2.
Proof.
  intros (l & -> & Hl) [H1 H2 H3 H4 H5 H6]. destruct vm as [me sp [ph ? ? ? ? mg ? ?]]. simpl in *.
  split; simpl; auto; [|destruct mg as [m|], (Migration (Status vm2)); try done; destruct H3 as [?|[? Hh]]; [by left|right]; split; [done|]|congruence].
  - destruct H2; subst; simpl in *; [by apply dp_stay|by apply dp_boot|by apply dp_end|by apply dp_delete].
  - destruct Hh; simpl in *; [by eapply hs_ready|by apply hs_refuse|by apply hs_send|by eapply hs_sent|by apply hs_arrived].
Qed.
End Steps.

(** ** The daemon's programs, in any environment *)

Section Requests.
Context `{K : K8s}.

(** What the daemon of a node may ask of hypervisors, for a VM it fetched. *)
Definition may_drive (node_ : string) (vm : VirtualMachine) (req : chRequest) : Prop :=
  match req with
  | VmCreate _ | VmBoot => Phase (Status vm) = VirtualMachineScheduled ∧ om_DeletionTimestamp (vm_meta vm) = None
  | VmDelete => is_Some (om_DeletionTimestamp (vm_meta vm)) ∧ NodeName (Status vm) = node_
  | _ => Phase (Status vm) = VirtualMachineRunning ∧ Migration (Status vm) = None ∧ NodeName (Status vm) = node_ ∧
      om_DeletionTimestamp (vm_meta vm) = None
  end.
Definition may_receive (node_ : string) (vm : VirtualMachine) (socket : string) : Prop :=
  om_DeletionTimestamp (vm_meta vm) = None ∧ ∃ m, Migration (Status vm) = Some m ∧ socket = targetSocket m ∧
    TargetNodeName m = node_ ∧ Migration_Phase m = VirtualMachineMigrationScheduled.
Definition may_transmit (node_ : string) (vm : VirtualMachine) (socket : string) : Prop :=
  om_DeletionTimestamp (vm_meta vm) = None ∧ ∃ m, Migration (Status vm) = Some m ∧ socket = chSocket vm ∧
    NodeName (Status vm) = node_ ∧ Migration_Phase m = VirtualMachineMigrationTargetReady.

(** Requests that are made of a running VM only. *)
Definition of_running (req : chRequest) : bool :=
  match req with VmCreate _ | VmBoot | VmDelete => false | _ => true end.
End Requests.

(** Calls that neither drive a hypervisor nor write to the API server. *)
Definition plain `{K8s} {X} (e : nodeE X) : bool :=
  match e with
  | Kube e => is_read e
  | ChRequest _ _ | GoReceiveMigration _ _ _ | GoSendMigration _ _ _ => false
  | _ => true
  end.

Section Generic.
Context `{K : K8s} {W : Type} (en : env nodeE W) (I : W → Prop).
Hypothesis plain_ok : ∀ X (e : nodeE X), plain e = true → ok_call en I e.
(** Where the code would panic: a block volume (its cgroup manager may be nil), a VM info
    without configuration, and a configuration with devices and no memory. *)
Hypothesis block_panics : ∀ key w pvc w', I w → answers en (Kube (GetPVC_ key)) w (Ok pvc) w' →
  VolumeMode pvc = Some PersistentVolumeBlock → may_panic en.
Hypothesis info_panics : ∀ s w info w', I w → answers en (GetVmInfo s) w (Ok info) w' → Info_Config info = None → may_panic en.
Hypothesis config_panics : ∀ p w c w', I w → answers en (ReadVmConfig p) w (Ok (Some c)) w' → Config_MemorySize c = None → may_panic en.

(** A program of plain calls whose result does not matter. *)
Ltac node :=
  repeat first
    [ done
    | match goal with |- wp _ (Ret _) _ _ => cbn [wp] end
    | match goal with |- ∀ _, _ => intros ? end
    | apply wp_check
    | match goal with |- wp _ (tbind _ _) _ _ => eapply (wp_try en _ _ _ _ (λ _ w', I w')) end
    | match goal with |- wp _ (Call _ _) _ _ => apply (wp_ok en I); [by apply plain_ok|done|intros ? ? ?] end
    | match goal with |- wp _ (pbind (call _) _) _ _ => cbn [pbind call] | |- wp _ (pbind (Eventf_ _ _ _) _) _ _ => unfold Eventf_, kube; cbn [pbind call] end
    | match goal with |- wp _ (call _) _ _ => unfold call | |- wp _ (Eventf_ _ _ _) _ _ => unfold Eventf_, kube, call end
    | match goal with |- wp _ (match ?x with _ => _ end) _ _ => destruct x end
    | match goal with |- wp _ (pbind _ _) _ _ => apply wp_seq; eapply wp_mono; [|instantiate (1 := λ _ w', I w')] end
    | match goal with |- I _ => assumption end
    | match goal with |- match ?x with _ => _ end => destruct x end ].

Lemma node_IsBlock_wp ns v w : I w → wp en (IsBlock ns v) w (λ r w', I w' ∧ (r = Ok true → may_panic en)).
Proof.
  intros Hw. unfold IsBlock, GetPVC. set (name := match PersistentVolumeClaim _ with Some _ => _ | None => _ end).
  case_decide; [by split|]. unfold kube. cbn [pbind call]. destruct (plain_ok _ (Kube (GetPVC_ (mkNN ns name))) eq_refl w Hw) as [Ha Hx].
  split; [done|]. intros [pvc|e] w' Hans; cbn [pbind].
  - split; [by eapply Hx|]. intros [= Hb%bool_decide_eq_true]. by eapply block_panics.
  - destruct (IsNotFound e); cbn; (split; [by eapply Hx|done]).
Qed.

Lemma getVMMountRecord_wp uid w : I w → wp en (getVMMountRecord uid) w (λ _ w', I w').
Proof. intros Hw. unfold getVMMountRecord. node. Qed.

Lemma writeVMMountRecord_wp uid r w : I w → wp en (writeVMMountRecord uid r) w (λ _ w', I w').
Proof. intros Hw. unfold writeVMMountRecord. node. Qed.

Lemma addVolumeToVMMountRecord_wp uid v t r w : I w → wp en (addVolumeToVMMountRecord uid v t r) w (λ _ w', I w').
Proof.
  intros Hw. unfold addVolumeToVMMountRecord. destruct (existsb _ _); [done|].
  wp_use writeVMMountRecord_wp; [|done]. by intros [u|e] w' Hw'.
Qed.

Lemma getBlockFileMajorMinor_wp p w : I w → wp en (getBlockFileMajorMinor p) w (λ _ w', I w').
Proof. intros Hw. unfold getBlockFileMajorMinor. node. Qed.

Lemma NewManager_wp vm w : I w → wp en (NewManager vm) w (λ _ w', I w').
Proof. intros Hw. unfold NewManager. node. Qed.

Lemma getSourcePath_wp v u w : I w → wp en (getHotplugVolumeSourcePathOnHost v u) w (λ _ w', I w').
Proof. intros Hw. unfold getHotplugVolumeSourcePathOnHost. node. Qed.

Lemma isMounted_wp p w : I w → wp en (isMounted p) w (λ _ w', I w').
Proof. intros Hw. unfold isMounted. node. Qed.

Lemma mountBlockVolume_wp vm v u vu r w : may_panic en → I w → wp en (mountBlockVolume vm v u vu r) w (λ _ w', I w').
Proof.
  intros Hp Hw. unfold mountBlockVolume. apply (wp_ok en I); [by apply plain_ok|done|]. intros [st|e] w1 Hw1; [|done].
  wp_use getBlockFileMajorMinor_wp; [|done]. intros [[ma mi]|e] w2 Hw2; [|done].
  wp_use addVolumeToVMMountRecord_wp; [|done]. intros [r' [e|]] w3 Hw3; [done|].
  apply wp_seq. eapply wp_mono; [|instantiate (1 := λ _ w', I w')]; [by intros|].
  eapply (wp_try en _ _ _ _ (λ _ w', I w')); [node| |done]. intros _ w4 Hw4.
  unfold allow_device. eapply (wp_try en _ _ _ _ (λ _ w', I w')); [by apply NewManager_wp| |done]. intros [m|] w5 Hw5; [node|done].
Qed.

Lemma mountFileSystemVolume_wp vm v u vu r w : I w → wp en (mountFileSystemVolume vm v u vu r) w (λ _ w', I w').
Proof.
  intros Hw. unfold mountFileSystemVolume. wp_use isMounted_wp; [|done]. intros [[|]|e] w1 Hw1; [done| |done].
  wp_use getSourcePath_wp; [|done]. intros [src|e] w2 Hw2; [|done].
  wp_use addVolumeToVMMountRecord_wp; [|done]. intros [r' [e|]] w3 Hw3; [done|].
  apply wp_seq. eapply wp_mono; [|instantiate (1 := λ _ w', I w')]; [by intros|]. node.
Qed.

Lemma mount_volumes_wp l u vu r vm w :
  I w → wp en (mount_volumes l u vu r vm) w (λ res w', I w' ∧ volumes_moved vm (fst res)).
Proof.
  revert vu r vm w. induction l as [|v l IH]; intros vu r vm w Hw; cbn [mount_volumes].
  { split; [done|]. apply volumes_moved_refl. }
  destruct (if IsHotpluggable v then _ else _) as [[i st]|]; [|by apply IH].
  destruct (HotplugVolume st) as [hv|]; [|by apply IH].
  assert (Hmark : ∀ (att : bool) vu r w, I w → wp en
    (let! vm := (if att then Eventf_ vm EvNormal "MountVolumeToPod" ;;; Ret (set_status_phase i VolumeMountedToPod vm) else Ret vm) in
     mount_volumes l u vu r vm)%go w (λ res w', I w' ∧ volumes_moved vm (fst res))).
  { intros att vu' r' w1 Hw1. destruct att; [|by apply IH]. unfold Eventf_, kube. cbn [pbind call].
    apply (wp_ok en I); [by apply plain_ok|done|]. intros _ w2 Hw2. eapply wp_mono; [|by apply IH]. intros res w3 [? Hm]. split; [done|].
    eapply volumes_moved_trans; [apply set_status_phase_moved|exact Hm]. }
  destruct (_ || _); [|by apply Hmark].
  wp_use node_IsBlock_wp; [|done]. intros [blk|e] w1 [Hw1 Hp]; [|split; [done|apply volumes_moved_refl]].
  apply wp_seq. eapply wp_mono; [|instantiate (1 := λ _ w', I w')].
  - intros [r' [e|]] w2 Hw2; [split; [done|apply volumes_moved_refl]|]. by apply Hmark.
  - destruct blk; [apply mountBlockVolume_wp; auto|by apply mountFileSystemVolume_wp].
Qed.

Lemma mountHotplugVolumes_wp vm u vu w :
  I w → wp en (mountHotplugVolumes vm u vu) w (λ res w', I w' ∧ volumes_moved vm (fst res)).
Proof.
  intros Hw. unfold mountHotplugVolumes. wp_use getVMMountRecord_wp; [|done].
  intros [r|e] w1 Hw1; [by apply mount_volumes_wp|]. split; [done|apply volumes_moved_refl].
Qed.

Lemma umountHotplugVolume_wp vm v w : I w → wp en (umountHotplugVolume vm v) w (λ _ w', I w').
Proof.
  intros Hw. unfold umountHotplugVolume. apply wp_seq. eapply wp_mono; [|instantiate (1 := λ _ w', I w'); unfold isBlockFile; node].
  intros [|] w1 Hw1.
  - eapply (wp_try en _ _ _ _ (λ _ w', I w')); [node| |done]. intros [|] w2 Hw2; [|done]. cbn [negb].
    eapply (wp_try en _ _ _ _ (λ _ w', I w')); [by apply getBlockFileMajorMinor_wp| |done]. intros [ma mi] w3 Hw3.
    eapply (wp_try en _ _ _ _ (λ _ w', I w')); [by apply NewManager_wp| |done]. intros m w4 Hw4. node.
  - eapply (wp_try en _ _ _ _ (λ _ w', I w')); [by apply isMounted_wp| |done]. intros [|] w2 Hw2; node.
Qed.

Lemma umount_gone_wp vm l kept w : I w → wp en (umount_gone vm l kept) w (λ _ w', I w').
Proof.
  revert kept w. induction l as [|v l IH]; intros kept w Hw; cbn [umount_gone]; [done|]. case_bool_decide; [by apply IH|].
  eapply (wp_try en _ _ _ _ (λ _ w', I w')); [by apply umountHotplugVolume_wp| |done]. intros _ w1 Hw1. by apply IH.
Qed.

Lemma umountHotplugVolumes_wp vm w : I w → wp en (umountHotplugVolumes vm) w (λ _ w', I w').
Proof.
  intros Hw. unfold umountHotplugVolumes, removeVMMountRecord.
  eapply (wp_try en _ _ _ _ (λ _ w', I w')); [by apply getVMMountRecord_wp| |done]. intros r w1 Hw1.
  eapply (wp_try en _ _ _ _ (λ _ w', I w')); [by apply umount_gone_wp| |done]. intros [|v kept] w2 Hw2; [node|].
  by apply writeVMMountRecord_wp.
Qed.

Lemma cleanup_wp vm w : I w → wp en (cleanup vm) w (λ _ w', I w').
Proof.
  intros Hw. unfold cleanup, umountAllHotplugVolumes, removeVMMountRecord.
  assert (Hall : ∀ l w, I w → wp en (umount_all vm l) w (λ _ w', I w')).
  { clear w Hw. induction l as [|v l IH]; intros w Hw; cbn [umount_all]; [done|].
    eapply (wp_try en _ _ _ _ (λ _ w', I w')); [by apply umountHotplugVolume_wp| |done]. intros _ w1 Hw1.
    unfold Eventf_, kube. cbn [pbind call]. apply (wp_ok en I); [by apply plain_ok|done|]. intros _ w2 Hw2. by apply IH. }
  eapply (wp_try en _ _ _ _ (λ _ w', I w')); [by apply getVMMountRecord_wp| |done]. intros r w1 Hw1.
  eapply (wp_try en _ _ _ _ (λ _ w', I w')); [by apply Hall| |done]. intros _ w2 Hw2. node.
Qed.

(** *** Disks, power and booting *)

(** The request may be sent to this VM's hypervisor. *)
Definition may_send (vm : VirtualMachine) (req : chRequest) : Prop := ok_call en I (ChRequest (chSocket vm) req).

Lemma may_send_moved vm vm' req : volumes_moved vm vm' → may_send vm req → may_send vm' req.
Proof. intros Hm. unfold may_send. by rewrite (volumes_moved_socket _ _ Hm). Qed.

Lemma add_disks_wp l disks vm w :
  (∀ d, may_send vm (VmAddDisk d)) → I w →
  wp en (add_disks l disks vm) w (λ res w', I w' ∧ volumes_moved vm (fst res)).
Proof.
  revert vm w. induction l as [|v l IH]; intros vm w Hd Hw; cbn [add_disks]; [split; [done|apply volumes_moved_refl]|].
  destruct (if IsHotpluggable v then _ else _) as [[i st]|]; [|by apply IH]. case_decide; [|by apply IH].
  apply wp_seq. eapply wp_mono; [|instantiate (1 := λ _ w', I w')].
  - intros [e|] w1 Hw1; [split; [done|apply volumes_moved_refl]|].
    pose proof (set_status_phase_moved i VolumeReady vm) as Hm.
    eapply wp_mono; [|apply IH; [|done]]; [|intros d; eauto using may_send_moved].
    intros res w2 [? ?]. split; [done|]. by eapply volumes_moved_trans.
  - case_bool_decide; [done|]. wp_use node_IsBlock_wp; [|done]. intros [blk|e] w1 [Hw1 _]; [|done].
    apply (wp_ok en I); [apply Hd|done|]. intros [e|] w2 Hw2; [done|]. node.
Qed.

Lemma remove_disks_wp vm l w : (∀ id, may_send vm (VmRemoveDevice id)) → I w → wp en (remove_disks vm l) w (λ _ w', I w').
Proof.
  intros Hd. revert w. induction l as [|d l IH]; intros w Hw; cbn [remove_disks]; [done|]. case_bool_decide; [by apply IH|].
  apply (wp_ok en I); [apply Hd|done|]. intros [e|] w1 Hw1; [done|]. unfold Eventf_, kube. cbn [pbind call].
  apply (wp_ok en I); [by apply plain_ok|done|]. intros _ w2 Hw2. by apply IH.
Qed.

Lemma reconcileHotplugVolumes_wp vm info w :
  (Info_Config info = None → may_panic en) → (∀ req, of_running req = true → may_send vm req) → I w →
  wp en (reconcileHotplugVolumes vm info) w (λ res w', I w' ∧ volumes_moved vm (fst res)).
Proof.
  intros Hi Hs Hw. unfold reconcileHotplugVolumes. wp_use mountHotplugVolumes_wp; [|done].
  intros [vm1 [e|]] w1 [Hw1 Hm1]; cbn [fst] in *; [done|].
  unfold addHotplugVolumesToVM, removeHotplugVolumesFromVM, info_disks.
  destruct (Info_Config info) as [c|]; [|by apply Hi].
  wp_use add_disks_wp; [|intros d; eauto using may_send_moved|done]. intros [vm2 [e|]] w2 [Hw2 Hm2]; cbn [fst] in *.
  { split; [done|]. by eapply volumes_moved_trans. }
  assert (Hm : volumes_moved vm vm2) by (by eapply volumes_moved_trans).
  apply wp_seq. eapply wp_mono; [|instantiate (1 := λ _ w', I w')]; [by intros|].
  eapply (wp_try en _ _ _ _ (λ _ w', I w')); [apply remove_disks_wp; [|done]; intros id; eauto using may_send_moved| |done].
  intros _ w3 Hw3. by apply umountHotplugVolumes_wp.
Qed.

Lemma create_and_boot_wp vm w :
  (∀ c, may_send vm (VmCreate c)) → may_send vm VmBoot → I w → wp en (create_and_boot vm) w (λ _ w', I w').
Proof.
  intros Hc Hb Hw. unfold create_and_boot. apply wp_seq. unfold call.
  destruct (plain_ok _ (ReadVmConfig (JoinPath [getVMDataDirPath vm; "vm-config.json"])) eq_refl w Hw) as [Ha Hx].
  split; [done|]. intros r w1 Hans. pose proof (Hx _ _ Hans) as Hw1. destruct r as [[c|]|e]; [|done..]. cbn [wp].
  eapply (wp_try en _ _ _ _ (λ _ w', I w')); [| |done].
  - destruct (_ ++ _); [done|]. cbn [pbind]. apply (wp_ok en I); [by apply plain_ok|done|]. intros [pid|e] w2 Hw2; [|done].
    destruct (Config_MemorySize c) eqn:Em; [node|]. exact (config_panics _ _ _ _ Hw Hans Em).
  - intros _ w2 Hw2. cbn [pbind]. apply (wp_ok en I); [apply Hc|done|]. intros [e|] w3 Hw3; [done|].
    apply wp_check. apply (wp_ok en I); [apply Hb|done|]. by intros [e|] w4 Hw4.
Qed.

Lemma ok_vm_wp vm p w : wp en p w (λ _ w', I w') → wp en (ok_vm vm p) w (λ r w', I w' ∧ fst r = vm).
Proof. intros Hp. unfold ok_vm. wp_use Hp. by intros [u|e] w' Hw'. Qed.

Lemma reconcile_scheduled_wp node_ vm w :
  Phase (Status vm) = VirtualMachineScheduled → om_DeletionTimestamp (vm_meta vm) = None →
  (∀ c, may_send vm (VmCreate c)) → may_send vm VmBoot → I w →
  wp en (reconcile_scheduled vm) w (λ r w', I w' ∧ daemon_step node_ vm (fst r)).
Proof.
  intros Hph Hdel Hc Hb Hw. unfold reconcile_scheduled. wp_use mountHotplugVolumes_wp; [|done].
  intros [vm1 [e|]] w1 [Hw1 Hm]; cbn [fst] in *; [split; [done|by apply volumes_moved_step]|].
  assert (Hstay : daemon_step node_ vm vm1) by (by apply volumes_moved_step).
  assert (Hok : ∀ p w, wp en p w (λ _ w', I w') → wp en (ok_vm vm1 p) w (λ r w', I w' ∧ daemon_step node_ vm (fst r))).
  { intros p w' Hp. eapply wp_mono; [|by apply ok_vm_wp]. by intros r w'' [? ->]. }
  assert (Hset : ∀ p, p = VirtualMachineRunning ∨ p = VirtualMachineFailed → daemon_step node_ vm (upd_Status (set_Phase p) vm1)).
  { intros p Hp. eapply daemon_step_after_volumes; [exact Hm|]. destruct Hm as (l & -> & _). destruct vm as [me sp [ph ? ? ? ? mg ? ?]].
    simpl in *. split; simpl; auto; [by apply dp_boot|]. destruct mg; [|done]. by left. }
  cbn [pbind call]. apply (wp_ok en I); [by apply plain_ok|done|]. intros [info|e] w2 Hw2.
  - case_decide; [apply Hok, wp_check; apply (wp_ok en I); [exact (may_send_moved _ _ _ Hm Hb)|done|by intros [e|] w3 Hw3]|].
    case_decide; [split; [done|]; apply Hset; tauto|]. case_decide; [split; [done|]; apply Hset; tauto|done].
  - destruct (isVMNotCreatedError e); [|done]. apply Hok. apply create_and_boot_wp; [|eauto using may_send_moved|done].
    intros c. eauto using may_send_moved.
Qed.

Lemma reconcile_running_here_wp node_ vm w :
  Phase (Status vm) = VirtualMachineRunning → Migration (Status vm) = None → NodeName (Status vm) = node_ →
  (∀ req, of_running req = true → may_send vm req) → I w →
  wp en (reconcile_running_here vm) w (λ r w', I w' ∧ daemon_step node_ vm (fst r)).
Proof.
  intros Hph Hmg Hn Hs Hw. unfold reconcile_running_here. cbn [pbind call].
  destruct (plain_ok _ (GetVmInfo (chSocket vm)) eq_refl w Hw) as [Ha Hx]. apply wp_call; [done|]. intros r w1 Hans.
  pose proof (Hx _ _ Hans) as Hw1. destruct r as [info|e]; [|split; [done|apply daemon_step_refl]].
  assert (Hhot : ∀ w, I w → wp en (reconcileHotplugVolumes vm info) w (λ r w', I w' ∧ daemon_step node_ vm (fst r))).
  { intros w2 Hw2. eapply wp_mono; [|apply reconcileHotplugVolumes_wp; [exact (info_panics _ _ _ _ Hw Hans)|done|done]].
    intros res w3 [? ?]. split; [done|]. by apply volumes_moved_step. }
  case_decide.
  - case_decide.
    + cbn [pbind call]. apply (wp_ok en I); [by apply Hs|done|]. intros [e|] w2 Hw2; [|by apply Hhot]. unfold Eventf_, kube. cbn [pbind call].
      apply (wp_ok en I); [by apply plain_ok|done|]. intros _ w3 Hw3. split; [done|apply daemon_step_refl].
    + case_decide; [by apply Hhot|]. unfold power_action. apply wp_seq. eapply wp_mono; [|instantiate (1 := λ _ w', I w')].
      * intros ? w2 Hw2. split; [done|]. cbn [fst]. destruct vm as [me sp [ph ? ? ? ? mg ? ?]]. simpl in *. subst. split; simpl; auto; by constructor.
      * destruct (power_request _) as [[[req dn] fl]|] eqn:Er; [|done]. cbn [pbind call]. apply (wp_ok en I); [apply Hs; by destruct (PowerAction _); simplify_eq/=|done|]. intros [e|] w2 Hw2; node.
  - split; [done|]. cbn [fst]. destruct vm as [me sp [ph ? ? ? ? mg ? ?]]. simpl in *. subst. split; simpl; auto. by apply dp_end.
Qed.

(** *** Migrations *)

Lemma PollImmediate_wp n cond w :
  (∀ w, I w → wp en cond w (λ _ w', I w')) → I w → wp en (PollImmediate n cond) w (λ _ w', I w').
Proof.
  intros Hc. revert w. induction n as [|n IH]; intros w Hw; cbn [PollImmediate]; (wp_use Hc; [|done]); intros [[|]|e] w1 Hw1; try done.
  cbn [pbind call]. apply (wp_ok en I); [by apply plain_ok|done|]. intros _ w2 Hw2. by apply IH.
Qed.

Lemma moved_migration vm vm' : volumes_moved vm vm' → Migration (Status vm') = Migration (Status vm) ∧ Phase (Status vm') = Phase (Status vm).
Proof. intros (l & -> & _). by destruct vm as [? ? []]. Qed.

Lemma event_wp {A} vm t r (k : unit → prog nodeE A) w Q : I w → (∀ w', I w' → wp en (k tt) w' Q) → wp en (pbind (Eventf_ vm t r) k) w Q.
Proof. intros Hw Hk. unfold Eventf_, kube. cbn [pbind call]. apply (wp_ok en I); [by apply plain_ok|done|]. intros [] w' Hw'. by apply Hk. Qed.

Section Migrating.
Context (node_ : string) (vm : VirtualMachine) (m : VirtualMachineStatusMigration).
Hypothesis running : Phase (Status vm) = VirtualMachineRunning.
Hypothesis migrating : Migration (Status vm) = Some m.

Abbreviation post := (λ (r : VirtualMachine * (option goerror + migrationControlBlock)) w', I w' ∧ daemon_step node_ vm (fst r)).

Lemma hand_step p : handover_step node_ (Status vm) m (set_mig_Phase p m) → daemon_step node_ vm (upd_Migration (set_mig_Phase p) vm).
Proof. intros Hs. rewrite (upd_Migration_Some _ _ _ migrating). by apply (migration_daemon_step _ _ m). Qed.

Lemma open_target_wp ip ctx rx b w :
  Migration_Phase m = VirtualMachineMigrationScheduled → TargetNodeName m = node_ → I w →
  wp en (open_target ip vm m ctx rx b) w post.
Proof.
  intros Hp Ht Hw. unfold open_target. cbn [pbind call]. apply (wp_ok en I); [by apply plain_ok|done|].
  intros [e|] w1 Hw1; [split; [done|apply daemon_step_refl]|]. cbn [pbind call].
  apply (wp_ok en I); [by apply plain_ok|done|]. intros [port|e] w2 Hw2; [|split; [done|apply daemon_step_refl]].
  wp_use mountHotplugVolumes_wp; [|done]. intros [vm1 [e|]] w3 [Hw3 Hm]; cbn [fst] in *; (split; [done|]); [by apply volumes_moved_step|].
  cbn [fst]. eapply daemon_step_after_volumes; [exact Hm|]. destruct (moved_migration _ _ Hm) as [Em Ep].
  rewrite (upd_Migration_Some _ _ m) by congruence. apply (migration_daemon_step _ _ m); [congruence|congruence|]. by eapply hs_ready.
Qed.

Lemma migrate_receive_wp ip b w :
  Migration_Phase m = VirtualMachineMigrationScheduled → TargetNodeName m = node_ →
  (∀ ctx url, ok_call en I (GoReceiveMigration (targetSocket m) ctx url)) → I w →
  wp en (migrate_receive ip vm m b) w post.
Proof.
  intros Hp Ht Hgo Hw. unfold migrate_receive.
  assert (Hfail : ∀ w, I w → wp en (Eventf_ vm EvWarning "FailedMigrate" ;;; Ret (fail_migration vm, inl None))%go w post).
  { intros w' Hw'. apply event_wp; [done|]. intros w'' Hw''. split; [done|]. apply hand_step. by apply hs_refuse. }
  wp_use PollImmediate_wp; [|intros w' Hw'; node|done]. intros [e|] w1 Hw1; [by apply Hfail|].
  cbn [pbind call]. apply (wp_ok en I); [by apply plain_ok|done|]. intros ctx w2 Hw2.
  cbn [pbind call]. apply (wp_ok en I); [by apply plain_ok|done|]. intros [[|]|e] w3 Hw3.
  - by apply open_target_wp.
  - cbn [pbind call]. apply (wp_ok en I); [apply Hgo|done|]. intros ch w4 Hw4.
    wp_use PollImmediate_wp; [|intros w' Hw'; unfold receive_ready; node|done]. intros [e|] w5 Hw5; [by apply Hfail|by apply open_target_wp].
  - split; [done|apply daemon_step_refl].
Qed.

Lemma migrate_send_wp b w :
  Migration_Phase m = VirtualMachineMigrationTargetReady → NodeName (Status vm) = node_ →
  (∀ ctx url, ok_call en I (GoSendMigration (chSocket vm) ctx url)) → I w →
  wp en (migrate_send vm m b) w post.
Proof.
  intros Hp Hn Hgo Hw. unfold migrate_send. cbn [pbind call]. apply (wp_ok en I); [by apply plain_ok|done|]. intros ctx w1 Hw1.
  cbn [pbind call]. apply (wp_ok en I); [by apply plain_ok|done|]. intros [e|] w2 Hw2; [split; [done|apply daemon_step_refl]|].
  cbn [pbind call]. apply (wp_ok en I); [apply Hgo|done|]. intros ch w3 Hw3. split; [done|]. apply hand_step. by apply hs_send.
Qed.

Lemma cancel_if_wp c w : I w → wp en (cancel_if c) w (λ _ w', I w').
Proof. intros Hw. unfold cancel_if. node. Qed.

Lemma migrate_sending_wp pod b w :
  Migration_Phase m = VirtualMachineMigrationRunning → NodeName (Status vm) = node_ → I w →
  wp en (migrate_sending vm pod b) w post.
Proof.
  intros Hp Hn Hw. unfold migrate_sending.
  assert (Hfin : ∀ p w, p = VirtualMachineMigrationSent ∨ p = VirtualMachineMigrationFailed → I w →
    wp en (cancel_if (SendMigrationCancelFunc b) ;;; Ret (upd_Migration (set_mig_Phase p) vm, inr b))%go w post).
  { intros p w' Hpp Hw'. wp_use cancel_if_wp; [|done]. intros ? w'' Hw''. split; [done|]. apply hand_step. by apply (hs_sent _ _ _ _ p). }
  case_decide.
  - wp_use cleanup_wp; [|done]. intros [u|e] w1 Hw1; [apply Hfin; auto|split; [done|apply daemon_step_refl]].
  - destruct (SendMigrationErrCh b) as [ch|]; [|apply Hfin; auto]. cbn [pbind call].
    apply (wp_ok en I); [by apply plain_ok|done|]. intros [e|] w1 Hw1; [|split; [done|apply daemon_step_refl]].
    apply event_wp; [done|]. intros w2 Hw2. apply Hfin; auto.
Qed.

Lemma migrate_arrived_wp b w :
  Migration_Phase m = VirtualMachineMigrationSent → TargetNodeName m = node_ → I w →
  wp en (migrate_arrived vm m b) w post.
Proof.
  intros Hp Ht Hw. unfold migrate_arrived. cbn [pbind call]. apply (wp_ok en I); [by apply plain_ok|done|].
  intros [info|e] w1 Hw1; [|split; [done|apply daemon_step_refl]]. case_decide; [|split; [done|apply daemon_step_refl]].
  wp_use cancel_if_wp; [|done]. intros ? w2 Hw2. split; [done|]. cbn [fst]. unfold hand_over.
  rewrite (upd_Migration_Some _ _ _ migrating). destruct vm as [me sp [ph ? ? ? ? mg ? ?]]. simpl in *. subst mg ph.
  split; simpl; auto; [by apply dp_stay|right; split; [done|by apply hs_arrived]|].
  right. exists m, (set_mig_Phase VirtualMachineMigrationSucceeded m). split_and!; try done. by destruct m.
Qed.

Lemma migrate_step_wp ip pod b w :
  (TargetNodeName m = node_ → Migration_Phase m = VirtualMachineMigrationScheduled → ∀ ctx url, ok_call en I (GoReceiveMigration (targetSocket m) ctx url)) →
  (NodeName (Status vm) = node_ → Migration_Phase m = VirtualMachineMigrationTargetReady → ∀ ctx url, ok_call en I (GoSendMigration (chSocket vm) ctx url)) →
  I w → wp en (migrate_step node_ ip vm pod m b) w post.
Proof.
  intros Hr Hs Hw. unfold migrate_step. pose proof (daemon_step_refl node_ vm).
  destruct (Migration_Phase m) eqn:Ep; try done; case_bool_decide; try done.
  - apply migrate_receive_wp; auto.
  - apply migrate_send_wp; auto.
  - by apply migrate_sending_wp.
  - by apply migrate_arrived_wp.
Qed.
End Migrating.

Lemma reconcileDeletingVM_wp node_ vm pod w :
  is_Some (om_DeletionTimestamp (vm_meta vm)) → NodeName (Status vm) = node_ → may_send vm VmDelete → I w →
  wp en (reconcileDeletingVM vm pod) w (λ r w', I w' ∧ daemon_step node_ vm (fst r)).
Proof.
  intros Hd Hn Hs Hw. unfold reconcileDeletingVM. apply wp_seq. eapply wp_mono; [|instantiate (1 := λ _ w', I w')].
  2:{ case_decide; [|done]. unfold call. apply (wp_ok en I); [exact Hs|done|]. by intros err w' Hw'. }
  assert (Hfin : ∀ w, I w → wp en (ok_vm (upd_Status (set_Phase VirtualMachineSucceeded) vm) (cleanup vm)) w (λ r w', I w' ∧ daemon_step node_ vm (fst r))).
  { intros w' Hw'. eapply wp_mono; [|apply ok_vm_wp; by apply cleanup_wp]. intros r w'' [? ->]. split; [done|].
    destruct vm as [me sp [ph ? ? ? ? mg ? ?]]. simpl in *. split; simpl; auto; [by apply dp_delete|]. destruct mg; [|done]. by left. }
  intros [e|] w1 Hw1; [|by apply Hfin]. destruct (Strings.Contains _ _); [by apply Hfin|]. split; [done|apply daemon_step_refl].
Qed.

(** *** One reconciliation *)

(** The hypervisor requests of a fetched VM are allowed. *)
Record drives_ok (node_ : string) (vm : VirtualMachine) : Prop := {
  do_send : ∀ req, may_drive node_ vm req → may_send vm req;
  do_receive : ∀ socket ctx url, may_receive node_ vm socket → ok_call en I (GoReceiveMigration socket ctx url);
  do_transmit : ∀ socket ctx url, may_transmit node_ vm socket → ok_call en I (GoSendMigration socket ctx url)
}.

Lemma daemon_reconcile_wp node_ ip vm blocks w :
  drives_ok node_ vm → I w →
  wp en (reconcile node_ ip vm blocks) w (λ r w', I w' ∧ daemon_step node_ vm (fst (fst r))).
Proof.
  intros [Hs Hr Ht] Hw. unfold reconcile. pose proof (daemon_step_refl node_ vm) as Hstay. destruct (negb _); [done|].
  unfold kube. cbn [pbind call]. apply (wp_ok en I); [by apply plain_ok|done|]. intros [pod|e] w1 Hw1; [|done].
  assert (Hwith : ∀ p w, wp en p w (λ r w', I w' ∧ daemon_step node_ vm (fst r)) →
    wp en (with_blocks blocks p) w (λ r w', I w' ∧ daemon_step node_ vm (fst (fst r)))).
  { intros p w' Hp. unfold with_blocks. wp_use Hp. by intros [vm' err] w'' Hw''. }
  case_bool_decide as Hd.
  { case_bool_decide as Hn; [|done]. apply Hwith, reconcileDeletingVM_wp; auto. by apply Hs. }
  apply eq_None_not_Some in Hd. destruct (Phase (Status vm)) eqn:Hp; try done.
  - apply Hwith, reconcile_scheduled_wp; auto; [intros c|]; by apply Hs.
  - destruct (Migration (Status vm)) as [m|] eqn:Em.
    + unfold reconcile_migrating. wp_use (migrate_step_wp node_ vm m Hp Em); [| | |done].
      * intros [vm' [err|b]] w2 [Hw2 Hst]; done.
      * intros Hn Hph ctx url. apply Hr. split; [done|]. by exists m.
      * intros Hn Hph ctx url. apply Ht. split; [done|]. by exists m.
    + case_bool_decide as Hn; [|done]. apply Hwith.
      apply reconcile_running_here_wp; auto. intros req Hq. apply Hs. by destruct req.
  - apply Hwith. eapply wp_mono; [|apply ok_vm_wp; by apply cleanup_wp]. by intros r w2 [? ->].
  - apply Hwith. eapply wp_mono; [|apply ok_vm_wp; by apply cleanup_wp]. by intros r w2 [? ->].
Qed.
End Generic.

(** ** What the daemon of a node promises *)

Section Promises.
Context `{K : K8s}.

(** The VM that was fetched. *)
Definition track_fetched X (e : nodeE X) : X → option VirtualMachine → option VirtualMachine :=
  match e with
  | Kube e => track_vm _ e
  | _ => λ _ w, w
  end.

(** A node, an API server and hypervisors that answer anything. *)
Definition node_env (may : ∀ X, nodeE X → option VirtualMachine → Prop) (ok : ∀ X, nodeE X → X → Prop) (panic : Prop)
    : env nodeE (option VirtualMachine) :=
  mkEnv may (λ X e w x w', ok X e x ∧ w' = track_fetched X e x w) panic.

Definition anything X (e : nodeE X) (x : X) : Prop := True.

Definition may_write (node_ : string) X (e : nodeE X) (w : option VirtualMachine) : Prop :=
  match e with
  | Kube (UpdateVMStatus vm') => ∃ vm, w = Some vm ∧ daemon_step node_ vm vm'
  | Kube (CreatePod _) | Kube (DeletePod _) | Kube (UpdateVM _) | Kube (UpdateVMMStatus _) => False
  | _ => True
  end.

Definition may_ask (node_ : string) X (e : nodeE X) (w : option VirtualMachine) : Prop :=
  match e with
  | ChRequest socket req => ∃ vm, w = Some vm ∧ concerned node_ vm = true ∧ socket = chSocket vm ∧ may_drive node_ vm req
  | GoReceiveMigration socket _ _ => ∃ vm, w = Some vm ∧ may_receive node_ vm socket
  | GoSendMigration socket _ _ => ∃ vm, w = Some vm ∧ may_transmit node_ vm socket
  | _ => True
  end.

(** A node where nothing makes the code panic: no claim is a block device, a VM info has its
    configuration, and a configuration its memory. *)
Definition no_block_claim {X} (e : kubeE X) : X → Prop :=
  match e with
  | GetPVC_ _ => λ r, ∀ pvc, r = Ok pvc → VolumeMode pvc ≠ Some PersistentVolumeBlock
  | _ => λ _, True
  end.
Definition benign X (e : nodeE X) : X → Prop :=
  match e with
  | Kube e => no_block_claim e
  | GetVmInfo _ => λ r, ∀ info, r = Ok info → is_Some (Info_Config info)
  | ReadVmConfig _ => λ r, ∀ c, r = Ok (Some c) → is_Some (Config_MemorySize c)
  | _ => λ _, True
  end.

Lemma concerned_drive node_ vm blocks ip w (en : env nodeE (option VirtualMachine)) Q :
  (concerned node_ vm = true → wp en (reconcile node_ ip vm blocks) w Q) →
  (concerned node_ vm = false → Q (vm, blocks, None) w) → wp en (reconcile node_ ip vm blocks) w Q.
Proof. intros H1 H2. destruct (concerned node_ vm) eqn:E; [by apply H1|]. unfold reconcile. rewrite E. by apply H2. Qed.

(** The frame of the three theorems: [Reconcile] around a [reconcile] whose calls are allowed. *)
Lemma Reconcile_node_wp node_ ip req blocks may ok (panic : Prop) :
  (∀ X (e : nodeE X) w, plain e = true → may X e w) →
  (∀ k w, may _ (Kube (GetVM k)) w) →
  (∀ vm vm' , daemon_step node_ vm vm' → may _ (Kube (UpdateVMStatus vm')) (Some vm)) →
  (∀ vm socket req', concerned node_ vm = true → socket = chSocket vm → may_drive node_ vm req' → may _ (ChRequest socket req') (Some vm)) →
  (∀ vm socket c u, may_receive node_ vm socket → may _ (GoReceiveMigration socket c u) (Some vm)) →
  (∀ vm socket c u, may_transmit node_ vm socket → may _ (GoSendMigration socket c u) (Some vm)) →
  (∀ X (e : nodeE X) x, ok X e x → benign X e x ∨ panic) →
  wp (node_env may ok panic) (Reconcile node_ ip req blocks) None (λ _ _, True).
Proof.
  intros Hplain Hget Hup Hreq Hrec Hsnd Hben. unfold Reconcile, kube. cbn [pbind call]. apply wp_call; [apply Hget|].
  intros [vm|e] w [_ ->]; [|done]. cbn [track_fetched track_vm kube_in nodeE_kube]. set (en := node_env may ok panic).
  assert (Hok : ∀ X (e : nodeE X), may X e (Some vm) → (∀ x, track_fetched X e x (Some vm) = Some vm) → ok_call en (λ w, w = Some vm) e).
  { intros X e He Ht w ->. split; [done|]. intros x w' [_ ->]. apply Ht. }
  assert (Hpl : ∀ X (e : nodeE X), plain e = true → ok_call en (λ w, w = Some vm) e).
  { intros X e He. apply Hok; [by apply Hplain|]. destruct e as [? e| | | | | | | | | | | | | | | | | | | | | | | | |]; try done. by destruct e. }
  apply wp_seq. eapply wp_mono; [|instantiate (1 := λ r w', w' = Some vm ∧ daemon_step node_ vm (fst (fst r)))].
  - intros [[vm' bl] rerr] w [-> Hst]. cbn [fst] in Hst. apply wp_seq.
    eapply wp_mono; [|instantiate (1 := λ _ w', w' = Some vm)].
    + intros ? w ->. unfold kube. cbn [pbind call]. apply wp_call; [by apply Hup|]. intros err w _.
      destruct rerr, err as [e|]; try done.
    + destruct rerr; [|done]. unfold Eventf_, kube, call. apply (wp_ok en (λ w, w = Some vm)); [by apply Hpl|done|]. by intros ? w ->.
  - apply concerned_drive; [|intros _; split; [done|apply daemon_step_refl]]. intros Hcn.
    apply (daemon_reconcile_wp en (λ w, w = Some vm) Hpl); [..|done].
    + intros key w pvc w' -> [Hans _] Hb. destruct (Hben _ _ _ Hans) as [Hbe|?]; [|done]. by destruct (Hbe pvc eq_refl).
    + intros s w info w' -> [Hans _] Hb. destruct (Hben _ _ _ Hans) as [Hbe|?]; [|done]. destruct (Hbe info eq_refl). congruence.
    + intros p w c w' -> [Hans _] Hb. destruct (Hben _ _ _ Hans) as [Hbe|?]; [|done]. destruct (Hbe c eq_refl). congruence.
    + split; intros; (apply Hok; [|done]); auto.
Qed.


(** C11: a daemon sends requests only to the hypervisor of a VM of its node: it creates and
    boots VMs that are scheduled and not being deleted, deletes only VMs that are, and never
    powers a VM or changes its disks while it is being migrated; it receives a migration only
    as the scheduled target and sends one only as the source of a ready one. *)
Theorem daemon_drives_its_vms node_ ip req blocks :
  wp (node_env (may_ask node_) anything True) (Reconcile node_ ip req blocks) None (λ _ _, True).
Proof.
  apply Reconcile_node_wp; try done.
  - intros X e w He. by destruct e.
  - intros vm socket req' Hc -> Hd. by exists vm.
  - intros vm socket c u Hr. by exists vm.
  - intros vm socket c u Hr. by exists vm.
  - by right.
Qed.

(** On a node without block volumes, whose hypervisors report their configuration, a
    daemon never panics. *)
Theorem daemon_never_panics node_ ip req blocks :
  wp (node_env (λ _ _ _, True) benign False) (Reconcile node_ ip req blocks) None (λ _ _, True).
Proof. apply Reconcile_node_wp; try done. by left. Qed.

(** A block volume cannot be mounted on a node where the VM's recorded pod has no
    hypervisor socket, which is the case of the target of a migration: the cgroup manager is
    nil there and the code calls it without a test, so that the mount fails or panics. *)
Theorem block_mount_needs_socket {W} (h : handler nodeE W) vm v u vu r w :
  (∀ w, fst (h _ (Stat (chSocket vm)) w) = Ok false) →
  (∃ w', run h (mountBlockVolume vm v u vu r) w = (Panicked "nil pointer dereference", w')) ∨
  (∃ r' e w', run h (mountBlockVolume vm v u vu r) w = (Returned (r', Some e), w')).
Proof.
  intros Hst. unfold mountBlockVolume. cbn [pbind call run]. destruct (h _ _ w) as [[st|e] w1]; [|right; by eexists _, _, _].
  rewrite run_pbind. destruct (run h (getBlockFileMajorMinor _) w1) as [[[[ma mi]|e]|why] w2] eqn:E1.
  2:{ right. by eexists _, _, _. }
  2:{ exfalso. unfold getBlockFileMajorMinor in E1. cbn [pbind call run] in E1. destruct (h _ _ w1) as [[out|e] w3]; [|done].
      repeat (case_match; try done). }
  rewrite run_pbind. destruct (run h (addVolumeToVMMountRecord _ _ _ _) w2) as [[[r' [e|]]|why] w3] eqn:E2.
  1:{ right. by eexists _, _, _. }
  2:{ exfalso. unfold addVolumeToVMMountRecord, writeVMMountRecord, check, tbind in E2. destruct (existsb _ _); [done|].
      cbn [pbind call run] in E2. destruct (h _ _ w2) as [[e|] w4]; [done|]. cbn [pbind run] in E2. by destruct (h _ _ w4) as [[e|] w5]. }
  assert (Hrest : ∀ w, ∃ w', run h (allow_device vm ma mi) w = (Panicked "nil pointer dereference", w')).
  { intros w'. unfold allow_device, NewManager, tbind. cbn [pbind call run]. specialize (Hst w').
    destruct (h _ _ w') as [x w'']. simpl in Hst. subst x. by eexists. }
  unfold tbind. destruct st; cbn [pbind call].
  - rewrite run_pbind. destruct (Hrest w3) as [w' ->]. left. by eexists.
  - cbn [run]. destruct (h _ _ w3) as [[out|e] w4]; cbn [pbind run]; [|right; by eexists _, _, _].
    rewrite run_pbind. destruct (Hrest w4) as [w' ->]. left. by eexists.
Qed.
End Promises.

(** ** A concrete node *)

Section Sample.
#[local] Existing Instance k8s_concrete.

(** A node whose hypervisor sockets do not exist, with a block volume. *)
Definition bare_node : handler nodeE unit :=
  λ X e _, match e in nodeE X return X * unit with
  | Kube e => (sample_answer schedulingVM _ e, tt)
  | GetVmInfo _ => (Ok (mkVmInfo (Some (mkVmConfig [] [] [] (Some 0) "")) "Running"), tt)
  | ChRequest _ _ | TryReceive _ | RelaySocketToTCP _ _ _ | LoadCACert _ | MkdirAll _ | WriteRecord _ _ | CreateFile _
  | RemoveAll _ | PrlimitMemlock _ _ | CgroupSet _ _ => (None, tt)
  | GoReceiveMigration _ _ _ | GoSendMigration _ _ _ | WithCancel => (0%nat, tt)
  | CancelContext _ | Sleep => (tt, tt)
  | RelayTCPToSocket _ _ _ => (Ok 4000, tt)
  | Stat _ | Mounted _ => (Ok false, tt)
  | ReadVmConfig _ => (Ok None, tt)
  | ReadRecord _ => (Ok [], tt)
  | Exec _ _ => (Ok "8,1,660,block special file", tt)
  | MountInfos _ => (Ok [], tt)
  | GetPIDBySocket _ => (Ok 1, tt)
  | OpenCgroup _ => (Ok 0%nat, tt)
  end.

Lemma block_mount_needs_socket_witness :
  run bare_node (mountBlockVolume schedulingVM "data" "uid-2" "vol-2" []) tt = (Panicked "nil pointer dereference", tt) ∧
  ((∃ w', run bare_node (mountBlockVolume schedulingVM "data" "uid-2" "vol-2" []) tt = (Panicked "nil pointer dereference", w')) ∨
   (∃ r' e w', run bare_node (mountBlockVolume schedulingVM "data" "uid-2" "vol-2" []) tt = (Returned (r', Some e), w'))).
Proof.
  split; [vm_compute; reflexivity|].
  apply (block_mount_needs_socket bare_node schedulingVM "data" "uid-2" "vol-2" [] tt). intros w. reflexivity.
Defined.

(** A scheduled VM whose hypervisor runs is reported running. *)
Example daemon_reports_running :
  match run bare_node (Daemon.reconcile "node-1" "10.0.0.1"
      (mkVM (sampleMeta "vm" "vm-uid") (sampleSpec [sampleDisk])
        (mkVMStatus VirtualMachineScheduled "vm-vm-x1" "uid-1" "node-1" VirtualMachinePowerActionUnset None [] [])) ∅) tt with
  | (Returned (vm, _, None), _) => Phase (Status vm)
  | _ => VirtualMachineUnknown
  end = VirtualMachineRunning.
Proof. vm_compute. reflexivity. Qed.

End Sample.
