(* ===== verification/Cgroup.v ===== *)
(** * The cgroup device managers: pkg/daemon/cgroup

    What the daemon's calls [OpenCgroup] and [CgroupSet] do: the manager of the hypervisor's
    cgroup is opened, and a rule for a block device is merged with the rules the VM needs
    (cgroup v2) or with the rules in force (cgroup v1).  runc's managers and emulator, the
    walk over the cgroup tree and [/bin/stat] are calls of [cgE]. *)

From stdpp Require Import base gmap strings list sets fin_maps.
From Stdlib Require Import ZArith Lia Ascii.
From S2P Require Import Prelude GoStd GoNet K8s ApiTypes Kube VmController Daemon.
Open Scope Z_scope.

(** ** Device rules (runc's [devices.Rule]) *)

Inductive DeviceType := BlockDevice | CharDevice.
#[export] Instance DeviceType_eq_dec : EqDecision DeviceType.
Proof. solve_decision. Defined.

Record Rule := mkRule { r_Type : DeviceType; r_Major : Z; r_Minor : Z; r_Permissions : string; r_Allow : bool }.
#[export] Instance Rule_eq_dec : EqDecision Rule.
Proof. solve_decision. Defined.

Definition same_device (a b : Rule) : bool :=
  bool_decide (r_Type a = r_Type b) && (r_Major a =? r_Major b) && (r_Minor a =? r_Minor b).

Definition allow (t : DeviceType) (major minor : Z) : Rule := mkRule t major minor "rwm" true.

(** ** Managers *)

(** runc's manager is a handle; a v1 manager knows the paths of its subsystems. *)
Inductive Manager :=
| V1Manager (m : nat) (paths : gmap string string)
| V2Manager (m : nat) (cgroupPath : string) (pid : Z).

Section Cgroup.
Context `{K8s}.

Inductive cgE : Type → Type :=
| ParseCgroupFile (path : string) : cgE (result (gmap string string))
| CgIsCgroup2UnifiedMode : cgE bool
(** the visits [filepath.Walk] makes while its callback returns nil: a path, and whether it is
    a directory; a path that cannot be read is visited without a file info *)
| Walk (root : string) : cgE (list (string * option bool))
| NewFsManager (paths : gmap string string) : cgE (result nat)
| NewFs2Manager (path : string) : cgE (result nat)
| ReadCgroupFile (dir file : string) : cgE (result string)
(** [devices.EmulatorFromList] and [Emulator.Rules] *)
| EmulatorFromList (list : string) : cgE (result nat)
| EmulatorRules (emulator : nat) : cgE (result (list Rule))
| ManagerSet (m : nat) (rules : list Rule) : cgE (option goerror)
| CgStat (path : string) : cgE (result bool)
| CgExec (name : string) (args : list string) : cgE (result string).

Abbreviation cprog := (prog cgE).

(** [filepath.Base]. *)
Definition Base (path : string) : string :=
  match last (filter (λ s, s ≠ "") (Strings.Split "/"%char path)) with
  | Some s => s
  | None => if decide (path = "") then "." else "/"
  end.

(** The callback of the walk, which stops at the directory with the base name looked for;
    [info.IsDir()] panics without a file info. *)
Fixpoint walk_for (base : string) (visits : list (string * option bool)) : outcome (option string) :=
  match visits with
  | [] => Returned None
  | (path, None) :: _ => Panicked "nil pointer dereference"
  | (path, Some isDir) :: visits' =>
      if isDir && bool_decide (Base path = base) then Returned (Some path) else walk_for base visits'
  end.

Definition newV2Manager (cgroupPath : string) (pid : Z) : cprog (result Manager) :=
  (try! m := call (NewFs2Manager cgroupPath) in Ret (Ok (V2Manager m cgroupPath pid)))%go.
Definition newV1Manager (paths : gmap string string) : cprog (result Manager) :=
  (try! m := call (NewFsManager paths) in Ret (Ok (V1Manager m paths)))%go.

Definition v1_paths (cgroupPaths : gmap string string) : gmap string string :=
  map_imap (λ subsystem path, Some (if decide (subsystem = "") then path
    else JoinPath ["/proc/1/root/sys/fs/cgroup"; subsystem; path])) cgroupPaths.

(** [NewManager] once the hypervisor's process is known. *)
Definition openCgroup (vmPID : Z) : cprog (result Manager) :=
  (try! cgroupPaths := call (ParseCgroupFile ("/proc/" +:+ Strconv.FormatInt vmPID +:+ "/cgroup")%string) in
   let! unified := call CgIsCgroup2UnifiedMode in
   if unified : bool then
     let cgroupPath := default "" (cgroupPaths !! "") in
     let! visits := call (Walk "/proc/1/root/sys/fs/cgroup/kubepods.slice") in
     match walk_for (Base cgroupPath) visits with
     | Panicked why => Crash why
     | Returned found => newV2Manager (default cgroupPath found) vmPID
     end
   else newV1Manager (v1_paths cgroupPaths))%go.

(** ** cgroup v1 *)

Definition v1_Set (m : nat) (paths : gmap string string) (r : list Rule) : cprog (result unit) :=
  match paths !! "devices" with
  | None => Ret (Err (ErrMsg "devices subsystem's path is not defined for this manager"))
  | Some devicesPath =>
      (let! text := call (ReadCgroupFile devicesPath "devices.list") in
       match text with
       | Err e => Ret (Err (ErrFmt "read deivces.list" e))
       | Ok text =>
           let! emulator := call (EmulatorFromList text) in
           match emulator with
           | Err e => Ret (Err (ErrFmt "create emulator" e))
           | Ok emulator =>
               let! rules := call (EmulatorRules emulator) in
               match rules with
               | Err e => Ret (Err (ErrFmt "get device rules from emulator" e))
               | Ok deviceRules => check (call (ManagerSet m (r ++ deviceRules)))
               end
           end
       end)%go
  end.

(** ** cgroup v2 *)

(** The numbers of a block device; the copy in this package reads [/bin/stat]'s hexadecimal
    output in base 26. *)
Definition cgBlockFileMajorMinor (filePath : string) : cprog (result (Z * Z)) :=
  (let! out := call (CgExec "/bin/stat" [filePath; "-L"; "-c%t,%T,%a,%F"]) in
   Ret match out with
       | Err e => Err (ErrFmt "/bin/stat" e)
       | Ok output =>
           match Strings.Split ","%char output with
           | [t; T; _; _] =>
               match Strconv.ParseInt 26 32 t, Strconv.ParseInt 26 32 T with
               | Some major, Some minor => Ok (major, minor)
               | None, _ => Err (ErrMsg ("parsing " +:+ t)%string)
               | Some _, None => Err (ErrMsg ("parsing " +:+ T)%string)
               end
           | _ => Err (ErrMsg "output is invalid")
           end
       end)%go.

(** /dev/null, /dev/net/tun, /dev/ptmx, /dev/kvm, /dev/urandom and the pseudo terminals. *)
Definition base_rules : list Rule :=
  [allow CharDevice 1 3; allow CharDevice 10 200; allow CharDevice 5 2; allow CharDevice 10 232; allow CharDevice 1 9] ++
  map (λ i, allow CharDevice (136 + Z.of_nat i) (-1)) (seq 0 16).

Definition is_claim (v : Volume) : bool :=
  match PersistentVolumeClaim (Volume_Source v), DataVolume (Volume_Source v) with None, None => false | _, _ => true end.

Definition volume_path (vm : VirtualMachine) (pid : Z) (v : Volume) : string :=
  if IsHotpluggable v then
    JoinPath ["/var/lib/kubelet/pods"; VMPodUID (Status vm); "volumes/kubernetes.io~empty-dir/hotplug-volumes/"; Volume_Name v]
  else ("/proc/" +:+ Strconv.FormatInt pid +:+ "/root/mnt/" +:+ Volume_Name v)%string.

Fixpoint volume_rules (vm : VirtualMachine) (pid : Z) (l : list Volume) : cprog (result (list Rule)) :=
  match l with
  | [] => Ret (Ok [])
  | v :: l' =>
      if is_claim v then
        (try! present := call (CgStat (volume_path vm pid v)) in
         if present : bool then
           try! (major, minor) := cgBlockFileMajorMinor (volume_path vm pid v) in
           try! rest := volume_rules vm pid l' in
           Ret (Ok (allow BlockDevice major minor :: rest))
         else volume_rules vm pid l')%go
      else volume_rules vm pid l'
  end.

Definition generateDeviceRuleForVM (vm : VirtualMachine) (pid : Z) : cprog (result (list Rule)) :=
  (try! rules := volume_rules vm pid (Volumes (Spec vm)) in Ret (Ok (base_rules ++ rules)))%go.

(** The search for a new rule of the same device; the flag is assigned on every pass, so the
    last new rule decides. *)
Definition found (news : list Rule) (current : Rule) : bool := foldl (λ _ n, same_device current n) false news.

Definition v2_Set (m : nat) (pid : Z) (vm : VirtualMachine) (r : list Rule) : cprog (result unit) :=
  (try! deviceRules := generateDeviceRuleForVM vm pid in
   let! err := call (ManagerSet m (r ++ filter (λ current, found r current = false) deviceRules)) in
   Ret match err with Some e => Err (ErrFmt "set cgroup" e) | None => Ok tt end)%go.

Definition Manager_Set (mgr : Manager) (vm : VirtualMachine) (r : list Rule) : cprog (result unit) :=
  match mgr with
  | V1Manager m paths => v1_Set m paths r
  | V2Manager m _ pid => v2_Set m pid vm r
  end.

End Cgroup.
