(* ===== verification/CgroupProofs.v ===== *)
(** * Correctness of the cgroup device managers

    Which device a rule names, and whether it takes effect among the rules it is set with. *)

From stdpp Require Import base gmap strings list sets fin_maps.
From Stdlib Require Import ZArith Lia Ascii.
From S2P Require Import Prelude GoStd GoNet K8s ApiTypes Kube VmController VmValidate Daemon Cgroup.
Open Scope Z_scope.

(** ** Hexadecimal numbers read in another base *)

(** [%t] of stat: hexadecimal, without leading zeros; eight digits are enough for 32 bits. *)
Fixpoint format_hex (fuel : nat) (z : Z) (acc : string) : string :=
  match fuel with
  | O => acc
  | S f =>
      let acc' := String (hex_char (z `mod` 16)) acc in
      if z / 16 =? 0 then acc' else format_hex f (z / 16) acc'
  end.
Definition print_hex (z : Z) : string := format_hex 8 z EmptyString.

(** The number the hexadecimal digits of [z] stand for in base [b]. *)
Fixpoint rebase (b : Z) (fuel : nat) (z : Z) : Z :=
  match fuel with
  | O => 0
  | S f => if z / 16 =? 0 then z else rebase b f (z / 16) * b + z `mod` 16
  end.

Lemma format_hex_parse b fuel z acc :
  16 ≤ b → 0 ≤ z < 16 ^ Z.of_nat fuel →
  Strconv.ParseDigits b (format_hex fuel z acc) 0 = Strconv.ParseDigits b acc (rebase b fuel z).
Proof.
  intros Hb. revert z acc. induction fuel as [|f IH]; intros z acc Hz; [done|].
  rewrite Nat2Z.inj_succ, Z.pow_succ_r in Hz by lia. cbn [format_hex rebase].
  pose proof (Z.mod_pos_bound z 16 ltac:(lia)) as Hm.
  assert (Hd : Strconv.digit_val (hex_char (z `mod` 16)) = Some (z `mod` 16)).
  { pose proof (hex_val_char (z `mod` 16) ltac:(lia)) as Hv. unfold hex_val in Hv.
    destruct (Strconv.digit_val _); [|done]. by destruct (_ <? 16). }
  destruct (z / 16 =? 0) eqn:E; bools.
  - cbn [Strconv.ParseDigits]. rewrite Hd, (proj2 (Z.ltb_lt _ _)) by lia. f_equal. lia_div.
  - rewrite IH by (split; [lia_div|apply Z.div_lt_upper_bound; lia]).
    cbn [Strconv.ParseDigits]. by rewrite Hd, (proj2 (Z.ltb_lt _ _)) by lia.
Qed.

Lemma rebase_16 fuel z : 0 ≤ z < 16 ^ Z.of_nat fuel → rebase 16 fuel z = z.
Proof.
  revert z. induction fuel as [|f IH]; intros z Hz; [change (16 ^ Z.of_nat 0) with 1 in Hz; simpl; lia|].
  rewrite Nat2Z.inj_succ, Z.pow_succ_r in Hz by lia. cbn [rebase]. destruct (z / 16 =? 0); [done|].
  rewrite IH by (split; [lia_div|apply Z.div_lt_upper_bound; lia]). lia_div.
Qed.

(** In a larger base a number of two digits or more gets larger. *)
Lemma rebase_larger b fuel z :
  16 < b → 0 ≤ z < 16 ^ Z.of_nat fuel → z ≤ rebase b fuel z ∧ (16 ≤ z → z < rebase b fuel z) ∧ (z < 16 → rebase b fuel z = z).
Proof.
  intros Hb. revert z. induction fuel as [|f IH]; intros z Hz; [change (16 ^ Z.of_nat 0) with 1 in Hz; simpl; lia|].
  rewrite Nat2Z.inj_succ, Z.pow_succ_r in Hz by lia. cbn [rebase].
  destruct (z / 16 =? 0) eqn:E; bools; [split_and!; [lia| |done]; intros; lia_div|].
  destruct (IH (z / 16)) as (H1 & _ & _); [split; [lia_div|apply Z.div_lt_upper_bound; lia]|].
  assert (1 ≤ z / 16) by lia_div. pose proof (Z.div_mod z 16 ltac:(lia)).
  assert (z < rebase b f (z / 16) * b + z `mod` 16) by nia. split_and!; [lia|done|]. intros. lia_div.
Qed.

Lemma format_hex_head fuel z acc :
  fuel ≠ O → ∃ c r, format_hex fuel z acc = String c r ∧ c ≠ "-"%char ∧ c ≠ "+"%char.
Proof.
  revert z acc. induction fuel as [|f IH]; intros z acc Hf; [done|]. cbn [format_hex].
  pose proof (Z.mod_pos_bound z 16 ltac:(lia)) as Hm.
  assert (Hc : hex_char (z `mod` 16) ≠ "-"%char ∧ hex_char (z `mod` 16) ≠ "+"%char).
  { pose proof (hex_val_char (z `mod` 16) ltac:(lia)) as Hv. split; intros E; rewrite E in Hv; by vm_compute in Hv. }
  destruct (z / 16 =? 0); [by eexists _, _|]. destruct f as [|f]; [by eexists _, _|]. by apply IH.
Qed.

Lemma ParseInt_hex b z :
  16 ≤ b → 0 ≤ z < 2 ^ 32 →
  Strconv.ParseInt b 32 (print_hex z) = if 2 ^ 31 <=? rebase b 8 z then None else Some (rebase b 8 z).
Proof.
  intros Hb Hz. pose proof (format_hex_parse b 8 z EmptyString Hb ltac:(simpl; lia)) as Hp.
  change (Strconv.ParseDigits b EmptyString (rebase b 8 z)) with (Some (rebase b 8 z)) in Hp.
  unfold Strconv.ParseInt, print_hex. destruct (format_hex_head 8 z EmptyString) as (c & r & E & H1 & H2); [done|].
  rewrite E in *. rewrite !decide_False by done. rewrite Hp. cbn [negb andb].
  change (2 ^ (32 - 1)) with (2 ^ 31). destruct (_ <=? _); done.
Qed.

(** The line [/bin/stat] prints for a device. *)
Definition stat_line (major minor : Z) (perm kind : string) : string :=
  Strings.Join [print_hex major; print_hex minor; perm; kind] ",".

Lemma print_hex_lacks z : Strings.lacks ","%char (print_hex z).
Proof.
  unfold print_hex. assert (H : ∀ fuel z acc, Strings.lacks ","%char acc → Strings.lacks ","%char (format_hex fuel z acc)).
  { clear z. induction fuel as [|f IH]; intros z acc Ha; [done|]. cbn [format_hex].
    pose proof (Z.mod_pos_bound z 16 ltac:(lia)) as Hm. pose proof (hex_val_char (z `mod` 16) ltac:(lia)) as Hv.
    assert (Strings.lacks ","%char (String (hex_char (z `mod` 16)) acc)).
    { split; [|done]. intros E. rewrite E in Hv. by vm_compute in Hv. }
    destruct (z / 16 =? 0); [done|by apply IH]. }
  by apply H.
Qed.

Lemma stat_line_split major minor perm kind :
  Strings.lacks ","%char perm → Strings.lacks ","%char kind →
  Strings.Split ","%char (stat_line major minor perm kind) = [print_hex major; print_hex minor; perm; kind].
Proof.
  intros Hp Hk. apply Strings.Split_Join; [done|]. repeat constructor; auto using print_hex_lacks.
Qed.

(** ** Which rule decides *)

(** Rules apply in order, so that the last one that matches a device decides; -1 is any number. *)
Definition matches (t : DeviceType) (major minor : Z) (r : Rule) : bool :=
  bool_decide (r_Type r = t) && ((r_Major r =? -1) || (r_Major r =? major)) && ((r_Minor r =? -1) || (r_Minor r =? minor)).
Definition decision (rules : list Rule) (t : DeviceType) (major minor : Z) : option bool :=
  r_Allow <$> last (filter (λ r, matches t major minor r = true) rules).

Section Proofs.
Context `{K : K8s}.

(** The device a path stands for, as [/bin/stat] prints it, in the daemon and in this package. *)
Definition stat_answers (major minor : Z) (perm kind : string) X (e : nodeE X) : X → Prop :=
  match e in nodeE X return X → Prop with
  | Exec _ _ => λ r, r = Ok (stat_line major minor perm kind)
  | _ => λ _, True
  end.
Definition cg_stat_answers (major minor : Z) (perm kind : string) X (e : cgE X) : X → Prop :=
  match e in cgE X return X → Prop with
  | CgExec _ _ => λ r, r = Ok (stat_line major minor perm kind)
  | _ => λ _, True
  end.

(** C38: the daemon reads the device numbers that [/bin/stat] prints; the copy of the function
    in the cgroup package, which reads the same hexadecimal output in base 26, returns the
    device's numbers exactly when both are below 16. *)
Theorem block_device_numbers path major minor perm kind :
  0 ≤ major < 2 ^ 31 → 0 ≤ minor < 2 ^ 31 → Strings.lacks ","%char perm → Strings.lacks ","%char kind →
  wp (mkEnv (λ _ _ _, True) (λ X e _ x _, stat_answers major minor perm kind X e x) False)
    (getBlockFileMajorMinor path) tt (λ r _, r = Ok (major, minor)) ∧
  wp (mkEnv (λ _ _ _, True) (λ X e _ x _, cg_stat_answers major minor perm kind X e x) False)
    (cgBlockFileMajorMinor path) tt (λ r _, r = Ok (major, minor) ↔ major < 16 ∧ minor < 16).
Proof.
  intros HM Hm Hp Hk. split; (split; [done|]; intros x w1 ->; cbn [pbind wp]; rewrite stat_line_split, !ParseInt_hex by (done || lia)).
  - rewrite !rebase_16 by (change (16 ^ Z.of_nat 8) with (2 ^ 32); lia). by rewrite !(proj2 (Z.leb_gt _ _)) by lia.
  - destruct (rebase_larger 26 8 major) as (Ha & Hb & Hc); [lia|change (16 ^ Z.of_nat 8) with (2 ^ 32); lia|].
    destruct (rebase_larger 26 8 minor) as (Hd & He & Hf); [lia|change (16 ^ Z.of_nat 8) with (2 ^ 32); lia|].
    destruct (2 ^ 31 <=? rebase 26 8 major) eqn:E1, (2 ^ 31 <=? rebase 26 8 minor) eqn:E2; bools;
      (split; [intros E; simplify_eq|intros [H1 H2]; rewrite ?Hc, ?Hf in * by lia]); try done; try lia.
Qed.

(** Rules of the VM that concern a block device name it exactly. *)
Definition exact (r : Rule) : Prop := r_Type r = CharDevice ∨ 0 ≤ r_Major r ∧ 0 ≤ r_Minor r.

Definition devices_printed X (e : cgE X) : X → Prop :=
  match e in cgE X return X → Prop with
  | CgExec _ _ => λ r, ∀ s, r = Ok s → ∃ major minor perm kind,
      0 ≤ major < 2 ^ 32 ∧ 0 ≤ minor < 2 ^ 32 ∧ Strings.lacks ","%char perm ∧ Strings.lacks ","%char kind ∧
      s = stat_line major minor perm kind
  | _ => λ _, True
  end.

(** A node whose [/bin/stat] prints devices, on which only the rules that satisfy [ok] are set. *)
Definition v2_env (ok : list Rule → Prop) : env cgE unit :=
  mkEnv (λ X e _, match e with ManagerSet _ rules => ok rules | _ => True end)
    (λ X e _ x _, devices_printed X e x) False.

Lemma rebase_nonneg b fuel z : 16 < b → 0 ≤ z < 16 ^ Z.of_nat fuel → 0 ≤ rebase b fuel z.
Proof. intros Hb Hz. destruct (rebase_larger b fuel z Hb Hz). lia. Qed.

Lemma cgBlockFileMajorMinor_wp ok path w :
  wp (v2_env ok) (cgBlockFileMajorMinor path) w (λ r _, ∀ M m, r = Ok (M, m) → 0 ≤ M ∧ 0 ≤ m).
Proof.
  split; [done|]. intros [s|e] w1 Hs; [|done]. destruct (Hs s eq_refl) as (M & m & perm & kind & HM & Hm & Hp & Hk & ->).
  cbn [pbind wp]. rewrite stat_line_split, !ParseInt_hex by (done || lia). intros M' m'.
  assert (0 ≤ rebase 26 8 M) by (apply rebase_nonneg; [lia|change (16 ^ Z.of_nat 8) with (2 ^ 32); lia]).
  assert (0 ≤ rebase 26 8 m) by (apply rebase_nonneg; [lia|change (16 ^ Z.of_nat 8) with (2 ^ 32); lia]).
  destruct (2 ^ 31 <=? rebase 26 8 M), (2 ^ 31 <=? rebase 26 8 m); try done. by intros [= <- <-].
Qed.

Lemma volume_rules_wp ok vm pid l w : wp (v2_env ok) (volume_rules vm pid l) w (λ r _, ∀ rules, r = Ok rules → Forall exact rules).
Proof.
  revert w. induction l as [|v l IH]; intros w; [intros rules [= <-]; constructor|]. cbn [volume_rules].
  destruct (is_claim v); [|apply IH]. apply wp_seq. split; [done|]. intros [[|]|e] w1 _; [|apply IH|done].
  eapply wp_try; [apply cgBlockFileMajorMinor_wp| |done]. intros [M m] w2 Hn. destruct (Hn M m eq_refl).
  eapply wp_try; [apply IH| |done]. intros rest w3 Hr rules [= <-]. constructor; [by right|by apply Hr].
Qed.

Lemma base_rules_exact : Forall exact base_rules.
Proof. repeat constructor; by left. Qed.

Lemma exact_matches r major minor :
  exact r → 0 ≤ major → 0 ≤ minor → matches BlockDevice major minor r = true →
  r_Type r = BlockDevice ∧ r_Major r = major ∧ r_Minor r = minor.
Proof. 
  unfold matches. intros Hr H1 H2 Hm. bools. rewrite !orb_true_iff, !Z.eqb_eq in *.
  destruct Hr as [Hr|[Hr1 Hr2]]; [congruence|]. split; [done|]. lia.
Qed.

Lemma decision_first r rest major minor :
  r_Type r = BlockDevice → r_Major r = major → r_Minor r = minor → 0 ≤ major → 0 ≤ minor →
  Forall exact rest → Forall (λ c, found [r] c = false) rest → decision (r :: rest) BlockDevice major minor = Some (r_Allow r).
Proof.
  intros Ht HM Hm H1 H2 He Hf. unfold decision.
  assert (Hr : matches BlockDevice major minor r = true).
  { unfold matches. rewrite Ht, HM, Hm, !Z.eqb_refl, !orb_true_r. done. }
  rewrite filter_cons_True by done.
  assert (E : filter (λ c, matches BlockDevice major minor c = true) rest = []); [|by rewrite E].
  clear Hr. induction rest as [|c rest IH]; [done|]. apply Forall_cons in He as [Hc He]. apply Forall_cons in Hf as [Hfc Hf].
  rewrite filter_cons_False; [by apply IH|]. intros Hmc. destruct (exact_matches c major minor) as (E1 & E2 & E3); [done..|].
  unfold found, same_device in Hfc. simpl in Hfc. by rewrite E1, E2, E3, Ht, HM, Hm, !Z.eqb_refl in Hfc.
Qed.

(** A v1 node: the world holds the rules the emulator reported last. *)
Definition v1_env (ok : list Rule → list Rule → Prop) : env cgE (option (list Rule)) :=
  mkEnv (λ X e w, match e with ManagerSet _ rules => ∃ listed, w = Some listed ∧ ok listed rules | _ => True end)
    (λ X e w x w', match e in cgE X return X → Prop with
       | EmulatorRules _ => λ r, ∀ l, r = Ok l → w' = Some l
       | _ => λ _, w' = w end x) False.

(** Setting one rule for a block device, as the daemon does when it mounts and unmounts a
    block volume.  With cgroup v2 the rule decides about its device among all the rules set.
    With cgroup v1 it only decides when the rules in force say nothing about the device: they
    are set after it, so that the removal of a device that is allowed has no effect. *)
Theorem rule_decides m pid paths vm major minor a :
  0 ≤ major → 0 ≤ minor →
  wp (v2_env (λ rules, decision rules BlockDevice major minor = Some a))
    (v2_Set m pid vm [mkRule BlockDevice major minor "rwm" a]) tt (λ _ _, True) ∧
  wp (v1_env (λ listed rules, decision rules BlockDevice major minor =
        Some (default a (decision listed BlockDevice major minor))))
    (v1_Set m paths [mkRule BlockDevice major minor "rwm" a]) None (λ _ _, True).
Proof.
  intros HM Hm. set (r := mkRule _ _ _ _ _). split.
  - unfold v2_Set, generateDeviceRuleForVM.
    eapply (wp_try _ _ _ _ _ (λ res _, ∀ rules, res = Ok rules → Forall exact rules)); [| |done].
    { eapply wp_try; [apply volume_rules_wp| |done]. intros rules w1 Hr all E.
      assert (all = base_rules ++ rules) as -> by congruence. apply Forall_app. split; [apply base_rules_exact|by apply Hr]. }
    intros rules w1 Hr. split; [|done]. simpl. apply (decision_first r); try done.
    + apply Forall_forall. intros c Hc. apply list_elem_of_filter in Hc as [_ Hc].
      by apply (proj1 (Forall_forall _ _) (Hr rules eq_refl)).
    + apply Forall_forall. intros c Hc. by apply list_elem_of_filter in Hc as [? _].
  - unfold v1_Set. destruct (paths !! "devices") as [p|]; [|done]. split; [done|]. intros [t|e] w1 _; [|done].
    split; [done|]. intros [em|e] w2 _; [|done]. split; [done|]. intros [listed|e] w3 Hl; [|done]. rewrite (Hl listed eq_refl).
    split; [|done]. exists listed. split; [done|]. unfold decision. simpl app.
    rewrite filter_cons_True by (unfold matches, r; simpl; by rewrite !Z.eqb_refl, !orb_true_r).
    destruct (filter _ listed) as [|x l] eqn:E; [done|]. change (last (r :: x :: l)) with (last (x :: l)).
    destruct (last (x :: l)) eqn:El; [done|]. by apply last_None in El.
Qed.
End Proofs.

Section Sample.
#[local] Existing Instance k8s_concrete.

(** The second SCSI disk, 8:16, is read as 8:26. *)
Lemma block_device_numbers_witness :
  wp (mkEnv (λ _ _ _, True) (λ X e _ x _, stat_answers 8 16 "660" "block special file" X e x) False)
    (getBlockFileMajorMinor "/dev/sdb") tt (λ r _, r = Ok (8, 16)) ∧
  wp (mkEnv (λ _ _ _, True) (λ X e _ x _, cg_stat_answers 8 16 "660" "block special file" X e x) False)
    (cgBlockFileMajorMinor "/dev/sdb") tt (λ r _, r = Ok (8, 16) ↔ 8 < 16 ∧ 16 < 16).
Proof.
  apply (block_device_numbers "/dev/sdb" 8 16 "660" "block special file"); [lia..| |]; vm_compute; split_and!; done.
Defined.

Example sdb_misread :
  match Strings.Split ","%char (stat_line 8 16 "660" "block special file") with
  | t :: T :: _ => (Strconv.ParseInt 26 32 t, Strconv.ParseInt 26 32 T)
  | _ => (None, None)
  end = (Some 8, Some 26).
Proof. vm_compute. reflexivity. Qed.

Lemma rule_decides_witness :
  wp (v2_env (λ rules, decision rules BlockDevice 8 16 = Some false))
    (v2_Set 0 42 (sampleVM [sampleData]) [mkRule BlockDevice 8 16 "rwm" false]) tt (λ _ _, True) ∧
  wp (v1_env (λ listed rules, decision rules BlockDevice 8 16 = Some (default false (decision listed BlockDevice 8 16))))
    (v1_Set 0 {["devices" := "/sys/fs/cgroup/devices"]} [mkRule BlockDevice 8 16 "rwm" false]) None (λ _ _, True).
Proof. apply (rule_decides 0 42 {["devices" := "/sys/fs/cgroup/devices"]} (sampleVM [sampleData]) 8 16 false); lia. Defined.

(** With the rules of a mounted device in force, a v1 removal leaves it allowed. *)
Example v1_removal_ignored :
  decision (mkRule BlockDevice 8 16 "rwm" false :: [allow BlockDevice 8 16]) BlockDevice 8 16 = Some true.
Proof. vm_compute. reflexivity. Qed.

(** A node without the directory kubepods.slice (the cgroupfs driver names it kubepods): the
    only visit of the walk has no file info. *)
Example walk_without_kubepods_slice :
  walk_for "pod" [("/proc/1/root/sys/fs/cgroup/kubepods.slice", None)] = Panicked "nil pointer dereference".
Proof. reflexivity. Qed.
End Sample.
