(* ===== verification/KubectlVirt.v ===== *)
(** * The kubectl plugin: cmd/kubectl-virt/main.go

    [kubectl virt COMMAND VM,...] asks the node daemon for a power action by patching the
    status of VMs.  The model starts from the process's arguments: the part of package [flag]
    that reads them is written out.  The API server is reached by calls of [virtE]. *)

From stdpp Require Import base gmap strings list sets fin_maps.
From Stdlib Require Import ZArith Lia Ascii.
From S2P Require Import Prelude GoStd K8s ApiTypes Kube VmController VmValidate Daemon.
Open Scope Z_scope.

(** ** Package flag *)

Record options := mkOptions { opt_namespace : string; opt_all : bool; opt_args : list string }.

(** [strconv.ParseBool]. *)
Definition ParseBool (s : string) : option bool :=
  if bool_decide (s ∈ ["1"; "t"; "T"; "TRUE"; "true"; "True"]) then Some true
  else if bool_decide (s ∈ ["0"; "f"; "F"; "FALSE"; "false"; "False"]) then Some false
  else None.

(** An argument as [FlagSet.parseOne] sees it. *)
Inductive arg :=
| Positional
| Terminator
| BadSyntax
| Flag (name : string) (value : option string).

Definition flag_of (name : string) : arg :=
  match name with
  | EmptyString => BadSyntax
  | String c _ =>
      if bool_decide (c = "-"%char) || bool_decide (c = "="%char) then BadSyntax
      else let '(n, v) := Strings.Cut "="%char name in Flag n v
  end.
Definition classify (s : string) : arg :=
  match s with
  | String "-" (String "-" EmptyString) => Terminator
  | String "-" (String "-" name) => flag_of name
  | String "-" (String c r) => flag_of (String c r)
  | _ => Positional
  end.

(** [flag.Parse] with the flags [-n], [-namespace] and [-all]: it stops at the first argument
    that is not a flag; [None] when it calls [flag.Usage], which ends the process. *)
Fixpoint Parse (args : list string) (namespace : string) (all : bool) : option options :=
  match args with
  | [] => Some (mkOptions namespace all [])
  | s :: rest =>
      match classify s with
      | Positional => Some (mkOptions namespace all args)
      | Terminator => Some (mkOptions namespace all rest)
      | BadSyntax => None
      | Flag name value =>
          if decide (name = "all") then
            match value with
            | None => Parse rest namespace true
            | Some v => match ParseBool v with Some b => Parse rest namespace b | None => None end
            end
          else if decide (name = "n" ∨ name = "namespace") then
            match value, rest with
            | Some v, _ => Parse rest v all
            | None, v :: rest' => Parse rest' v all
            | None, [] => None
            end
          else None
      end
  end.

(** ** The commands *)

Definition actionMap (command : string) : option VirtualMachinePowerAction :=
  if decide (command = "start") then Some VirtualMachinePowerOn
  else if decide (command = "stop") then Some VirtualMachinePowerOff
  else if decide (command = "restart") then Some VirtualMachineReset
  else if decide (command = "shutdown") then Some VirtualMachineShutdown
  else if decide (command = "pause") then Some VirtualMachinePause
  else if decide (command = "resume") then Some VirtualMachineResume
  else None.

(** The VMs a command passes over. *)
Definition skipped (command : string) (s : VirtualMachineStatus) : bool :=
  if decide (command = "start") then
    bool_decide (Phase s ∈ [VirtualMachineRunning; VirtualMachineScheduling; VirtualMachineScheduled; VirtualMachinePending])
  else if decide (command = "stop" ∨ command = "shutdown") then
    bool_decide (Phase s ∈ [VirtualMachineFailed; VirtualMachineSucceeded; VirtualMachinePhaseUnset])
  else if decide (command = "pause") then bool_decide (PowerAction s = VirtualMachinePause)
  else if decide (command = "resume") then negb (bool_decide (PowerAction s = VirtualMachinePause))
  else false.

Section Plugin.
Context `{K8s}.

Inductive virtE : Type → Type :=
| VirtGetenv (name : string) : virtE string
| HomeDir : virtE string
| VirtStat (path : string) : virtE (option goerror)
(** [clientcmd.BuildConfigFromFlags] and [virtclient.NewForConfig] *)
| BuildConfig (path : string) : virtE (option goerror)
| NewForConfig : virtE (option goerror)
| VirtList (namespace : string) : virtE (result (list VirtualMachine))
| VirtGet (namespace name : string) : virtE (result VirtualMachine)
(** a merge patch of the subresource status with the power action *)
| VirtPatch (namespace name : string) (action : VirtualMachinePowerAction) : virtE (option goerror).

Abbreviation vprog := (prog virtE).

(** The given VMs that exist and are not skipped. *)
Fixpoint eligible_names (namespace command : string) (names : list string) : vprog (list string) :=
  match names with
  | [] => Ret []
  | name :: names' =>
      (let! r := call (VirtGet namespace name) in
       match r with
       | Err _ => eligible_names namespace command names'
       | Ok vm =>
           let! rest := eligible_names namespace command names' in
           Ret (if skipped command (Status vm) then rest else name :: rest)
       end)%go
  end.

(** The patches; one that fails does not keep the others from being sent. *)
Fixpoint patch_all (namespace : string) (action : VirtualMachinePowerAction) (names : list string) : vprog unit :=
  match names with
  | [] => Ret tt
  | name :: names' => (call (VirtPatch namespace name action) ;;; patch_all namespace action names')%go
  end.

Definition fatal (e : virtE (option goerror)) : vprog (result unit) := check (call e).

(** The command on the parsed arguments; [Err] is [log.Fatalf]. *)
Definition run_command (o : options) (command : string) (target : string) : vprog (result unit) :=
  let namespace := opt_namespace o in
  (let! env := call (VirtGetenv "KUBECONFIG") in
   let! kubeconfig := (if decide (env = "") then let! home := call HomeDir in Ret (JoinPath [home; ".kube"; "config"])
                       else Ret env) in
   try! _ := fatal (VirtStat kubeconfig) in
   try! _ := fatal (BuildConfig kubeconfig) in
   try! _ := fatal NewForConfig in
   match actionMap command with
   | None => Ret (Err (ErrMsg ("Unknown command: " +:+ command)%string))
   | Some action =>
       try! names :=
         if opt_all o then
           try! vms := call (VirtList namespace) in
           Ret (Ok (map (λ vm, om_Name (vm_meta vm)) (filter (λ vm, skipped command (Status vm) = false) vms)))
         else
           let! names := eligible_names namespace command (Strings.Split ","%char target) in
           Ret (Ok names) in
       patch_all namespace action names ;;; Ret (Ok tt)
   end)%go.

(** [main]; [flag.Usage] ends the process. *)
Definition main (args : list string) : vprog (result unit) :=
  match Parse args "default" false with
  | None => Ret (Err (ErrMsg "usage"))
  | Some o =>
      match opt_args o with
      | [] => Ret (Err (ErrMsg "usage"))
      | [command] => if opt_all o then run_command o command "" else Ret (Err (ErrMsg "usage"))
      | command :: target :: _ => run_command o command target
      end
  end.

End Plugin.

(** ** What a command does *)

(** The VMs that were found fit for the command, and those that were patched, in order; whether
    the plugin has a client. *)
Record vworld := mkVWorld { w_eligible : list string; w_patched : list string; w_connected : bool }.

Section Proofs.
Context `{K : K8s}.

(** An API server with any content.  It may be reached only with a client, in the namespace of the
    command; only VMs found fit may be patched, with the command's action. *)
Definition virt_env (namespace command : string) : env virtE vworld :=
  mkEnv
    (λ X e w, match e with
       | VirtPatch ns name a => ns = namespace ∧ actionMap command = Some a ∧ name ∈ w_eligible w ∧ w_connected w = true
       | VirtGet ns _ | VirtList ns => ns = namespace ∧ w_connected w = true
       | _ => True end)
    (λ X e w x w', match e in virtE X return X → Prop with
       | VirtList _ => λ r, w' = match r with
           | Ok l => mkVWorld (map (λ vm, om_Name (vm_meta vm)) (filter (λ vm, skipped command (Status vm) = false) l)) (w_patched w) (w_connected w)
           | Err _ => w end
       | VirtGet _ name => λ r, w' = match r with
           | Ok vm => if skipped command (Status vm) then w else mkVWorld (w_eligible w ++ [name]) (w_patched w) (w_connected w)
           | Err _ => w end
       | VirtPatch _ name _ => λ _, w' = mkVWorld (w_eligible w) (w_patched w ++ [name]) (w_connected w)
       | NewForConfig => λ r, w' = match r with None => mkVWorld (w_eligible w) (w_patched w) true | Some _ => w end
       | _ => λ _, w' = w end x) False.

Lemma eligible_names_wp ns command names w :
  w_connected w = true →
  wp (virt_env ns command) (eligible_names ns command names) w
    (λ l w', w' = mkVWorld (w_eligible w ++ l) (w_patched w) true).
Proof.
  revert w. induction names as [|name names IH]; intros w Hw; cbn [eligible_names].
  { destruct w; simpl in *; subst. by rewrite app_nil_r. }
  split; [done|]. intros [vm|e] w1 ->; [|by apply IH]. cbn [pbind]. apply wp_seq.
  eapply wp_mono; [|apply IH; by destruct (skipped command (Status vm))].
  intros l w2 ->. destruct (skipped command (Status vm)); [done|]. simpl. by rewrite <-app_assoc.
Qed.

Lemma patch_all_wp ns command action names w :
  actionMap command = Some action → names ⊆ w_eligible w → w_connected w = true →
  wp (virt_env ns command) (patch_all ns action names) w (λ _ w', w' = mkVWorld (w_eligible w) (w_patched w ++ names) true).
Proof.
  intros Ha. revert w. induction names as [|name names IH]; intros w Hn Hw; cbn [patch_all].
  { destruct w; simpl in *; subst. by rewrite app_nil_r. }
  split; [split_and!; [done..|apply Hn; left|done]|]. intros x w1 ->. cbn [pbind].
  eapply wp_mono; [|apply IH; simpl; [set_solver|done]]. intros [] w2 ->. simpl. by rewrite <-app_assoc.
Qed.

Lemma fatal_wp ns command e w (k : unit → prog virtE (result unit)) Q :
  allowed (virt_env ns command) e w →
  (∀ x w', answers (virt_env ns command) e w x w' → match x with None => wp (virt_env ns command) (k tt) w' Q | Some err => Q (Err err) w' end) →
  wp (virt_env ns command) (tbind (fatal e) k) w Q.
Proof. intros Ha Hx. split; [done|]. intros [err|] w' Hw; cbn [pbind]; [exact (Hx (Some err) w' Hw)|exact (Hx None w' Hw)]. Qed.

Lemma run_command_wp o command target :
  wp (virt_env (opt_namespace o) command) (run_command o command target) (mkVWorld [] [] false)
    (λ r w, r = Ok tt → w_patched w = w_eligible w).
Proof.
  unfold run_command. split; [done|]. intros env w ->. cbn [pbind]. apply wp_seq.
  eapply (wp_mono _ _ _ (λ _ w, w = mkVWorld [] [] false)); [|case_decide; [split; [done|]; by intros home w ->|done]].
  intros kubeconfig w ->.
  do 3 (apply fatal_wp; [done|]; intros [err|] w ->; [done|]). simpl.
  destruct (actionMap command) as [action|] eqn:Ea; [|done].
  eapply (wp_try _ _ _ _ _ (λ r w, ∀ names, r = Ok names → w = mkVWorld names [] true)); [| |done].
  - destruct (opt_all o).
    + apply wp_seq. split; [done|]. intros [vms|e] w ->; [|done]. by intros names [= <-].
    + apply wp_seq. eapply wp_mono; [|by apply eligible_names_wp]. intros l w -> names [= <-]. done.
  - intros names w Hw. rewrite (Hw names eq_refl). apply wp_seq. eapply wp_mono; [|by apply patch_all_wp]. by intros [] w2 ->.
Qed.

Lemma main_wp args o :
  Parse args "default" false = Some o →
  wp (virt_env (opt_namespace o) (default "" (head (opt_args o)))) (main args) (mkVWorld [] [] false)
    (λ r w, r = Ok tt → w_patched w = w_eligible w).
Proof.
  intros Ho. unfold main. rewrite Ho.
  destruct (opt_args o) as [|command [|target rest]]; [done| |apply run_command_wp].
  destruct (opt_all o); [apply run_command_wp|done].
Qed.


(** Options after the command are not read: the help text shows them there. *)
Lemma options_after_command_ignored command rest :
  classify command = Positional → Parse (command :: rest) "default" false = Some (mkOptions "default" false (command :: rest)).
Proof. intros Hc. cbn [Parse]. by rewrite Hc. Qed.

(** A daemon that has carried out a power action, whatever the hypervisor answered. *)
Definition any_node : env nodeE unit := mkEnv (λ _ _ _, True) (λ _ _ _ _ _, True) False.

(** An API server that serves VMs with the status [s], and receives no patch. *)
Definition serving (s : VirtualMachineStatus) : env virtE unit :=
  mkEnv (λ X e _, match e with VirtPatch _ _ _ => False | _ => True end)
    (λ X e _ x _, match e in virtE X return X → Prop with
       | VirtList _ => λ r, ∀ l vm, r = Ok l → vm ∈ l → Status vm = s
       | VirtGet _ _ => λ r, ∀ vm, r = Ok vm → Status vm = s
       | _ => λ _, True end x) False.

Lemma resume_not_patched s o target :
  PowerAction s ≠ VirtualMachinePause → wp (serving s) (run_command o "resume" target) tt (λ _ _, True).
Proof.
  intros Hs. assert (Hsk : skipped "resume" s = true) by (unfold skipped; simpl; by rewrite bool_decide_eq_false_2).
  assert (Hn : ∀ ns names w, wp (serving s) (eligible_names ns "resume" names) w (λ l _, l = [])).
  { intros ns names. induction names as [|n names IH]; intros w; [done|]. cbn [eligible_names]. split; [done|].
    intros [vm|e] w1 Hr; [|apply IH]. cbn [pbind]. apply wp_seq. eapply wp_mono; [|apply IH]. intros l w2 ->.
    by rewrite (Hr vm eq_refl), Hsk. }
  unfold run_command. split; [done|]. intros env w _. cbn [pbind]. apply wp_seq.
  eapply (wp_mono _ _ _ (λ _ _, True)); [|by case_decide]. intros kubeconfig w1 _.
  do 3 (eapply (wp_try _ _ _ _ _ (λ _ _, True)); [by split|intros _ ? _|done]). simpl.
  eapply (wp_try _ _ _ _ _ (λ r _, ∀ names, r = Ok names → names = [])); [| |done].
  - destruct (opt_all o).
    + apply wp_seq. split; [done|]. intros [vms|e] w2 Hr; [|done]. intros names [= <-].
      assert (E : filter (λ vm, skipped "resume" (Status vm) = false) vms = []); [|by rewrite E].
      destruct (filter _ vms) as [|vm l] eqn:E; [done|]. assert (Hin : vm ∈ filter (λ vm, skipped "resume" (Status vm) = false) vms)
        by (rewrite E; left). apply list_elem_of_filter in Hin as [Hf Hin]. rewrite (Hr vms vm eq_refl Hin), Hsk in Hf. done.
    + apply wp_seq. eapply wp_mono; [|apply Hn]. by intros l w2 -> names [= <-].
  - intros names w2 Hnm. by rewrite (Hnm names eq_refl).
Qed.

(** A paused VM cannot be resumed with the plugin: the daemon clears the power action of
    the VM when it carries it out, and [kubectl virt resume] passes over every VM whose status
    does not ask for a pause, so that it sends no patch for any VM the daemon left behind. *)
Theorem resume_after_pause_lost vm o target :
  wp any_node (power_action vm) tt (λ res _,
    wp (serving (Status res.1)) (run_command o "resume" target) tt (λ _ _, True)).
Proof.
  assert (Hr : ∀ w : unit, wp (serving (Status (upd_Status (set_PowerAction VirtualMachinePowerActionUnset) vm)))
    (run_command o "resume" target) tt (λ _ _, True)).
  { intros _. apply resume_not_patched. by destruct vm as [? ? []]. }
  unfold power_action. destruct (power_request _) as [[[req done_] failed]|]; [|by apply Hr].
  apply wp_seq. split; [done|]. intros [e|] w _; (split; [done|]); intros x w2 _; apply (Hr w2).
Qed.

End Proofs.

(** The documented [kubectl virt start --all -n my-namespace] asks for the VM named [--all]. *)
Example documented_all :
  Parse ["start"; "--all"; "-n"; "my-namespace"] "default" false =
    Some (mkOptions "default" false ["start"; "--all"; "-n"; "my-namespace"]) ∧
  Parse ["--all"; "-n"; "my-namespace"; "start"] "default" false = Some (mkOptions "my-namespace" true ["start"]).
Proof. done. Qed.
