(* ===== verification/Clientset.v ===== *)
(** * The generated clientset (pkg/generated/clientset/versioned)

    The typed clients of the three resources, the clientset that holds them and the fake clientset
    for tests.  client-go is reached by calls: a client builds a request of package [rest] and has it
    done; a fake client builds an action of package [testing] and has it invoked.  The kind of the
    object that an answer is decoded into is part of the call. *)

From stdpp Require Import base gmap strings list.
From Stdlib Require Import ZArith QArith Lia.
From S2P Require Import Prelude GoStd K8s ApiTypes Kube VmValidate KubectlVirt.
Open Scope Z_scope.

(** ** Options of [metav1] *)

Record GetOptions := mkGetOptions { go_ResourceVersion : string }.
Record ListOptions := mkListOptions {
  lo_LabelSelector : string;
  lo_FieldSelector : string;
  lo_Watch : bool;
  lo_AllowWatchBookmarks : bool;
  lo_ResourceVersion : string;
  lo_TimeoutSeconds : option Z;
  lo_Limit : Z;
  lo_Continue : string
}.
Record CreateOptions := mkCreateOptions { co_DryRun : list string; co_FieldManager : string; co_FieldValidation : string }.
Record UpdateOptions := mkUpdateOptions { uo_DryRun : list string; uo_FieldManager : string; uo_FieldValidation : string }.
Record PatchOptions := mkPatchOptions {
  po_DryRun : list string; po_Force : option bool; po_FieldManager : string; po_FieldValidation : string }.
Record DeleteOptions := mkDeleteOptions {
  do_GracePeriodSeconds : option Z; do_PropagationPolicy : option string; do_DryRun : list string }.

(** [opts.Watch = true]. *)
Definition set_Watch (o : ListOptions) : ListOptions :=
  mkListOptions (lo_LabelSelector o) (lo_FieldSelector o) true (lo_AllowWatchBookmarks o) (lo_ResourceVersion o)
    (lo_TimeoutSeconds o) (lo_Limit o) (lo_Continue o).

(** The timeout in seconds as a [time.Duration], in nanoseconds; 0 without a timeout. *)
Definition timeout_of (o : ListOptions) : Z :=
  match lo_TimeoutSeconds o with Some s => i64 (s * 10 ^ 9) | None => 0 end.

(** ** Requests and actions *)

Section Types.
Context `{K8s}.

(** What an answer is decoded into. *)
Inductive kind : Type → Type :=
| KVirtualMachine : kind VirtualMachine
| KVirtualMachineMigration : kind VirtualMachineMigration
| KVirtualMachineReplicaSet : kind VirtualMachineReplicaSet
| KVirtualMachineList : kind (list VirtualMachine)
| KVirtualMachineMigrationList : kind (list VirtualMachineMigration)
| KVirtualMachineReplicaSetList : kind (list VirtualMachineReplicaSet)
(** only the error is looked at *)
| KError : kind unit.

Inductive object :=
| OVirtualMachine (vm : VirtualMachine)
| OVirtualMachineMigration (vmm : VirtualMachineMigration)
| OVirtualMachineReplicaSet (vmrs : VirtualMachineReplicaSet).

Inductive params :=
| NoParams
| GetParams (o : GetOptions)
| ListParams (o : ListOptions)
| CreateParams (o : CreateOptions)
| UpdateParams (o : UpdateOptions)
| PatchParams (o : PatchOptions).

Inductive body :=
| NoBody
| ObjectBody (o : object)
| DataBody (data : string)
| DeleteBody (o : DeleteOptions).

Inductive verb := GET | POST | PUT | DELETE | PATCH (pt : string).

(** A [rest.RESTClient]: where its requests go. *)
Record RESTClient := mkRESTClient { rc_APIPath : string; rc_Group : string; rc_Version : string }.

(** A [rest.Request] when it is sent. *)
Record Request := mkRequest {
  rq_client : RESTClient;
  rq_verb : verb;
  rq_namespace : string;
  rq_resource : string;
  rq_name : option string;
  rq_subresources : list string;
  rq_params : params;
  rq_timeout : option Z;
  rq_body : body
}.
Definition NewRequest (c : RESTClient) (v : verb) : Request := mkRequest c v "" "" None [] NoParams None NoBody.
Definition Namespace (ns : string) (r : Request) : Request :=
  mkRequest (rq_client r) (rq_verb r) ns (rq_resource r) (rq_name r) (rq_subresources r) (rq_params r) (rq_timeout r) (rq_body r).
Definition Resource (x : string) (r : Request) : Request :=
  mkRequest (rq_client r) (rq_verb r) (rq_namespace r) x (rq_name r) (rq_subresources r) (rq_params r) (rq_timeout r) (rq_body r).
Definition Name (n : string) (r : Request) : Request :=
  mkRequest (rq_client r) (rq_verb r) (rq_namespace r) (rq_resource r) (Some n) (rq_subresources r) (rq_params r) (rq_timeout r) (rq_body r).
Definition SubResource (l : list string) (r : Request) : Request :=
  mkRequest (rq_client r) (rq_verb r) (rq_namespace r) (rq_resource r) (rq_name r) l (rq_params r) (rq_timeout r) (rq_body r).
Definition VersionedParams (p : params) (r : Request) : Request :=
  mkRequest (rq_client r) (rq_verb r) (rq_namespace r) (rq_resource r) (rq_name r) (rq_subresources r) p (rq_timeout r) (rq_body r).
Definition Timeout (t : Z) (r : Request) : Request :=
  mkRequest (rq_client r) (rq_verb r) (rq_namespace r) (rq_resource r) (rq_name r) (rq_subresources r) (rq_params r) (Some t) (rq_body r).
Definition Body (b : body) (r : Request) : Request :=
  mkRequest (rq_client r) (rq_verb r) (rq_namespace r) (rq_resource r) (rq_name r) (rq_subresources r) (rq_params r) (rq_timeout r) b.

(** A [testing.Action]. *)
Record GroupVersionResource := mkGVR { gvr_Group : string; gvr_Version : string; gvr_Resource : string }.
#[export] Instance GroupVersionResource_eq_dec : EqDecision GroupVersionResource.
Proof. solve_decision. Defined.
Inductive Action :=
| GetAction (r : GroupVersionResource) (ns name : string)
| ListAction (r : GroupVersionResource) (kind ns : string) (o : ListOptions)
| WatchAction (r : GroupVersionResource) (ns : string) (o : ListOptions)
| CreateAction (r : GroupVersionResource) (ns : string) (o : object)
| UpdateAction (r : GroupVersionResource) (subresource : option string) (ns : string) (o : object)
| DeleteAction (r : GroupVersionResource) (ns name : string) (o : DeleteOptions)
| DeleteCollectionAction (r : GroupVersionResource) (ns : string) (o : ListOptions)
| PatchAction (r : GroupVersionResource) (ns name pt data : string) (subresources : list string).

(** A [rest.Config], as far as the clientset reads and sets it; a rate limiter has its rate and burst. *)
Record Config := mkConfig {
  cf_UserAgent : string;
  cf_RateLimiter : option (Q * Z);
  cf_QPS : Q;
  cf_Burst : Z;
  cf_GroupVersion : option (string * string);
  cf_APIPath : string
}.

Inductive watcher := Watcher (id : Z).

Inductive restE : Type → Type :=
| DefaultUserAgent : restE string
(** [rest.HTTPClientFor]; the HTTP client is the transport for a config *)
| HTTPClientFor (c : Config) : restE (result Config)
| RESTClientForConfigAndClient (c h : Config) : restE (result RESTClient)
| NewDiscoveryClientForConfigAndClient (c h : Config) : restE (option goerror)
(** [Do] and [Into], or [Error] *)
| Do {A} (into : kind A) (r : Request) : restE (result A)
| DoWatch (r : Request) : restE (result watcher).

Inductive fakeE : Type → Type :=
(** [Invokes]: an object that may be nil, and an error *)
| Invokes {A} (into : kind A) (a : Action) : fakeE (option A * option goerror)
| InvokesWatch (a : Action) : fakeE (option watcher * option goerror).
End Types.

Abbreviation rprog := (prog restE).
Abbreviation fprog := (prog fakeE).

(** A request that is built from left to right. *)
Notation "r |> f" := (f r) (at level 40, left associativity, only parsing) : go_scope.

(** ** The clients of the group *)

Section Clients.
Context `{K8s}.

Record typedClient := mkTyped { tc_client : RESTClient; tc_ns : string }.

(** The selector of list options that a fake client filters with ([testing.ExtractFromListOptions]). *)
Variable ExtractLabel : ListOptions → option (gmap string string → bool).
(** *** pkg/generated/clientset/versioned/typed/virt/v1alpha1/virtualmachine.go *)

Definition newVirtualMachines (c : RESTClient) (namespace : string) : typedClient := mkTyped c namespace.

Definition virtualMachines_Get (c : typedClient) (name : string) (options : GetOptions) : rprog (result VirtualMachine) :=
  call (Do KVirtualMachine (NewRequest (tc_client c) GET |> Namespace (tc_ns c) |> Resource "virtualmachines" |> Name name |> VersionedParams (GetParams options)))%go.

Definition virtualMachines_List (c : typedClient) (opts : ListOptions) : rprog (result (list VirtualMachine)) :=
  call (Do KVirtualMachineList (NewRequest (tc_client c) GET |> Namespace (tc_ns c) |> Resource "virtualmachines" |> VersionedParams (ListParams opts) |> Timeout (timeout_of opts)))%go.

Definition virtualMachines_Watch (c : typedClient) (opts : ListOptions) : rprog (result watcher) :=
  (let timeout := timeout_of opts in
   let opts := set_Watch opts in
   call (DoWatch (NewRequest (tc_client c) GET |> Namespace (tc_ns c) |> Resource "virtualmachines" |> VersionedParams (ListParams opts) |> Timeout timeout)))%go.

Definition virtualMachines_Create (c : typedClient) (vm : VirtualMachine) (opts : CreateOptions) : rprog (result VirtualMachine) :=
  call (Do KVirtualMachine (NewRequest (tc_client c) POST |> Namespace (tc_ns c) |> Resource "virtualmachines" |> VersionedParams (CreateParams opts) |> Body (ObjectBody (OVirtualMachine vm))))%go.

Definition virtualMachines_Update (c : typedClient) (vm : VirtualMachine) (opts : UpdateOptions) : rprog (result VirtualMachine) :=
  call (Do KVirtualMachine (NewRequest (tc_client c) PUT |> Namespace (tc_ns c) |> Resource "virtualmachines" |> Name (om_Name (vm_meta vm)) |> VersionedParams (UpdateParams opts)
    |> Body (ObjectBody (OVirtualMachine vm))))%go.

Definition virtualMachines_UpdateStatus (c : typedClient) (vm : VirtualMachine) (opts : UpdateOptions) : rprog (result VirtualMachine) :=
  call (Do KVirtualMachine (NewRequest (tc_client c) PUT |> Namespace (tc_ns c) |> Resource "virtualmachines" |> Name (om_Name (vm_meta vm)) |> SubResource ["status"]
    |> VersionedParams (UpdateParams opts) |> Body (ObjectBody (OVirtualMachine vm))))%go.

Definition virtualMachines_Delete (c : typedClient) (name : string) (opts : DeleteOptions) : rprog (result unit) :=
  call (Do KError (NewRequest (tc_client c) DELETE |> Namespace (tc_ns c) |> Resource "virtualmachines" |> Name name |> Body (DeleteBody opts)))%go.

Definition virtualMachines_DeleteCollection (c : typedClient) (opts : DeleteOptions) (listOpts : ListOptions) : rprog (result unit) :=
  call (Do KError (NewRequest (tc_client c) DELETE |> Namespace (tc_ns c) |> Resource "virtualmachines" |> VersionedParams (ListParams listOpts)
    |> Timeout (timeout_of listOpts) |> Body (DeleteBody opts)))%go.

Definition virtualMachines_Patch (c : typedClient) (name pt data : string) (opts : PatchOptions) (subresources : list string) : rprog (result VirtualMachine) :=
  call (Do KVirtualMachine (NewRequest (tc_client c) (PATCH pt) |> Namespace (tc_ns c) |> Resource "virtualmachines" |> Name name |> SubResource subresources
    |> VersionedParams (PatchParams opts) |> Body (DataBody data)))%go.

(** *** pkg/generated/clientset/versioned/typed/virt/v1alpha1/fake/fake_virtualmachine.go *)

Definition virtualmachinesResource : GroupVersionResource := mkGVR "virt.virtink.smartx.com" "v1alpha1" "virtualmachines".

Definition virtualmachinesKind : string := "VirtualMachine".

Definition FakeVirtualMachines_Get (ns : string) (name : string) (options : GetOptions) : fprog (option VirtualMachine * option goerror) :=
  (let! (obj, err) := call (Invokes KVirtualMachine (GetAction virtualmachinesResource ns name)) in
   match obj with None => Ret (None, err) | Some o => Ret (Some o, err) end)%go.

Definition FakeVirtualMachines_List (ns : string) (opts : ListOptions) : fprog (option (list VirtualMachine) * option goerror) :=
  (let! (obj, err) := call (Invokes KVirtualMachineList (ListAction virtualmachinesResource virtualmachinesKind ns opts)) in
   match obj with
   | None => Ret (None, err)
   | Some items =>
       let label := default (λ _, true) (ExtractLabel opts) in
       Ret (Some (List.filter (λ item, label (default ∅ (om_Labels (vm_meta item)))) items), err)
   end)%go.

Definition FakeVirtualMachines_Watch (ns : string) (opts : ListOptions) : fprog (option watcher * option goerror) :=
  call (InvokesWatch (WatchAction virtualmachinesResource ns opts)).

Definition FakeVirtualMachines_Create (ns : string) (vm : VirtualMachine) (opts : CreateOptions) : fprog (option VirtualMachine * option goerror) :=
  (let! (obj, err) := call (Invokes KVirtualMachine (CreateAction virtualmachinesResource ns (OVirtualMachine vm))) in
   match obj with None => Ret (None, err) | Some o => Ret (Some o, err) end)%go.

Definition FakeVirtualMachines_Update (ns : string) (vm : VirtualMachine) (opts : UpdateOptions) : fprog (option VirtualMachine * option goerror) :=
  (let! (obj, err) := call (Invokes KVirtualMachine (UpdateAction virtualmachinesResource None ns (OVirtualMachine vm))) in
   match obj with None => Ret (None, err) | Some o => Ret (Some o, err) end)%go.

Definition FakeVirtualMachines_UpdateStatus (ns : string) (vm : VirtualMachine) (opts : UpdateOptions) : fprog (option VirtualMachine * option goerror) :=
  (let! (obj, err) := call (Invokes KVirtualMachine (UpdateAction virtualmachinesResource (Some "status") ns (OVirtualMachine vm))) in
   match obj with None => Ret (None, err) | Some o => Ret (Some o, err) end)%go.

Definition FakeVirtualMachines_Delete (ns : string) (name : string) (opts : DeleteOptions) : fprog (option goerror) :=
  (let! (_, err) := call (Invokes KVirtualMachine (DeleteAction virtualmachinesResource ns name opts)) in Ret err)%go.

Definition FakeVirtualMachines_DeleteCollection (ns : string) (opts : DeleteOptions) (listOpts : ListOptions) : fprog (option goerror) :=
  (let! (_, err) := call (Invokes KVirtualMachineList (DeleteCollectionAction virtualmachinesResource ns listOpts)) in Ret err)%go.

Definition FakeVirtualMachines_Patch (ns : string) (name pt data : string) (opts : PatchOptions) (subresources : list string) : fprog (option VirtualMachine * option goerror) :=
  (let! (obj, err) := call (Invokes KVirtualMachine (PatchAction virtualmachinesResource ns name pt data subresources)) in
   match obj with None => Ret (None, err) | Some o => Ret (Some o, err) end)%go.

(** *** pkg/generated/clientset/versioned/typed/virt/v1alpha1/virtualmachinemigration.go *)

Definition newVirtualMachineMigrations (c : RESTClient) (namespace : string) : typedClient := mkTyped c namespace.

Definition virtualMachineMigrations_Get (c : typedClient) (name : string) (options : GetOptions) : rprog (result VirtualMachineMigration) :=
  call (Do KVirtualMachineMigration (NewRequest (tc_client c) GET |> Namespace (tc_ns c) |> Resource "virtualmachinemigrations" |> Name name |> VersionedParams (GetParams options)))%go.

Definition virtualMachineMigrations_List (c : typedClient) (opts : ListOptions) : rprog (result (list VirtualMachineMigration)) :=
  call (Do KVirtualMachineMigrationList (NewRequest (tc_client c) GET |> Namespace (tc_ns c) |> Resource "virtualmachinemigrations" |> VersionedParams (ListParams opts) |> Timeout (timeout_of opts)))%go.

Definition virtualMachineMigrations_Watch (c : typedClient) (opts : ListOptions) : rprog (result watcher) :=
  (let timeout := timeout_of opts in
   let opts := set_Watch opts in
   call (DoWatch (NewRequest (tc_client c) GET |> Namespace (tc_ns c) |> Resource "virtualmachinemigrations" |> VersionedParams (ListParams opts) |> Timeout timeout)))%go.

Definition virtualMachineMigrations_Create (c : typedClient) (vmm : VirtualMachineMigration) (opts : CreateOptions) : rprog (result VirtualMachineMigration) :=
  call (Do KVirtualMachineMigration (NewRequest (tc_client c) POST |> Namespace (tc_ns c) |> Resource "virtualmachinemigrations" |> VersionedParams (CreateParams opts) |> Body (ObjectBody (OVirtualMachineMigration vmm))))%go.

Definition virtualMachineMigrations_Update (c : typedClient) (vmm : VirtualMachineMigration) (opts : UpdateOptions) : rprog (result VirtualMachineMigration) :=
  call (Do KVirtualMachineMigration (NewRequest (tc_client c) PUT |> Namespace (tc_ns c) |> Resource "virtualmachinemigrations" |> Name (om_Name (vmm_meta vmm)) |> VersionedParams (UpdateParams opts)
    |> Body (ObjectBody (OVirtualMachineMigration vmm))))%go.

Definition virtualMachineMigrations_UpdateStatus (c : typedClient) (vmm : VirtualMachineMigration) (opts : UpdateOptions) : rprog (result VirtualMachineMigration) :=
  call (Do KVirtualMachineMigration (NewRequest (tc_client c) PUT |> Namespace (tc_ns c) |> Resource "virtualmachinemigrations" |> Name (om_Name (vmm_meta vmm)) |> SubResource ["status"]
    |> VersionedParams (UpdateParams opts) |> Body (ObjectBody (OVirtualMachineMigration vmm))))%go.

Definition virtualMachineMigrations_Delete (c : typedClient) (name : string) (opts : DeleteOptions) : rprog (result unit) :=
  call (Do KError (NewRequest (tc_client c) DELETE |> Namespace (tc_ns c) |> Resource "virtualmachinemigrations" |> Name name |> Body (DeleteBody opts)))%go.

Definition virtualMachineMigrations_DeleteCollection (c : typedClient) (opts : DeleteOptions) (listOpts : ListOptions) : rprog (result unit) :=
  call (Do KError (NewRequest (tc_client c) DELETE |> Namespace (tc_ns c) |> Resource "virtualmachinemigrations" |> VersionedParams (ListParams listOpts)
    |> Timeout (timeout_of listOpts) |> Body (DeleteBody opts)))%go.

Definition virtualMachineMigrations_Patch (c : typedClient) (name pt data : string) (opts : PatchOptions) (subresources : list string) : rprog (result VirtualMachineMigration) :=
  call (Do KVirtualMachineMigration (NewRequest (tc_client c) (PATCH pt) |> Namespace (tc_ns c) |> Resource "virtualmachinemigrations" |> Name name |> SubResource subresources
    |> VersionedParams (PatchParams opts) |> Body (DataBody data)))%go.

(** *** pkg/generated/clientset/versioned/typed/virt/v1alpha1/fake/fake_virtualmachinemigration.go *)

Definition virtualmachinemigrationsResource : GroupVersionResource := mkGVR "virt.virtink.smartx.com" "v1alpha1" "virtualmachinemigrations".

Definition virtualmachinemigrationsKind : string := "VirtualMachineMigration".

Definition FakeVirtualMachineMigrations_Get (ns : string) (name : string) (options : GetOptions) : fprog (option VirtualMachineMigration * option goerror) :=
  (let! (obj, err) := call (Invokes KVirtualMachineMigration (GetAction virtualmachinemigrationsResource ns name)) in
   match obj with None => Ret (None, err) | Some o => Ret (Some o, err) end)%go.

Definition FakeVirtualMachineMigrations_List (ns : string) (opts : ListOptions) : fprog (option (list VirtualMachineMigration) * option goerror) :=
  (let! (obj, err) := call (Invokes KVirtualMachineMigrationList (ListAction virtualmachinemigrationsResource virtualmachinemigrationsKind ns opts)) in
   match obj with
   | None => Ret (None, err)
   | Some items =>
       let label := default (λ _, true) (ExtractLabel opts) in
       Ret (Some (List.filter (λ item, label (default ∅ (om_Labels (vmm_meta item)))) items), err)
   end)%go.

Definition FakeVirtualMachineMigrations_Watch (ns : string) (opts : ListOptions) : fprog (option watcher * option goerror) :=
  call (InvokesWatch (WatchAction virtualmachinemigrationsResource ns opts)).

Definition FakeVirtualMachineMigrations_Create (ns : string) (vmm : VirtualMachineMigration) (opts : CreateOptions) : fprog (option VirtualMachineMigration * option goerror) :=
  (let! (obj, err) := call (Invokes KVirtualMachineMigration (CreateAction virtualmachinemigrationsResource ns (OVirtualMachineMigration vmm))) in
   match obj with None => Ret (None, err) | Some o => Ret (Some o, err) end)%go.

Definition FakeVirtualMachineMigrations_Update (ns : string) (vmm : VirtualMachineMigration) (opts : UpdateOptions) : fprog (option VirtualMachineMigration * option goerror) :=
  (let! (obj, err) := call (Invokes KVirtualMachineMigration (UpdateAction virtualmachinemigrationsResource None ns (OVirtualMachineMigration vmm))) in
   match obj with None => Ret (None, err) | Some o => Ret (Some o, err) end)%go.

Definition FakeVirtualMachineMigrations_UpdateStatus (ns : string) (vmm : VirtualMachineMigration) (opts : UpdateOptions) : fprog (option VirtualMachineMigration * option goerror) :=
  (let! (obj, err) := call (Invokes KVirtualMachineMigration (UpdateAction virtualmachinemigrationsResource (Some "status") ns (OVirtualMachineMigration vmm))) in
   match obj with None => Ret (None, err) | Some o => Ret (Some o, err) end)%go.

Definition FakeVirtualMachineMigrations_Delete (ns : string) (name : string) (opts : DeleteOptions) : fprog (option goerror) :=
  (let! (_, err) := call (Invokes KVirtualMachineMigration (DeleteAction virtualmachinemigrationsResource ns name opts)) in Ret err)%go.

Definition FakeVirtualMachineMigrations_DeleteCollection (ns : string) (opts : DeleteOptions) (listOpts : ListOptions) : fprog (option goerror) :=
  (let! (_, err) := call (Invokes KVirtualMachineMigrationList (DeleteCollectionAction virtualmachinemigrationsResource ns listOpts)) in Ret err)%go.

Definition FakeVirtualMachineMigrations_Patch (ns : string) (name pt data : string) (opts : PatchOptions) (subresources : list string) : fprog (option VirtualMachineMigration * option goerror) :=
  (let! (obj, err) := call (Invokes KVirtualMachineMigration (PatchAction virtualmachinemigrationsResource ns name pt data subresources)) in
   match obj with None => Ret (None, err) | Some o => Ret (Some o, err) end)%go.

(** *** pkg/generated/clientset/versioned/typed/virt/v1alpha1/virtualmachinereplicaset.go *)

Definition newVirtualMachineReplicaSets (c : RESTClient) (namespace : string) : typedClient := mkTyped c namespace.

Definition virtualMachineReplicaSets_Get (c : typedClient) (name : string) (options : GetOptions) : rprog (result VirtualMachineReplicaSet) :=
  call (Do KVirtualMachineReplicaSet (NewRequest (tc_client c) GET |> Namespace (tc_ns c) |> Resource "virtualmachinereplicasets" |> Name name |> VersionedParams (GetParams options)))%go.

Definition virtualMachineReplicaSets_List (c : typedClient) (opts : ListOptions) : rprog (result (list VirtualMachineReplicaSet)) :=
  call (Do KVirtualMachineReplicaSetList (NewRequest (tc_client c) GET |> Namespace (tc_ns c) |> Resource "virtualmachinereplicasets" |> VersionedParams (ListParams opts) |> Timeout (timeout_of opts)))%go.

Definition virtualMachineReplicaSets_Watch (c : typedClient) (opts : ListOptions) : rprog (result watcher) :=
  (let timeout := timeout_of opts in
   let opts := set_Watch opts in
   call (DoWatch (NewRequest (tc_client c) GET |> Namespace (tc_ns c) |> Resource "virtualmachinereplicasets" |> VersionedParams (ListParams opts) |> Timeout timeout)))%go.

Definition virtualMachineReplicaSets_Create (c : typedClient) (vmrs : VirtualMachineReplicaSet) (opts : CreateOptions) : rprog (result VirtualMachineReplicaSet) :=
  call (Do KVirtualMachineReplicaSet (NewRequest (tc_client c) POST |> Namespace (tc_ns c) |> Resource "virtualmachinereplicasets" |> VersionedParams (CreateParams opts) |> Body (ObjectBody (OVirtualMachineReplicaSet vmrs))))%go.

Definition virtualMachineReplicaSets_Update (c : typedClient) (vmrs : VirtualMachineReplicaSet) (opts : UpdateOptions) : rprog (result VirtualMachineReplicaSet) :=
  call (Do KVirtualMachineReplicaSet (NewRequest (tc_client c) PUT |> Namespace (tc_ns c) |> Resource "virtualmachinereplicasets" |> Name (om_Name (vmrs_meta vmrs)) |> VersionedParams (UpdateParams opts)
    |> Body (ObjectBody (OVirtualMachineReplicaSet vmrs))))%go.

Definition virtualMachineReplicaSets_UpdateStatus (c : typedClient) (vmrs : VirtualMachineReplicaSet) (opts : UpdateOptions) : rprog (result VirtualMachineReplicaSet) :=
  call (Do KVirtualMachineReplicaSet (NewRequest (tc_client c) PUT |> Namespace (tc_ns c) |> Resource "virtualmachinereplicasets" |> Name (om_Name (vmrs_meta vmrs)) |> SubResource ["status"]
    |> VersionedParams (UpdateParams opts) |> Body (ObjectBody (OVirtualMachineReplicaSet vmrs))))%go.

Definition virtualMachineReplicaSets_Delete (c : typedClient) (name : string) (opts : DeleteOptions) : rprog (result unit) :=
  call (Do KError (NewRequest (tc_client c) DELETE |> Namespace (tc_ns c) |> Resource "virtualmachinereplicasets" |> Name name |> Body (DeleteBody opts)))%go.

Definition virtualMachineReplicaSets_DeleteCollection (c : typedClient) (opts : DeleteOptions) (listOpts : ListOptions) : rprog (result unit) :=
  call (Do KError (NewRequest (tc_client c) DELETE |> Namespace (tc_ns c) |> Resource "virtualmachinereplicasets" |> VersionedParams (ListParams listOpts)
    |> Timeout (timeout_of listOpts) |> Body (DeleteBody opts)))%go.

Definition virtualMachineReplicaSets_Patch (c : typedClient) (name pt data : string) (opts : PatchOptions) (subresources : list string) : rprog (result VirtualMachineReplicaSet) :=
  call (Do KVirtualMachineReplicaSet (NewRequest (tc_client c) (PATCH pt) |> Namespace (tc_ns c) |> Resource "virtualmachinereplicasets" |> Name name |> SubResource subresources
    |> VersionedParams (PatchParams opts) |> Body (DataBody data)))%go.

(** *** pkg/generated/clientset/versioned/typed/virt/v1alpha1/fake/fake_virtualmachinereplicaset.go *)

Definition virtualmachinereplicasetsResource : GroupVersionResource := mkGVR "virt.virtink.smartx.com" "v1alpha1" "virtualmachinereplicasets".

Definition virtualmachinereplicasetsKind : string := "VirtualMachineReplicaSet".

Definition FakeVirtualMachineReplicaSets_Get (ns : string) (name : string) (options : GetOptions) : fprog (option VirtualMachineReplicaSet * option goerror) :=
  (let! (obj, err) := call (Invokes KVirtualMachineReplicaSet (GetAction virtualmachinereplicasetsResource ns name)) in
   match obj with None => Ret (None, err) | Some o => Ret (Some o, err) end)%go.

Definition FakeVirtualMachineReplicaSets_List (ns : string) (opts : ListOptions) : fprog (option (list VirtualMachineReplicaSet) * option goerror) :=
  (let! (obj, err) := call (Invokes KVirtualMachineReplicaSetList (ListAction virtualmachinereplicasetsResource virtualmachinereplicasetsKind ns opts)) in
   match obj with
   | None => Ret (None, err)
   | Some items =>
       let label := default (λ _, true) (ExtractLabel opts) in
       Ret (Some (List.filter (λ item, label (default ∅ (om_Labels (vmrs_meta item)))) items), err)
   end)%go.

Definition FakeVirtualMachineReplicaSets_Watch (ns : string) (opts : ListOptions) : fprog (option watcher * option goerror) :=
  call (InvokesWatch (WatchAction virtualmachinereplicasetsResource ns opts)).

Definition FakeVirtualMachineReplicaSets_Create (ns : string) (vmrs : VirtualMachineReplicaSet) (opts : CreateOptions) : fprog (option VirtualMachineReplicaSet * option goerror) :=
  (let! (obj, err) := call (Invokes KVirtualMachineReplicaSet (CreateAction virtualmachinereplicasetsResource ns (OVirtualMachineReplicaSet vmrs))) in
   match obj with None => Ret (None, err) | Some o => Ret (Some o, err) end)%go.

Definition FakeVirtualMachineReplicaSets_Update (ns : string) (vmrs : VirtualMachineReplicaSet) (opts : UpdateOptions) : fprog (option VirtualMachineReplicaSet * option goerror) :=
  (let! (obj, err) := call (Invokes KVirtualMachineReplicaSet (UpdateAction virtualmachinereplicasetsResource None ns (OVirtualMachineReplicaSet vmrs))) in
   match obj with None => Ret (None, err) | Some o => Ret (Some o, err) end)%go.

Definition FakeVirtualMachineReplicaSets_UpdateStatus (ns : string) (vmrs : VirtualMachineReplicaSet) (opts : UpdateOptions) : fprog (option VirtualMachineReplicaSet * option goerror) :=
  (let! (obj, err) := call (Invokes KVirtualMachineReplicaSet (UpdateAction virtualmachinereplicasetsResource (Some "status") ns (OVirtualMachineReplicaSet vmrs))) in
   match obj with None => Ret (None, err) | Some o => Ret (Some o, err) end)%go.

Definition FakeVirtualMachineReplicaSets_Delete (ns : string) (name : string) (opts : DeleteOptions) : fprog (option goerror) :=
  (let! (_, err) := call (Invokes KVirtualMachineReplicaSet (DeleteAction virtualmachinereplicasetsResource ns name opts)) in Ret err)%go.

Definition FakeVirtualMachineReplicaSets_DeleteCollection (ns : string) (opts : DeleteOptions) (listOpts : ListOptions) : fprog (option goerror) :=
  (let! (_, err) := call (Invokes KVirtualMachineReplicaSetList (DeleteCollectionAction virtualmachinereplicasetsResource ns listOpts)) in Ret err)%go.

Definition FakeVirtualMachineReplicaSets_Patch (ns : string) (name pt data : string) (opts : PatchOptions) (subresources : list string) : fprog (option VirtualMachineReplicaSet * option goerror) :=
  (let! (obj, err) := call (Invokes KVirtualMachineReplicaSet (PatchAction virtualmachinereplicasetsResource ns name pt data subresources)) in
   match obj with None => Ret (None, err) | Some o => Ret (Some o, err) end)%go.
(** *** pkg/generated/clientset/versioned/typed/virt/v1alpha1/virt_client.go *)

Definition setConfigDefaults (config : Config) : rprog (result Config) :=
  (let! ua := (if decide (cf_UserAgent config = "") then call DefaultUserAgent else Ret (cf_UserAgent config)) in
   Ret (Ok (mkConfig ua (cf_RateLimiter config) (cf_QPS config) (cf_Burst config)
     (Some ("virt.virtink.smartx.com", "v1alpha1")) "/apis")))%go.

Definition typed_NewForConfigAndClient (c h : Config) : rprog (result RESTClient) :=
  (try! config := setConfigDefaults c in call (RESTClientForConfigAndClient config h))%go.

Definition typed_NewForConfig (c : Config) : rprog (result RESTClient) :=
  (try! config := setConfigDefaults c in
   try! httpClient := call (HTTPClientFor config) in
   typed_NewForConfigAndClient config httpClient)%go.

Definition typed_NewForConfigOrDie (c : Config) : rprog RESTClient :=
  (let! r := typed_NewForConfig c in match r with Ok client => Ret client | Err _ => Crash "config" end)%go.

(** The group's getters, of the client and of the fake one. *)
Definition VirtV1alpha1Client_VirtualMachines (c : RESTClient) (ns : string) : typedClient := newVirtualMachines c ns.
Definition VirtV1alpha1Client_VirtualMachineMigrations (c : RESTClient) (ns : string) : typedClient := newVirtualMachineMigrations c ns.
Definition VirtV1alpha1Client_VirtualMachineReplicaSets (c : RESTClient) (ns : string) : typedClient := newVirtualMachineReplicaSets c ns.

(** *** pkg/generated/clientset/versioned/clientset.go *)

Definition NewForConfigAndClient (c httpClient : Config) : rprog (result RESTClient) :=
  (let limited := match cf_RateLimiter c with
                  | Some _ => Ok c
                  | None =>
                      if Qle_bool (cf_QPS c) 0 then Ok c
                      else if cf_Burst c <=? 0 then
                        Err (ErrMsg "burst is required to be greater than 0 when RateLimiter is not set and QPS is set to greater than 0")
                      else Ok (mkConfig (cf_UserAgent c) (Some (cf_QPS c, cf_Burst c)) (cf_QPS c) (cf_Burst c) (cf_GroupVersion c) (cf_APIPath c))
                  end in
   match limited with
   | Err e => Ret (Err e)
   | Ok config =>
       try! virtV1alpha1 := typed_NewForConfigAndClient config httpClient in
       let! err := call (NewDiscoveryClientForConfigAndClient config httpClient) in
       Ret (match err with Some e => Err e | None => Ok virtV1alpha1 end)
   end)%go.

Definition NewForConfig (c : Config) : rprog (result RESTClient) :=
  (let! ua := (if decide (cf_UserAgent c = "") then call DefaultUserAgent else Ret (cf_UserAgent c)) in
   let config := mkConfig ua (cf_RateLimiter c) (cf_QPS c) (cf_Burst c) (cf_GroupVersion c) (cf_APIPath c) in
   try! httpClient := call (HTTPClientFor config) in
   NewForConfigAndClient config httpClient)%go.

Definition NewForConfigOrDie (c : Config) : rprog RESTClient :=
  (let! r := NewForConfig c in match r with Ok client => Ret client | Err _ => Crash "config" end)%go.
End Clients.

(** ** The plugin on the clientset *)

(** What the plugin's process does when its calls go through the clientset. *)
Section Plugin.
Context `{K8s}.

Inductive pluginE : Type → Type :=
| Outer {X} (e : virtE X) : pluginE X
| LoadConfig (path : string) : pluginE (result Config)
| Rest {X} (e : restE X) : pluginE X.

Fixpoint on_rest {A} (p : rprog A) : prog pluginE A :=
  match p with Ret a => Ret a | Call e k => Call (Rest e) (λ x, on_rest (k x)) | Crash why => Crash why end.

Definition quote : string := String (chr 34) EmptyString.
Definition power_name (a : VirtualMachinePowerAction) : string :=
  match a with
  | VirtualMachinePowerActionUnset => ""
  | VirtualMachinePowerOn => "PowerOn" | VirtualMachinePowerOff => "PowerOff" | VirtualMachineShutdown => "Shutdown"
  | VirtualMachineReset => "Reset" | VirtualMachineReboot => "Reboot" | VirtualMachinePause => "Pause" | VirtualMachineResume => "Resume"
  end.
Definition patchData (a : VirtualMachinePowerAction) : string :=
  "{" +:+ quote +:+ "status" +:+ quote +:+ ":{" +:+ quote +:+ "powerAction" +:+ quote +:+ ":" +:+ quote +:+ power_name a +:+ quote +:+ "}}".

Definition no_list_options : ListOptions := mkListOptions "" "" false false "" None 0 "".
Definition MergePatchType : string := "application/merge-patch+json".

(** The calls of the plugin: [config] is what its kubeconfig holds, [virtClient] the clientset, nil
    until it was made. *)
Fixpoint plugin {A} (config : Config) (virtClient : option RESTClient) (p : prog virtE A) : prog pluginE A :=
  match p with
  | Ret a => Ret a
  | Crash why => Crash why
  | @Call _ _ X e k =>
      match e in virtE X return (X → prog virtE A) → prog pluginE A with
      | BuildConfig path => λ k,
          (let! r := call (LoadConfig path) in
           match r with Ok c => plugin c virtClient (k None) | Err err => plugin config virtClient (k (Some err)) end)%go
      | KubectlVirt.NewForConfig => λ k,
          (let! r := on_rest (NewForConfig config) in
           match r with Ok c => plugin config (Some c) (k None) | Err err => plugin config virtClient (k (Some err)) end)%go
      | VirtList ns => λ k,
          match virtClient with
          | None => Crash "nil clientset"
          | Some c => (let! r := on_rest (virtualMachines_List (newVirtualMachines c ns) no_list_options) in plugin config virtClient (k r))%go
          end
      | VirtGet ns name => λ k,
          match virtClient with
          | None => Crash "nil clientset"
          | Some c => (let! r := on_rest (virtualMachines_Get (newVirtualMachines c ns) name (mkGetOptions "")) in plugin config virtClient (k r))%go
          end
      | VirtPatch ns name a => λ k,
          match virtClient with
          | None => Crash "nil clientset"
          | Some c =>
              (let! r := on_rest (virtualMachines_Patch (newVirtualMachines c ns) name MergePatchType (patchData a)
                                    (mkPatchOptions [] None "" "") ["status"]) in
               plugin config virtClient (k (match r with Ok _ => None | Err err => Some err end)))%go
          end
      | (VirtGetenv _ | HomeDir | VirtStat _) as e => λ k, Call (Outer e) (λ x, plugin config virtClient (k x))
      end k
  end.
End Plugin.

(** ** The fake clientset stands for the real one *)

(** A timeout in seconds is exact exactly up to 292 years; beyond, it wraps around. *)
Lemma timeout_exact o s :
  lo_TimeoutSeconds o = Some s → - 2 ^ 63 ≤ s < 2 ^ 63 → (timeout_of o = s * 10 ^ 9 ↔ -9223372036 ≤ s ≤ 9223372036).
Proof.
  intros Ho Hs. unfold timeout_of. rewrite Ho. split; [|intros; apply i64_small; lia].
  intros He. pose proof (i64_range (s * 10 ^ 9)). lia.
Qed.

Section Mirror.
Context `{K8s}.

(** What a request or an action asks of the server. *)
Record target := mkTarget {
  t_verb : string;
  t_resource : GroupVersionResource;
  t_namespace : string;
  t_name : option string;
  t_subresources : list string;
  t_payload : option (object + string * string)
}.

Definition is_watch (p : params) : bool := match p with ListParams o => lo_Watch o | _ => false end.
Definition payload_of (v : verb) (b : body) : option (object + string * string) :=
  match v, b with
  | _, ObjectBody o => Some (inl o)
  | PATCH pt, DataBody data => Some (inr (pt, data))
  | _, _ => None
  end.
Definition request_target (r : Request) : target := mkTarget
  (match rq_verb r, rq_name r with
   | GET, Some _ => "get"
   | GET, None => if is_watch (rq_params r) then "watch" else "list"
   | POST, _ => "create"
   | PUT, _ => "update"
   | DELETE, Some _ => "delete"
   | DELETE, None => "delete-collection"
   | PATCH _, _ => "patch"
   end)
  (mkGVR (rc_Group (rq_client r)) (rc_Version (rq_client r)) (rq_resource r))
  (rq_namespace r) (rq_name r) (rq_subresources r) (payload_of (rq_verb r) (rq_body r)).

Definition object_name (o : object) : string :=
  om_Name match o with
          | OVirtualMachine vm => vm_meta vm
          | OVirtualMachineMigration vmm => vmm_meta vmm
          | OVirtualMachineReplicaSet vmrs => vmrs_meta vmrs
          end.
Definition action_target (a : Action) : target :=
  match a with
  | GetAction r ns name => mkTarget "get" r ns (Some name) [] None
  | ListAction r _ ns _ => mkTarget "list" r ns None [] None
  | WatchAction r ns _ => mkTarget "watch" r ns None [] None
  | CreateAction r ns o => mkTarget "create" r ns None [] (Some (inl o))
  | UpdateAction r sub ns o => mkTarget "update" r ns (Some (object_name o)) (option_list sub) (Some (inl o))
  | DeleteAction r ns name _ => mkTarget "delete" r ns (Some name) [] None
  | DeleteCollectionAction r ns _ => mkTarget "delete-collection" r ns None [] None
  | PatchAction r ns name pt data subs => mkTarget "patch" r ns (Some name) subs (Some (inr (pt, data)))
  end.

(** A client's operation and the fake one's: each makes one call, with the same target, and then
    returns what it was answered; the fake one passes objects through [sel]. *)
Definition mirrors {A} (sel : A → A) (p : rprog (result A)) (q : fprog (option A * option goerror)) : Prop :=
  ∃ (k : kind A) r a, (∃ kp, p = Call (Do k r) kp ∧ ∀ x, kp x = Ret x) ∧
    (∃ kq, q = Call (Invokes k a) kq ∧ ∀ o err, kq (o, err) = Ret (sel <$> o, err)) ∧
    request_target r = action_target a.
(** The same for an operation of which only the error is looked at. *)
Definition mirrors_error (p : rprog (result unit)) (q : fprog (option goerror)) : Prop :=
  ∃ A (k : kind A) r a, (∃ kp, p = Call (Do KError r) kp ∧ ∀ x, kp x = Ret x) ∧
    (∃ kq, q = Call (Invokes k a) kq ∧ ∀ o err, kq (o, err) = Ret err) ∧
    request_target r = action_target a.
Definition mirrors_watch (p : rprog (result watcher)) (q : fprog (option watcher * option goerror)) : Prop :=
  ∃ r a, (∃ kp, p = Call (DoWatch r) kp ∧ ∀ x, kp x = Ret x) ∧
    (∃ kq, q = Call (InvokesWatch a) kq ∧ ∀ x, kq x = Ret x) ∧ request_target r = action_target a.

Lemma mirrors_call {A} (k : kind A) r a (kq : option A * option goerror → fprog (option A * option goerror)) sel :
  (∀ o err, kq (o, err) = Ret (sel <$> o, err)) → request_target r = action_target a → mirrors sel (call (Do k r)) (Call (Invokes k a) kq).
Proof. intros. do 3 eexists. split; [by eexists|]. split; [|done]. by eexists. Qed.
Lemma mirrors_error_call {A} (k : kind A) r a (kq : option A * option goerror → fprog (option goerror)) :
  (∀ o err, kq (o, err) = Ret err) → request_target r = action_target a → mirrors_error (call (Do KError r)) (Call (Invokes k a) kq).
Proof. intros. do 4 eexists. split; [by eexists|]. split; [|done]. by eexists. Qed.
Lemma mirrors_watch_call r a : request_target r = action_target a → mirrors_watch (call (DoWatch r)) (call (InvokesWatch a)).
Proof. intros. do 2 eexists. split; [by eexists|]. split; [|done]. by eexists. Qed.

(** The operations of a typed client, with the errors and objects as the fake ones return them. *)
Record operations (E : Type → Type) (R : Type → Type) (RE RW O L : Type) := mkOperations {
  op_Get : string → GetOptions → prog E (R O);
  op_List : ListOptions → prog E (R L);
  op_Watch : ListOptions → prog E RW;
  op_Create : O → CreateOptions → prog E (R O);
  op_Update : O → UpdateOptions → prog E (R O);
  op_UpdateStatus : O → UpdateOptions → prog E (R O);
  op_Delete : string → DeleteOptions → prog E RE;
  op_DeleteCollection : DeleteOptions → ListOptions → prog E RE;
  op_Patch : string → string → string → PatchOptions → list string → prog E (R O)
}.
Arguments mkOperations {E R RE RW O L} _ _ _ _ _ _ _ _ _.
Arguments op_Get {E R RE RW O L} _ _ _.
Arguments op_List {E R RE RW O L} _ _.
Arguments op_Watch {E R RE RW O L} _ _.
Arguments op_Create {E R RE RW O L} _ _ _.
Arguments op_Update {E R RE RW O L} _ _ _.
Arguments op_UpdateStatus {E R RE RW O L} _ _ _.
Arguments op_Delete {E R RE RW O L} _ _ _.
Arguments op_DeleteCollection {E R RE RW O L} _ _ _.
Arguments op_Patch {E R RE RW O L} _ _ _ _ _ _.
Definition real_ops (O : Type) : Type := operations restE result (result unit) (result watcher) O (list O).
Definition fake_ops (O : Type) : Type :=
  operations fakeE (λ A, option A * option goerror)%type (option goerror) (option watcher * option goerror) O (list O).

Definition stands_for {O} (sel : ListOptions → list O → list O) (p : real_ops O) (q : fake_ops O) : Prop :=
  (∀ name o, mirrors id (op_Get p name o) (op_Get q name o)) ∧
  (∀ o, lo_Watch o = false → mirrors (sel o) (op_List p o) (op_List q o)) ∧
  (∀ o, mirrors_watch (op_Watch p o) (op_Watch q o)) ∧
  (∀ x o, mirrors id (op_Create p x o) (op_Create q x o)) ∧
  (∀ x o, mirrors id (op_Update p x o) (op_Update q x o)) ∧
  (∀ x o, mirrors id (op_UpdateStatus p x o) (op_UpdateStatus q x o)) ∧
  (∀ name o, mirrors_error (op_Delete p name o) (op_Delete q name o)) ∧
  (∀ o lo, mirrors_error (op_DeleteCollection p o lo) (op_DeleteCollection q o lo)) ∧
  (∀ name pt data o subs, mirrors id (op_Patch p name pt data o subs) (op_Patch q name pt data o subs)).

(** The client of the group, as the constructors make it. *)
Definition virt_client : RESTClient := mkRESTClient "/apis" "virt.virtink.smartx.com" "v1alpha1".

Section Fake.
Variable ExtractLabel : ListOptions → option (gmap string string → bool).
Definition selected {O} (meta : O → ObjectMeta) (o : ListOptions) (l : list O) : list O :=
  List.filter (λ x, default (λ _, true) (ExtractLabel o) (default ∅ (om_Labels (meta x)))) l.

(** In every namespace, the nine operations of the three typed clients and of their fakes ask
    the server the same: one request and one action each, with the same verb, resource, namespace,
    name, subresources and object or patch, and they return what they are answered, objects and
    errors; only the fake list picks the objects that match its label selector itself. *)
Theorem fakes_stand_for_clients ns :
  let vms := newVirtualMachines virt_client ns in
  let vmms := newVirtualMachineMigrations virt_client ns in
  let vmrss := newVirtualMachineReplicaSets virt_client ns in
  stands_for (selected vm_meta)
    (mkOperations (virtualMachines_Get vms) (virtualMachines_List vms) (virtualMachines_Watch vms) (virtualMachines_Create vms)
       (virtualMachines_Update vms) (virtualMachines_UpdateStatus vms) (virtualMachines_Delete vms)
       (virtualMachines_DeleteCollection vms) (virtualMachines_Patch vms))
    (mkOperations (FakeVirtualMachines_Get ns) (FakeVirtualMachines_List ExtractLabel ns) (FakeVirtualMachines_Watch ns)
       (FakeVirtualMachines_Create ns) (FakeVirtualMachines_Update ns) (FakeVirtualMachines_UpdateStatus ns)
       (FakeVirtualMachines_Delete ns) (FakeVirtualMachines_DeleteCollection ns) (FakeVirtualMachines_Patch ns)) ∧
  stands_for (selected vmm_meta)
    (mkOperations (virtualMachineMigrations_Get vmms) (virtualMachineMigrations_List vmms) (virtualMachineMigrations_Watch vmms)
       (virtualMachineMigrations_Create vmms) (virtualMachineMigrations_Update vmms) (virtualMachineMigrations_UpdateStatus vmms)
       (virtualMachineMigrations_Delete vmms) (virtualMachineMigrations_DeleteCollection vmms) (virtualMachineMigrations_Patch vmms))
    (mkOperations (FakeVirtualMachineMigrations_Get ns) (FakeVirtualMachineMigrations_List ExtractLabel ns)
       (FakeVirtualMachineMigrations_Watch ns) (FakeVirtualMachineMigrations_Create ns) (FakeVirtualMachineMigrations_Update ns)
       (FakeVirtualMachineMigrations_UpdateStatus ns) (FakeVirtualMachineMigrations_Delete ns)
       (FakeVirtualMachineMigrations_DeleteCollection ns) (FakeVirtualMachineMigrations_Patch ns)) ∧
  stands_for (selected vmrs_meta)
    (mkOperations (virtualMachineReplicaSets_Get vmrss) (virtualMachineReplicaSets_List vmrss) (virtualMachineReplicaSets_Watch vmrss)
       (virtualMachineReplicaSets_Create vmrss) (virtualMachineReplicaSets_Update vmrss) (virtualMachineReplicaSets_UpdateStatus vmrss)
       (virtualMachineReplicaSets_Delete vmrss) (virtualMachineReplicaSets_DeleteCollection vmrss) (virtualMachineReplicaSets_Patch vmrss))
    (mkOperations (FakeVirtualMachineReplicaSets_Get ns) (FakeVirtualMachineReplicaSets_List ExtractLabel ns)
       (FakeVirtualMachineReplicaSets_Watch ns) (FakeVirtualMachineReplicaSets_Create ns) (FakeVirtualMachineReplicaSets_Update ns)
       (FakeVirtualMachineReplicaSets_UpdateStatus ns) (FakeVirtualMachineReplicaSets_Delete ns)
       (FakeVirtualMachineReplicaSets_DeleteCollection ns) (FakeVirtualMachineReplicaSets_Patch ns)).
Proof.
  repeat split; intros; simpl;
    first [apply mirrors_call; [intros [o'|] err; done|] | apply mirrors_error_call; [done|] | apply mirrors_watch_call];
    first [done | unfold request_target; simpl; by case_match].
Qed.
End Fake.
End Mirror.

(** ** What the plugin asks of the server *)

Section Requests.
Context `{K8s}.

(** client-go: a REST client goes to the path, group and version of its config. *)
Definition rest_client_of (c : Config) : option RESTClient :=
  match cf_GroupVersion c with Some (g, v) => Some (mkRESTClient (cf_APIPath c) g v) | None => None end.

(** The requests of a command in a namespace: reads of its VMs, and merge patches of the status of
    one of them that set the power action of the command. *)
Definition plugin_request (namespace command : string) (r : Request) : Prop :=
  rq_client r = virt_client ∧ rq_namespace r = namespace ∧ rq_resource r = "virtualmachines" ∧
  (rq_verb r = GET ∧ rq_subresources r = [] ∧ rq_body r = NoBody ∨
   ∃ name a, rq_verb r = PATCH MergePatchType ∧ rq_name r = Some name ∧ rq_subresources r = ["status"] ∧
     rq_body r = DataBody (patchData a) ∧ actionMap command = Some a).

Definition plugin_env (namespace command : string) : env pluginE unit := mkEnv
  (λ X e _, match e with
            | Rest (Do _ r) => plugin_request namespace command r
            | Rest (DoWatch _) => False
            | Outer (VirtList _ | VirtGet _ _ | VirtPatch _ _ _) => False
            | _ => True
            end)
  (λ X e _ x _, match e in pluginE X return X → Prop with
     | Rest e => match e in restE X return X → Prop with
                 | RESTClientForConfigAndClient c _ => λ r, ∀ client, r = Ok client → rest_client_of c = Some client
                 | _ => λ _, True
                 end
     | _ => λ _, True
     end x) False.

(** The constructors make no request, and a client of the group. *)
Lemma typed_NewForConfigAndClient_client ns command c h :
  wp (plugin_env ns command) (on_rest (typed_NewForConfigAndClient c h)) tt (λ r _, ∀ client, r = Ok client → client = virt_client).
Proof.
  unfold typed_NewForConfigAndClient, setConfigDefaults. case_decide; simpl.
  - split; [done|]. intros ua _ _. split; [done|]. intros r [] Hr client ->. specialize (Hr client eq_refl). by inversion Hr.
  - split; [done|]. intros r [] Hr client ->. specialize (Hr client eq_refl). by inversion Hr.
Qed.

Lemma wp_on_rest_bind ns command {A B} (p : rprog A) (f : A → rprog B) Q :
  wp (plugin_env ns command) (on_rest p) tt (λ a _, wp (plugin_env ns command) (on_rest (f a)) tt Q) →
  wp (plugin_env ns command) (on_rest (pbind p f)) tt Q.
Proof.
  induction p as [a|X e k IH|why]; simpl; [done| |done]. intros [Ha Hk]. split; [done|]. intros x [] Hx. apply IH, Hk, Hx.
Qed.

Lemma NewForConfig_client ns command config :
  wp (plugin_env ns command) (on_rest (NewForConfig config)) tt (λ r _, ∀ c, r = Ok c → c = virt_client).
Proof.
  assert (Hc : ∀ c h, wp (plugin_env ns command) (on_rest (NewForConfigAndClient c h)) tt (λ r _, ∀ c, r = Ok c → c = virt_client)).
  { intros c h. unfold NewForConfigAndClient. destruct (match cf_RateLimiter c with Some _ => _ | None => _ end) as [c'|e]; [|done].
    apply wp_on_rest_bind. eapply wp_mono; [|apply typed_NewForConfigAndClient_client].
    intros [client|e] [] Hr; [|done]. split; [done|]. intros [e|] [] _ c'' [= <-]. by apply Hr. }
  unfold NewForConfig. apply wp_on_rest_bind.
  eapply (wp_mono _ _ _ (λ _ _, True)); [|by case_decide]. intros ua [] _. split; [done|]. intros [h|e] [] _; [apply Hc|done].
Qed.

(** The plugin on the clientset makes the requests of the plugin's calls. *)
Lemma plugin_wp ns command {A} (p : prog virtE A) w Q : ∀ config client,
  wp (virt_env ns command) p w Q → (w_connected w = true → client = Some virt_client) →
  wp (plugin_env ns command) (plugin config client p) tt (λ a _, ∃ w', Q a w').
Proof.
  revert w. induction p as [a|X e k IH|why]; intros w config client Hp Hc; [by exists w| |done].
  destruct Hp as [Ha Hk]. destruct e; cbn [plugin].
  1-3: split; [done|]; intros x [] _; eapply IH; [by apply Hk|done].
  - split; [done|]. intros [c|err] [] _; (eapply IH; [by apply Hk|done]).
  - apply wp_seq. eapply wp_mono; [|apply NewForConfig_client]. intros [c|err] [] Hr; (eapply IH; [by apply Hk|]).
    + intros _. by rewrite (Hr c).
    + done.
  - destruct Ha as [-> Hw]. rewrite (Hc Hw). split; [repeat split; by left|].
    intros r [] _. eapply IH; [by apply Hk|]. by destruct r.
  - destruct Ha as [-> Hw]. rewrite (Hc Hw). split; [repeat split; by left|].
    intros r [] _. eapply IH; [by apply Hk|]. by destruct r; [destruct (skipped _ _)|].
  - destruct Ha as (-> & Ha & _ & Hw). rewrite (Hc Hw). split; [repeat split; right; by exists name, action|].
    intros r [] _. eapply IH; [by apply Hk|done].
Qed.

(** C25: all that [kubectl virt] asks of the API server, through the clientset that it makes of its
    kubeconfig: reads of the VMs of the chosen namespace, and merge patches of the status of a VM of
    this namespace that set the power action of the command; no request is made before there is a
    client, and none goes to another group, resource or namespace. *)
Theorem plugin_requests_confined args o config :
  Parse args "default" false = Some o →
  wp (plugin_env (opt_namespace o) (default "" (head (opt_args o)))) (plugin config None (main args)) tt (λ _ _, True).
Proof.
  intros Ho. eapply wp_mono; [|eapply plugin_wp].
  - done.
  - apply (main_wp _ _ Ho).
  - done.
Qed.
End Requests.

#[local] Existing Instance k8s_concrete.

(** [kubectl-virt -n prod stop vm1]. *)
Lemma plugin_requests_confined_witness :
  Parse ["-n"; "prod"; "stop"; "vm1"] "default" false = Some (mkOptions "prod" false ["stop"; "vm1"]) ∧
  wp (plugin_env "prod" "stop") (plugin (mkConfig "" None 0 0 None "") None (main ["-n"; "prod"; "stop"; "vm1"])) tt (λ _ _, True).
Proof.
  split; [reflexivity|].
  apply (plugin_requests_confined ["-n"; "prod"; "stop"; "vm1"] (mkOptions "prod" false ["stop"; "vm1"])). reflexivity.
Defined.
