(* ===== verification/FakeClientset.v ===== *)
(** * The fake clientset (pkg/generated/clientset/versioned/fake)

    [NewSimpleClientset] puts the given objects into an object tracker and has the fake client answer
    every action from it.  The tracker and the fake client itself are client-go's package [testing]: they
    are an interface here, with what is documented of them as its laws.  The fake typed clients of
    Clientset.v then read back the objects that the clientset was made with. *)

From stdpp Require Import base gmap strings list.
From Stdlib Require Import ZArith Lia.
From S2P Require Import Prelude GoStd K8s ApiTypes Kube VmValidate Clientset.
Open Scope Z_scope.

(** ** Objects *)

Section Objects.
Context `{K8s}.

Definition object_meta (o : object) : ObjectMeta :=
  match o with
  | OVirtualMachine vm => vm_meta vm
  | OVirtualMachineMigration vmm => vmm_meta vmm
  | OVirtualMachineReplicaSet rs => vmrs_meta rs
  end.
Definition object_resource (o : object) : GroupVersionResource :=
  match o with
  | OVirtualMachine _ => virtualmachinesResource
  | OVirtualMachineMigration _ => virtualmachinemigrationsResource
  | OVirtualMachineReplicaSet _ => virtualmachinereplicasetsResource
  end.
(** Where an object is stored. *)
Definition object_key (o : object) : GroupVersionResource * NamespacedName := (object_resource o, ObjectKey (object_meta o)).

(** An object as an answer of its kind. *)
Definition as_kind (o : object) {A} (into : kind A) : option A :=
  match o, into in kind A return option A with
  | OVirtualMachine vm, KVirtualMachine => Some vm
  | OVirtualMachineMigration vmm, KVirtualMachineMigration => Some vmm
  | OVirtualMachineReplicaSet rs, KVirtualMachineReplicaSet => Some rs
  | _, _ => None
  end.
End Objects.

(** ** Package [testing] of client-go *)

Class Testing `{K : K8s} := {
  (** what an object tracker holds *)
  Tracker : Type;
  NewObjectTracker : Tracker;
  tracker_Add : object → Tracker → result Tracker;
  tracker_Watch : GroupVersionResource → string → Tracker → result watcher;
  (** [ObjectReaction]: whether the action was handled, the answer and the tracker afterwards *)
  ObjectReaction : ∀ {A}, kind A → Action → Tracker → bool * option A * option goerror * Tracker;
  (** a [Fake], with its reactors *)
  Fake : Type;
  zeroFake : Fake;
  AddReactor : string → string → (∀ A, kind A → Action → Tracker → bool * option A * option goerror * Tracker) → Fake → Fake;
  AddWatchReactor : string → (Action → Tracker → bool * option watcher * option goerror) → Fake → Fake;
  Fake_Invokes : Fake → ∀ {A}, kind A → Action → Tracker → option A * option goerror * Tracker;
  Fake_InvokesWatch : Fake → Action → Tracker → option watcher * option goerror
}.

(** ** The clientset *)

Section FakeClientset.
Context `{T : Testing}.

(** [testing.Fake] is embedded; [discovery] points to it. *)
Record FakeClientset := mkFakeClientset { cs_Fake : Fake; cs_tracker : Tracker }.

Definition action_resource (a : Action) : GroupVersionResource :=
  match a with
  | GetAction r _ _ | ListAction r _ _ _ | WatchAction r _ _ | CreateAction r _ _ | UpdateAction r _ _ _ | DeleteAction r _ _ _
  | DeleteCollectionAction r _ _ | PatchAction r _ _ _ _ _ => r
  end.
Definition action_namespace (a : Action) : string :=
  match a with
  | GetAction _ ns _ | ListAction _ _ ns _ | WatchAction _ ns _ | CreateAction _ ns _ | UpdateAction _ _ ns _ | DeleteAction _ ns _ _
  | DeleteCollectionAction _ ns _ | PatchAction _ ns _ _ _ _ => ns
  end.

Fixpoint add_objects (o : Tracker) (objects : list object) : outcome Tracker :=
  match objects with
  | [] => Returned o
  | obj :: objects' =>
      match tracker_Add obj o with
      | Err _ => Panicked "err of the tracker"
      | Ok o => add_objects o objects'
      end
  end.

Definition watch_reaction (action : Action) (o : Tracker) : bool * option watcher * option goerror :=
  let gvr := action_resource action in
  let ns := action_namespace action in
  match tracker_Watch gvr ns o with
  | Err err => (false, None, Some err)
  | Ok watch => (true, Some watch, None)
  end.

Definition NewSimpleClientset (objects : list object) : outcome FakeClientset :=
  match add_objects NewObjectTracker objects with
  | Panicked why => Panicked why
  | Returned o =>
      Returned (mkFakeClientset (AddWatchReactor "*" watch_reaction (AddReactor "*" "*" (@ObjectReaction _ _) zeroFake)) o)
  end.

Definition Discovery (c : FakeClientset) : Fake := cs_Fake c.
Definition fake_Tracker (c : FakeClientset) : Tracker := cs_tracker c.

(** [FakeVirtV1alpha1] and the clients it makes: each has the fake and its namespace. *)
Record fakeClient := mkFakeClient { fc_Fake : Fake; fc_ns : string }.
Definition VirtV1alpha1 (c : FakeClientset) : Fake := cs_Fake c.
Definition FakeVirtV1alpha1_VirtualMachines (f : Fake) (namespace : string) : fakeClient := mkFakeClient f namespace.
Definition FakeVirtV1alpha1_VirtualMachineMigrations (f : Fake) (namespace : string) : fakeClient := mkFakeClient f namespace.
Definition FakeVirtV1alpha1_VirtualMachineReplicaSets (f : Fake) (namespace : string) : fakeClient := mkFakeClient f namespace.

(** The calls of the fake clients reach the fake. *)
Definition fake_handler (f : Fake) : handler fakeE Tracker := λ X e s,
  match e in fakeE X return X * Tracker with
  | Invokes into a => let '(obj, err, s') := Fake_Invokes f into a s in ((obj, err), s')
  | InvokesWatch a => (Fake_InvokesWatch f a s, s)
  end.

(** ** What is documented of package [testing]

    The tracker stores objects by resource, namespace and name; the reaction gets what is stored; the fake
    asks the first reactor that handles the action, and "*" stands for every verb and resource. *)
Class TestingLaws : Prop := {
  tracker_Add_ok o s : ∃ s', tracker_Add o s = Ok s';
  ObjectReaction_added o s s' : tracker_Add o s = Ok s' →
    ∀ A (into : kind A) x, as_kind o into = Some x →
      ObjectReaction into (GetAction (object_resource o) (om_Namespace (object_meta o)) (om_Name (object_meta o))) s' = (true, Some x, None, s');
  ObjectReaction_other o s s' : tracker_Add o s = Ok s' →
    ∀ A (into : kind A) r ns name found err, (r, mkNN ns name) ≠ object_key o →
      ObjectReaction into (GetAction r ns name) s = (true, found, err, s) → ObjectReaction into (GetAction r ns name) s' = (true, found, err, s');
  Fake_Invokes_first r wr A (into : kind A) a s found err s' :
    r A into a s = (true, found, err, s') →
    Fake_Invokes (AddWatchReactor "*" wr (AddReactor "*" "*" r zeroFake)) into a s = (found, err, s');
  Fake_InvokesWatch_first r (wr : Action → Tracker → bool * option watcher * option goerror) a s found err :
    wr a s = (true, found, err) →
    Fake_InvokesWatch (AddWatchReactor "*" wr (AddReactor "*" "*" r zeroFake)) a s = (found, err)
}.

Context {TL : TestingLaws}.

(** Adding objects with other keys keeps what a get of this key answers. *)
Lemma add_objects_others l s s' A (into : kind A) r ns name found err :
  add_objects s l = Returned s' → (r, mkNN ns name) ∉ map object_key l →
  ObjectReaction into (GetAction r ns name) s = (true, found, err, s) → ObjectReaction into (GetAction r ns name) s' = (true, found, err, s').
Proof.
  revert s. induction l as [|o l IH]; intros s Ha Hn Hr; simpl in *; [by simplify_eq|].
  destruct (tracker_Add o s) as [s1|e] eqn:E; [|done]. apply not_elem_of_cons in Hn as [Hne Hn].
  apply (IH s1 Ha Hn). eapply ObjectReaction_other; eauto.
Qed.

Lemma add_objects_ok l s : ∃ s', add_objects s l = Returned s'.
Proof. revert s. induction l as [|o l IH]; intros s; simpl; [by eexists|]. destruct (tracker_Add_ok o s) as [s1 ->]. apply IH. Qed.

Lemma add_objects_stored l s s' o A (into : kind A) x :
  add_objects s l = Returned s' → NoDup (map object_key l) → o ∈ l → as_kind o into = Some x →
  ObjectReaction into (GetAction (object_resource o) (om_Namespace (object_meta o)) (om_Name (object_meta o))) s' = (true, Some x, None, s').
Proof.
  revert s. induction l as [|o' l IH]; intros s Ha Hd Hin Hx; [by apply elem_of_nil in Hin|]. simpl in Ha, Hd.
  destruct (tracker_Add o' s) as [s1|e] eqn:E; [|done]. apply NoDup_cons in Hd as [Hn Hd]. apply elem_of_cons in Hin as [->|Hin]; [|by eapply IH].
  eapply add_objects_others; [done|exact Hn|]. by eapply ObjectReaction_added.
Qed.

(** A fake clientset made with objects of different names can be made, and its clients get each of them back. *)
Theorem NewSimpleClientset_roundtrip objects :
  NoDup (map object_key objects) → ∃ cs, NewSimpleClientset objects = Returned cs ∧
  ∀ o, o ∈ objects →
  let m := object_meta o in
  match o with
  | OVirtualMachine vm =>
      run (fake_handler (VirtV1alpha1 cs)) (FakeVirtualMachines_Get (om_Namespace m) (om_Name m) (mkGetOptions "")) (fake_Tracker cs)
        = (Returned (Some vm, None), fake_Tracker cs)
  | OVirtualMachineMigration vmm =>
      run (fake_handler (VirtV1alpha1 cs)) (FakeVirtualMachineMigrations_Get (om_Namespace m) (om_Name m) (mkGetOptions "")) (fake_Tracker cs)
        = (Returned (Some vmm, None), fake_Tracker cs)
  | OVirtualMachineReplicaSet rs =>
      run (fake_handler (VirtV1alpha1 cs)) (FakeVirtualMachineReplicaSets_Get (om_Namespace m) (om_Name m) (mkGetOptions "")) (fake_Tracker cs)
        = (Returned (Some rs, None), fake_Tracker cs)
  end.
Proof.
  intros Hd. unfold NewSimpleClientset. destruct (add_objects_ok objects NewObjectTracker) as [s E]. rewrite E.
  eexists. split; [done|]. intros o Hin.
  assert (Hget : ∀ A (into : kind A) x, as_kind o into = Some x →
    Fake_Invokes (AddWatchReactor "*" watch_reaction (AddReactor "*" "*" (@ObjectReaction _ _) zeroFake)) into
      (GetAction (object_resource o) (om_Namespace (object_meta o)) (om_Name (object_meta o))) s = (Some x, None, s)).
  { intros A into x Hx. apply Fake_Invokes_first. by eapply add_objects_stored. }
  destruct o as [vm|vmm|rs]; simpl in *;
    [rewrite (Hget _ KVirtualMachine vm eq_refl)|rewrite (Hget _ KVirtualMachineMigration vmm eq_refl)|rewrite (Hget _ KVirtualMachineReplicaSet rs eq_refl)]; done.
Qed.

(** Its watches are the tracker's. *)
Lemma NewSimpleClientset_watch objects cs ns opts w :
  NewSimpleClientset objects = Returned cs → tracker_Watch virtualmachinesResource ns (fake_Tracker cs) = Ok w →
  run (fake_handler (VirtV1alpha1 cs)) (FakeVirtualMachines_Watch ns opts) (fake_Tracker cs) = (Returned (Some w, None), fake_Tracker cs).
Proof.
  unfold NewSimpleClientset. destruct (add_objects _ _) as [s|why]; [|done]. intros [= <-] Hw. simpl in *.
  erewrite Fake_InvokesWatch_first; [done|]. unfold watch_reaction. simpl. by rewrite Hw.
Qed.

End FakeClientset.

(** ** A tracker that has the laws *)

Section Concrete.
#[local] Existing Instance k8s_concrete.

Definition get_object (l : list object) (r : GroupVersionResource) (ns name : string) : option object :=
  snd <$> list_find (λ o, object_key o = (r, mkNN ns name)) l.

(** The last object added comes first. *)
#[local] Instance sample_testing : Testing := {
  Tracker := list object;
  NewObjectTracker := [];
  tracker_Add o l := Ok (o :: l);
  tracker_Watch _ _ _ := Ok (Watcher 0);
  ObjectReaction A into a l :=
    match a with
    | GetAction r ns name => (true, o ← get_object l r ns name; as_kind o into,
        match get_object l r ns name with Some _ => None | None => Some (ErrAPI ReasonNotFound name) end, l)
    | _ => (false, None, None, l)
    end;
  Fake := option (∀ A, kind A → Action → list object → bool * option A * option goerror * list object) *
          option (Action → list object → bool * option watcher * option goerror);
  zeroFake := (None, None);
  AddReactor _ _ r f := (Some r, snd f);
  AddWatchReactor _ r f := (fst f, Some r);
  Fake_Invokes f A into a l := match fst f with Some r => let '(_, x, e, l') := r A into a l in (x, e, l') | None => (None, None, l) end;
  Fake_InvokesWatch f a l := match snd f with Some r => let '(_, x, e) := r a l in (x, e) | None => (None, None) end
}.

#[local] Instance sample_testing_laws : TestingLaws.
Proof.
  split.
  - intros o s. by eexists.
  - intros o s s' [= <-] A into x Hx. simpl. unfold get_object. simpl. rewrite decide_True by done. simpl. by rewrite Hx.
  - intros o s s' [= <-] A into r ns name found err Hne [= Hf He]. simpl. unfold get_object in *. simpl. rewrite decide_False by congruence.
    destruct (list_find _ s) as [[i o']|]; simpl in *; by subst.
  - intros r wr A into a s found err s' Hr. simpl. by rewrite Hr.
  - intros r wr a s found err Hr. simpl. by rewrite Hr.
Qed.

Definition two_objects : list object :=
  [OVirtualMachine (sampleVM []);
   OVirtualMachineMigration (mkVMM (vm_meta (sampleVM [])) "vm" (mkVMMStatus VirtualMachineMigrationPhaseUnset "" ""))].

Lemma NewSimpleClientset_roundtrip_witness : ∃ cs, NewSimpleClientset two_objects = Returned cs ∧
  run (fake_handler (VirtV1alpha1 cs)) (FakeVirtualMachines_Get "default" "vm" (mkGetOptions "")) (fake_Tracker cs)
    = (Returned (Some (sampleVM []), None), fake_Tracker cs).
Proof.
  destruct (NewSimpleClientset_roundtrip two_objects) as (cs & E & H).
  - apply (bool_decide_unpack _). vm_compute. exact I.
  - exists cs. split; [exact E|]. exact (H (OVirtualMachine (sampleVM [])) ltac:(left)).
Defined.
End Concrete.
