(* ===== verification/Informers.v ===== *)
(** * The generated informers and listers (pkg/generated/informers, pkg/generated/listers)

    The factory that shares one informer per type among its users, the informers of the three
    resources with the lists and watches that feed them, and the listers that read their caches.
    The cache library is outside: an informer is what [cache.NewSharedIndexInformer] was given, with
    an identity; running it is recorded; its cache answers calls of [cacheE].  A closure is the record
    of what it captures.  The factory's operations hold its lock, so they are steps. *)

From stdpp Require Import base gmap strings list sets fin_maps.
From Stdlib Require Import Ascii ZArith Lia.
From S2P Require Import Prelude GoStd K8s ApiTypes Kube KubectlVirt Clientset.
Open Scope Z_scope.

(** ** Informers *)

(** [TweakListOptionsFunc]: changes the options through their pointer; nil is [None]. *)
Definition TweakListOptionsFunc : Type := option (ListOptions → ListOptions).
Definition tweaked (t : TweakListOptionsFunc) (o : ListOptions) : ListOptions := match t with Some f => f o | None => o end.

(** What [cache.NewSharedIndexInformer] is given: the object's [reflect.Type] and what the list and
    watch functions capture. *)
Record informer := mkInformer {
  inf_type : string;
  inf_client : RESTClient;
  inf_namespace : string;
  inf_resync : Z;
  inf_indexers : list string;
  inf_tweak : TweakListOptionsFunc
}.

(** ** The factory *)

Record sharedInformerFactory := mkFactory {
  f_client : RESTClient;
  f_namespace : string;
  f_tweakListOptions : TweakListOptionsFunc;
  f_defaultResync : Z;
  f_customResync : gmap string Z;
  f_informers : gmap string nat;
  f_startedInformers : gmap string bool
}.

(** The factory, the informers that were made, by identity, and the calls of [Run], in order. *)
Record world := mkWorld { w_factory : sharedInformerFactory; w_made : list informer; w_runs : list nat }.

Definition SharedInformerOption : Type := sharedInformerFactory → sharedInformerFactory.

(** The config is keyed by objects; only their types count, and of two entries with the same type
    the one that is visited last. *)
Definition WithCustomResyncConfig (resyncConfig : list (string * Z)) : SharedInformerOption := λ f,
  mkFactory (f_client f) (f_namespace f) (f_tweakListOptions f) (f_defaultResync f)
    (foldl (λ m '(k, v), <[k := v]> m) (f_customResync f) resyncConfig) (f_informers f) (f_startedInformers f).

Definition WithTweakListOptions (t : TweakListOptionsFunc) : SharedInformerOption := λ f,
  mkFactory (f_client f) (f_namespace f) t (f_defaultResync f) (f_customResync f) (f_informers f) (f_startedInformers f).

Definition WithNamespace (namespace : string) : SharedInformerOption := λ f,
  mkFactory (f_client f) namespace (f_tweakListOptions f) (f_defaultResync f) (f_customResync f) (f_informers f) (f_startedInformers f).

Definition NewSharedInformerFactoryWithOptions (client : RESTClient) (defaultResync : Z) (options : list SharedInformerOption)
    : sharedInformerFactory :=
  foldl (λ f opt, opt f) (mkFactory client "" None defaultResync ∅ ∅ ∅) options.

Definition NewSharedInformerFactory (client : RESTClient) (defaultResync : Z) : sharedInformerFactory :=
  NewSharedInformerFactoryWithOptions client defaultResync [].

Definition NewFilteredSharedInformerFactory (client : RESTClient) (defaultResync : Z) (namespace : string) (t : TweakListOptionsFunc)
    : sharedInformerFactory :=
  NewSharedInformerFactoryWithOptions client defaultResync [WithNamespace namespace; WithTweakListOptions t].

Definition set_informers (m : gmap string nat) (f : sharedInformerFactory) : sharedInformerFactory :=
  mkFactory (f_client f) (f_namespace f) (f_tweakListOptions f) (f_defaultResync f) (f_customResync f) m (f_startedInformers f).
Definition set_started (m : gmap string bool) (f : sharedInformerFactory) : sharedInformerFactory :=
  mkFactory (f_client f) (f_namespace f) (f_tweakListOptions f) (f_defaultResync f) (f_customResync f) (f_informers f) m.

(** One round of the loop of [Start]. *)
Definition start_round (w : world) (e : string * nat) : world :=
  let '(informerType, i) := e in
  if default false (f_startedInformers (w_factory w) !! informerType) then w
  else mkWorld (set_started (<[informerType := true]> (f_startedInformers (w_factory w))) (w_factory w))
         (w_made w) (w_runs w ++ [i]).

(** The order in which the map is visited is the order of the goroutines only. *)
Definition Start (w : world) : world := foldl start_round w (map_to_list (f_informers (w_factory w))).

(** [HasSynced] of the informers, once [cache.WaitForCacheSync] returns. *)
Definition WaitForCacheSync (synced : nat → bool) (w : world) : gmap string bool :=
  synced <$> filter (λ '(t, _), default false (f_startedInformers (w_factory w) !! t) = true) (f_informers (w_factory w)).

(** [newFunc] is given the resync period and the factory's client. *)
Definition InformerFor (informerType : string) (newFunc : RESTClient → Z → informer) (w : world) : nat * world :=
  let f := w_factory w in
  match f_informers f !! informerType with
  | Some i => (i, w)
  | None =>
      let resyncPeriod := default (f_defaultResync f) (f_customResync f !! informerType) in
      let i := length (w_made w) in
      (i, mkWorld (set_informers (<[informerType := i]> (f_informers f)) f) (w_made w ++ [newFunc (f_client f) resyncPeriod]) (w_runs w))
  end.

(** The informer of a type that the group's interfaces give out. *)
Record typedInformer := mkTypedInformer { ti_namespace : string; ti_tweakListOptions : TweakListOptionsFunc }.

(** [Virt] of the factory, [V1alpha1] of the group and the constructors between them pass on the
    namespace and the tweak. *)
Definition Virt (f : sharedInformerFactory) : string * TweakListOptionsFunc := (f_namespace f, f_tweakListOptions f).
Definition virt_New (namespace : string) (t : TweakListOptionsFunc) : string * TweakListOptionsFunc := (namespace, t).
Definition group_V1alpha1 (g : string * TweakListOptionsFunc) : string * TweakListOptionsFunc := virt_New (fst g) (snd g).

(** ** Listers *)

Section Listers.
Context `{K8s}.

(** The calls to a cache with objects of type [O]; a selector is a predicate on labels. *)
Inductive cacheE (O : Type) : Type → Type :=
| ListAll (selector : gmap string string → bool) : cacheE O (list O * option goerror)
| ListAllByNamespace (namespace : string) (selector : gmap string string → bool) : cacheE O (list O * option goerror)
| GetByKey (key : string) : cacheE O (option O * option goerror).
Arguments ListAll {O} _.
Arguments ListAllByNamespace {O} _ _.
Arguments GetByKey {O} _.

(** [errors.NewNotFound] for a resource and a name. *)
Variable NewNotFound : string → string → goerror.
(** pkg/generated/listers/virt/v1alpha1/virtualmachine.go *)

Definition virtualMachineLister_List (selector : gmap string string → bool) : prog (cacheE VirtualMachine) (list VirtualMachine * option goerror) :=
  call (ListAll selector).

Definition virtualMachineNamespaceLister_List (namespace : string) (selector : gmap string string → bool)
    : prog (cacheE VirtualMachine) (list VirtualMachine * option goerror) :=
  call (ListAllByNamespace namespace selector).

Definition virtualMachineNamespaceLister_Get (namespace name : string) : prog (cacheE VirtualMachine) (result VirtualMachine) :=
  (let! (obj, err) := call (GetByKey (namespace +:+ "/" +:+ name)) in
   match err, obj with
   | Some e, _ => Ret (Err e)
   | None, None => Ret (Err (NewNotFound "virtualmachine" name))
   | None, Some o => Ret (Ok o)
   end)%go.

(** pkg/generated/listers/virt/v1alpha1/virtualmachinemigration.go *)

Definition virtualMachineMigrationLister_List (selector : gmap string string → bool) : prog (cacheE VirtualMachineMigration) (list VirtualMachineMigration * option goerror) :=
  call (ListAll selector).

Definition virtualMachineMigrationNamespaceLister_List (namespace : string) (selector : gmap string string → bool)
    : prog (cacheE VirtualMachineMigration) (list VirtualMachineMigration * option goerror) :=
  call (ListAllByNamespace namespace selector).

Definition virtualMachineMigrationNamespaceLister_Get (namespace name : string) : prog (cacheE VirtualMachineMigration) (result VirtualMachineMigration) :=
  (let! (obj, err) := call (GetByKey (namespace +:+ "/" +:+ name)) in
   match err, obj with
   | Some e, _ => Ret (Err e)
   | None, None => Ret (Err (NewNotFound "virtualmachinemigration" name))
   | None, Some o => Ret (Ok o)
   end)%go.

(** pkg/generated/listers/virt/v1alpha1/virtualmachinereplicaset.go *)

Definition virtualMachineReplicaSetLister_List (selector : gmap string string → bool) : prog (cacheE VirtualMachineReplicaSet) (list VirtualMachineReplicaSet * option goerror) :=
  call (ListAll selector).

Definition virtualMachineReplicaSetNamespaceLister_List (namespace : string) (selector : gmap string string → bool)
    : prog (cacheE VirtualMachineReplicaSet) (list VirtualMachineReplicaSet * option goerror) :=
  call (ListAllByNamespace namespace selector).

Definition virtualMachineReplicaSetNamespaceLister_Get (namespace name : string) : prog (cacheE VirtualMachineReplicaSet) (result VirtualMachineReplicaSet) :=
  (let! (obj, err) := call (GetByKey (namespace +:+ "/" +:+ name)) in
   match err, obj with
   | Some e, _ => Ret (Err e)
   | None, None => Ret (Err (NewNotFound "virtualmachinereplicaset" name))
   | None, Some o => Ret (Ok o)
   end)%go.

End Listers.

(** ** The informers of the resources *)

Section Informers.
Context `{K8s}.

(** pkg/generated/informers/externalversions/virt/v1alpha1/virtualmachine.go *)

Definition virtualMachineType : string := "*v1alpha1.VirtualMachine".

(** The list and the watch function of an informer. *)
Definition virtualMachine_ListFunc (i : informer) (options : ListOptions) : rprog (result (list VirtualMachine)) :=
  let options := tweaked (inf_tweak i) options in
  virtualMachines_List (VirtV1alpha1Client_VirtualMachines (inf_client i) (inf_namespace i)) options.
Definition virtualMachine_WatchFunc (i : informer) (options : ListOptions) : rprog (result watcher) :=
  let options := tweaked (inf_tweak i) options in
  virtualMachines_Watch (VirtV1alpha1Client_VirtualMachines (inf_client i) (inf_namespace i)) options.

Definition NewFilteredVirtualMachineInformer (client : RESTClient) (namespace : string) (resyncPeriod : Z) (indexers : list string)
    (t : TweakListOptionsFunc) : informer :=
  mkInformer virtualMachineType client namespace resyncPeriod indexers t.

Definition NewVirtualMachineInformer (client : RESTClient) (namespace : string) (resyncPeriod : Z) (indexers : list string) : informer :=
  NewFilteredVirtualMachineInformer client namespace resyncPeriod indexers None.

Definition virtualMachineInformer_defaultInformer (f : typedInformer) (client : RESTClient) (resyncPeriod : Z) : informer :=
  NewFilteredVirtualMachineInformer client (ti_namespace f) resyncPeriod ["namespace"] (ti_tweakListOptions f).

Definition virtualMachineInformer_Informer (f : typedInformer) (w : world) : nat * world :=
  InformerFor virtualMachineType (virtualMachineInformer_defaultInformer f) w.

(** The lister reads the cache of the informer that is returned. *)
Definition virtualMachineInformer_Lister (f : typedInformer) (w : world) : nat * world := virtualMachineInformer_Informer f w.

Definition version_VirtualMachines (v : string * TweakListOptionsFunc) : typedInformer := mkTypedInformer (fst v) (snd v).

(** pkg/generated/informers/externalversions/virt/v1alpha1/virtualmachinemigration.go *)

Definition virtualMachineMigrationType : string := "*v1alpha1.VirtualMachineMigration".

(** The list and the watch function of an informer. *)
Definition virtualMachineMigration_ListFunc (i : informer) (options : ListOptions) : rprog (result (list VirtualMachineMigration)) :=
  let options := tweaked (inf_tweak i) options in
  virtualMachineMigrations_List (VirtV1alpha1Client_VirtualMachineMigrations (inf_client i) (inf_namespace i)) options.
Definition virtualMachineMigration_WatchFunc (i : informer) (options : ListOptions) : rprog (result watcher) :=
  let options := tweaked (inf_tweak i) options in
  virtualMachineMigrations_Watch (VirtV1alpha1Client_VirtualMachineMigrations (inf_client i) (inf_namespace i)) options.

Definition NewFilteredVirtualMachineMigrationInformer (client : RESTClient) (namespace : string) (resyncPeriod : Z) (indexers : list string)
    (t : TweakListOptionsFunc) : informer :=
  mkInformer virtualMachineMigrationType client namespace resyncPeriod indexers t.

Definition NewVirtualMachineMigrationInformer (client : RESTClient) (namespace : string) (resyncPeriod : Z) (indexers : list string) : informer :=
  NewFilteredVirtualMachineMigrationInformer client namespace resyncPeriod indexers None.

Definition virtualMachineMigrationInformer_defaultInformer (f : typedInformer) (client : RESTClient) (resyncPeriod : Z) : informer :=
  NewFilteredVirtualMachineMigrationInformer client (ti_namespace f) resyncPeriod ["namespace"] (ti_tweakListOptions f).

Definition virtualMachineMigrationInformer_Informer (f : typedInformer) (w : world) : nat * world :=
  InformerFor virtualMachineMigrationType (virtualMachineMigrationInformer_defaultInformer f) w.

(** The lister reads the cache of the informer that is returned. *)
Definition virtualMachineMigrationInformer_Lister (f : typedInformer) (w : world) : nat * world := virtualMachineMigrationInformer_Informer f w.

Definition version_VirtualMachineMigrations (v : string * TweakListOptionsFunc) : typedInformer := mkTypedInformer (fst v) (snd v).

(** pkg/generated/informers/externalversions/virt/v1alpha1/virtualmachinereplicaset.go *)

Definition virtualMachineReplicaSetType : string := "*v1alpha1.VirtualMachineReplicaSet".

(** The list and the watch function of an informer. *)
Definition virtualMachineReplicaSet_ListFunc (i : informer) (options : ListOptions) : rprog (result (list VirtualMachineReplicaSet)) :=
  let options := tweaked (inf_tweak i) options in
  virtualMachineReplicaSets_List (VirtV1alpha1Client_VirtualMachineReplicaSets (inf_client i) (inf_namespace i)) options.
Definition virtualMachineReplicaSet_WatchFunc (i : informer) (options : ListOptions) : rprog (result watcher) :=
  let options := tweaked (inf_tweak i) options in
  virtualMachineReplicaSets_Watch (VirtV1alpha1Client_VirtualMachineReplicaSets (inf_client i) (inf_namespace i)) options.

Definition NewFilteredVirtualMachineReplicaSetInformer (client : RESTClient) (namespace : string) (resyncPeriod : Z) (indexers : list string)
    (t : TweakListOptionsFunc) : informer :=
  mkInformer virtualMachineReplicaSetType client namespace resyncPeriod indexers t.

Definition NewVirtualMachineReplicaSetInformer (client : RESTClient) (namespace : string) (resyncPeriod : Z) (indexers : list string) : informer :=
  NewFilteredVirtualMachineReplicaSetInformer client namespace resyncPeriod indexers None.

Definition virtualMachineReplicaSetInformer_defaultInformer (f : typedInformer) (client : RESTClient) (resyncPeriod : Z) : informer :=
  NewFilteredVirtualMachineReplicaSetInformer client (ti_namespace f) resyncPeriod ["namespace"] (ti_tweakListOptions f).

Definition virtualMachineReplicaSetInformer_Informer (f : typedInformer) (w : world) : nat * world :=
  InformerFor virtualMachineReplicaSetType (virtualMachineReplicaSetInformer_defaultInformer f) w.

(** The lister reads the cache of the informer that is returned. *)
Definition virtualMachineReplicaSetInformer_Lister (f : typedInformer) (w : world) : nat * world := virtualMachineReplicaSetInformer_Informer f w.

Definition version_VirtualMachineReplicaSets (v : string * TweakListOptionsFunc) : typedInformer := mkTypedInformer (fst v) (snd v).

(** pkg/generated/informers/externalversions/generic.go *)

Definition ForResource (resource : GroupVersionResource) (w : world) : result (nat * string) * world :=
  let v := group_V1alpha1 (Virt (w_factory w)) in
  let found := λ '(i, w'), (Ok (i, gvr_Resource resource), w') in
  if decide (resource = mkGVR "virt.virtink.smartx.com" "v1alpha1" "virtualmachines") then
    found (virtualMachineInformer_Informer (version_VirtualMachines v) w)
  else if decide (resource = mkGVR "virt.virtink.smartx.com" "v1alpha1" "virtualmachinemigrations") then
    found (virtualMachineMigrationInformer_Informer (version_VirtualMachineMigrations v) w)
  else if decide (resource = mkGVR "virt.virtink.smartx.com" "v1alpha1" "virtualmachinereplicasets") then
    found (virtualMachineReplicaSetInformer_Informer (version_VirtualMachineReplicaSets v) w)
  else (Err (ErrMsg "no informer found"), w).
End Informers.

(** The key of a namespaced object determines its namespace and name, a namespace having no slash. *)
Lemma lister_key_inj ns name ns' name' :
  Strings.lacks "/"%char ns → Strings.lacks "/"%char ns' → ns +:+ "/" +:+ name = ns' +:+ "/" +:+ name' → ns = ns' ∧ name = name'.
Proof.
  intros H1 H2 He. pose proof (Strings.Cut_app "/"%char ns name H1) as C1. pose proof (Strings.Cut_app "/"%char ns' name' H2) as C2.
  change (Strings.Cut "/"%char (ns +:+ "/" +:+ name) = (ns, Some name)) in C1.
  rewrite He in C1. change (Strings.Cut "/"%char (ns' +:+ "/" +:+ name') = (ns', Some name')) in C2. rewrite C1 in C2. by injection C2 as -> ->.
Qed.

(** ** The factory as a state machine *)

Section Factory.
Context `{K8s}.

(** The options of the package. *)
Inductive builtin_option : SharedInformerOption → Prop :=
| O_resync c : builtin_option (WithCustomResyncConfig c)
| O_tweak t : builtin_option (WithTweakListOptions t)
| O_namespace ns : builtin_option (WithNamespace ns).

(** A user of the factory asks for an informer, by its interface or by a resource, or starts the
    informers.  The namespace and the tweak of the interfaces are those of the factory. *)
Inductive step : world → world → Prop :=
| S_VirtualMachines w : step w (virtualMachineInformer_Informer (version_VirtualMachines (group_V1alpha1 (Virt (w_factory w)))) w).2
| S_VirtualMachineMigrations w :
    step w (virtualMachineMigrationInformer_Informer (version_VirtualMachineMigrations (group_V1alpha1 (Virt (w_factory w)))) w).2
| S_VirtualMachineReplicaSets w :
    step w (virtualMachineReplicaSetInformer_Informer (version_VirtualMachineReplicaSets (group_V1alpha1 (Virt (w_factory w)))) w).2
| S_ForResource r w : step w (ForResource r w).2
| S_Start w : step w (Start w).

(** The informer that the factory makes for a type. *)
Definition made_by (f : sharedInformerFactory) (t : string) : informer :=
  mkInformer t (f_client f) (f_namespace f) (default (f_defaultResync f) (f_customResync f !! t)) ["namespace"] (f_tweakListOptions f).

(** Each type has at most one informer, made with the factory's settings; no informer was made for
    nothing; an informer runs at most once, and exactly when it is marked as started. *)
Record inv (w : world) : Prop := {
  inv_informers t i : f_informers (w_factory w) !! t = Some i → w_made w !! i = Some (made_by (w_factory w) t);
  inv_made i inf : w_made w !! i = Some inf → f_informers (w_factory w) !! inf_type inf = Some i;
  inv_started t b : f_startedInformers (w_factory w) !! t = Some b → b = true ∧ is_Some (f_informers (w_factory w) !! t);
  inv_nodup : NoDup (w_runs w);
  inv_runs i : i ∈ w_runs w ↔
    ∃ t, f_informers (w_factory w) !! t = Some i ∧ f_startedInformers (w_factory w) !! t = Some true
}.

Lemma inv_inj w t t' i :
  inv w → f_informers (w_factory w) !! t = Some i → f_informers (w_factory w) !! t' = Some i → t = t'.
Proof. intros Hi H1%(inv_informers _ Hi) H2%(inv_informers _ Hi). rewrite H1 in H2. by injection H2. Qed.

Lemma start_round_inv w t i :
  inv w → f_informers (w_factory w) !! t = Some i → inv (start_round w (t, i)).
Proof.
  intros Hi Ht. unfold start_round. destruct (f_startedInformers (w_factory w) !! t) as [b|] eqn:Es.
  { destruct (inv_started _ Hi _ _ Es) as [-> _]. done. }
  destruct Hi as [H1 H2 H3 H4 H5]. split; simpl; [done|done| | |].
  - intros t' b. destruct (decide (t = t')) as [<-|Hn]; [rewrite lookup_insert_eq; by intros [= <-]; eauto|].
    rewrite lookup_insert_ne by done. apply H3.
  - apply NoDup_app. split; [done|]. split; [|apply NoDup_singleton]. intros j Hj ->%list_elem_of_singleton.
    apply H5 in Hj as (t' & Ht' & Hs). assert (t = t') as <- by (apply (inv_inj w t t' i); [by split|done..]). congruence.
  - intros j. rewrite elem_of_app, list_elem_of_singleton, H5. split.
    + intros [(t' & Ht' & Hs)| ->]; [exists t'; split; [done|]|exists t; split; [done|by rewrite lookup_insert_eq]].
      rewrite lookup_insert_ne; [done|]. intros <-. congruence.
    + intros (t' & Ht' & Hs). destruct (decide (t = t')) as [<-|Hn]; [right; congruence|left].
      rewrite lookup_insert_ne in Hs by done. eauto.
Qed.

(** What a start keeps. *)
Lemma start_round_keeps w e :
  f_informers (w_factory (start_round w e)) = f_informers (w_factory w) ∧ w_made (start_round w e) = w_made w ∧
  (∀ i, i ∈ w_runs w → i ∈ w_runs (start_round w e)).
Proof. destruct e as [t i]. unfold start_round. destruct (default false _); simpl; set_solver. Qed.

Lemma foldl_start w l :
  inv w → (∀ t i, (t, i) ∈ l → f_informers (w_factory w) !! t = Some i) →
  inv (foldl start_round w l) ∧ f_informers (w_factory (foldl start_round w l)) = f_informers (w_factory w) ∧
  (∀ i, i ∈ w_runs w → i ∈ w_runs (foldl start_round w l)) ∧
  ∀ t i, (t, i) ∈ l → i ∈ w_runs (foldl start_round w l).
Proof.
  revert w. induction l as [|[t i] l IH]; intros w Hi Hl; cbn [foldl]; [set_solver|].
  pose proof (start_round_inv w t i Hi (Hl t i ltac:(left))) as Hi'.
  destruct (start_round_keeps w (t, i)) as (Hf & _ & Hr).
  destruct (IH (start_round w (t, i)) Hi') as (IH1 & IH2 & IH3 & IH4); [intros; rewrite Hf; apply Hl; by right|].
  split; [done|]. split; [by rewrite IH2|]. split; [by auto|].
  intros t' i' [[= -> ->]|Hin]%elem_of_cons; [|by eapply IH4]. apply IH3.
  unfold start_round. destruct (f_startedInformers (w_factory w) !! t) as [b|] eqn:Es; simpl.
  - destruct (inv_started _ Hi _ _ Es) as [-> _]. simpl. apply (inv_runs _ Hi). exists t. split; [apply Hl; left|done].
  - set_solver.
Qed.

Lemma Start_inv w : inv w → inv (Start w) ∧ f_informers (w_factory (Start w)) = f_informers (w_factory w) ∧
  ∀ t i, f_informers (w_factory w) !! t = Some i → i ∈ w_runs (Start w).
Proof.
  intros Hi. destruct (foldl_start w (map_to_list (f_informers (w_factory w))) Hi) as (H1 & H2 & _ & H4).
  { intros t i. apply elem_of_map_to_list. }
  split; [done|]. split; [done|]. intros t i Ht. by apply (H4 t i), elem_of_map_to_list.
Qed.

Lemma InformerFor_inv t w :
  inv w → let w' := (InformerFor t (λ _ _, made_by (w_factory w) t) w).2 in
  inv w' ∧ ∀ t i, f_informers (w_factory w) !! t = Some i → f_informers (w_factory w') !! t = Some i.
Proof.
  intros Hi. unfold InformerFor. destruct (f_informers (w_factory w) !! t) as [i|] eqn:Ef; simpl; [done|].
  assert (Hkeep : ∀ t' i, f_informers (w_factory w) !! t' = Some i →
    <[t := length (w_made w)]> (f_informers (w_factory w)) !! t' = Some i).
  { intros t' i Ht. rewrite lookup_insert_ne; [done|]. intros <-. congruence. }
  split; [|done]. destruct Hi as [H1 H2 H3 H4 H5]. split; simpl.
  - intros t' i. destruct (decide (t = t')) as [<-|Hn].
    + rewrite lookup_insert_eq. intros [= <-]. by rewrite lookup_app_r, Nat.sub_diag by lia.
    + rewrite lookup_insert_ne by done. intros Ht%H1. by apply lookup_app_l_Some.
  - intros i inf Hm. destruct (decide (i < length (w_made w))%nat) as [Hl|Hl].
    + rewrite lookup_app_l in Hm by done. by apply Hkeep, H2.
    + rewrite lookup_app_r in Hm by lia. apply list_lookup_singleton_Some in Hm as [He <-]. simpl.
      rewrite lookup_insert_eq. f_equal. lia.
  - intros t' b Hs. destruct (H3 _ _ Hs) as [-> [i Ht]]. split; [done|]. exists i. by apply Hkeep.
  - done.
  - intros i. rewrite H5. split; intros (t' & Ht & Hs); [by eauto|].
    destruct (decide (t = t')) as [<-|Hn]; [|rewrite lookup_insert_ne in Ht by done; by eauto].
    destruct (H3 _ _ Hs) as [_ [j Hj]]. congruence.
Qed.

Lemma step_inv w w' : step w w' → inv w →
  inv w' ∧ ∀ t i, f_informers (w_factory w) !! t = Some i → f_informers (w_factory w') !! t = Some i.
Proof.
  assert (Hfor : ∀ t w, inv w → inv (InformerFor t (λ _ _, made_by (w_factory w) t) w).2 ∧
    ∀ t' i, f_informers (w_factory w) !! t' = Some i → f_informers (w_factory (InformerFor t (λ _ _, made_by (w_factory w) t) w).2) !! t' = Some i)
    by (intros; by apply InformerFor_inv).
  intros [w1|w1|w1|r w1|w1] Hi; [by apply (Hfor virtualMachineType)|by apply (Hfor virtualMachineMigrationType)|
    by apply (Hfor virtualMachineReplicaSetType)| |destruct (Start_inv w1 Hi) as (? & -> & _); done].
  unfold ForResource. repeat case_decide; [| | |done].
  - specialize (Hfor virtualMachineType w1 Hi).
    change (InformerFor virtualMachineType _ w1) with (virtualMachineInformer_Informer (version_VirtualMachines (group_V1alpha1 (Virt (w_factory w1)))) w1) in Hfor.
    by destruct (virtualMachineInformer_Informer _ w1).
  - specialize (Hfor virtualMachineMigrationType w1 Hi).
    change (InformerFor virtualMachineMigrationType _ w1) with (virtualMachineMigrationInformer_Informer (version_VirtualMachineMigrations (group_V1alpha1 (Virt (w_factory w1)))) w1) in Hfor.
    by destruct (virtualMachineMigrationInformer_Informer _ w1).
  - specialize (Hfor virtualMachineReplicaSetType w1 Hi).
    change (InformerFor virtualMachineReplicaSetType _ w1) with (virtualMachineReplicaSetInformer_Informer (version_VirtualMachineReplicaSets (group_V1alpha1 (Virt (w_factory w1)))) w1) in Hfor.
    by destruct (virtualMachineReplicaSetInformer_Informer _ w1).
Qed.

Lemma steps_inv w w' : rtc step w w' → inv w →
  inv w' ∧ ∀ t i, f_informers (w_factory w) !! t = Some i → f_informers (w_factory w') !! t = Some i.
Proof.
  induction 1 as [w|w1 w2 w3 Hs _ IH]; intros Hi; [done|]. destruct (step_inv _ _ Hs Hi) as [H2 Hk].
  destruct (IH H2) as [H3 Hk']. split; [done|]. auto.
Qed.

Lemma new_factory_inv client resync options :
  Forall builtin_option options → inv (mkWorld (NewSharedInformerFactoryWithOptions client resync options) [] []).
Proof.
  intros Ho.
  assert (Hf : ∀ f, f_informers f = ∅ → f_startedInformers f = ∅ →
    f_informers (foldl (λ f opt, opt f) f options) = ∅ ∧ f_startedInformers (foldl (λ f opt, opt f) f options) = ∅).
  { induction Ho as [|opt options Hopt _ IH]; intros f Hf Hs; [done|]. cbn [foldl]. by destruct Hopt; apply IH. }
  assert (f_informers (NewSharedInformerFactoryWithOptions client resync options) = ∅ ∧
          f_startedInformers (NewSharedInformerFactoryWithOptions client resync options) = ∅) as [Hi Hs] by by apply Hf.
  split; simpl.
  - intros t i. by rewrite Hi, lookup_empty.
  - done.
  - intros t b. by rewrite Hs, lookup_empty.
  - constructor.
  - intros i. rewrite Hi. split; [by intros ?%not_elem_of_nil|]. intros (t & Ht & _). by rewrite lookup_empty in Ht.
Qed.

(** The informer of the VMs is fed by lists and watches of the VMs of the factory's namespace, with
    the options as the factory tweaks them. *)
Lemma informer_requests w i inf options :
  inv w → f_informers (w_factory w) !! virtualMachineType = Some i → w_made w !! i = Some inf →
  let f := w_factory w in
  let o := tweaked (f_tweakListOptions f) options in
  virtualMachine_ListFunc inf options = virtualMachines_List (newVirtualMachines (f_client f) (f_namespace f)) o ∧
  virtualMachine_WatchFunc inf options = virtualMachines_Watch (newVirtualMachines (f_client f) (f_namespace f)) o.
Proof. intros Hi Ht Hm. rewrite (inv_informers _ Hi _ _ Ht) in Hm. by injection Hm as <-. Qed.

(** C26: however users of the factory ask for informers and start them, in any order and any number
    of times: each type has one informer, made with the factory's client, namespace, tweak and resync
    period of the type; whoever asks later gets the same one; an informer runs at most once, and only
    when it was asked for and started; and a start makes every informer run that was asked for. *)
Theorem informers_shared client resync options w :
  Forall builtin_option options →
  rtc step (mkWorld (NewSharedInformerFactoryWithOptions client resync options) [] []) w →
  inv w ∧
  (∀ w' t i, rtc step w w' → f_informers (w_factory w) !! t = Some i → f_informers (w_factory w') !! t = Some i) ∧
  (∀ t i, f_informers (w_factory w) !! t = Some i → i ∈ w_runs (Start w)).
Proof.
  intros Ho Hw. destruct (steps_inv _ _ Hw (new_factory_inv client resync options Ho)) as [Hi _].
  split; [done|]. split; [|apply (Start_inv w Hi)]. intros w' t i Hw' Ht. by apply (steps_inv _ _ Hw' Hi).
Qed.
End Factory.

#[local] Existing Instance k8s_concrete.
(** A factory for one namespace of which the VMs are asked for twice and started twice. *)
Lemma informers_shared_witness :
  let f := NewSharedInformerFactoryWithOptions virt_client 30 [WithNamespace "prod"; WithCustomResyncConfig [(virtualMachineType, 60)]] in
  let ask := λ w, (virtualMachineInformer_Informer (version_VirtualMachines (group_V1alpha1 (Virt (w_factory w)))) w).2 in
  let w := Start (ask (Start (ask (mkWorld f [] [])))) in
  inv w ∧ w_made w = [mkInformer virtualMachineType virt_client "prod" 60 ["namespace"] None] ∧ w_runs w = [0%nat].
Proof.
  intros f ask w. split; [|split; vm_compute; reflexivity].
  apply (informers_shared virt_client 30 [WithNamespace "prod"; WithCustomResyncConfig [(virtualMachineType, 60)]] w).
  - repeat constructor.
  - eapply rtc_l; [apply S_VirtualMachines|]. eapply rtc_l; [apply S_Start|].
    eapply rtc_l; [apply S_VirtualMachines|]. eapply rtc_l; [apply S_Start|]. apply rtc_refl.
Defined.
