(* ===== verification/DevicePlugin.v ===== *)
(** * The device plugins: pkg/daemon/deviceplugin/deviceplugin.go

    Each node offers /dev/kvm and /dev/net/tun to the kubelet as countable resources.  A plugin
    registers with the kubelet, lists its devices, and watches the device file and its own
    socket.  The set-up of a run is a program over calls; the goroutines that are alive after
    it (the health check, the stream of [ListAndWatch], the loop of [Start]) are the steps of a
    transition system, with Go's rule that a send to a channel that was never made blocks. *)

From stdpp Require Import base gmap strings list sets fin_maps relations.
From Stdlib Require Import ZArith Lia Ascii.
From S2P Require Import Prelude GoStd.
Open Scope Z_scope.

Definition devicePluginsDir : string := "/var/lib/kubelet/device-plugins".
Definition kubeletSocketName : string := "kubelet.sock".
Definition socketNamePrefix : string := "virtink-".
Definition resourceNamePrefix : string := "devices.virtink.io/".

(** ** The plugin *)

Inductive Health := Healthy | Unhealthy.
Record Device := mkDevice { Device_ID : string; Device_Health : Health }.

(** A channel is [None] when it is nil. *)
Record devicePlugin := mkDevicePlugin {
  dp_deviceName : string;
  dp_devicePath : string;
  dp_devices : list Device;
  dp_socketPath : string;
  dp_health : option nat
}.

Definition newDevicePlugin (deviceName devicePath : string) (deviceCount : nat) : devicePlugin :=
  mkDevicePlugin deviceName devicePath
    (map (λ i, mkDevice (deviceName +:+ Strconv.FormatInt (Z.of_nat i)) Healthy) (seq 1 deviceCount)) "" None.

Definition NewDevicePluginManager : list devicePlugin :=
  [newDevicePlugin "kvm" "/dev/kvm" 1000; newDevicePlugin "tun" "/dev/net/tun" 1000].

Definition set_socketPath (p : string) (dp : devicePlugin) : devicePlugin :=
  let '(mkDevicePlugin n d l _ h) := dp in mkDevicePlugin n d l p h.
Definition set_devices (l : list Device) (dp : devicePlugin) : devicePlugin :=
  let '(mkDevicePlugin n d _ p h) := dp in mkDevicePlugin n d l p h.

(** ** The kubelet's requests *)

Record DeviceSpec := mkDeviceSpec { HostPath_ : string; ContainerPath : string; Permissions : string }.

(** A request names the devices of each container; the answer mounts the device file for each. *)
Definition Allocate (dp : devicePlugin) (req : list (list string)) : list (list DeviceSpec) :=
  map (λ ids, map (λ _, mkDeviceSpec (dp_devicePath dp) (dp_devicePath dp) "rwm") ids) req.

Record RegisterRequest := mkRegisterRequest { Version : string; Endpoint : string; ResourceName : string }.

Definition socket_path (dp : devicePlugin) : string :=
  JoinPath [devicePluginsDir; (socketNamePrefix +:+ dp_deviceName dp +:+ ".sock")%string].

Definition register_request (dp : devicePlugin) : RegisterRequest :=
  mkRegisterRequest "v1beta1" (default "" (last (Strings.Split "/"%char (dp_socketPath dp))))
    (resourceNamePrefix +:+ dp_deviceName dp).

(** ** One run: serve, register, watch *)

Inductive dpE : Type → Type :=
| RemoveFile (path : string) : dpE (option goerror)
| Listen (path : string) : dpE (option goerror)
(** [go server.Serve(listener)] *)
| GoServe (path : string) : dpE unit
| WaitForGRPCServer (path : string) : dpE (option goerror)
| DialKubelet (path : string) : dpE (option goerror)
| Register (req : RegisterRequest) : dpE (option goerror)
| CloseListener (path : string) : dpE unit
(** [go dp.healthCheck()] *)
| GoHealthCheck : dpE unit
(** the goroutine of [devicePlugin.Start] *)
| GoRun (name : string) : dpE unit
(** [<-ctx.Done()]: the plugins whose goroutine has made a server and set its socket by then *)
| WaitDone : dpE (list string)
| StopServer (name : string) : dpE unit
| RemoveAllFiles (path : string) : dpE (option goerror).

Definition register (dp : devicePlugin) : prog dpE (option goerror) :=
  (let! err := call (DialKubelet (JoinPath [devicePluginsDir; kubeletSocketName])) in
   match err with
   | Some e => Ret (Some (ErrFmt "dial" e))
   | None =>
       let! err := call (Register (register_request dp)) in
       Ret (match err with Some e => Some (ErrFmt "register to kubelet" e) | None => None end)
   end)%go.

(** [run] up to the point where it waits for its goroutines: the plugin with its socket, or
    the error with which it returns, after closing the listener. *)
Definition run_setup (dp : devicePlugin) : prog dpE (result devicePlugin) :=
  let dp := set_socketPath (socket_path dp) dp in
  let path := dp_socketPath dp in
  let fail (e : goerror) : prog dpE (result devicePlugin) := (call (CloseListener path) ;;; Ret (Err e))%go in
  (call (RemoveFile path) ;;;
   let! err := call (Listen path) in
   match err with
   | Some e => Ret (Err (ErrFmt "failed to listen" e))
   | None =>
       call (GoServe path) ;;;
       let! err := call (WaitForGRPCServer path) in
       match err with
       | Some e => fail e
       | None =>
           let! err := register dp in
           match err with
           | Some e => fail e
           | None => call GoHealthCheck ;;; Ret (Ok dp)
           end
       end
   end)%go.

(** [Start] of a plugin: [run] again and again in a goroutine. *)
Definition devicePlugin_Start (dp : devicePlugin) : prog dpE unit := call (GoRun (dp_deviceName dp)).

(** [Stop]; [made] is whether [run] has made the plugin's server: the methods of a nil server
    dereference it.  The socket path is set right after the server. *)
Definition Stop (made : bool) (dp : devicePlugin) : prog dpE unit :=
  (if made then call (StopServer (dp_deviceName dp)) ;;; call (RemoveAllFiles (socket_path dp)) ;;; Ret tt
   else Crash "nil pointer dereference")%go.

Fixpoint each (f : devicePlugin → prog dpE unit) (l : list devicePlugin) : prog dpE unit :=
  match l with [] => Ret tt | dp :: l => (f dp ;;; each f l)%go end.

(** [Start] of the manager. *)
Definition manager_Start (dpm : list devicePlugin) : prog dpE (option goerror) :=
  (each devicePlugin_Start dpm ;;;
   let! made := call WaitDone in
   each (λ dp, Stop (bool_decide (dp_deviceName dp ∈ made)) dp) dpm ;;;
   Ret None)%go.

(** ** The health check *)

Inductive Op := OpCreate | OpRemove | OpRename | OpOther.
Record Event := mkEvent { Event_Name : string; Event_Op : Op }.

(** What the loop of [healthCheck] does next. *)
Inductive checker :=
| Watching
| Sending (h : Health)
| Ended.

Definition on_event (dp : devicePlugin) (e : Event) : checker :=
  if decide (dp_devicePath dp = Event_Name e) then
    match Event_Op e with
    | OpRemove | OpRename => Sending Unhealthy
    | OpCreate => Sending Healthy
    | OpOther => Watching
    end
  else if decide (dp_socketPath dp = Event_Name e) then
    match Event_Op e with OpRemove => Ended | _ => Watching end
  else Watching.

(** [for _, dev := range dp.devices { dev.Health = health }]. *)
Definition mark (h : Health) (dp : devicePlugin) : devicePlugin :=
  set_devices (map (λ d, mkDevice (Device_ID d) h) (dp_devices dp)) dp.

(** ** The goroutines of a plugin

    [current] is the health check of the run in progress; those of earlier runs are not
    stopped.  [listed] are the answers sent on the streams of [ListAndWatch]. *)
Record state := mkState {
  plugin : devicePlugin;
  current : option checker;
  earlier : list checker;
  listed : list (list Device);
  registrations : nat
}.

Definition initial_state (dp : devicePlugin) : state := mkState dp None [] [] 0.

Inductive step : state → state → Prop :=
(** [Start] enters [run] again, and the set-up fails or succeeds *)
| step_setup_fails dp old l n :
    step (mkState dp None old l n) (mkState (set_socketPath (socket_path dp) dp) None old l n)
| step_setup dp old l n :
    step (mkState dp None old l n) (mkState (set_socketPath (socket_path dp) dp) (Some Watching) old l (S n))
(** a stream opens, or its ticker fires *)
| step_list dp c old l n :
    step (mkState dp c old l n) (mkState dp c old (l ++ [dp_devices dp]) n)
(** the watcher delivers an event to a health check *)
| step_event dp e old l n :
    step (mkState dp (Some Watching) old l n) (mkState dp (Some (on_event dp e)) old l n)
| step_event_earlier dp c e old old' l n :
    step (mkState dp c (old ++ Watching :: old') l n) (mkState dp c (old ++ on_event dp e :: old') l n)
(** a health check hands its message to a stream: only over a channel that was made *)
| step_health dp ch h old l n :
    dp_health dp = Some ch →
    step (mkState dp (Some (Sending h)) old l n)
      (mkState (mark h dp) (Some Watching) old (l ++ [dp_devices (mark h dp)]) n)
| step_health_earlier dp ch c h old old' l n :
    dp_health dp = Some ch →
    step (mkState dp c (old ++ Sending h :: old') l n)
      (mkState (mark h dp) c (old ++ Watching :: old') (l ++ [dp_devices (mark h dp)]) n)
(** [run] returns: the watcher of its health check could not be set up, its health check ended,
    or its server failed *)
| step_watch_fails dp old l n :
    step (mkState dp (Some Watching) old l n) (mkState dp None old l n)
| step_end dp old l n :
    step (mkState dp (Some Ended) old l n) (mkState dp None old l n)
| step_serve_fails dp c old l n :
    step (mkState dp (Some c) old l n) (mkState dp None (c :: old) l n).

(** The steps in which no server and no watcher fails. *)
Inductive quiet_step : state → state → Prop :=
| quiet s s' : step s s' → (current s ≠ None → current s' = None → current s = Some Ended) → quiet_step s s'.

(** ** Devices *)

Lemma append_inj_l (s a b : string) : (s +:+ a = s +:+ b)%string → a = b.
Proof.
  induction s as [|c s IH]; [done|]. intros E. apply IH.
  change (String c (s +:+ a) = String c (s +:+ b))%string in E. by injection E.
Qed.

(** A plugin offers as many devices as it was asked to, under different names. *)
Lemma newDevicePlugin_devices name path count :
  Z.of_nat count < 2 ^ 62 →
  length (dp_devices (newDevicePlugin name path count)) = count ∧
  NoDup (Device_ID <$> dp_devices (newDevicePlugin name path count)).
Proof.
  intros Hc. simpl. split; [by rewrite length_map, length_seq|].
  change (map ?f ?l) with (f <$> l). rewrite <-list_fmap_compose. apply NoDup_fmap_2_strong; [|apply NoDup_seq].
  intros i j Hi Hj E. simpl in E. apply append_inj_l in E. apply elem_of_seq in Hi, Hj.
  assert (Strconv.Atoi (Strconv.FormatInt (Z.of_nat i)) = Strconv.Atoi (Strconv.FormatInt (Z.of_nat j))) as Ea by (by rewrite E).
  rewrite !Strconv.Atoi_FormatInt in Ea by lia. injection Ea. lia.
Qed.

(** The kubelet gets one device file per device it allocates. *)
Lemma Allocate_counts dp req : map length (Allocate dp req) = map length req.
Proof. unfold Allocate. rewrite map_map. apply map_ext. intros ids. apply length_map. Qed.

(** ** Reachable states *)

Lemma set_socketPath_health p dp : dp_health (set_socketPath p dp) = dp_health dp.
Proof. by destruct dp. Qed.
Lemma set_socketPath_devices p dp : dp_devices (set_socketPath p dp) = dp_devices dp.
Proof. by destruct dp. Qed.

(** With the channel nil, the devices stay as they were made and so does every answer. *)
Definition unchanged (l : list Device) (s : state) : Prop :=
  dp_health (plugin s) = None ∧ dp_devices (plugin s) = l ∧ Forall (eq l) (listed s).

Lemma unchanged_step l s s' : step s s' → unchanged l s → unchanged l s'.
Proof.
  intros Hs (Hh & Hd & Hl). unfold unchanged. destruct Hs; simpl in *; simplify_eq; try done;
    rewrite ?set_socketPath_health, ?set_socketPath_devices; try done.
  split_and!; [done..|]. apply Forall_app. split; [done|]. by constructor.
Qed.

Lemma unchanged_steps l s s' : rtc step s s' → unchanged l s → unchanged l s'.
Proof. induction 1 as [|s s1 s' Hs _ IH]; [done|]. intros Hu. apply IH. by eapply unchanged_step. Qed.

(** A health check that is sending stays so, and its run goes on. *)
Lemma sending_step s s' h :
  quiet_step s s' → dp_health (plugin s) = None → current s = Some (Sending h) →
  dp_health (plugin s') = None ∧ current s' = Some (Sending h) ∧ registrations s' = registrations s.
Proof.
  intros [? ? Hs Hq] Hh Hc. destruct Hs; simpl in *; simplify_eq; try done.
  by specialize (Hq ltac:(done) eq_refl).
Qed.

(** The channel of device health is never made.  In every reachable state of a plugin the
    list of devices, and every list the kubelet was sent, is the one of the start, all healthy,
    whatever happened to the device file; and once the file was removed or created during a
    run, that run's health check is stuck: as long as the server does not fail, whatever events
    follow (also the removal of the plugin's socket by a restarting kubelet), the run does not
    return and the plugin does not register again. *)
Theorem health_never_reported name path count :
  let dp := newDevicePlugin name path count in
  (∀ s, rtc step (initial_state dp) s →
     dp_devices (plugin s) = dp_devices dp ∧ Forall (eq (dp_devices dp)) (listed s) ∧
     Forall (λ d, Device_Health d = Healthy) (dp_devices dp)) ∧
  (∀ s s' e, rtc step (initial_state dp) s → current s = Some Watching →
     Event_Name e = dp_devicePath (plugin s) → Event_Op e ≠ OpOther →
     rtc quiet_step (mkState (plugin s) (Some (on_event (plugin s) e)) (earlier s) (listed s) (registrations s)) s' →
     (∃ h, current s' = Some (Sending h)) ∧ registrations s' = registrations s).
Proof.
  intros dp. assert (Hinv : ∀ s, rtc step (initial_state dp) s → unchanged (dp_devices dp) s).
  { intros s Hs. eapply unchanged_steps; [exact Hs|by split]. }
  split.
  - intros s Hs. destruct (Hinv s Hs) as (_ & Hd & Hl). split_and!; [done..|].
    apply Forall_map. apply Forall_forall. done.
  - intros s s' e Hs Hc He Ho Hq. destruct (Hinv s Hs) as (Hh & _ & _).
    assert (Hon : ∃ h, on_event (plugin s) e = Sending h).
    { unfold on_event. rewrite decide_True by done. destruct (Event_Op e); eauto; done. }
    destruct Hon as [h Hon]. rewrite Hon in Hq.
    assert (Hgen : ∀ t t', rtc quiet_step t t' → dp_health (plugin t) = None → current t = Some (Sending h) →
      current t' = Some (Sending h) ∧ registrations t' = registrations t).
    { induction 1 as [t|t t1 t' Hstep _ IH]; intros Ht Hct; [done|].
      destruct (sending_step t t1 h Hstep Ht Hct) as (H1 & H2 & <-). by apply IH. }
    destruct (Hgen _ _ Hq Hh eq_refl) as [H1 H2]. split; [by exists h|done].
Qed.

(** The resources a VM pod asks for are those the plugins register. *)
Lemma plugins_serve_pods :
  map ResourceName (map register_request NewDevicePluginManager) = ["devices.virtink.io/kvm"; "devices.virtink.io/tun"].
Proof. reflexivity. Qed.

(** ** Shutdown *)

Lemma run_each_stop {W} (h : handler dpE W) (made : list string) l w :
  (∃ w', run h (each (λ dp, Stop (bool_decide (dp_deviceName dp ∈ made)) dp) l) w = (Returned tt, w')) ↔
  Forall (λ dp, dp_deviceName dp ∈ made) l.
Proof.
  revert w. induction l as [|dp l IH]; intros w; simpl; [split; [by constructor|by eauto]|].
  rewrite Forall_cons. unfold Stop. case_bool_decide as Hm; simpl.
  - destruct (h unit _ w) as [[] w1]. destruct (h (option goerror) _ w1) as [x w2]. rewrite (IH w2). tauto.
  - split; [by intros [w' ?]|tauto].
Qed.

(** The manager ends without a panic exactly when each plugin has made its server before the
    context is done: a daemon that is stopped right after its start panics. *)
Lemma manager_Start_ends {W} (h : handler dpE W) dpm w :
  (∃ w', run h (manager_Start dpm) w = (Returned None, w')) ↔
  ∃ w1, run h (each devicePlugin_Start dpm) w = (Returned tt, w1) ∧
    Forall (λ dp, dp_deviceName dp ∈ (h _ WaitDone w1).1) dpm.
Proof.
  unfold manager_Start. rewrite run_pbind. destruct (run h (each devicePlugin_Start dpm) w) as [[[]|why] w1].
  2: { split; [by intros [w' ?]|by intros (w2 & ? & _)]. }
  simpl. destruct (h (list string) WaitDone w1) as [made w2] eqn:Ew. rewrite run_pbind.
  pose proof (run_each_stop h made dpm w2) as Hs. split.
  - intros [w' Hr]. exists w1. split; [done|]. rewrite Ew. apply Hs. destruct (run h _ w2) as [[[]|why] w3]; [by eauto|done].
  - intros (w1' & [= <-] & Hf). rewrite Ew in Hf. apply Hs in Hf as [w3 ->]. by exists w3.
Qed.
