(* ===== verification/Console.v ===== *)
(** * Consoles: pkg/apiserver/registry/subresources/console and pkg/daemon/console_server.go

    A console connection goes through the aggregated API server ([Connect] and its proxy) to
    the console server of the daemon on the VM's node, which joins it to the hypervisor's
    serial socket or console terminal.  Requests to the API server, web sockets, files and
    processes are calls of [conE]; the copy loops are programs of their own. *)

From stdpp Require Import base gmap strings list sets fin_maps.
From Stdlib Require Import ZArith Lia Ascii.
From S2P Require Import Prelude GoStd K8s ApiTypes Kube VmValidate.
Open Scope Z_scope.

Definition virtDaemonNamespace : string := "virtink-system".
Definition virtDaemonPort : Z := 8082.

(** [strings.Trim(s, "/")]. *)
Definition is_slash (c : ascii) : bool := bool_decide (c = "/"%char).
Definition TrimSlashes (s : string) : string := Strings.TrimRightFunc is_slash (Strings.TrimLeftFunc is_slash s).

(** What an HTTP handler answers before the connection becomes a web socket. *)
Inductive HttpAnswer :=
| HttpStatus (code : Z)
| HttpHijacked.

Definition StatusMethodNotAllowed : Z := 405.
Definition StatusNotFound : Z := 404.
Definition StatusConflict : Z := 409.
Definition StatusServiceUnavailable : Z := 503.

Section Console.
Context `{K8s}.

Inductive conE : Type → Type :=
| ConGetVM (key : NamespacedName) : conE (result VirtualMachine)
(** pods of a namespace with the label name=virt-daemon on a node *)
| ListDaemonPods (namespace node : string) : conE (result (list Pod))
| Upgrade : conE (option goerror)
(** [websocket.DefaultDialer.Dial] *)
| DialWebSocket (host path : string) (query : option string) : conE (option goerror)
| SendText (msg : string) : conE unit
| ConStat (path : string) : conE (result bool)
| ConRemove (path : string) : conE unit
| Symlink (target link : string) : conE (option goerror)
| DialUnix (path : string) : conE (option goerror)
(** reading and decoding vm-config.json: the console's mode and file *)
| ReadConsoleConfig (path : string) : conE (result (string * string))
(** [cmd.Output] *)
| Output (name : string) (args : list string) : conE (result string)
| DecodePid (json : string) : conE (result Z)
| OpenFile (path : string) : conE (option goerror)
(** the two copy loops, until one of them or the request ends *)
| Bridge_ : conE unit.

Abbreviation oprog := (prog conE).

(** ** The API server's side *)

(** [ConsoleREST.Connect]; [opts] is the console type of the options when they have the right
    type, [namespace] the value of the context under the key "namespace". *)
Definition Connect (opts : option string) (namespace : option string) (name : string)
    : oprog (result (VirtualMachine * string)) :=
  match opts, namespace with
  | None, _ => Ret (Err (ErrMsg "invalid options object"))
  | Some _, None => Ret (Err (ErrMsg "namespace not found in context"))
  | Some type, Some ns =>
      (let! r := call (ConGetVM (mkNN ns name)) in
       match r with
       | Err e => Ret (Err (ErrWrap "failed to get VirtualMachine" e))
       | Ok vm =>
           if negb (bool_decide (Phase (Status vm) = VirtualMachineRunning)) then Ret (Err (ErrMsg "VM is not in Running state"))
           else if decide (NodeName (Status vm) = "") then Ret (Err (ErrMsg "VM has not been scheduled to a node"))
           else Ret (Ok (vm, type))
       end)%go
  end.

Definition findVirtDaemonPod (vm : VirtualMachine) : oprog (result Pod) :=
  (let! r := call (ListDaemonPods virtDaemonNamespace (NodeName (Status vm))) in
   Ret match r with
       | Err e => Err (ErrWrap "failed to list virt-daemon pods" e)
       | Ok [] => Err (ErrMsg ("no virt-daemon pod found on node " +:+ NodeName (Status vm))%string)
       | Ok (pod :: _) =>
           if negb (bool_decide (PodStatus_Phase (pod_Status pod) = PodRunning)) then Err (ErrMsg "virt-daemon pod is not running")
           else Ok pod
       end)%go.

(** The path of a VM's console at the daemon. *)
Definition consolePath (namespace name : string) : string :=
  ("/api/v1/vms/" +:+ namespace +:+ "/" +:+ name +:+ "/console")%string.

(** [buildDaemonURL]: host, path and the query's parameter [type]. *)
Definition buildDaemonURL (vm : VirtualMachine) (type : string) (pod : Pod) : result (string * string * option string) :=
  if decide (PodIP (pod_Status pod) = "") then Err (ErrMsg "virt-daemon pod has no IP")
  else Ok ((PodIP (pod_Status pod) +:+ ":" +:+ Strconv.FormatInt virtDaemonPort)%string,
           consolePath (om_Namespace (vm_meta vm)) (om_Name (vm_meta vm)),
           if decide (type = "") then None else Some type).

Definition ServeHTTP (vm : VirtualMachine) (type : string) : oprog HttpAnswer :=
  (let! pod := findVirtDaemonPod vm in
   match pod with
   | Err _ => Ret (HttpStatus StatusServiceUnavailable)
   | Ok pod =>
       match buildDaemonURL vm type pod with
       | Err _ => Ret (HttpStatus StatusInternalServerError)
       | Ok (host, path, query) =>
           let! err := call Upgrade in
           match err with
           | Some _ => Ret HttpHijacked
           | None =>
               let! err := call (DialWebSocket host path query) in
               match err with
               | Some _ => Ret HttpHijacked
               | None => call Bridge_ ;;; Ret HttpHijacked
               end
           end
       end
   end)%go.

(** ** The daemon's side *)

Definition parseConsolePath (path : string) : option (string * string) :=
  match Strings.Split "/"%char (TrimSlashes path) with
  | [api; v1; vms; namespace; name; console] =>
      if negb (bool_decide (api = "api")) || negb (bool_decide (v1 = "v1")) || negb (bool_decide (vms = "vms")) ||
         negb (bool_decide (console = "console")) then None
      else if bool_decide (namespace = "") || bool_decide (name = "") then None
      else Some (namespace, name)
  | _ => None
  end.

Definition podVolume (uid file : string) : string :=
  JoinPath ["/var/lib/kubelet/pods"; uid; ("volumes/kubernetes.io~empty-dir/virtink/" +:+ file)%string].

Definition serialLink (uid : string) : string := JoinPath ["/tmp"; ("serial-" +:+ String.substring 0 8 uid +:+ ".sock")%string].

(** The path to dial: a short symbolic link when the socket's path is too long for a socket
    address, and whether the link is to be removed afterwards. *)
Definition dial_path (uid socketPath : string) : oprog (string * bool) :=
  if (100 <? String.length socketPath)%nat then
    if (String.length uid <? 8)%nat then Crash "slice bounds out of range"
    else
      let tmpLink := serialLink uid in
      (call (ConRemove tmpLink) ;;;
       let! err := call (Symlink socketPath tmpLink) in
       Ret match err with None => (tmpLink, true) | Some _ => (socketPath, false) end)%go
  else Ret (socketPath, false).

Definition handleSerialSocket (vm : VirtualMachine) : oprog unit :=
  let uid := VMPodUID (Status vm) in
  let socketPath := podVolume uid "serial.sock" in
  (let! st := call (ConStat socketPath) in
   match st with
   | Err _ => call (SendText "stat serial socket")
   | Ok false => call (SendText "serial socket not found")
   | Ok true =>
       let! (dialPath, linked) := dial_path uid socketPath in
       let! err := call (DialUnix dialPath) in
       (match err with
        | Some _ => call (SendText "dial serial socket")
        | None => call Bridge_
        end) ;;;
       if linked : bool then call (ConRemove dialPath) else Ret tt
   end)%go.

Definition findContainerID (podUID containerName : string) : oprog (result string) :=
  (let! out := call (Output "crictl" ["ps"; "--pod"; podUID; "--name"; containerName; "-q"]) in
   Ret match out with
       | Err e => Err (ErrWrap "crictl ps" e)
       | Ok output =>
           let containerID := Strings.TrimSpace output in
           if decide (containerID = "") then Err (ErrMsg "container not found") else Ok containerID
       end)%go.

Definition getContainerPID (containerID : string) : oprog (result Z) :=
  (let! out := call (Output "crictl" ["inspect"; containerID]) in
   match out with
   | Err e => Ret (Err (ErrWrap "crictl inspect" e))
   | Ok output =>
       let! pid := call (DecodePid output) in
       Ret match pid with
           | Err e => Err (ErrWrap "parse crictl output" e)
           | Ok pid => if pid =? 0 then Err (ErrMsg "PID not found in container info") else Ok pid
           end
   end)%go.

Definition handleConsolePty (vm : VirtualMachine) : oprog unit :=
  let uid := VMPodUID (Status vm) in
  (let! config := call (ReadConsoleConfig (JoinPath [JoinPath ["/var/lib/kubelet/pods"; uid];
                          "volumes/kubernetes.io~empty-dir/virtink/vm-config.json"])) in
   match config with
   | Err _ => call (SendText "read or parse vm-config.json")
   | Ok (mode, file) =>
       if negb (bool_decide (mode = "Pty")) then call (SendText "console mode is not 'Pty'")
       else if decide (file = "") then call (SendText "console file path not found in config")
       else
         let! id := findContainerID uid "cloud-hypervisor" in
         match id with
         | Err _ => call (SendText "find container")
         | Ok id =>
             let! pid := getContainerPID id in
             match pid with
             | Err _ => call (SendText "get container PID")
             | Ok pid =>
                 let! err := call (OpenFile (JoinPath ["/proc"; Strconv.FormatInt pid; "root"; file])) in
                 match err with
                 | Some _ => call (SendText "open pty")
                 | None => call Bridge_
                 end
             end
         end
   end)%go.

(** [handleConsole] for a request's method, path and parameter [type]. *)
Definition handleConsole (nodeName : string) (isGet : bool) (path : string) (type : string) : oprog HttpAnswer :=
  if negb isGet then Ret (HttpStatus StatusMethodNotAllowed)
  else
    match parseConsolePath path with
    | None => Ret (HttpStatus StatusNotFound)
    | Some (namespace, name) =>
        let consoleType := if decide (type = "") then "serial" else type in
        if negb (bool_decide (consoleType = "console")) && negb (bool_decide (consoleType = "serial"))
        then Ret (HttpStatus StatusBadRequest)
        else
          (let! r := call (ConGetVM (mkNN namespace name)) in
           match r with
           | Err _ => Ret (HttpStatus StatusNotFound)
           | Ok vm =>
               if bool_decide (VMPodUID (Status vm) = "") || bool_decide (NodeName (Status vm) = "") then Ret (HttpStatus StatusConflict)
               else if negb (bool_decide (nodeName = "")) && negb (bool_decide (NodeName (Status vm) = nodeName))
               then Ret (HttpStatus StatusConflict)
               else
                 let! err := call Upgrade in
                 match err with
                 | Some _ => Ret HttpHijacked
                 | None =>
                     (if decide (consoleType = "console") then handleConsolePty vm else handleSerialSocket vm) ;;;
                     Ret HttpHijacked
                 end
           end)%go
    end.

End Console.

(** ** The server

    [ConsoleServer.Start]: a shutdown within five seconds is set up for the end of the context; the
    server's error is returned unless it is the one of a server that was shut down. *)

Inductive serveE : Type → Type :=
| GoShutdownOnDone (seconds : Z) : serveE unit
(** [ListenAndServe] with one handler; whether the error is [http.ErrServerClosed] *)
| ListenAndServe (addr prefix : string) (readHeaderSeconds : Z) : serveE (option (goerror * bool)).

Record ConsoleServer := mkConsoleServer { cs_nodeName : string; cs_addr : string }.

Definition ConsoleServer_Start (s : ConsoleServer) : prog serveE (option goerror) :=
  (call (GoShutdownOnDone 5) ;;;
   let! err := call (ListenAndServe (cs_addr s) "/api/v1/vms/" 5) in
   Ret (match err with Some (e, false) => Some e | _ => None end))%go.

(** ** The copy loops

    One direction of a console: bytes are read from a terminal or a socket and written as
    binary messages, or messages are read and their bytes written.  [fuel] bounds the passes;
    [None] is a loop that is still copying. *)

Inductive pumpE : Type → Type :=
(** [Read]: the bytes, and an error that may come with them *)
| ReadSource : pumpE (list Z * option goerror)
| NextWriter : pumpE (option goerror)
| WriteMessage (b : list Z) : pumpE (option goerror)
| CloseWriter : pumpE (option goerror)
(** [NextReader]: whether the message is text or binary, and its content *)
| NextReader : pumpE (result (bool * list Z))
(** [io.Copy(conn, reader)] *)
| CopyTo (b : list Z) : pumpE (option goerror)
(** [ReadMessage] and [WriteMessage] of a whole message with its type; [Ok None] is a normal
    closure *)
| ReadWhole : pumpE (result (option (Z * list Z)))
| WriteWhole (type : Z) (b : list Z) : pumpE (option goerror).

(** [copyConnToWebSocket]: the error sent to the channel. *)
Fixpoint copyToWebSocket (fuel : nat) : prog pumpE (option goerror) :=
  match fuel with
  | O => Ret None
  | S f =>
      (let! (b, err) := call ReadSource in
       let next := match err with Some e => Ret (Some e) | None => copyToWebSocket f end in
       match b with
       | [] => next
       | _ =>
           let! e := call NextWriter in
           match e with
           | Some e => Ret (Some e)
           | None =>
               let! e := call (WriteMessage b) in
               match e with
               | Some e => call CloseWriter ;;; Ret (Some e)
               | None =>
                   let! e := call CloseWriter in
                   match e with
                   | Some e => Ret (Some e)
                   | None => next
                   end
               end
           end
       end)%go
  end.

(** [copyFileToWebSocket] is the same loop on a file. *)
Definition copyFileToWebSocket : nat → prog pumpE (option goerror) := copyToWebSocket.

(** [copyWebSocketToConn]. *)
Fixpoint copyFromWebSocket (fuel : nat) : prog pumpE (option goerror) :=
  match fuel with
  | O => Ret None
  | S f =>
      (let! r := call NextReader in
       match r with
       | Err e => Ret (Some e)
       | Ok (false, _) => copyFromWebSocket f
       | Ok (true, b) =>
           let! e := call (CopyTo b) in
           match e with Some e => Ret (Some e) | None => copyFromWebSocket f end
       end)%go
  end.

(** [copyWebSocketToFile] is the same loop to a file. *)
Definition copyWebSocketToFile : nat → prog pumpE (option goerror) := copyFromWebSocket.

(** [copyWebSocket] of the proxy: [Ok true] is a normal closure, [Ok false] a loop that is
    still copying. *)
Fixpoint copyWebSocket (fuel : nat) (direction : string) : prog pumpE (result bool) :=
  match fuel with
  | O => Ret (Ok false)
  | S f =>
      (let! r := call ReadWhole in
       match r with
       | Err e => Ret (Err (ErrWrap (direction +:+ " read error")%string e))
       | Ok None => Ret (Ok true)
       | Ok (Some (type, b)) =>
           let! e := call (WriteWhole type b) in
           match e with
           | Some e => Ret (Err (ErrWrap (direction +:+ " write error")%string e))
           | None => copyWebSocket f direction
           end
       end)%go
  end.
