(* ===== verification/ConsoleProofs.v ===== *)
(** * Correctness of the consoles

    The path a console request takes from the API server to the daemon, what the daemon opens
    for it, and the order of the bytes that are copied. *)

From stdpp Require Import base gmap strings list sets fin_maps.
From Stdlib Require Import ZArith Lia Ascii.
From S2P Require Import Prelude GoStd K8s ApiTypes Kube VmValidate Prerunner Console.
Open Scope Z_scope.

(** ** Paths *)

Lemma TrimSlashes_console ns name :
  TrimSlashes (consolePath ns name) = ("api/v1/vms/" +:+ ns +:+ "/" +:+ name +:+ "/console")%string.
Proof.
  unfold TrimSlashes, consolePath.
  change (Strings.TrimLeftFunc is_slash ("/api/v1/vms/" +:+ ns +:+ "/" +:+ name +:+ "/console"))
    with ("api/v1/vms/" +:+ ns +:+ "/" +:+ name +:+ "/console")%string.
  assert (E : ("api/v1/vms/" +:+ ns +:+ "/" +:+ name +:+ "/console" =
    ("api/v1/vms/" +:+ ns +:+ "/" +:+ name +:+ "/consol") +:+ String "e" EmptyString)%string)
    by (rewrite !Strings.append_assoc; reflexivity).
  rewrite E. by apply Strings.TrimRightFunc_keeps.
Qed.

(** The daemon reads the namespace and the name the API server's proxy wrote. *)
Lemma parse_consolePath ns name :
  Strings.lacks "/"%char ns → Strings.lacks "/"%char name → ns ≠ "" → name ≠ "" →
  parseConsolePath (consolePath ns name) = Some (ns, name).
Proof.
  intros H1 H2 H3 H4. unfold parseConsolePath. rewrite TrimSlashes_console.
  change ("api/v1/vms/" +:+ ns +:+ "/" +:+ name +:+ "/console")%string
    with ("api" +:+ String "/" ("v1" +:+ String "/" ("vms" +:+ String "/" (ns +:+ String "/" (name +:+ String "/" "console")))))%string.
  rewrite !Strings.Split_app by done. simpl. by rewrite !bool_decide_eq_false_2 by done.
Qed.

(** A file of the VM pod's volume, on the node. *)
Lemma podVolume_path uid file :
  path_element uid → path_element file →
  podVolume uid file = ("/var/lib/kubelet/pods/" +:+ uid +:+ "/volumes/kubernetes.io~empty-dir/virtink/" +:+ file)%string.
Proof.
  intros Hu Hf. unfold podVolume.
  change (JoinPath _) with (Clean ("" +:+ String "/" ("var" +:+ String "/" ("lib" +:+ String "/" ("kubelet" +:+ String "/" ("pods" +:+
    String "/" (uid +:+ String "/" ("volumes" +:+ String "/" ("kubernetes.io~empty-dir" +:+ String "/" ("virtink" +:+ String "/" file)))))))))).
  unfold Clean. rewrite !Strings.Split_app, Strings.Split_lacks by (done || apply Hu || apply Hf).
  cbn [foldl]. rewrite !(clean_component_element _ _ uid), !(clean_component_element _ _ file) by done. reflexivity.
Qed.

Lemma length_substring8 s : (8 ≤ String.length s)%nat → String.length (String.substring 0 8 s) = 8%nat.
Proof. intros Hs. do 8 (destruct s as [|? s]; [simpl in Hs; lia|]). cbn. by destruct s. Qed.

Lemma serialLink_path uid :
  Strings.lacks "/"%char uid → serialLink uid = ("/tmp/serial-" +:+ String.substring 0 8 uid +:+ ".sock")%string.
Proof.
  intros Hu. unfold serialLink. set (u := String.substring 0 8 uid).
  change (JoinPath _) with (Clean ("" +:+ String "/" ("tmp" +:+ String "/" (("serial-" +:+ u) +:+ ".sock")))). unfold Clean.
  assert (He : path_element (("serial-" +:+ u) +:+ ".sock")%string).
  { apply path_element_suffix; [|by vm_compute|simpl; lia]. apply Strings.lacks_app; [by vm_compute|].
    by apply Strings.lacks_substring. }
  rewrite !Strings.Split_app, Strings.Split_lacks by (done || apply He). cbn [foldl].
  rewrite (clean_component_element _ _ (("serial-" +:+ u) +:+ ".sock")%string) by done. reflexivity.
Qed.

(** ** The daemon's side *)

Section Proofs.
Context `{K : K8s}.

(** The VM that was fetched, the symbolic links that were made, and whether making one failed. *)
Record cworld := mkCWorld { cw_vm : option VirtualMachine; cw_links : gmap string string; cw_nolink : bool }.

Definition serial_of (vm : VirtualMachine) : string := podVolume (VMPodUID (Status vm)) "serial.sock".
Definition on_node (nodeName : string) (vm : VirtualMachine) : Prop :=
  VMPodUID (Status vm) ≠ "" ∧ NodeName (Status vm) ≠ "" ∧ (nodeName = "" ∨ NodeName (Status vm) = nodeName).

(** The UID of a pod is a name of its own in a path. *)
Definition uid_ok (vm : VirtualMachine) : Prop := VMPodUID (Status vm) ≠ "" → path_element (VMPodUID (Status vm)).

(** Any API server and any node.  The VM asked for is the only one fetched; the connection is
    taken only for a VM of this node; only the serial socket of its pod and the link to it are
    looked at, made, removed or dialed, and a socket is dialed by a path short enough for a socket address, unless
    the link could not be made. *)
Definition console_env (nodeName : string) (key : NamespacedName) : env conE cworld :=
  mkEnv
    (λ X e w, match e with
       | ConGetVM k => k = key
       | Upgrade => ∃ vm, cw_vm w = Some vm ∧ on_node nodeName vm
       | ConStat p => ∃ vm, cw_vm w = Some vm ∧ on_node nodeName vm ∧ p = serial_of vm
       | ConRemove p => ∃ vm, cw_vm w = Some vm ∧ on_node nodeName vm ∧ p = serialLink (VMPodUID (Status vm))
       | Symlink t p => ∃ vm, cw_vm w = Some vm ∧ on_node nodeName vm ∧ t = serial_of vm ∧ p = serialLink (VMPodUID (Status vm))
       | DialUnix p => ∃ vm, cw_vm w = Some vm ∧ on_node nodeName vm ∧ (p = serial_of vm ∨ cw_links w !! p = Some (serial_of vm)) ∧
           ((String.length p ≤ 100)%nat ∨ cw_nolink w = true)
       | ReadConsoleConfig _ | OpenFile _ | Output _ _ => ∃ vm, cw_vm w = Some vm ∧ on_node nodeName vm
       | SendText _ | DecodePid _ | Bridge_ => True
       | ListDaemonPods _ _ | DialWebSocket _ _ _ => False
       end)
    (λ X e w x w', match e in conE X return X → Prop with
       | ConGetVM _ => λ r, match r with Ok vm => uid_ok vm ∧ w' = mkCWorld (Some vm) (cw_links w) (cw_nolink w) | Err _ => w' = w end
       | Symlink t p => λ r, w' = match r with
           | None => mkCWorld (cw_vm w) (<[p := t]> (cw_links w)) (cw_nolink w)
           | Some _ => mkCWorld (cw_vm w) (cw_links w) true end
       | ConRemove p => λ _, w' = mkCWorld (cw_vm w) (delete p (cw_links w)) (cw_nolink w)
       | _ => λ _, w' = w
       end x) False.

Lemma serial_length uid :
  path_element uid → String.length (podVolume uid "serial.sock") = (74 + String.length uid)%nat.
Proof.
  intros Hu. assert (Hf : path_element "serial.sock") by (by vm_compute).
  rewrite podVolume_path by done. rewrite !Strings.length_append. simpl. lia.
Qed.

Lemma link_length uid : Strings.lacks "/"%char uid → (8 ≤ String.length uid)%nat → (String.length (serialLink uid) ≤ 100)%nat.
Proof. intros Hu Hl. rewrite serialLink_path by done. rewrite !Strings.length_append, length_substring8 by done. simpl. lia. Qed.

Lemma handleSerialSocket_wp nodeName key vm links w :
  path_element (VMPodUID (Status vm)) → on_node nodeName vm → w = mkCWorld (Some vm) links false →
  wp (console_env nodeName key) (handleSerialSocket vm) w (λ _ _, True).
Proof.
  intros Hu Hn ->. pose proof (serial_length _ Hu) as Hlen. fold (serial_of vm) in Hlen.
  unfold handleSerialSocket. fold (serial_of vm). split; [by exists vm|]. intros [[|]|e] w ->; [|by split|by split].
  cbn [pbind]. unfold dial_path. destruct (100 <? String.length (serial_of vm))%nat eqn:El.
  - apply Nat.ltb_lt in El. assert (8 ≤ String.length (VMPodUID (Status vm)))%nat by lia.
    rewrite (proj2 (Nat.ltb_ge _ _)) by done. cbn [pbind call]. split; [by exists vm|]. intros x w ->.
    split; [by exists vm|]. intros [e|] w ->.
    + split; [exists vm; split_and!; auto|]. intros [e'|] w ->; (split; [done|]; by intros y w ->).
    + split; [exists vm; split_and!; [done..| |]|].
      * right. apply lookup_insert_eq.
      * left. apply link_length; [apply Hu|done].
      * intros [e'|] w ->; (split; [done|]); intros y w ->; (split; [by exists vm|done]).
  - apply Nat.ltb_ge in El. cbn [pbind]. split; [exists vm; split_and!; auto|].
    intros [e'|] w ->; (split; [done|]; by intros y w ->).
Qed.

Lemma handleConsolePty_wp nodeName key vm w :
  on_node nodeName vm → cw_vm w = Some vm → wp (console_env nodeName key) (handleConsolePty vm) w (λ _ _, True).
Proof.
  intros Hn Hw. unfold handleConsolePty, findContainerID, getContainerPID.
  split; [by exists vm|]. intros [[mode file]|e] w1 ->; [|by split]. cbn [pbind].
  destruct (negb (bool_decide (mode = "Pty"))); [by split|]. destruct (decide (file = "")); [by split|]. cbn [pbind call].
  split; [by exists vm|]. intros [out|e] w1 ->; [|by split]. cbn [pbind]. case_decide; [by split|]. cbn [pbind call].
  split; [by exists vm|]. intros [out'|e] w1 ->; [|by split]. cbn [pbind call].
  split; [done|]. intros [pid|e] w1 ->; [|by split]. cbn [pbind]. destruct (pid =? 0); [by split|]. cbn [pbind call].
  split; [by exists vm|]. intros [e|] w1 ->; by split.
Qed.

(** C31: the console server of a node, asked for any path and type by any client, never panics
    when the pod UIDs of the stored VMs are names; it takes a connection only for the VM named in
    the path and only when that VM is on this node; it dials only that VM's serial socket, or the
    short link it made to it, and reads configurations, looks for containers and opens terminals
    only after that; the path it dials fits a socket address whenever the link can be made. *)
Theorem console_stays_with_vm nodeName isGet path type links :
  wp (console_env nodeName (match parseConsolePath path with Some (ns, n) => mkNN ns n | None => mkNN "" "" end))
    (handleConsole nodeName isGet path type) (mkCWorld None links false) (λ _ _, True).
Proof.
  unfold handleConsole. destruct (negb isGet); [done|]. destruct (parseConsolePath path) as [[ns n]|]; [|done].
  set (ty := if decide (type = "") then "serial" else type). destruct (negb (bool_decide (ty = "console")) && negb (bool_decide (ty = "serial"))); [done|].
  split; [done|]. intros [vm|e] w Hw; [|done]. destruct Hw as [Huid ->]. cbn [pbind].
  destruct (bool_decide (VMPodUID (Status vm) = "") || _) eqn:E1; [done|].
  destruct (negb (bool_decide (nodeName = "")) && _) eqn:E2; [done|]. bools.
  assert (Hn : on_node nodeName vm).
  { split_and!; [done..|]. apply andb_false_iff in E2 as [E2|E2]; bools; auto. }
  split; [by exists vm|]. intros [e|] w ->; [done|]. cbn [pbind]. apply wp_seq.
  eapply (wp_mono _ _ _ (λ _ _, True)); [done|].
  destruct (decide (ty = "console")); [by apply handleConsolePty_wp|].
  eapply handleSerialSocket_wp; [by apply Huid|done|done].
Qed.

(** ** From the API server to the daemon *)

(** The daemon's API server still serves the VM with the status the proxy saw. *)
Definition still_serving (vm : VirtualMachine) : env conE unit :=
  mkEnv (λ X e _, match e with ConGetVM k => k = ObjectKey (vm_meta vm) | _ => True end)
    (λ X e _ x _, match e in conE X return X → Prop with
       | ConGetVM _ => λ r, ∃ vm', r = Ok vm' ∧ Status vm' = Status vm
       | _ => λ _, True end x) False.

(** Where every call is allowed, both ends of a console return. *)
Lemma handleSerialSocket_any (en : env conE unit) vm w :
  path_element (VMPodUID (Status vm)) → (∀ X (e : conE X) w, match e with ConGetVM _ => True | _ => allowed en e w end) →
  wp en (handleSerialSocket vm) w (λ _ _, True).
Proof.
  intros Hu Ha. pose proof (serial_length _ Hu) as Hlen. unfold handleSerialSocket.
  split; [apply (Ha _ (ConStat _))|]. intros [[|]|e] w1 _; [|split; [apply (Ha _ (SendText _))|done]..].
  assert (Hend : ∀ p (linked : bool) w, wp en (let! err := call (DialUnix p) in
    (match err with Some _ => call (SendText "dial serial socket") | None => call Bridge_ end) ;;;
    if linked then call (ConRemove p) else Ret tt)%go w (λ _ _, True)).
  { intros p linked w2. split; [apply (Ha _ (DialUnix _))|]. intros [e|] w3 _; cbn [pbind call];
      (split; [first [apply (Ha _ (SendText _))|apply (Ha _ Bridge_)]|]); intros x w4 _; destruct linked; try done;
      (split; [apply (Ha _ (ConRemove _))|done]). }
  cbn [pbind]. unfold dial_path. destruct (100 <? _)%nat eqn:El; [|apply (Hend _ false)].
  apply Nat.ltb_lt in El. rewrite (proj2 (Nat.ltb_ge _ _)) by lia. cbn [pbind call].
  split; [apply (Ha _ (ConRemove _))|]. intros x w2 _. split; [apply (Ha _ (Symlink _ _))|]. intros [e|] w3 _;
    [apply (Hend _ false)|apply (Hend _ true)].
Qed.

Lemma handleConsolePty_any (en : env conE unit) vm w :
  (∀ X (e : conE X) w, match e with ConGetVM _ => True | _ => allowed en e w end) →
  wp en (handleConsolePty vm) w (λ _ _, True).
Proof.
  intros Ha. unfold handleConsolePty, findContainerID, getContainerPID.
  assert (Ht : ∀ m w, wp en (call (SendText m)) w (λ _ _, True)) by (intros m w1; split; [apply (Ha _ (SendText _))|done]).
  split; [apply (Ha _ (ReadConsoleConfig _))|]. intros [[mode file]|e] w1 _; [|apply Ht].
  cbn [pbind]. destruct (negb (bool_decide (mode = "Pty"))); [apply Ht|]. destruct (decide (file = "")); [apply Ht|]. cbn [pbind call].
  split; [apply (Ha _ (Output _ _))|]. intros [out|e] w2 _; [|apply Ht]. cbn [pbind]. case_decide; [apply Ht|]. cbn [pbind call].
  split; [apply (Ha _ (Output _ _))|]. intros [out'|e] w3 _; [|apply Ht]. cbn [pbind call].
  split; [apply (Ha _ (DecodePid _))|]. intros [pid|e] w4 _; [|apply Ht]. cbn [pbind]. destruct (pid =? 0); [apply Ht|]. cbn [pbind call].
  split; [apply (Ha _ (OpenFile _))|]. intros [e|] w5 _; [apply Ht|]. split; [apply (Ha _ Bridge_)|done].
Qed.

Lemma handleConsole_accepts vm type :
  Strings.lacks "/"%char (om_Namespace (vm_meta vm)) → Strings.lacks "/"%char (om_Name (vm_meta vm)) →
  om_Namespace (vm_meta vm) ≠ "" → om_Name (vm_meta vm) ≠ "" → type ∈ [""; "serial"; "console"] →
  path_element (VMPodUID (Status vm)) → NodeName (Status vm) ≠ "" →
  wp (still_serving vm) (handleConsole (NodeName (Status vm)) true (consolePath (om_Namespace (vm_meta vm)) (om_Name (vm_meta vm))) type)
    tt (λ a _, a = HttpHijacked).
Proof.
  intros H1 H2 H3 H4 Ht Hu Hn. unfold handleConsole. simpl negb. rewrite parse_consolePath by done. cbv iota beta.
  set (ty := if decide (type = "") then "serial" else type).
  assert (Hty : negb (bool_decide (ty = "console")) && negb (bool_decide (ty = "serial")) = false).
  { subst ty. rewrite !elem_of_cons, elem_of_nil in Ht. destruct Ht as [->|[->|[->|[]]]]; done. }
  rewrite Hty. split; [done|]. intros r w (vm' & -> & Hs). cbn [pbind]. rewrite Hs.
  rewrite !bool_decide_eq_false_2 by (done || apply Hu). rewrite (bool_decide_eq_true_2 (_ = _)) by done. rewrite andb_false_r.
  split; [done|]. intros [e|] w1 _; [done|]. cbn [pbind]. apply wp_seq. eapply (wp_mono _ _ _ (λ _ _, True)); [done|].
  destruct (decide (ty = "console")); [apply handleConsolePty_any; by intros X []|]. apply handleSerialSocket_any; [by rewrite Hs|by intros X []].
Qed.

(** The API server's VMs: the one of the key, whose pod UID is a name of its own while it runs. *)
Definition api_env (key : NamespacedName) : env conE unit :=
  mkEnv (λ X e _, match e with ConGetVM k => k = key | _ => False end)
    (λ X e _ x _, match e in conE X return X → Prop with
       | ConGetVM _ => λ r, ∀ vm, r = Ok vm → ObjectKey (vm_meta vm) = key ∧
           (Phase (Status vm) = VirtualMachineRunning → path_element (VMPodUID (Status vm)))
       | _ => λ _, True end x) False.

(** The proxy asks for the daemons of the VM's node only, and the request it sends to one of
    them is one that the console server of that node takes. *)
Definition proxy_env (vm : VirtualMachine) : env conE (list Pod) :=
  mkEnv (λ X e pods, match e with
       | ListDaemonPods ns node => ns = virtDaemonNamespace ∧ node = NodeName (Status vm)
       | DialWebSocket host path query =>
           (∃ pod, pod ∈ pods ∧ PodStatus_Phase (pod_Status pod) = PodRunning ∧
              host = (PodIP (pod_Status pod) +:+ ":8082")%string) ∧
           wp (still_serving vm) (handleConsole (NodeName (Status vm)) true path (default "" query)) tt (λ a _, a = HttpHijacked)
       | Upgrade | Bridge_ => True
       | _ => False end)
    (λ X e pods x pods', match e in conE X return X → Prop with
       | ListDaemonPods _ _ => λ r, pods' = match r with Ok l => l | Err _ => pods end
       | _ => λ _, pods' = pods end x) False.


(** ** What a console file can name *)

Lemma escaping_path pid p :
  0 ≤ pid < 2 ^ 63 → path_element p →
  JoinPath ["/proc"; Strconv.FormatInt pid; "root"; ("../../../" +:+ p)%string] = ("/" +:+ p)%string.
Proof.
  intros Hpid Hp. set (n := Strconv.FormatInt pid).
  assert (Hn : path_element n).
  { destruct (Strconv.FormatInt_digits pid Hpid) as [Hd Hne]. fold n in Hd, Hne.
    assert (Hdot : ∀ s, n ≠ String "." s).
    { intros s E. rewrite E in Hd. destruct Hd as [Hd _]. by vm_compute in Hd; destruct Hd as [[] _]. }
    split; [apply Strconv.digits_lacks; [done|]; intros Hd'; vm_compute in Hd'; by destruct Hd' as [[] _]|].
    by split_and!. }
  change (JoinPath _) with (Clean ("" +:+ String "/" ("proc" +:+ String "/" (n +:+ String "/" ("root" +:+ String "/" (".." +:+
    String "/" (".." +:+ String "/" (".." +:+ String "/" p)))))))). unfold Clean.
  rewrite !Strings.Split_app, Strings.Split_lacks by (done || apply Hn || apply Hp). cbn [foldl].
  rewrite (clean_component_element _ _ n), (clean_component_element _ _ p), (clean_component_element _ _ "root") by done.
  rewrite (clean_component_parent _ _ "root"), (clean_component_parent _ _ n) by done. reflexivity.
Qed.

(** A node on which the VM's configuration is the one the pre-runner writes for it, and its
    hypervisor runs; the state lists the files that were opened. *)
Definition pty_env (config : VmConfig) : env conE (list string) :=
  mkEnv (λ X e _, True)
    (λ X e opened x opened', match e in conE X return X → Prop with
       | ReadConsoleConfig _ => λ r, r = Ok (cc_Mode (vc_Console config), cc_File (vc_Console config)) ∧ opened' = opened
       | Output _ _ => λ r, r = Ok "id" ∧ opened' = opened
       | DecodePid _ => λ r, (∃ pid, r = Ok pid ∧ 0 < pid < 2 ^ 63) ∧ opened' = opened
       | OpenFile p => λ r, opened' = opened ++ [p]
       | _ => λ _, opened' = opened end x) False.

Definition with_console (c : Console) (vm : VirtualMachine) : VirtualMachine :=
  let '(mkInstance cpu m k _ se d f n) := Spec_Instance (Spec vm) in
  set_Spec (set_Instance (mkInstance cpu m k (Some c) se d f n) (Spec vm)) vm.

(** The console file of a VM is not checked, neither by the webhook nor by the daemon.  For
    every VM, the webhook answers the same for the VM with a console whose file starts with three
    parent directories; and when its console is opened, the daemon opens, with its own privileges
    on the node, the file of that name in its own root directory instead of one of the VM's pod. *)
Theorem console_file_escapes vm p arm64 affinity :
  path_element p →
  let vm' := with_console (mkConsole "Pty" ("../../../" +:+ p) "" false) vm in
  ValidateVM vm' None = ValidateVM vm None ∧
  wp (pty_env (base_config arm64 (Spec_Instance (Spec vm')) affinity)) (handleConsolePty vm') [] (λ _ opened, opened = ["/" +:+ p]).
Proof.
  intros Hp vm'. split.
  - subst vm'. by destruct vm as [m [ns af to re lp rp po [cpu me k co se d f n] v nw sc sv] st].
  - assert (Hc : Instance_Console (Spec_Instance (Spec vm')) = Some (mkConsole "Pty" ("../../../" +:+ p) "" false)).
    { subst vm'. by destruct vm as [m [ns af to re lp rp po [cpu me k co se d f n] v nw sc sv] st]. }
    unfold handleConsolePty. split; [done|]. intros r w [-> ->]. unfold base_config. cbn [vc_Console]. rewrite Hc.
    cbn [pbind console_config cc_Mode cc_File Console_Mode Console_File]. rewrite (bool_decide_eq_true_2 (_ = _)) by done.
    simpl negb. cbv iota. rewrite decide_False by (intros E; by apply (f_equal String.length) in E).
    unfold findContainerID, getContainerPID. split; [done|]. intros r w1 [-> ->]. split; [done|]. intros r w2 [-> ->]. split; [done|].
    intros r w3 [(pid & -> & Hpid) ->]. cbn [pbind]. rewrite (proj2 (Z.eqb_neq pid 0)) by lia. cbn [pbind call].
    rewrite escaping_path by (done || lia). split; [done|]. intros [e|] w4 ->; (split; [done|]); by intros r w5 ->.
Qed.
End Proofs.

(** ** The order of the bytes

    The messages taken from one end of a console and those handed to the other; bytes of a
    terminal or a socket make binary messages, and so do the text messages of a client. *)

Definition BinaryMessage : Z := 2.

Record pump := mkPump { taken : list (Z * list Z); handed : list (Z * list Z) }.

(** Only the last message taken may be handed on, and only when all the others were. *)
Definition hands (m : Z * list Z) (w : pump) : Prop := taken w = handed w ++ [m].
Definition took (m : option (Z * list Z)) (w w' : pump) : Prop := w' = mkPump (taken w ++ option_list m) (handed w).
Definition handed_on (m : Z * list Z) (e : option goerror) (w w' : pump) : Prop :=
  w' = match e with Some _ => w | None => mkPump (taken w) (handed w ++ [m]) end.

Definition pump_env : env pumpE pump :=
  mkEnv (λ X e w, match e with
       | WriteMessage b | CopyTo b => hands (BinaryMessage, b) w
       | WriteWhole t b => hands (t, b) w
       | _ => True end)
    (λ X e w x w', match e in pumpE X return X → Prop with
       | ReadSource => λ r, took (match r.1 with [] => None | b => Some (BinaryMessage, b) end) w w'
       | NextReader => λ r, took (match r with Ok (true, b) => Some (BinaryMessage, b) | _ => None end) w w'
       | ReadWhole => λ r, took (match r with Ok (Some m) => Some m | _ => None end) w w'
       | WriteMessage b | CopyTo b => λ e, handed_on (BinaryMessage, b) e w w'
       | WriteWhole t b => λ e, handed_on (t, b) e w w'
       | _ => λ _, w' = w end x) False.

(** All that was taken was handed on, but possibly for the last message. *)
Definition in_order (w : pump) : Prop := taken w = handed w ∨ ∃ m, hands m w.

Ltac pump :=
  simpl in *; repeat match goal with
  | H : took _ _ _ |- _ => unfold took in H; subst
  | H : handed_on _ _ _ _ |- _ => unfold handed_on in H; subst
  | H : taken _ = handed _ |- _ => rewrite H in *
  end; simpl in *; rewrite ?app_nil_r in *.

Lemma copyToWebSocket_in_order fuel w :
  taken w = handed w →
  wp pump_env (copyToWebSocket fuel) w (λ r w', in_order w' ∧ (r = None → taken w' = handed w')).
Proof.
  revert w. induction fuel as [|f IH]; intros w Hw; [by split; [left|]|]. cbn [copyToWebSocket].
  split; [done|]. intros [b err] w1 H1. cbn [pbind]. destruct b as [|a b].
  { pump. destruct err; [by split; [left|]|by apply IH]. }
  pump. split; [done|]. intros [e|] w2 ->; [split; [|done]; right; by eexists|].
  split; [done|]. intros [e|] w3 H3; pump; (split; [done|]).
  { intros _ w4 ->. split; [right; by eexists|done]. }
  intros [e|] w4 ->; [by split; [left|]|]. destruct err; [by split; [left|]|by apply IH].
Qed.

Lemma copyFromWebSocket_in_order fuel w :
  taken w = handed w →
  wp pump_env (copyFromWebSocket fuel) w (λ r w', in_order w' ∧ (r = None → taken w' = handed w')).
Proof.
  revert w. induction fuel as [|f IH]; intros w Hw; [by split; [left|]|]. cbn [copyFromWebSocket].
  split; [done|]. intros [[[|] b]|e] w1 H1; cbn [pbind]; pump; [|by apply IH|by split; [left|]].
  split; [done|]. intros [e|] w2 H2; pump; [split; [right; by eexists|done]|by apply IH].
Qed.

Lemma copyWebSocket_in_order fuel dir w :
  taken w = handed w →
  wp pump_env (copyWebSocket fuel dir) w (λ r w', in_order w' ∧ (∀ b, r = Ok b → taken w' = handed w')).
Proof.
  revert w. induction fuel as [|f IH]; intros w Hw; [by split; [left|]|]. cbn [copyWebSocket].
  split; [done|]. intros [[[t b]|]|e] w1 H1; cbn [pbind]; pump; [|by split; [left|]..].
  split; [done|]. intros [e|] w2 H2; pump; [split; [right; by eexists|done]|by apply IH].
Qed.

(** ** Witnesses *)

#[local] Existing Instance k8s_concrete.


Lemma console_file_escapes_witness :
  ValidateVM (with_console (mkConsole "Pty" "../../../etc" "" false) (sampleVM [])) None = ValidateVM (sampleVM []) None.
Proof. apply (console_file_escapes (sampleVM []) "etc" false []). by vm_compute. Defined.
