(* ===== verification/HypervisorContract.v ===== *)
(** * The hypervisor's configuration, from the pre-runner to the hypervisor

    The pre-runner writes the VM's configuration to a file of the pod.  The daemon reads the
    file, looks at some of its fields and sends all of it to the hypervisor; the console server
    reads two of its fields.  Here the three meet, through the JSON document in the file, and so
    do the daemon's calls of the hypervisor and the HTTP requests its client makes for them. *)

From stdpp Require Import base gmap strings list sets fin_maps.
From Stdlib Require Import ZArith Lia.
From S2P Require Import Prelude GoStd K8s ApiTypes Kube Prerunner Daemon Json Hypervisor.
Open Scope Z_scope.

(** ** One request per operation *)

(** The requests that were sent, the status that was answered, whether the answer's body is
    open, and the document that was read from it. *)
Record hworld := mkHWorld { sent : list request; answered : option Z; body_open : bool; document : option json }.
Definition hw0 : hworld := mkHWorld [] None false None.

(** Any hypervisor.  Only [req] may be sent, once; the body of an answer is read while it is
    open, as a document when the status is no error, and closed once. *)
Definition http_env (req : request) : env httpE hworld :=
  mkEnv
    (λ X e w, match e with
       | NewRequest r | Do r => sent w = [] ∧ r = req
       | ReadAll => body_open w = true ∧ ∃ code, answered w = Some code ∧ 400 ≤ code
       | DecodeBody => body_open w = true ∧ document w = None ∧ ∃ code, answered w = Some code ∧ code < 400
       | CloseBody => body_open w = true
       end)
    (λ X e w x w', match e in httpE X return X → Prop with
       | Do r => λ res, w' = match res with
           | Ok code => mkHWorld (sent w ++ [r]) (Some code) true None
           | Err _ => mkHWorld (sent w ++ [r]) None false None end
       | DecodeBody => λ res, w' = mkHWorld (sent w) (answered w) (body_open w) (match res with Ok j => Some j | Err _ => None end)
       | CloseBody => λ _, w' = mkHWorld (sent w) (answered w) false (document w)
       | _ => λ _, w' = w
       end x) False.

Definition accepted (w : hworld) : Prop := ∃ code, answered w = Some code ∧ code < 400.

Lemma send_wp c method path body :
  let req := mkRequest c method ("http://localhost/api/v1" +:+ path) body in
  wp (http_env req) (send c method path body) hw0 (λ r w,
    match r with
    | Ok _ => ∃ code, code < 400 ∧ w = mkHWorld [req] (Some code) true None
    | Err _ => body_open w = false ∧ ¬ accepted w
    end).
Proof.
  assert (Hno : ∀ l d o, ¬ accepted (mkHWorld l None d o)) by (intros l d o [code [? ?]]; done).
  intros req. unfold send. fold req. split; [done|]. intros [e|] w ->; [by split; [|apply Hno]|].
  split; [done|]. intros [code|e] w ->; [|by split; [|apply Hno]]. cbn [pbind]. destruct (400 <=? code) eqn:Ec.
  - apply Z.leb_le in Ec. split; [split; [done|by exists code]|]. intros text w ->. split; [done|]. intros x w ->.
    split; [done|]. intros [code' [E ?]]. simpl in E. simplify_eq. lia.
  - apply Z.leb_gt in Ec. by exists code.
Qed.

Lemma perform_wp c method path body :
  wp (http_env (mkRequest c method ("http://localhost/api/v1" +:+ path) body)) (perform c method path body) hw0
    (λ r w, body_open w = false ∧ (r = None ↔ accepted w)).
Proof.
  apply wp_seq. eapply wp_mono; [|apply send_wp]. intros [[]|e] w.
  - intros (code & Hc & ->). split; [done|]. intros x w ->. split; [done|]. split; [|done]. intros _. by exists code.
  - intros [Ho Ha]. split; [done|]. by split; [|intros].
Qed.

(** An operation of the hypervisor's client makes at most one request, the one of its
    method, path and argument on its own socket, and closes the body of the answer if there is
    one.  It reports success exactly when the request was answered with a status below 400 and,
    if it has a result, with a document that decodes; the result is what the document decodes
    to. *)
Theorem client_exchange {A} (J : Json A) c method path body :
  let req := mkRequest c method ("http://localhost/api/v1" +:+ path) body in
  wp (http_env req) (perform c method path body) hw0 (λ r w,
    body_open w = false ∧ (r = None ↔ accepted w)) ∧
  wp (http_env req) (exchange J c method path body) hw0 (λ r w,
    body_open w = false ∧
    ∀ x, r = Ok x ↔ accepted w ∧ ∃ j, document w = Some j ∧ dec (json_ptr J) j = Ok x).
Proof.
  intros req. split; [apply perform_wp|]. apply wp_seq. eapply wp_mono; [|apply send_wp]. fold req. intros [[]|e] w.
  - intros (code & Hc & ->). split; [split; [done|]; split; [done|by exists code]|]. intros [j|e] w ->.
    + split; [done|]. intros x w ->. split; [done|]. intros y. cbn [document].
      assert (Hacc : ∀ o, accepted (mkHWorld [req] (Some code) false o)) by (intros o; by exists code).
      destruct (dec (json_ptr J) j) as [z|e] eqn:Ed; split.
      * intros [= <-]. split; [apply Hacc|by exists j].
      * intros [_ (j' & [= <-] & E)]. congruence.
      * done.
      * intros [_ (j' & [= <-] & E)]. congruence.
    + split; [done|]. intros x w ->. split; [done|]. intros y. split; [done|]. by intros [_ (j & ? & _)].
  - intros [Ho Ha]. split; [done|]. intros x. split; [done|]. by intros [? _].
Qed.

(** ** The configuration in the file

    The pre-runner's configuration with all the fields of the client's types; those it does not
    set are zero. *)

Definition full_console (c : Prerunner.ConsoleConfig) : ConsoleConfig :=
  Hypervisor.mkConsoleConfig (cc_File c) (cc_Iommu c) (cc_Mode c) (cc_Socket c).
Definition full_payload (p : Prerunner.PayloadConfig) : PayloadConfig :=
  Hypervisor.mkPayloadConfig (Payload_Cmdline p) "" "" (Payload_Kernel p).
Definition full_affinity (a : Prerunner.CpuAffinity) : CpuAffinity :=
  Hypervisor.mkCpuAffinity (HostCpus a) (Vcpu a).
Definition full_topology (t : Prerunner.CpuTopology) : CpuTopology :=
  Hypervisor.mkCpuTopology (CoresPerDie t) (DiesPerPackage t) (Packages t) (ThreadsPerCore t).
Definition full_cpus (c : Prerunner.CpusConfig) : CpusConfig :=
  Hypervisor.mkCpusConfig (Some ∘ full_affinity <$> Cpus_Affinity c) (BootVcpus c) None false 0 (MaxVcpus c) (Some
    (full_topology (Topology c))).
Definition full_memory (m : Prerunner.MemoryConfig) : MemoryConfig :=
  Hypervisor.mkMemoryConfig "" 0 0 0 (Memory_UseHugepages m) false false (Memory_Shared m) (Memory_Size m) false [].
Definition full_disk (d : Prerunner.DiskConfig) : DiskConfig :=
  Hypervisor.mkDiskConfig (Disk_Direct d) (Prerunner.Disk_Id d) false 0 (Prerunner.Disk_Path d) 0 [] 0 "" None
    (Disk_Readonly d) "" "" false.
Definition full_fs (f : Prerunner.FsConfig) : FsConfig :=
  Hypervisor.mkFsConfig (Fs_Id f) (Fs_NumQueues f) 0 (Fs_QueueSize f) (Fs_Socket f) (Fs_Tag f).
Definition full_net (n : Prerunner.NetConfig) : NetConfig :=
  Hypervisor.mkNetConfig "" (Net_Id n) false "" (Net_Mac n) "" (Net_Mtu n) 0 0 0 None (Net_Tap n) (Net_VhostMode n)
    (Net_VhostSocket n) (Net_VhostUser n).
Definition full_device (d : Prerunner.DeviceConfig) : DeviceConfig :=
  Hypervisor.mkDeviceConfig (Device_Id d) false (Device_Path d) 0 0.
Definition full_vdpa (v : Prerunner.VdpaConfig) : VdpaConfig :=
  Hypervisor.mkVdpaConfig (Vdpa_Id v) (Vdpa_Iommu v) (Vdpa_NumQueues v) (Vdpa_Path v) 0.
Definition full_config (c : Prerunner.VmConfig) : VmConfig :=
  Hypervisor.mkVmConfig None (Some (full_console (vc_Console c))) (Some (full_cpus (vc_Cpus c))) None (Some ∘
    full_device <$> vc_Devices c) (Some ∘ full_disk <$> vc_Disks c) (Some ∘ full_fs <$> vc_Fs c) false false [] (Some
    (full_memory (vc_Memory c))) (Some ∘ full_net <$> vc_Net c) [] (Some (full_payload (vc_Payload c))) [] None []
    false [] None (Some (full_console (vc_Serial c))) [] None (Some ∘ full_vdpa <$> vc_Vdpa c) None false.

(** The document the pre-runner writes. *)
Definition config_document (c : Prerunner.VmConfig) : json := enc VmConfig_json (full_config c).

(** The struct into which the console server decodes it, by its fields. *)
Definition consoleConfig_json : Json ((string * string)) :=
  json_struct
    (field "console" false
       (json_struct (field "mode" false json_string (field "file" false json_string no_fields))
          (λ r, (r.1, (r.2, tt))) (λ '(m, (f, tt)), (m, f)))
    no_fields)
    (λ r, (r, tt)) (λ '(r, tt), r).

(** What the daemon looks at in the client's types. *)
Definition daemon_disk (d : DiskConfig) : Daemon.DiskConfig := Daemon.mkDiskConfig (DiskConfig_Id d) (DiskConfig_Path d).
Definition daemon_config (rest : string) (c : VmConfig) : Daemon.VmConfig :=
  Daemon.mkVmConfig (DeviceConfig_Path <$> omap id (VmConfig_Devices c)) (VdpaConfig_Path <$> omap id (VmConfig_Vdpa c))
    (daemon_disk <$> omap id (VmConfig_Disks c)) (MemoryConfig_Size <$> VmConfig_Memory c) rest.

(** The value a document has at a field, and at one that follows another. *)
Lemma assoc_field {A B} k o (J : Json A) (r : fields B) x t :
  k ∉ keys r → assoc k (enc_fields (field k o J r) (x, t)) = if o && isEmptyValue J x then None else Some (enc J x).
Proof.
  intros Hk. simpl. rewrite assoc_app, assoc_other by done. destruct (o && isEmptyValue J x); [done|]. simpl.
  by rewrite bool_decide_eq_true_2.
Qed.
Lemma assoc_skip {A B} k k' o (J : Json A) (r : fields B) x t :
  k ≠ k' → assoc k (enc_fields (field k' o J r) (x, t)) = assoc k (enc_fields r t).
Proof.
  intros Hk. simpl. rewrite assoc_app. destruct (assoc k (enc_fields r t)); [done|].
  destruct (o && isEmptyValue J x); [done|]. simpl. by rewrite bool_decide_eq_false_2.
Qed.

Lemma omap_Some {A B} (f : A → B) (l : list A) : omap id (Some ∘ f <$> l) = f <$> l.
Proof. induction l as [|x l IH]; [done|]. cbn. by rewrite IH. Qed.

(** The console's part of a console document. *)
Lemma console_decoded cc :
  dec (json_struct (field "mode" false json_string (field "file" false json_string no_fields))
         (λ r, (r.1, (r.2, tt))) (λ '(m, (f, tt)), (m, f))) (enc ConsoleConfig_json cc)
  = Ok (ConsoleConfig_Mode cc, ConsoleConfig_File cc).
Proof.
  cbn [dec json_struct enc ConsoleConfig_json dec_fields].
  rewrite !assoc_skip by done. rewrite !assoc_field by (apply (bool_decide_unpack _); by vm_compute).
  destruct cc as [file iommu mode socket]. simpl. by destruct (bool_decide_reflect (file = "")) as [->|].
Qed.


(** ** What the daemon makes of the client's errors *)

Lemma Contains_app a b sub : Strings.Contains b sub = true → Strings.Contains (a +:+ b) sub = true.
Proof.
  intros Hb. induction a as [|x a IH]; [done|]. change (String x a +:+ b)%string with (String x (a +:+ b)).
  cbn [Strings.Contains]. by rewrite IH, orb_true_r.
Qed.

(** A hypervisor without a VM answers with an error that says so: the daemon then creates one. *)
Lemma not_created_recognized socket text :
  Strings.Contains text "VM is not created" = true →
  wp (mkEnv (λ X e (_ : unit), True) (λ X e _ x _, match e in httpE X return X → Prop with
        | NewRequest _ => λ r, r = None
        | Do _ => λ r, ∃ code, r = Ok code ∧ 400 ≤ code
        | ReadAll => λ t, t = text
        | _ => λ _, True end x) False)
    (Client.VmInfo socket) tt (λ r _, ∃ e, r = Err e ∧ isVMNotCreatedError e = true).
Proof.
  intros Ht. split; [done|]. intros r w ->. split; [done|]. intros r w1 (code & -> & Hc). cbn [pbind].
  rewrite (proj2 (Z.leb_le _ _)) by done. split; [done|]. intros t w2 ->. split; [done|]. intros x w3 _.
  eexists. split; [done|]. unfold isVMNotCreatedError. cbn [error_text]. by do 5 apply Contains_app.
Qed.

(** An answer [null] is no error: the client returns a nil pointer, which the daemon follows. *)
Example null_info : dec (json_ptr VmInfo_json) JNull = Ok None.
Proof. done. Qed.

(** ** Witness *)

Definition sampleConfig : Prerunner.VmConfig :=
  Prerunner.mkVmConfig (Prerunner.mkConsoleConfig "Pty" "/dev/pts/0" "" false) (Prerunner.mkConsoleConfig "Tty" "" "" false)
    (mkPayload "/var/lib/cloud-hypervisor/hypervisor-fw" "")
    (Prerunner.mkCpusConfig 2 2 (mkTopology 1 1 2 1) [Prerunner.mkCpuAffinity 0 [4]; Prerunner.mkCpuAffinity 1 [6]])
    (Prerunner.mkMemoryConfig 1073741824 false false)
    [Prerunner.mkDiskConfig "root" "/mnt/root/disk.raw" true false] [] [] [Prerunner.mkDeviceConfig "net" "/sys/bus/pci/devices/0"] [].

