(* ===== verification/Wiring.v ===== *)
(** * The binaries (cmd/virt-controller, cmd/virt-daemon, pkg/apiserver)

    The mains after their flags were parsed: what they set up, in which order, and with which
    status they exit.  A webhook is registered with the handler value it serves, so that what a
    registered handler answers is the handler of its own file, called with the client it was
    given. *)

From stdpp Require Import base gmap strings list sets fin_maps.
From Stdlib Require Import ZArith Lia.
From S2P Require Import Prelude GoStd K8s ApiTypes Kube VmValidate Migration.
Open Scope Z_scope.

(** ** What is set up *)

(** What a controller is built from: [For], [Owns] and [Watches] of its builder, and the reconciler
    with the fields that do not come from the manager. *)
Inductive reconciler :=
| VMReconciler (PrerunnerImageName : string)
| VMMReconciler
| VMReplicaSetReconciler
| DaemonVMReconciler (NodeName NodeIP : string).

Record controllerSpec := mkController {
  cs_For : string;
  cs_Owns : list string;
  cs_Watches : list string;
  cs_Reconciler : reconciler
}.

(** A webhook's handler; [Client] is whether the client of [VMMValidator] was set. *)
Inductive webhook :=
| VMMutator
| VMValidator
| VMMValidator (Client : bool)
| VMReplicaSetMutator
| VMReplicaSetValidator.

Inductive runnable := DevicePluginManager | ConsoleServer (NodeName addr : string).

Record managerOptions := mkManagerOptions {
  MetricsBindAddress : string;
  HealthProbeBindAddress : string;
  LeaderElection : bool;
  LeaderElectionID : string
}.

(** The secure serving options of the API server. *)
Record servingOptions := mkServing { BindPort : Z; CertDirectory : string; PairName : string }.

Inductive wireE : Type → Type :=
| WireGetenv (name : string) : wireE string
(** [ctrl.GetConfigOrDie] ends the process with status 1 itself. *)
| GetConfig : wireE (option goerror)
| NewManager (o : managerOptions) : wireE (option goerror)
| IndexField (kind field : string) : wireE (option goerror)
(** [Complete] of a controller's builder *)
| CompleteController (c : controllerSpec) : wireE (option goerror)
(** [mgr.GetWebhookServer().Register] *)
| RegisterWebhook (path : string) (h : webhook) : wireE unit
| AddRunnable (r : runnable) : wireE (option goerror)
| AddHealthzCheck (name : string) : wireE (option goerror)
| AddReadyzCheck (name : string) : wireE (option goerror)
(** [kubernetes.NewForConfig] *)
| NewKubeClient : wireE (option goerror)
(** [MaybeDefaultWithSelfSignedCerts] and [ApplyTo] of the secure serving options *)
| DefaultCerts (o : servingOptions) (host ip : string) : wireE (option goerror)
| ApplyServing (o : servingOptions) (externalAddress : string) : wireE (option goerror)
| NewGenericServer (name : string) : wireE (option goerror)
| InstallAPIGroup (group version path : string) : wireE (option goerror)
(** [go PrepareRun().Run] *)
| GoRunServer : wireE unit
| StartManager : wireE (option goerror).

Abbreviation wprog := (prog wireE).

(** [if err := ...; err != nil { ...; os.Exit(1) }]. *)
Definition or_exit (p : wprog (option goerror)) (k : wprog Z) : wprog Z :=
  (let! err := p in match err with Some _ => Ret 1 | None => k end)%go.

(** An error that a caller sees with a prefix. *)
Definition or_return (msg : string) (p k : wprog (option goerror)) : wprog (option goerror) :=
  (let! err := p in match err with Some e => Ret (Some (ErrFmt msg e)) | None => k end)%go.

(** ** [SetupWithManager] of the reconcilers and [SetupWebhookWithManager] of the webhooks *)

Definition VMReconciler_SetupWithManager (image : string) : wprog (option goerror) :=
  or_return "index Pods by VM UID" (call (IndexField "Pod" "vmUID"))
    (call (CompleteController (mkController "VirtualMachine" ["Pod"] ["Pod"; "PersistentVolumeClaim"] (VMReconciler image)))).

Definition VMMReconciler_SetupWithManager : wprog (option goerror) :=
  or_return "index VMM by UID" (call (IndexField "VirtualMachineMigration" ".metadata.uid"))
    (call (CompleteController (mkController "VirtualMachineMigration" [] ["VirtualMachine"] VMMReconciler))).

Definition VMReplicaSetReconciler_SetupWithManager : wprog (option goerror) :=
  or_return "index VirtualMachine by vmrUID" (call (IndexField "VirtualMachine" "vmrUID"))
    (call (CompleteController (mkController "VirtualMachineReplicaSet" ["VirtualMachine"] ["VirtualMachine"] VMReplicaSetReconciler))).

Definition daemon_SetupWithManager (node ip : string) : wprog (option goerror) :=
  call (CompleteController (mkController "VirtualMachine" ["Pod"] [] (DaemonVMReconciler node ip))).

Definition VMMutator_Setup : wprog (option goerror) :=
  (call (RegisterWebhook "/mutate-v1alpha1-virtualmachine" VMMutator) ;;; Ret None)%go.

Definition VMValidator_Setup : wprog (option goerror) :=
  (call (RegisterWebhook "/validate-v1alpha1-virtualmachine" VMValidator) ;;; Ret None)%go.

Definition VMMValidator_Setup (Client : bool) : wprog (option goerror) :=
  (call (RegisterWebhook "/validate-v1alpha1-virtualmachinemigration" (VMMValidator Client)) ;;; Ret None)%go.

Definition VMReplicaSetMutator_Setup : wprog (option goerror) :=
  (call (RegisterWebhook "/mutate-v1alpha1-virtualmachinereplicaset" VMReplicaSetMutator) ;;; Ret None)%go.

Definition VMReplicaSetValidator_Setup : wprog (option goerror) :=
  (call (RegisterWebhook "/validate-v1alpha1-virtualmachinereplicaset" VMReplicaSetValidator) ;;; Ret None)%go.

(** ** The aggregated API server *)

(** The defaults, which the flags may change. *)
Definition NewServerOptions : servingOptions := mkServing 8443 "/var/run/virtink/serving-cert" "apiserver".

Definition ServerOptions_Validate (o : servingOptions) : option goerror := None.
Definition ServerOptions_Complete (o : servingOptions) : option goerror := None.

Definition ServerOptions_Config (o : servingOptions) : wprog (result unit) :=
  (try! _ := check (call (DefaultCerts o "localhost" "127.0.0.1")) in
   check (call (ApplyServing o "localhost:8443")))%go.

Definition NewConfig (o : servingOptions) : wprog (result unit) :=
  (try! _ := ServerOptions_Config o in Ret (Ok tt))%go.

Definition installAPIGroups : wprog (result unit) :=
  check (call (InstallAPIGroup "subresources.virt.virtink.smartx.com" "v1alpha1" "virtualmachines/console")).

(** [CompletedConfig.New]. *)
Definition NewServer : wprog (result unit) :=
  (try! _ := check (call (NewGenericServer "subresources-apiserver")) in installAPIGroups)%go.

Definition startAPIServer (o : servingOptions) : wprog (result unit) :=
  (try! _ := check (Ret (ServerOptions_Validate o)) in
   try! _ := check (Ret (ServerOptions_Complete o)) in
   try! _ := check (call NewKubeClient) in
   try! _ := NewConfig o in
   try! _ := NewServer in
   call GoRunServer ;;; Ret (Ok tt))%go.

(** ** The mains *)

Definition controller_main (metricsAddr probeAddr : string) (enableLeaderElection enableAPIServer : bool)
    (serverOptions : servingOptions) : wprog Z :=
  or_exit (call GetConfig)
  (or_exit (call (NewManager (mkManagerOptions metricsAddr probeAddr enableLeaderElection "controller.virtink.smartx.com")))
  (let! image := call (WireGetenv "PRERUNNER_IMAGE") in
   or_exit (VMReconciler_SetupWithManager image)
   (or_exit VMMutator_Setup
   (or_exit VMValidator_Setup
   (or_exit VMMReconciler_SetupWithManager
   (or_exit (VMMValidator_Setup false)
   (or_exit VMReplicaSetReconciler_SetupWithManager
   (or_exit VMReplicaSetValidator_Setup
   (or_exit VMReplicaSetMutator_Setup
   (or_exit (call (AddHealthzCheck "healthz"))
   (or_exit (call (AddReadyzCheck "readyz"))
   (let! api := (if enableAPIServer then startAPIServer serverOptions else Ret (Ok tt)) in
    match api with
    | Err _ => Ret 1
    | Ok _ => or_exit (call StartManager) (Ret 0)
    end))))))))))))%go.

Definition daemon_main (metricsAddr probeAddr consoleAddr : string) : wprog Z :=
  or_exit (call GetConfig)
  (or_exit (call (NewManager (mkManagerOptions metricsAddr probeAddr false "")))
  (let! node := call (WireGetenv "NODE_NAME") in
   let! ip := call (WireGetenv "NODE_IP") in
   or_exit (daemon_SetupWithManager node ip)
   (or_exit (call (AddRunnable DevicePluginManager))
   (or_exit (call (AddHealthzCheck "healthz"))
   (or_exit (call (AddReadyzCheck "readyz"))
   (let! node := call (WireGetenv "NODE_NAME") in
    or_exit (call (AddRunnable (ConsoleServer node consoleAddr)))
    (or_exit (call StartManager) (Ret 0))))))))%go.

(** ** What a registered webhook answers *)

(** A program whose client is the nil interface: its first call is a nil dereference. *)
Definition nil_client {E A} (p : prog E A) : prog E A :=
  match p with Ret a => Ret a | Call _ _ => Crash "nil pointer dereference" | Crash why => Crash why end.

(** [VMMValidator.Handle] with the client that the registered handler has. *)
Definition serve_migrations `{K8s} (Client : bool) (op : Operation) (decoded decodedOld : result VirtualMachineMigration)
    : prog kubeE (Response VirtualMachineMigration) :=
  let p := VMMValidator_Handle op decoded decodedOld in if Client then p else nil_client p.

(** ** What was set up when the manager starts *)

Record wired := mkWired {
  w_indexes : list (string * string);
  w_controllers : list controllerSpec;
  w_webhooks : list (string * webhook);
  w_runnables : list runnable;
  w_checks : list string;
  w_groups : list (string * string * string);
  w_serving : bool;
  w_started : bool;
  w_failed : bool
}.
Definition nothing_wired : wired := mkWired [] [] [] [] [] [] false false false.

Definition set_failed (w : wired) : wired :=
  mkWired (w_indexes w) (w_controllers w) (w_webhooks w) (w_runnables w) (w_checks w) (w_groups w) (w_serving w) (w_started w) true.

(** What a successful call leaves behind. *)
Definition wire {X} (e : wireE X) (w : wired) : wired :=
  let '(mkWired ix cs ws rs ch gs sv st fl) := w in
  match e with
  | IndexField k f => mkWired (ix ++ [(k, f)]) cs ws rs ch gs sv st fl
  | CompleteController c => mkWired ix (cs ++ [c]) ws rs ch gs sv st fl
  | RegisterWebhook p h => mkWired ix cs (ws ++ [(p, h)]) rs ch gs sv st fl
  | AddRunnable r => mkWired ix cs ws (rs ++ [r]) ch gs sv st fl
  | AddHealthzCheck n | AddReadyzCheck n => mkWired ix cs ws rs (ch ++ [n]) gs sv st fl
  | InstallAPIGroup g v p => mkWired ix cs ws rs ch (gs ++ [(g, v, p)]) sv st fl
  | GoRunServer => mkWired ix cs ws rs ch gs true st fl
  | StartManager => mkWired ix cs ws rs ch gs sv true fl
  | _ => w
  end.

(** The rest of the world, for every choice of failures: the manager may be started only in a
    world that is [ready]; a webhook path may be registered only once (the webhook server panics
    on the second time), and the API server may run only when it serves a group. *)
Definition wire_env (getenv : string → string) (ready : wired → Prop) : env wireE wired := mkEnv
  (λ X e w, match e with
            | StartManager => ready w
            | RegisterWebhook p _ => p ∉ (w_webhooks w).*1
            | GoRunServer => w_groups w ≠ []
            | _ => True
            end ∧ w_failed w = false)
  (λ X e, match e in wireE X return wired → X → wired → Prop with
          | WireGetenv n => λ w x w', x = getenv n ∧ w' = w
          | RegisterWebhook _ _ as e | GoRunServer as e => λ w _ w', w' = wire e w
          | e => λ w x w', match x with None => w' = wire e w | Some _ => w' = set_failed w end
          end)
  False.

(** What has to be there when virt-controller starts its manager. *)
Definition controller_ready (getenv : string → string) (api : bool) (w : wired) : Prop :=
  w = mkWired
    [("Pod", "vmUID"); ("VirtualMachineMigration", ".metadata.uid"); ("VirtualMachine", "vmrUID")]
    [mkController "VirtualMachine" ["Pod"] ["Pod"; "PersistentVolumeClaim"] (VMReconciler (getenv "PRERUNNER_IMAGE"));
     mkController "VirtualMachineMigration" [] ["VirtualMachine"] VMMReconciler;
     mkController "VirtualMachineReplicaSet" ["VirtualMachine"] ["VirtualMachine"] VMReplicaSetReconciler]
    (w_webhooks w) [] ["healthz"; "readyz"]
    (if api then [("subresources.virt.virtink.smartx.com", "v1alpha1", "virtualmachines/console")] else []) api false false ∧
  (w_webhooks w).*1 =
    ["/mutate-v1alpha1-virtualmachine"; "/validate-v1alpha1-virtualmachine";
      "/validate-v1alpha1-virtualmachinemigration"; "/validate-v1alpha1-virtualmachinereplicaset";
      "/mutate-v1alpha1-virtualmachinereplicaset"].

(** What has to be there when virt-daemon starts its manager. *)
Definition daemon_ready (getenv : string → string) (consoleAddr : string) (w : wired) : Prop :=
  w = mkWired [] [mkController "VirtualMachine" ["Pod"] [] (DaemonVMReconciler (getenv "NODE_NAME") (getenv "NODE_IP"))] []
    [DevicePluginManager; ConsoleServer (getenv "NODE_NAME") consoleAddr] ["healthz"; "readyz"] [] false false false.

(** How a main ends: with status 0 after the manager ran, with every call successful, and with
    status 1 as soon as a call fails. *)
Definition ends (code : Z) (w : wired) : Prop :=
  (code = 0 ∧ w_failed w = false ∧ w_started w = true) ∨ (code = 1 ∧ w_failed w = true ∧ w_started w = false).

(** ** Proofs *)

(** Follow a main through its calls: each is allowed in the world reached so far, and either it
    fails, and the main ends with status 1, or its effect is recorded. *)
Ltac wire_calls :=
  repeat (simplify_eq/=; try subst; simpl; try done; first
    [ split; [split_and?; (done || by apply (bool_decide_unpack _))|intros ? ? ?]
    | match goal with
      | H : match ?x with Some _ => _ | None => _ end |- _ => destruct x
      | H : _ ∧ _ |- _ => destruct H
      | |- context [wp _ (pbind (match ?b with true => _ | false => _ end) _) _ _] => destruct b
      end
    | by right | by left ]).

(** Without a client no create or update of a migration is admitted: it is denied for an empty name,
    and otherwise the fetch of its VM is a nil dereference. *)
Lemma nil_client_admits_nothing `{K8s} {W} (h : handler kubeE W) op decoded decodedOld w w' :
  op ≠ OpOther → run h (serve_migrations false op decoded decodedOld) w ≠ (Returned Allowed, w').
Proof.
  intros Hop. unfold serve_migrations. destruct decoded as [vmm|e]; [|by simpl].
  destruct op; [|destruct decodedOld as [old|e]; [|by simpl]|done];
    simpl; unfold ValidateVMM, ValidateVMMSpec, ValidateVMName; case_decide; by simpl.
Qed.

Definition migration_path : string := "/validate-v1alpha1-virtualmachinemigration".

(** Every create or update of a migration that the webhook server sends to its handler is refused. *)
Definition refuses_migrations `{K8s} (w : wired) : Prop :=
  ∃ Client, (list_to_map (w_webhooks w) : gmap string webhook) !! migration_path = Some (VMMValidator Client) ∧
  ∀ W (h : handler kubeE W) op decoded decodedOld v v', op ≠ OpOther →
    run h (serve_migrations Client op decoded decodedOld) v ≠ (Returned Allowed, v').

(** C22: whatever its environment and flags are, when virt-controller starts its manager the handler
    that it registered for migrations admits no create or update of any migration, whatever the
    cluster answers, because its client was left nil. *)
Theorem no_migration_admitted `{K8s} getenv metricsAddr probeAddr leader api opts :
  wp (wire_env getenv refuses_migrations) (controller_main metricsAddr probeAddr leader api opts) nothing_wired ends.
Proof.
  assert (Hr : ∀ w, (list_to_map (w_webhooks w) : gmap string webhook) !! migration_path = Some (VMMValidator false) →
    refuses_migrations w).
  { intros w Hw. exists false. split; [done|]. intros. by apply nil_client_admits_nothing. }
  eapply (wp_weaken (wire_env getenv (λ w, (list_to_map (w_webhooks w) : gmap string webhook) !! migration_path = Some (VMMValidator false)))).
  - intros X e w [He ?]. split; [|done]. destruct e; auto.
  - done.
  - done.
  - unfold controller_main. wire_calls.
Qed.

(** Whatever calls of its set up fail and whatever its environment and flags are, virt-controller
    registers no webhook path twice and starts its manager only when the three controllers, with the
    three indexes that their lists use, the five webhooks, both probes and, exactly when it is
    enabled, the API server with its console resource are set up; it ends with status 0 exactly when
    no call failed and the manager ran, and with status 1 otherwise, never with a panic. *)
Lemma controller_starts_complete getenv metricsAddr probeAddr leader api opts :
  wp (wire_env getenv (controller_ready getenv api)) (controller_main metricsAddr probeAddr leader api opts) nothing_wired ends.
Proof.
  unfold controller_main. wire_calls.
Qed.

(** The same of virt-daemon: its manager starts only when its controller and its console server
    serve the node of its environment, and the device plugins and both probes are set up. *)
Lemma daemon_starts_complete getenv metricsAddr probeAddr consoleAddr :
  wp (wire_env getenv (daemon_ready getenv consoleAddr)) (daemon_main metricsAddr probeAddr consoleAddr) nothing_wired ends.
Proof. unfold daemon_main. wire_calls. Qed.

