(* ===== verification/System.v ===== *)
(** * The controllers together

    The VM controller, the migration controller and the daemons of the nodes share the stored
    VM.  The API server accepts an update only when it is based on the stored version, so a
    write is an atomic step from the VM that the writer fetched; what a user does is a step
    too.  [system_step] is the union of those steps: each controller's writes are steps of it,
    and the invariants below hold of every VM that the steps reach from a new one. *)

From stdpp Require Import base gmap strings list sets fin_maps relations.
From Stdlib Require Import ZArith Lia.
From S2P Require Import Prelude GoStd K8s ApiTypes Kube VmValidate PodBuild PodBuildProofs VmController VmControllerProofs Migration Daemon DaemonProofs.
Open Scope Z_scope.

Section System.
Context `{K : K8s}.

Inductive system_step (vm : VirtualMachine) : VirtualMachine → Prop :=
(** the VM controller *)
| sys_controller s : status_step (Status vm) s → system_step vm (set_Status s vm)
(** the daemon of a node *)
| sys_daemon node vm' : daemon_step node vm vm' → system_step vm (set_Status (Status vm') vm)
(** a migration *)
| sys_migration vmm vm' : claim_step vmm vm vm' → system_step vm (set_Status (Status vm') vm)
(** a power action requested by a user *)
| sys_power a : system_step vm (set_Status (set_PowerAction a (Status vm)) vm)
(** changes outside the status: labels, spec, finalizers, a deletion *)
| sys_object m sp : system_step vm (mkVM m sp (Status vm)).

(** The VMs a run of the system stores: created with an empty status, then changed by steps. *)
Definition reachable (vm : VirtualMachine) : Prop :=
  ∃ m sp, rtc system_step (mkVM m sp emptyVMStatus) vm.

(** Phases before a VM runs. *)
Definition before_running (p : VirtualMachinePhase) : Prop :=
  p = VirtualMachinePhaseUnset ∨ p = VirtualMachinePending ∨ p = VirtualMachineScheduling ∨ p = VirtualMachineScheduled.

(** A migration has its target pod only once the VM has run, a target node only with its
    target pod, and volume statuses record their volume pod. *)
Record coherent (s : VirtualMachineStatus) : Prop := {
  co_volumes : volumes_ok s;
  co_picked : ∀ m, Migration s = Some m → target_picked m → ¬ before_running (Phase s);
  co_target : ∀ m, Migration s = Some m → TargetNodeName m ≠ "" → target_picked m
}.

Lemma volume_key_ok (l l' : list VolumeStatus) :
  volume_key <$> l' = volume_key <$> l → Forall (λ v, is_Some (HotplugVolume v)) l → Forall (λ v, is_Some (HotplugVolume v)) l'.
Proof.
  intros E Hl. apply Forall_forall. intros v Hv. rewrite Forall_forall in Hl.
  assert (Hin : volume_key v ∈ volume_key <$> l) by (rewrite <- E; by apply list_elem_of_fmap_2).
  apply list_elem_of_fmap in Hin as (v' & [= _ ->] & Hv'). by apply Hl.
Qed.

(** The migration of a VM, after a step of the VM controller. *)
Lemma controller_picked s s' m' :
  status_step s s' → Migration s' = Some m' → (TargetNodeName m' ≠ "" → target_picked m') ∨ Migration s = Some m'.
Proof.
  intros [_ [Hm|[_ Hn]] _ _ _ _] Em; [|congruence]. rewrite Em in Hm. remember (Some m') as o eqn:Eo. destruct Hm; simplify_eq; [by right|..]; left.
  - intros _. split; congruence.
  - intros _. unfold target_picked. intuition congruence.
Qed.

Lemma controller_coherent s s' : status_step s s' → coherent s → coherent s'.
Proof.
  intros Hs [Hv Hp Ht]. split.
  - by apply (st_volumes _ _ Hs).
  - intros m' Em Hpk Hb. destruct (decide (Migration s' = Migration s)) as [E|E].
    + assert (Hnb : ¬ before_running (Phase s)) by (apply (Hp m'); congruence). destruct (decide (Phase s' = VirtualMachinePending)) as [Ep|Ep].
      * rewrite (st_restart _ _ Hs Ep) in Em; [done|]. intros E'. apply Hnb. rewrite E'. by right; left.
      * pose proof (st_phase _ _ Hs) as Hph. destruct Hph; unfold before_running in *; intuition congruence.
    + destruct (st_migrating _ _ Hs E) as [Hr|?]; [|congruence]. pose proof (st_phase _ _ Hs) as Hph. rewrite Hr in Hph.
      inversion Hph; subst; unfold before_running in *; intuition congruence.
  - intros m' Em Hn. destruct (controller_picked _ _ _ Hs Em) as [?|E]; [auto|by eapply Ht].
Qed.

Lemma handover_picked node s m m' : handover_step node s m m' → target_picked m'.
Proof. unfold target_picked. destruct m. intros []; subst; simpl; try done. intuition congruence. Qed.

Lemma daemon_coherent node vm vm' : daemon_step node vm vm' → coherent (Status vm) → coherent (Status vm').
Proof.
  intros [_ Hph Hm Hv _ _] [Hvo Hp Ht]. split.
  - by eapply volume_key_ok.
  - intros m' Em Hpk Hb. rewrite Em in Hm. destruct (Migration (Status vm)) as [m|] eqn:E; [|done].
    destruct Hm as [->|[Hr Hh]].
    + apply (Hp m eq_refl Hpk). remember (Phase (Status vm')) as q. clear Heqq. destruct Hph; unfold before_running in *; intuition congruence.
    + remember (Phase (Status vm')) as q. clear Heqq. destruct Hph; unfold before_running in *; intuition congruence.
  - intros m' Em Hn. rewrite Em in Hm. destruct (Migration (Status vm)) as [m|] eqn:E; [|done].
    destruct Hm as [->|[Hr Hh]]; [by apply (Ht m)|]. by eapply handover_picked.
Qed.

Lemma system_coherent vm vm' : system_step vm vm' → coherent (Status vm) → coherent (Status vm').
Proof.
  intros [s Hs|node vm1 Hs|vmm vm1 Hs|a|m sp] Hc; simpl.
  - by eapply controller_coherent.
  - by eapply daemon_coherent.
  - destruct Hc as [Hv Hp Ht]. destruct Hs as [_ [(_ & E & ->)|(_ & _ & ->)]]; destruct vm as [me sp []]; simpl in *;
      (split; simpl; [done|try done..]).
    + intros m [= <-] [H _]. by destruct H.
    + intros m [= <-] H. by destruct H.
  - destruct Hc as [Hv Hp Ht]. by destruct vm as [me sp []].
  - done.
Qed.

Lemma reachable_coherent vm : reachable vm → coherent (Status vm).
Proof.
  intros (m & sp & Hr). remember (mkVM m sp emptyVMStatus) as vm0 eqn:E.
  assert (Hc : coherent (Status vm0)) by (subst; split; [apply Forall_nil_2|done..]). clear E.
  induction Hr as [|vm1 vm2 vm3 Hs _ IH]; [done|]. apply IH. by eapply system_coherent.
Qed.



(** No migration takes over a VM from another: while a VM has a migration, its UID stays,
    until the migration is dropped. *)
Theorem migration_keeps_vm vm vm' m m' :
  system_step vm vm' → Migration (Status vm) = Some m → Migration (Status vm') = Some m' → Migration_UID m' = Migration_UID m.
Proof.
  intros Hs Em Em'. destruct Hs as [s Hs|node vm1 Hs|vmm vm1 Hs|a|me sp]; simpl in *.
  - destruct (st_migration _ _ Hs) as [Hm|[_ ?]]; [|congruence]. rewrite Em, Em' in Hm. inversion Hm; congruence.
  - pose proof (dt_migration _ _ _ Hs) as Hm. rewrite Em, Em' in Hm. destruct Hm as [->|[_ Hh]]; [done|].
    destruct m. destruct Hh; by subst.
  - destruct Hs as [_ [(_ & E & _)|(_ & _ & ->)]]; [congruence|]. by destruct vm as [? ? []].
  - destruct vm as [? ? []]. simpl in *. congruence.
  - congruence.
Qed.

(** The phase Unknown is left only by deleting the VM: no controller, migration or power
    action brings a VM back from it. *)
Theorem unknown_until_deleted vm vm' :
  system_step vm vm' → Phase (Status vm) = VirtualMachineUnknown → om_DeletionTimestamp (vm_meta vm) = None →
  Phase (Status vm') = VirtualMachineUnknown.
Proof.
  intros Hs Hp Hd. destruct Hs as [s Hs|node vm1 Hs|vmm vm1 Hs|a|me sp]; simpl in *.
  - pose proof (st_phase _ _ Hs) as Hph. rewrite Hp in Hph. inversion Hph; subst; intuition congruence.
  - pose proof (dt_phase _ _ _ Hs) as Hph. remember (Phase (Status vm1)) as q. clear Heqq.
    destruct Hph as [|p| |[t Ht]]; congruence.
  - destruct Hs as [_ [(_ & _ & ->)|(_ & _ & ->)]]; by destruct vm as [? ? []].
  - by destruct vm as [? ? []].
  - done.
Qed.

(** *** The programs refine the system *)

(** A status write from a fetched VM is a step of the system. *)
Definition writes_step (vm : option VirtualMachine) (vm' : VirtualMachine) : Prop :=
  ∃ vm0, vm = Some vm0 ∧ system_step vm0 (set_Status (Status vm') vm0).

Definition controller_writes X (e : kubeE X) (w : option VirtualMachine) : Prop :=
  match e with UpdateVMStatus vm => writes_step w vm | _ => True end.
Definition migration_writes X (e : kubeE X) (w : option VirtualMachineMigration * option VirtualMachine) : Prop :=
  match e with UpdateVMStatus vm => writes_step (snd w) vm | CreatePod _ | DeletePod _ | UpdateVM _ => False | _ => True end.
Definition daemon_writes X (e : nodeE X) (w : option VirtualMachine) : Prop :=
  match e with
  | Kube (UpdateVMStatus vm) => writes_step w vm
  | Kube (CreatePod _) | Kube (DeletePod _) | Kube (UpdateVM _) | Kube (UpdateVMMStatus _) => False
  | _ => True
  end.

End System.

(** ** A concrete run *)

Section Sample.
#[local] Existing Instance k8s_concrete.
#[local] Existing Instance k8s_concrete_laws.


(** A VM that was started, given a pod, and scheduled to a node. *)
Definition scheduledStatus : VirtualMachineStatus :=
  mkVMStatus VirtualMachineScheduled "vm-vm-x1" "uid-1" "node-1" VirtualMachinePowerActionUnset None [] [].
Definition scheduledVM : VirtualMachine := mkVM (sampleMeta "vm" "vm-uid") (sampleSpec [sampleDisk]) scheduledStatus.

Lemma scheduledVM_reachable : reachable scheduledVM.
Proof.
  exists (sampleMeta "vm" "vm-uid"), (sampleSpec [sampleDisk]).
  eapply rtc_l; [apply (sys_controller _ (set_Phase VirtualMachinePending emptyVMStatus))|].
  { split; simpl; try done; [constructor|by left; constructor]. }
  eapply rtc_l; [apply (sys_controller _ (set_Phase VirtualMachineScheduling (set_VMPodName "vm-vm-x1" emptyVMStatus)))|].
  { split; simpl; try done; [constructor|by left; constructor|]. by intros [?|[?|?]]. }
  eapply rtc_l; [apply (sys_controller _ scheduledStatus)|apply rtc_refl].
  split; simpl; try done; [constructor|by left; constructor].
Qed.



Definition migratingVM (p : VirtualMachineMigrationPhase) : VirtualMachine :=
  mkVM (sampleMeta "vm" "vm-uid") (sampleSpec [sampleDisk])
    (mkVMStatus VirtualMachineRunning "vm-vm-x1" "uid-1" "node-1" VirtualMachinePowerActionUnset
      (Some (mkStatusMigration "vmm-uid" p "node-2" "" 0 "vm-vm-x2" "uid-2" "")) [] []).

Lemma migration_keeps_vm_witness :
  Migration_UID (mkStatusMigration "vmm-uid" VirtualMachineMigrationSent "node-2" "" 0 "vm-vm-x2" "uid-2" "") = "vmm-uid".
Proof.
  apply (migration_keeps_vm (migratingVM VirtualMachineMigrationRunning) (migratingVM VirtualMachineMigrationSent)
    (mkStatusMigration "vmm-uid" VirtualMachineMigrationRunning "node-2" "" 0 "vm-vm-x2" "uid-2" "")).
  - apply (sys_daemon (migratingVM VirtualMachineMigrationRunning) "node-1" (migratingVM VirtualMachineMigrationSent)).
    split; simpl; auto; [by constructor|]. right. split; [done|]. by apply (hs_sent _ _ _ _ VirtualMachineMigrationSent); auto.
  - reflexivity.
  - reflexivity.
Defined.

Definition unknownVM (a : VirtualMachinePowerAction) : VirtualMachine :=
  mkVM (sampleMeta "vm" "vm-uid") (sampleSpec [sampleDisk])
    (mkVMStatus VirtualMachineUnknown "vm-vm-x1" "uid-1" "node-1" a None [] []).

Lemma unknown_until_deleted_witness : Phase (Status (unknownVM VirtualMachinePowerOn)) = VirtualMachineUnknown.
Proof.
  apply (unknown_until_deleted (unknownVM VirtualMachinePowerActionUnset) (unknownVM VirtualMachinePowerOn)).
  - exact (sys_power (unknownVM VirtualMachinePowerActionUnset) VirtualMachinePowerOn).
  - reflexivity.
  - reflexivity.
Defined.

End Sample.
