(* ===== verification/Cluster.v ===== *)
(** * A cluster with one VM

    The cluster in which a VM is started and deleted: the stored VM, its pod and the hypervisor in the
    pod.  The VM controller, the kubelet and the daemons of the nodes take turns in any order; a turn
    of a controller is one [Reconcile], in which every call may fail, before or after it took effect.
    The file has the environments of the two controllers, the turns, what the steps of the
    controllers leave as it is, and the rule by which rounds of turns make progress. *)

From stdpp Require Import base gmap strings list sets fin_maps sorting.
From Stdlib Require Import ZArith Lia.
From S2P Require Import Prelude GoStd K8s ApiTypes Kube PodBuild PodBuildProofs VmController VmControllerProofs Daemon DaemonProofs.
Open Scope Z_scope.

(** What the hypervisor in the pod has: no VM, a VM that is not booted, or a running one. *)
Inductive hypervisor := HvEmpty | HvCreated | HvRunning.

(** An error that says nothing about the state of the cluster. *)
Definition transient (e : goerror) : Prop := IsNotFound e = false ∧ isVMNotCreatedError e = false.

Section Cluster.
Context `{K : K8s} (params : BuildParams) (node : string).

Record cluster := mkCluster {
  cl_vm : VirtualMachine;
  cl_pod : option Pod;
  cl_hv : hypervisor;
  (** a call of this turn failed *)
  cl_failed : bool
}.

Definition store (s : VirtualMachineStatus) (w : cluster) : cluster :=
  mkCluster (set_Status s (cl_vm w)) (cl_pod w) (cl_hv w) (cl_failed w).
Definition set_pod (p : Pod) (w : cluster) : cluster := mkCluster (cl_vm w) (Some p) (cl_hv w) (cl_failed w).
Definition set_hv (h : hypervisor) (w : cluster) : cluster := mkCluster (cl_vm w) (cl_pod w) h (cl_failed w).
Definition set_fail (b : bool) (w : cluster) : cluster := mkCluster (cl_vm w) (cl_pod w) (cl_hv w) b.

(** ** The answers of the cluster *)

(** A call that succeeds with effect [w1], or fails before or after it. *)
Definition fallible {X} (good : X → Prop) (w w1 : cluster) (r : result X) (w' : cluster) : Prop :=
  match r with
  | Ok x => good x ∧ w' = w1
  | Err e => transient e ∧ (w' = set_fail true w ∨ w' = set_fail true w1)
  end.
Definition may_fail (w w1 : cluster) (r : option goerror) (w' : cluster) : Prop :=
  match r with
  | None => w' = w1
  | Some e => transient e ∧ (w' = set_fail true w ∨ w' = set_fail true w1)
  end.

(** A network attachment that virtink supports for vhost-user interfaces. *)
Definition supported (nad : NetworkAttachmentDefinition) : Prop :=
  ∃ cfg, UnmarshalNADConfig params (nad_Config nad) = Ok cfg ∧ (cfg_Type cfg = "kube-ovn" ∨ cfg_Type cfg = "userspace").

Definition set_UID (u : string) (m : ObjectMeta) : ObjectMeta :=
  let '(mkObjectMeta n g ns _ rv gen ct dt l a o f) := m in mkObjectMeta n g ns u rv gen ct dt l a o f.

Definition set_DeletionTimestamp (t : option Z) (m : ObjectMeta) : ObjectMeta :=
  let '(mkObjectMeta n g ns u rv gen ct _ l a o f) := m in mkObjectMeta n g ns u rv gen ct t l a o f.

(** A VM that is being deleted is gone when its finalizer is. *)
Definition gone (w : cluster) : Prop :=
  is_Some (om_DeletionTimestamp (vm_meta (cl_vm w))) ∧ ContainsFinalizer (vm_meta (cl_vm w)) VMProtectionFinalizer = false.
#[export] Instance gone_dec w : Decision (gone w).
Proof. unfold gone. apply _. Defined.

(** The API server.  Claims exist and are populated, network attachments are supported; the pod
    has no hotplug volume pods.  A deleted pod stays, marked, until the kubelet removes it. *)
Definition kube_answers X (e : kubeE X) (w : cluster) : X → cluster → Prop :=
  match e in kubeE X return X → cluster → Prop with
  | GetVM _ => if decide (gone w) then λ r w', w' = w ∧ ∃ e, r = Err e ∧ IsNotFound e = true
               else fallible (λ vm, vm = cl_vm w) w w
  | GetPod key => λ r w', fallible (λ p, cl_pod w = Some p ∧ ObjectKey (pod_meta p) = key) w w r w' ∨
      (w' = w ∧ (∃ e, r = Err e ∧ IsNotFound e = true) ∧ ∀ p, cl_pod w = Some p → ObjectKey (pod_meta p) ≠ key)
  | GetPVC_ _ => fallible (λ _, True) w w
  | GetNAD _ => fallible supported w w
  | IsPopulated _ _ => fallible (λ b, b = true) w w
  | ListPods _ => fallible (λ l, ∀ p q, cl_pod w = Some p → q ∈ l → IsControlledBy (pod_meta q) (pod_meta p) = false) w w
  | ListVMPods uid => fallible (λ l, uid = om_UID (vm_meta (cl_vm w)) → l = option_list (cl_pod w)) w w
  | CreatePod pod => λ r w', ∃ uid, may_fail w (set_pod (set_pod_meta (set_UID uid (pod_meta pod)) pod) w) r w'
  | UpdateVM vm => let vm' := set_Status (Status (cl_vm w)) vm in
      fallible (λ x, x = vm') w (mkCluster vm' (cl_pod w) (cl_hv w) (cl_failed w))
  | UpdateVMStatus vm => if decide (gone w) then λ r w', w' = w ∧ ∃ e, r = Some e ∧ IsNotFound e = true
                         else may_fail w (store (Status vm) w)
  | DeletePod p => λ r w', ∃ t, t ≠ 0 ∧ may_fail w (set_pod (set_pod_meta (set_DeletionTimestamp (Some t) (pod_meta p)) p) w) r w'
  | _ => λ _ w', w' = w
  end.

(** A pod is created only when there is none and the VM is not being deleted; only the pod of a VM that
    is being deleted and does not run any more is deleted. *)
Definition kube_allowed X (e : kubeE X) (w : cluster) : Prop :=
  match e with
  | CreatePod _ => cl_pod w = None ∧ om_DeletionTimestamp (vm_meta (cl_vm w)) = None
  | DeletePod p => cl_pod w = Some p ∧ is_Some (om_DeletionTimestamp (vm_meta (cl_vm w))) ∧ deletable_phase (Phase (Status (cl_vm w))) = true
  | UpdateVMMStatus _ => False
  | _ => True
  end.

Definition cenv : env kubeE cluster := mkEnv kube_allowed kube_answers False.

(** What the hypervisor says about its VM. *)
Definition hv_info (h : hypervisor) (info : VmInfo) : Prop :=
  match h with
  | HvEmpty => False
  | HvCreated => Info_State info = "Created"
  | HvRunning => Info_State info = "Running" ∧ is_Some (Info_Config info)
  end.

Definition hv_after (req : chRequest) (h : hypervisor) : hypervisor :=
  match req with VmCreate _ => HvCreated | VmBoot => HvRunning | VmDelete => HvEmpty | _ => h end.

(** The socket of the hypervisor in a pod, and whether a socket is that of the running pod. *)
Definition pod_socket (p : Pod) : string :=
  JoinPath [podDir (om_UID (pod_meta p)) ["volumes/kubernetes.io~empty-dir/virtink/"]; "ch.sock"].
Definition at_pod (w : cluster) (socket : string) : Prop :=
  ∃ p, cl_pod w = Some p ∧ PodStatus_Phase (pod_Status p) = PodRunning ∧ socket = pod_socket p.

(** The node of the pod.  The pre-runner has written its configuration when the pod runs. *)
Definition node_answers X (e : nodeE X) (w : cluster) : X → cluster → Prop :=
  match e in nodeE X return X → cluster → Prop with
  | Kube e => kube_answers _ e w
  | GetVmInfo socket => λ r w', (w' = w ∨ w' = set_fail true w) ∧ (at_pod w socket →
      fallible (hv_info (cl_hv w)) w w r w' ∨
      (w' = w ∧ cl_hv w = HvEmpty ∧ ∃ e, r = Err e ∧ isVMNotCreatedError e = true))
  | ChRequest _ req => may_fail w (set_hv (hv_after req (cl_hv w)) w)
  | ReadVmConfig _ => fallible (λ c, ∃ c', c = Some c' ∧ is_Some (Config_MemorySize c')) w w
  | RelayTCPToSocket _ _ _ | Stat _ | ReadRecord _ | Exec _ _ | Mounted _ | MountInfos _ | GetPIDBySocket _ | OpenCgroup _ =>
      fallible (λ _, True) w w
  | RelaySocketToTCP _ _ _ | LoadCACert _ | MkdirAll _ | WriteRecord _ _ | CreateFile _ | RemoveAll _ | PrlimitMemlock _ _
  | CgroupSet _ _ => may_fail w w
  | _ => λ _ w', w' = w
  end.

(** Hypervisor requests go to the hypervisor of the pod while it runs; a VM is created and booted
    once, in this order, and deleted only when the VM object is; no migration is started. *)
Definition node_allowed X (e : nodeE X) (w : cluster) : Prop :=
  match e with
  | Kube (CreatePod _) | Kube (DeletePod _) | Kube (UpdateVM _) => False
  | Kube e => kube_allowed _ e w
  | ChRequest socket req => at_pod w socket ∧
      match req with
      | VmCreate _ => cl_hv w = HvEmpty ∧ om_DeletionTimestamp (vm_meta (cl_vm w)) = None
      | VmBoot => cl_hv w = HvCreated ∧ om_DeletionTimestamp (vm_meta (cl_vm w)) = None
      | VmDelete => is_Some (om_DeletionTimestamp (vm_meta (cl_vm w)))
      | VmAddDisk _ | VmRemoveDevice _ => True
      | _ => False
      end
  | GoReceiveMigration _ _ _ | GoSendMigration _ _ _ => False
  | _ => True
  end.

Definition nenv : env nodeE cluster := mkEnv node_allowed node_answers False.

(** ** Turns *)

Inductive actor := Controller | Kubelet | NodeDaemon (n : string).

(** A pod that is not being deleted and waits for its node, or runs on it. *)
Definition pending (p : Pod) : Prop :=
  (PodStatus_Phase (pod_Status p) = PodPhaseUnset ∨ PodStatus_Phase (pod_Status p) = PodPending) ∧
  (Pod_NodeName (pod_Spec p) = "" ∨ Pod_NodeName (pod_Spec p) = node) ∧ om_DeletionTimestamp (pod_meta p) = None.
Definition running_pod (p : Pod) : Prop :=
  PodStatus_Phase (pod_Status p) = PodRunning ∧ Pod_NodeName (pod_Spec p) = node ∧ om_DeletionTimestamp (pod_meta p) = None.

(** A pod is scheduled to the node and started there (no kubelet reports the phase Unknown), and a pod that is being deleted is stopped and
    removed; a turn of the kubelet that leaves the pod pending or stopping counts as failed. *)
Inductive kubelet_turn (w : cluster) : cluster → Prop :=
| kubelet_idle b : cl_pod w = None → kubelet_turn w (set_fail b w)
| kubelet_waits p p' : cl_pod w = Some p → pending p → pod_meta p' = pod_meta p → pending p' →
    kubelet_turn w (set_fail true (set_pod p' w))
| kubelet_runs p p' b : cl_pod w = Some p → om_DeletionTimestamp (pod_meta p) = None → pod_meta p' = pod_meta p → running_pod p' →
    kubelet_turn w (set_fail b (set_pod p' w))
| kubelet_stops p p' : cl_pod w = Some p → is_Some (om_DeletionTimestamp (pod_meta p)) → pod_meta p' = pod_meta p →
    Pod_NodeName (pod_Spec p') = Pod_NodeName (pod_Spec p) → PodStatus_Phase (pod_Status p') ≠ PodUnknown →
    kubelet_turn w (set_fail true (set_pod p' w))
| kubelet_removes p b : cl_pod w = Some p → is_Some (om_DeletionTimestamp (pod_meta p)) →
    kubelet_turn w (mkCluster (cl_vm w) None (cl_hv w) b).

Definition vm_key (w : cluster) : NamespacedName := ObjectKey (vm_meta (cl_vm w)).

(** One turn, which starts with no failure noted. *)
Definition turn (a : actor) (w w' : cluster) : Prop :=
  match a with
  | Controller => ∃ o, exec cenv (VmController.Reconcile params (vm_key w)) (set_fail false w) o w'
  | Kubelet => kubelet_turn (set_fail false w) w'
  | NodeDaemon n => ∃ ip blocks o, exec nenv (Daemon.Reconcile n ip (vm_key w) blocks) (set_fail false w) o w'
  end.

(** A schedule with the turns that did not fail. *)
Inductive turns : list (actor * bool) → cluster → cluster → Prop :=
| turns_nil w : turns [] w w
| turns_cons a w w1 l w' : turn a w w1 → turns l w1 w' → turns ((a, negb (cl_failed w1)) :: l) w w'.

(** [n] rounds in each of which the three actors had a turn without a failure. *)
Inductive rounds : nat → list (actor * bool) → Prop :=
| rounds_0 l : rounds 0 l
| rounds_S n l1 l2 : (Controller, true) ∈ l1 → (Kubelet, true) ∈ l1 → (NodeDaemon node, true) ∈ l1 → rounds n l2 →
    rounds (S n) (l1 ++ l2).

(** ** The way of a VM *)

(** ** What holds all the time *)

(** The VM has no hotplug volumes and no migration. *)
Record simple_vm (vm : VirtualMachine) : Prop := {
  si_volumes : ∀ v, v ∈ Volumes (Spec vm) → IsHotpluggable v = false;
  si_migration : Migration (Status vm) = None;
  si_statuses : VolumeStatuses (Status vm) = [];
  si_node : NodeName (Status vm) = "" ∨ NodeName (Status vm) = node
}.

(** The pod is the one the VM asked for, and what the status records of a placed pod is about it. *)
Definition own_pod (vm : VirtualMachine) (p : Pod) : Prop :=
  ObjectKey (pod_meta p) = mkNN (om_Namespace (vm_meta vm)) (VMPodName (Status vm)) ∧
  IsControlledBy (pod_meta p) (vm_meta vm) = true ∧
  (NodeName (Status vm) = "" ∨ VMPodUID (Status vm) = om_UID (pod_meta p)).
(** The status records the pod, which runs on the node. *)
Definition placed (vm : VirtualMachine) (p : Pod) : Prop :=
  own_pod vm p ∧ running_pod p ∧ VMPodUID (Status vm) = om_UID (pod_meta p) ∧ NodeName (Status vm) = node.

(** ** Calls that change nothing *)

Definition kept (w w' : cluster) : Prop :=
  cl_vm w' = cl_vm w ∧ cl_pod w' = cl_pod w ∧ cl_hv w' = cl_hv w ∧ (cl_failed w = true → cl_failed w' = true).

Lemma kept_refl w : kept w w.
Proof. done. Qed.
Lemma kept_trans w1 w2 w3 : kept w1 w2 → kept w2 w3 → kept w1 w3.
Proof. intros (E1 & E2 & E3 & F) (E1' & E2' & E3' & F'). split_and!; [congruence..|auto]. Qed.
Lemma kept_fail w : kept w (set_fail true w).
Proof. done. Qed.
Hint Resolve kept_refl kept_fail : virtink.

(** A result that is as wanted, or an error of a failed call. *)
Definition yields {A} (good : A → Prop) (w : cluster) (r : result A) (w' : cluster) : Prop :=
  kept w w' ∧ match r with Ok a => good a | Err _ => cl_failed w' = true end.

Lemma yields_trans {A} (good : A → Prop) w w1 r w2 : kept w w1 → yields good w1 r w2 → yields good w r w2.
Proof. intros Hk [Hk' Hr]. split; [by eapply kept_trans|done]. Qed.

Lemma fallible_yields {A} (good : A → Prop) w r w' : fallible good w w r w' → yields good w r w'.
Proof. destruct r as [a|e]; [by intros [Ha ->]|]. by intros [_ [-> | ->]]. Qed.

Lemma may_fail_kept w r w' : may_fail w w r w' → kept w w' ∧ (is_Some r → cl_failed w' = true).
Proof. destruct r as [e|]; [by intros [_ [-> | ->]]|]. intros ->. split; [done|]. by intros []. Qed.

Lemma wp_yields {E} (en : env E cluster) {A B} (p : prog E (result A)) (k : result A → prog E (result B)) g g' w :
  wp en p w (yields g w) → (∀ a w', g a → wp en (k (Ok a)) w' (yields g' w')) →
  (∀ e w', cl_failed w' = true → wp en (k (Err e)) w' (yields g' w')) → wp en (pbind p k) w (yields g' w).
Proof.
  intros Hp Hok Herr. apply wp_seq. eapply wp_mono; [|exact Hp]. intros r w' [Hk Hr].
  eapply wp_mono; [intros ? ?; by apply yields_trans|]. destruct r as [a|e]; auto.
Qed.

Lemma kube_read_ok w0 X (e : kubeE X) : is_read e = true → ok_call cenv (kept w0) e.
Proof.
  intros He w Hw. split; [by destruct e|]. intros x w' Hx. eapply kept_trans; [done|].
  destruct e; try done; simpl in Hx; try (subst; apply kept_refl); try (by apply fallible_yields in Hx as [? _]).
  destruct Hx as [Hx|[-> _]]; [by apply fallible_yields in Hx as [? _]|apply kept_refl].
Qed.

Lemma kept_store s w w' : kept w w' → kept (store s w) (store s w').
Proof. intros (E1 & E2 & E3 & F). unfold kept, store. simpl. split_and!; [congruence..|done]. Qed.

Lemma store_same w : store (Status (cl_vm w)) w = w.
Proof. by destruct w as [[]]. Qed.

Lemma no_hotplug_volumes vm pod : simple_vm vm → getHotplugVolumes vm pod = [].
Proof.
  intros Hs. unfold getHotplugVolumes. apply elem_of_nil_inv. intros v Hv%list_elem_of_filter.
  destruct Hv as [[Hh _] Hv]. by rewrite (si_volumes _ Hs v Hv) in Hh.
Qed.

Lemma getHotplugVolumePods_none pod w :
  cl_pod w = Some pod → wp cenv (getHotplugVolumePods pod) w (yields (λ l, l = []) w).
Proof.
  intros Hp. split; [done|]. intros r w' Hr. simpl in Hr. pose proof (fallible_yields _ _ _ _ Hr) as [Hk Hy].
  destruct r as [items|e]; [|by split]. split; [done|].
  apply elem_of_nil_inv. intros q. rewrite merge_sort_Permutation. intros [Hc Hq]%list_elem_of_filter. by rewrite (Hy pod q Hp Hq) in Hc.
Qed.

Lemma handleHotplugVolumes_none vm pod wait w :
  simple_vm vm → cl_pod w = Some pod →
  wp cenv (handleHotplugVolumes params vm pod wait) w (λ r w', kept w w' ∧ (is_Some r → cl_failed w' = true)).
Proof.
  intros Hs Hp. unfold handleHotplugVolumes. rewrite (no_hotplug_volumes _ _ Hs). cbn [ready_volumes pbind].
  rewrite andb_false_r. wp_use getHotplugVolumePods_none; [|done].
  intros [l|e] w' [Hk Hr]; [|by split]. subst l. cbn. split; [done|]. by intros [].
Qed.

Lemma updateHotplugVolumeStatus_none vm pod w :
  simple_vm vm → cl_pod w = Some pod →
  wp cenv (updateHotplugVolumeStatus vm pod) w (λ r w', kept w w' ∧ fst r = vm ∧ (is_Some (snd r) → cl_failed w' = true)).
Proof.
  intros Hs Hp. unfold updateHotplugVolumeStatus. rewrite (no_hotplug_volumes _ _ Hs), (si_statuses _ Hs).
  wp_use getHotplugVolumePods_none; [|done]. intros [l|e] w' [Hk Hr]; [|done]. subst l. cbn.
  rewrite map_to_list_empty. pose proof (si_statuses _ Hs). destruct vm as [me sp []]. simpl in *. subst.
  split_and!; [done..|]. by intros [].
Qed.

Lemma get_vm_pod_yields w :
  (∀ p, cl_pod w = Some p → own_pod (cl_vm w) p) →
  wp cenv (get_vm_pod (cl_vm w) (VMPodName (Status (cl_vm w)))) w (yields (λ o, o = cl_pod w) w).
Proof.
  intros Ho. split; [done|]. intros r w' [Hr|(-> & (e & -> & He) & Hno)]; cbn.
  - apply fallible_yields in Hr as Hy. destruct Hy as [Hk Hy]. destruct r as [p|e].
    + destruct Hy as [Ep _]. split; [done|]. destruct (Ho _ Ep) as (_ & Hc & _). cbn. by rewrite Hc.
    + destruct Hr as [[He _] _]. cbn. rewrite He. by split.
  - rewrite He. split; [done|]. destruct (cl_pod w) as [p|] eqn:Ep; [|done]. exfalso. apply (Hno p eq_refl). by apply Ho.
Qed.

(** Garbage collection finds only the VM's pod, which it spares. *)
Lemma gcVMPods_kept w vm :
  (∀ p, cl_pod w = Some p → own_pod (cl_vm w) p) → Status vm = Status (cl_vm w) → om_UID (vm_meta vm) = om_UID (vm_meta (cl_vm w)) →
  wp cenv (gcVMPods vm) w (λ _ w', kept w w').
Proof.
  intros Ho Es Eu. split; [done|]. intros r w' Hr. simpl in Hr. apply fallible_yields in Hr as [Hk Hr]. destruct r as [items|e]; [|done].
  cbn [pbind]. rewrite (Hr Eu). destruct (cl_pod w) as [p|] eqn:Ep; [|done]. simpl.
  destruct (Ho p eq_refl) as [[= _ Hname] _]. rewrite Es, Hname, bool_decide_true by done. by rewrite orb_true_r.
Qed.

Lemma all_attached vm : simple_vm vm → allHotplugVolumesAttached vm = true.
Proof. intros Hs. apply forallb_forall. intros v Hv%list_elem_of_In. by rewrite (si_volumes _ Hs v Hv). Qed.

(** The status after the pod was found. *)
Definition found_pod (vm : VirtualMachine) (p : Pod) : VirtualMachine :=
  upd_Status (λ s, set_NodeName (Pod_NodeName (pod_Spec p)) (set_VMPodUID (om_UID (pod_meta p)) s)) vm.

Lemma found_pod_set vm p : found_pod vm p = set_Status (Status (found_pod vm p)) vm.
Proof. by destruct vm. Qed.

(** The steps in the phases Scheduling and Scheduled with a pod: nothing is called that changes the
    cluster, and the status follows the pod unless a call fails. *)
Lemma scheduling_steps w p :
  cl_pod w = Some p → own_pod (cl_vm w) p → simple_vm (found_pod (cl_vm w) p) → simple_vm (follow_pod_phase (found_pod (cl_vm w) p) p) →
  wp cenv (reconcile_scheduling params (cl_vm w)) w (λ r w1, kept w w1 ∧
    (cl_failed w1 = true ∧ (fst r = cl_vm w ∨ fst r = found_pod (cl_vm w) p) ∨ fst r = follow_pod_phase (found_pod (cl_vm w) p) p)).
Proof.
  intros Ep Ho Hs1 Hs2. unfold reconcile_scheduling. wp_use get_vm_pod_yields; [|intros p'; rewrite Ep; by intros [= <-]].
  intros [o|e] w1 [Hk Hr]; [|by split; [done|left; split; [|left]]]. rewrite Hr, Ep. fold (found_pod (cl_vm w) p). cbv zeta.
  assert (Ep1 : cl_pod w1 = Some p) by (destruct Hk as (_ & E & _); congruence).
  apply wp_seq. eapply (wp_mono _ _ _ (λ r w', kept w1 w' ∧ (is_Some r → cl_failed w' = true))).
  2: { case_decide; [split; [done|by intros []]|]. by apply handleHotplugVolumes_none. }
  intros [e|] w2 [Hk2 He]; [split; [by eapply kept_trans|left; split; [by apply He; eauto|by right]]|].
  eapply wp_mono; [|apply updateHotplugVolumeStatus_none; [done|destruct Hk2 as (_ & E & _); congruence]].
  intros r w3 (Hk3 & E3 & _). split; [exact (kept_trans _ _ _ (kept_trans _ _ _ Hk Hk2) Hk3)|by right].
Qed.

(** The steps in the phase Running, with a running pod: only the conditions change. *)
Lemma running_steps w p :
  simple_vm (cl_vm w) → Phase (Status (cl_vm w)) = VirtualMachineRunning → cl_pod w = Some p → own_pod (cl_vm w) p →
  PodStatus_Phase (pod_Status p) = PodRunning →
  wp cenv (reconcile_running params (cl_vm w)) w (λ r w1, kept w w1 ∧ ∃ cs, fst r = upd_Status (set_Conditions cs) (cl_vm w)).
Proof.
  intros Hs Hph Ep Ho Er. unfold reconcile_running. wp_use get_vm_pod_yields; [|intros p'; rewrite Ep; by intros [= <-]].
  intros [o|e] w1 [Hk Hr]; [|split; [done|]; exists (Conditions (Status (cl_vm w))); by destruct (cl_vm w) as [? ? []]].
  rewrite Hr, Ep, Er. cbv zeta. rewrite Hph, bool_decide_true by done. cbn [negb].
  apply wp_seq. eapply wp_mono; [|apply (reconcileVMConditions_wp cenv (kept w)); [intros; by apply kube_read_ok|done]].
  intros vm1 w2 [Hk2 [cs ->]].
  assert (Hs1 : simple_vm (upd_Status (set_Conditions cs) (cl_vm w))) by (destruct (cl_vm w) as [? ? []]; by destruct Hs).
  rewrite (si_migration _ Hs1). assert (Ep2 : cl_pod w2 = Some p) by (destruct Hk2 as (_ & E & _); congruence).
  wp_use handleHotplugVolumes_none; [|done..]. intros [e|] w3 [Hk3 _]; [split; [by eapply kept_trans|by exists cs]|].
  eapply wp_mono; [|apply updateHotplugVolumeStatus_none; [done|destruct Hk3 as (_ & E & _); congruence]].
  intros r w4 (Hk4 & E4 & _). split; [exact (kept_trans _ _ _ (kept_trans _ _ _ Hk2 Hk3) Hk4)|by exists cs].
Qed.

Lemma plain_kept w0 X (e : nodeE X) : plain e = true → ok_call nenv (kept w0) e.
Proof.
  intros He w Hw. destruct e as [Y e| | | | | | | | | | | | | | | | | | | | | | | | |]; try done;
    [by destruct (kube_read_ok w0 _ e He w Hw); split; [by destruct e|]|..];
    (split; [done|]; intros x w' Hx; simpl in Hx; eapply kept_trans; [exact Hw|]);
    try (subst; apply kept_refl); try (by apply fallible_yields in Hx as [? _]); try (by apply may_fail_kept in Hx as [? _]).
  destruct Hx as [[-> | ->] _]; [apply kept_refl|apply kept_fail].
Qed.

Lemma mount_volumes_none l u vu r vm : (∀ v, v ∈ l → IsHotpluggable v = false) → mount_volumes l u vu r vm = Ret (vm, None).
Proof.
  induction l as [|v l IH]; intros Hl; cbn [mount_volumes]; [done|]. rewrite (Hl v) by set_solver. apply IH. set_solver.
Qed.
Lemma add_disks_none l disks vm : (∀ v, v ∈ l → IsHotpluggable v = false) → add_disks l disks vm = Ret (vm, None).
Proof.
  induction l as [|v l IH]; intros Hl; cbn [add_disks]; [done|]. rewrite (Hl v) by set_solver. apply IH. set_solver.
Qed.

Lemma mountHotplugVolumes_none vm u vu w :
  simple_vm vm → wp nenv (mountHotplugVolumes vm u vu) w
    (λ r w', kept w w' ∧ fst r = vm ∧ (is_Some (snd r) → cl_failed w' = true)).
Proof.
  intros Hs. unfold mountHotplugVolumes. apply wp_seq. eapply (wp_mono _ _ _ (yields (λ _, True) w)).
  - intros [r|e] w' [Hk Hr]; [|done]. rewrite mount_volumes_none by (apply (si_volumes _ Hs)). split_and!; [done..|]. by intros [].
  - unfold getVMMountRecord, tbind. eapply (wp_yields _ _ _ (λ _, True)); [|intros b w1 _; destruct b|done]; [..|done];
      (split; [done|]; intros r w' Hr; simpl in Hr; by apply fallible_yields).
Qed.

(** Fetching the pod. *)
Lemma node_get_pod w :
  (∀ p, cl_pod w = Some p → own_pod (cl_vm w) p) → wp nenv (kube (GetPod (mkNN (om_Namespace (vm_meta (cl_vm w))) (VMPodName (Status (cl_vm w)))))) w
    (λ r w', kept w w' ∧ match r with Ok p => cl_pod w = Some p | Err _ => cl_pod w = None ∨ cl_failed w' = true end).
Proof.
  intros Ho. split; [done|]. intros r w' [Hr|(-> & (e & -> & _) & Hno)].
  - apply fallible_yields in Hr as [Hk Hr]. split; [done|]. destruct r; [by destruct Hr|by right].
  - split; [done|]. left. destruct (cl_pod w) as [p|] eqn:Ep; [|done]. exfalso. apply (Hno p eq_refl). by apply Ho.
Qed.

Lemma turns_app l1 l2 w w' : turns (l1 ++ l2) w w' → ∃ w1, turns l1 w w1 ∧ turns l2 w1 w'.
Proof.
  revert w. induction l1 as [|x l1 IH]; intros w Ht; simpl in Ht; [exists w; by split; [constructor|]|].
  inversion Ht as [|a ? w1 ? ? Ha Hl]; subst. destruct (IH _ Hl) as (w2 & ? & ?). exists w2. by split; [econstructor|].
Qed.

(** ** Progress

    [inv n w]: at most [n] steps are left; [next n] has the next one. *)

Section Progress.
Context (inv : nat → cluster → Prop) (next : nat → option actor).

(** Where a turn of [a] that began with [n] steps left ends. *)
Definition advanced (a : actor) (n : nat) (w' : cluster) : Prop :=
  ∃ m, (m ≤ n)%nat ∧ inv m w' ∧ (cl_failed w' = false → next n = Some a → (m < n)%nat).

(** A turn left the cluster [w1], and [s] is still to be stored. *)
Definition moved (a : actor) (n : nat) (s : VirtualMachineStatus) (w1 : cluster) : Prop :=
  (∃ m, (m ≤ n)%nat ∧ inv m w1) ∧
  ∃ m, (m ≤ n)%nat ∧ inv m (store s w1) ∧ (cl_failed w1 = false → next n = Some a → (m < n)%nat).

Hypothesis inv_kept : ∀ n w w', kept w w' → inv n w → inv n w'.

Lemma advanced_kept a n w w' : kept w w' → advanced a n w → advanced a n w'.
Proof.
  intros Hk (m & Hle & Hm & Hlt). exists m. split_and!; [done|by eapply inv_kept|]. intros E. apply Hlt.
  destruct (cl_failed w) eqn:Ef; [|done]. destruct Hk as (_ & _ & _ & F). by rewrite F in E.
Qed.

Lemma advanced_failed a n m w : (m ≤ n)%nat → inv m w → cl_failed w = true → advanced a n w.
Proof. intros Hle Hm Hf. exists m. split_and!; [done..|]. intros E. by rewrite Hf in E. Qed.

(** Nothing has changed yet, and the status to store brings the VM on. *)
Lemma moved_kept a n m s w w1 :
  inv n w → kept w w1 → inv m (store s w) → (m ≤ n)%nat →
  (cl_failed w1 = false → next n = Some a → (m < n)%nat) → moved a n s w1.
Proof.
  intros Hn Hk Hm Hle Hlt. split.
  - exists n. split; [lia|]. by eapply inv_kept.
  - exists m. split_and!; [lia| |done]. eapply inv_kept; [by apply kept_store|done].
Qed.

(** The turn is not this actor's, or it failed. *)
Lemma moved_same a n w w1 :
  inv n w → kept w w1 → (next n = Some a → cl_failed w1 = true) → moved a n (Status (cl_vm w)) w1.
Proof.
  intros Hn Hk Hf. apply (moved_kept _ _ n _ w); [done..|by rewrite store_same|lia|]. intros E Ha. by rewrite Hf in E.
Qed.

(** The cluster has changed, and the status is not to change. *)
Lemma moved_to a n m w1 : (m ≤ n)%nat → inv m w1 → (m < n)%nat ∨ cl_failed w1 = true → moved a n (Status (cl_vm w1)) w1.
Proof.
  intros Hle Hm Hlt. split; [by exists m|]. exists m. rewrite store_same. split_and!; [done..|].
  intros E _. destruct Hlt as [?|Ef]; [done|]. by rewrite Ef in E.
Qed.

(** The status update at the end of a turn, which may fail before or after it took effect. *)
Lemma stored_advances a n vm w1 r w2 :
  ¬ gone w1 → moved a n (Status vm) w1 → kube_answers _ (UpdateVMStatus vm) w1 r w2 →
  may_fail w1 (store (Status vm) w1) r w2 ∧ advanced a n w2.
Proof.
  intros Hg [(m0 & Hle0 & Hm0) (m & Hle & Hm & Hlt)] Hr. simpl in Hr. rewrite decide_False in Hr by done. split; [done|]. destruct r as [e|].
  - destruct Hr as [_ [-> | ->]]; (eapply advanced_failed; [..|done]); [exact Hle0|by eapply inv_kept; [apply kept_fail|]
      |exact Hle|by eapply inv_kept; [apply kept_fail|]].
  - simpl in Hr. subst w2. by exists m.
Qed.

(** *** Turns and rounds *)

Hypothesis turn_advances : ∀ a n w w', inv n w → turn a w w' → advanced a n w'.
Hypothesis next_some : ∀ n, next (S n) ≠ None.
Hypothesis next_actor : ∀ n a, next n = Some a → a = Controller ∨ a = Kubelet ∨ a = NodeDaemon node.

Lemma turns_monotone l n w w' : inv n w → turns l w w' → ∃ m, (m ≤ n)%nat ∧ inv m w'.
Proof.
  intros Hn Ht. revert n Hn. induction Ht as [w|a w w1 l w' Ha _ IH]; intros n Hn; [by exists n|].
  destruct (turn_advances _ _ _ _ Hn Ha) as (m & Hle & Hm & _). destruct (IH m Hm) as (m' & ? & ?). exists m'. split; [lia|done].
Qed.

(** A round without a failure of the actor whose turn it is brings the VM on. *)
Lemma round_advances l n w w' :
  inv n w → turns l w w' → (∀ a, next n = Some a → (a, true) ∈ l) → ∃ m, (m ≤ pred n)%nat ∧ inv m w'.
Proof.
  intros Hn Ht. revert Hn. induction Ht as [w|a w w1 l w' Ha Hl IH]; intros Hn Hin.
  - destruct n as [|n]; [by exists 0%nat|]. exfalso. destruct (next (S n)) as [a|] eqn:Em; [|by apply (next_some n)].
    by apply (elem_of_nil (a, true)), (Hin a).
  - destruct (turn_advances _ _ _ _ Hn Ha) as (m & Hle & Hm & Hlt). destruct (decide (m < n)%nat) as [Hd|Hd].
    + destruct (turns_monotone _ _ _ _ Hm Hl) as (m' & ? & ?). exists m'. split; [lia|done].
    + assert (m = n) as -> by lia. apply IH; [done|]. intros b Hb. specialize (Hin b Hb) as [E|?]%elem_of_cons; [|done].
      injection E as -> E. symmetry in E. apply negb_true_iff in E. by apply Hlt in Hb.
Qed.

Lemma rounds_advance k l n w w' : inv n w → turns l w w' → rounds k l → ∃ m, (m ≤ n - k)%nat ∧ inv m w'.
Proof.
  intros Hn Ht Hr. revert n w Hn Ht. induction Hr as [l|k l1 l2 Hc Hk Hd _ IH]; intros n w Hn Ht.
  - destruct (turns_monotone _ _ _ _ Hn Ht) as (m & ? & ?). exists m. split; [lia|done].
  - apply turns_app in Ht as (w1 & Ht1 & Ht2). destruct (round_advances _ _ _ _ Hn Ht1) as (m & Hle & Hm).
    { intros a Ha. by destruct (next_actor n a Ha) as [-> |[-> | ->]]. }
    destruct (IH _ _ Hm Ht2) as (m' & ? & ?). exists m'. split; [lia|done].
Qed.

End Progress.

(** The next turn of a controller or daemon does not panic and makes only calls that are allowed. *)
Definition safe_turns (w : cluster) : Prop :=
  wp cenv (VmController.Reconcile params (vm_key w)) (set_fail false w) (λ _ _, True) ∧
  ∀ n ip blocks, wp nenv (Daemon.Reconcile n ip (vm_key w) blocks) (set_fail false w) (λ _ _, True).

(** Turns are covered by a specification of the two reconcilers and of the kubelet. *)
Lemma turn_covered (post : actor → cluster → Prop) w :
  wp cenv (VmController.Reconcile params (vm_key w)) (set_fail false w) (λ _, post Controller) →
  (∀ n ip blocks, wp nenv (Daemon.Reconcile n ip (vm_key w) blocks) (set_fail false w) (λ _, post (NodeDaemon n))) →
  (∀ w', kubelet_turn (set_fail false w) w' → post Kubelet w') →
  safe_turns w ∧ ∀ a w', turn a w w' → post a w'.
Proof.
  intros Hc Hd Hk. split.
  - split; [|intros n ip blocks]; (eapply wp_mono; [|eauto]; done).
  - intros [| |n'] w'; simpl.
    + intros [o Ho]. eapply wp_exec in Ho as (? & _ & Ha); [exact Ha|by intros []|exact Hc].
    + apply Hk.
    + intros (ip & blocks & o & Ho). eapply wp_exec in Ho as (? & _ & Ha); [exact Ha|by intros []|exact (Hd n' ip blocks)].
Qed.

(** ** Simulation: a way to go on from every cluster *)

Context (kh : handler kubeE cluster) (nh : handler nodeE cluster) (kubelet : cluster → cluster).

Definition play (a : actor) (w : cluster) : cluster :=
  match a with
  | Controller => snd (run kh (VmController.Reconcile params (vm_key w)) (set_fail false w))
  | Kubelet => kubelet (set_fail false w)
  | NodeDaemon n => snd (run nh (Daemon.Reconcile n "" (vm_key w) ∅) (set_fail false w))
  end.
Fixpoint simulate (l : list actor) (w : cluster) : list (actor * bool) * cluster :=
  match l with
  | [] => ([], w)
  | a :: l' => let w1 := play a w in let '(tr, w') := simulate l' w1 in ((a, negb (cl_failed w1)) :: tr, w')
  end.

Hypothesis kh_conforms : conforms cenv kh.
Hypothesis nh_conforms : conforms nenv nh.
Hypothesis kubelet_turns : ∀ w, kubelet_turn w (kubelet w).

Lemma play_turn a w : safe_turns w → turn a w (play a w).
Proof.
  intros [Hc Hd]. destruct a as [| |n']; unfold turn, play.
  - eexists. exact (run_exec _ kh _ _ _ kh_conforms Hc).
  - apply kubelet_turns.
  - exists "", ∅. eexists. exact (run_exec _ nh _ _ _ nh_conforms (Hd n' "" ∅)).
Qed.

Lemma simulate_turns (I : cluster → Prop) l w :
  (∀ w, I w → safe_turns w ∧ ∀ a w', turn a w w' → I w') → I w → turns (fst (simulate l w)) w (snd (simulate l w)).
Proof.
  intros HI. revert w. induction l as [|a l IH]; intros w Hw; simpl; [constructor|].
  destruct (HI w Hw) as [Hs Hi]. pose proof (play_turn a w Hs) as Ht. specialize (IH _ (Hi _ _ Ht)).
  destruct (simulate l (play a w)) as [tr w']. by econstructor.
Qed.

End Cluster.

(** ** A concrete cluster *)

Section Sample.
#[local] Existing Instance k8s_concrete.
#[local] Existing Instance k8s_concrete_laws.

Definition sample_kube : handler kubeE cluster := λ X e w,
  match e in kubeE X return X * cluster with
  | GetVM _ => (if decide (gone w) then Err (ErrAPI ReasonNotFound "") else Ok (cl_vm w), w)
  | GetPod key =>
      match cl_pod w with
      | Some p => if decide (ObjectKey (pod_meta p) = key) then (Ok p, w) else (Err (ErrAPI ReasonNotFound ""), w)
      | None => (Err (ErrAPI ReasonNotFound ""), w)
      end
  | GetPVC_ _ => (Ok (mkPVC emptyMeta None ""), w)
  | GetNAD _ => (Err (ErrMsg ""), set_fail true w)
  | IsPopulated _ _ => (Ok true, w)
  | ListPods _ => (Ok [], w)
  | ListVMPods _ => (Ok (option_list (cl_pod w)), w)
  | CreatePod pod => (None, set_pod (set_pod_meta (set_UID "pod-uid" (pod_meta pod)) pod) w)
  | UpdateVM vm => let vm' := set_Status (Status (cl_vm w)) vm in (Ok vm', mkCluster vm' (cl_pod w) (cl_hv w) (cl_failed w))
  | UpdateVMStatus vm => if decide (gone w) then (Some (ErrAPI ReasonNotFound ""), w) else (None, store (Status vm) w)
  | GenerateName base => (base +:+ "x1", w)%string
  | Eventf _ _ _ => (tt, w)
  | Now => (0, w)
  | GetVMM _ => (Err (ErrMsg ""), w)
  | ListVMs _ => (Ok [], w)
  | ListVMMs _ => (Ok [], w)
  | DeletePod p => (None, set_pod (set_pod_meta (set_DeletionTimestamp (Some 1) (pod_meta p)) p) w)
  | UpdateVMMStatus _ => (None, w)
  end.

Definition sample_node : handler nodeE cluster := λ X e w,
  match e in nodeE X return X * cluster with
  | Kube e => sample_kube _ e w
  | GetVmInfo _ =>
      match cl_hv w with
      | HvEmpty => (Err (ErrMsg "VM is not created"), w)
      | HvCreated => (Ok (mkVmInfo None "Created"), w)
      | HvRunning => (Ok (mkVmInfo (Some (mkVmConfig [] [] [] (Some 1) "")) "Running"), w)
      end
  | ChRequest _ req => (None, set_hv (hv_after req (cl_hv w)) w)
  | ReadVmConfig _ => (Ok (Some (mkVmConfig [] [] [] (Some 1) "")), w)
  | GoReceiveMigration _ _ _ | GoSendMigration _ _ _ | WithCancel => (0%nat, w)
  | TryReceive _ => (None, w)
  | RelayTCPToSocket _ _ _ | GetPIDBySocket _ => (Ok 1, w)
  | Stat _ | Mounted _ => (Ok false, w)
  | ReadRecord _ => (Ok [], w)
  | Exec _ _ => (Ok "", w)
  | MountInfos _ => (Ok [], w)
  | OpenCgroup _ => (Ok 0%nat, w)
  | RelaySocketToTCP _ _ _ | LoadCACert _ | MkdirAll _ | WriteRecord _ _ | CreateFile _ | RemoveAll _ | PrlimitMemlock _ _
  | CgroupSet _ _ => (None, w)
  | CancelContext _ | Sleep => (tt, w)
  end.

(** The kubelet starts the pod at once, and removes it at once. *)
Definition sample_kubelet (w : cluster) : cluster :=
  match cl_pod w with
  | None => set_fail (cl_failed w) w
  | Some p =>
      if decide (is_Some (om_DeletionTimestamp (pod_meta p))) then mkCluster (cl_vm w) None (cl_hv w) (cl_failed w)
      else
        let '(mkPodSpec _ h ns to af ic c v) := pod_Spec p in
        set_fail (cl_failed w) (set_pod (mkPod (pod_meta p) (mkPodSpec "node-1" h ns to af ic c v) (mkPodStatus PodRunning [] "" [])) w)
  end.

Lemma sample_kube_conforms : conforms (cenv sampleParams) sample_kube.
Proof.
  intros X e w _. destruct e; try done; simpl.
  - case_decide; simpl; [|done]. split; [done|]. by eexists.
  - destruct (cl_pod w) as [p|] eqn:E; [case_decide|]; simpl; auto; right; (split_and!; [done|by eexists|naive_solver]).
  - split; [done|]. by right.
  - split; [|done]. intros p q _ H. by apply elem_of_nil in H.
  - by exists "pod-uid".
  - by exists 1.
  - case_decide; simpl; [|done]. split; [done|]. by eexists.
Qed.

Lemma sample_node_conforms : conforms (nenv sampleParams) sample_node.
Proof.
  intros X e w Ha. destruct e as [Y e| | | | | | | | | | | | | | | | | | | | | | | | |]; try done; simpl.
  - apply sample_kube_conforms. destruct e; done.
  - destruct (cl_hv w) eqn:E; (split; [by left|]); intros _; simpl; [right|left; by split..]. split_and!; [done..|]. eexists. by split.
  - split; [|done]. eexists. split; [done|]. by eexists.
Qed.

Lemma sample_kubelet_turns w : kubelet_turn "node-1" w (sample_kubelet w).
Proof.
  unfold sample_kubelet. destruct (cl_pod w) as [[me [] st]|] eqn:E; simpl; [case_decide as Hd|by constructor].
  - by eapply kubelet_removes.
  - eapply kubelet_runs; [done|by apply eq_None_not_Some|done|]. split_and!; [done..|]. by apply eq_None_not_Some.
Qed.

Lemma sample_marshals :
  (∀ vm, ∃ json, MarshalVM sampleParams vm = Ok json) ∧ (∀ l, ∃ json, MarshalNetworks sampleParams l = Ok json).
Proof. split; intros x; by eexists. Qed.

(** Turns of the daemon, then of the kubelet, then of the controller. *)
Definition sample_rounds (n : nat) : cluster → list (actor * bool) * cluster :=
  simulate sampleParams sample_kube sample_node sample_kubelet (concat (repeat [NodeDaemon "node-1"; Kubelet; Controller] n)).

Definition clean_round : list (actor * bool) := [(NodeDaemon "node-1", true); (Kubelet, true); (Controller, true)].

Lemma clean_rounds n : rounds "node-1" n (concat (repeat clean_round n)).
Proof. induction n as [|n IH]; [constructor|]. apply rounds_S; [set_solver..|done]. Qed.

Lemma sample_rounds_turns (I : cluster → Prop) n w :
  (∀ w, I w → safe_turns sampleParams w ∧ ∀ a w', turn sampleParams "node-1" a w w' → I w') → I w →
  turns sampleParams "node-1" (fst (sample_rounds n w)) w (snd (sample_rounds n w)).
Proof. exact (simulate_turns _ _ _ _ _ sample_kube_conforms sample_node_conforms sample_kubelet_turns I _ w). Qed.

End Sample.
