(* ===== verification/StartUp.v ===== *)
(** * Starting a VM: the VM controller, the kubelet and the daemons together

    In the cluster of Cluster.v, a VM that is to run does run after a bounded number of rounds in which
    each actor had one turn without a failure, whatever else happened in between. *)

From stdpp Require Import base gmap strings list sets fin_maps sorting.
From Stdlib Require Import ZArith Lia.
From S2P Require Import Prelude GoStd K8s ApiTypes Kube VmValidate PodBuild PodBuildProofs VmController VmControllerProofs Daemon DaemonProofs Cluster.
Open Scope Z_scope.

Section StartUp.
Context `{K : K8s} (params : BuildParams) (node : string).
#[local] Abbreviation cenv := (Cluster.cenv params).
#[local] Abbreviation nenv := (Cluster.nenv params).
#[local] Abbreviation supported := (Cluster.supported params).
#[local] Abbreviation pending := (Cluster.pending node).
#[local] Abbreviation running_pod := (Cluster.running_pod node).
#[local] Abbreviation placed := (Cluster.placed node).
#[local] Abbreviation simple_vm := (Cluster.simple_vm node).
#[local] Abbreviation turn := (Cluster.turn params node).
#[local] Abbreviation turns := (Cluster.turns params node).
#[local] Abbreviation kubelet_turn := (Cluster.kubelet_turn node).
#[local] Abbreviation safe_turns := (Cluster.safe_turns params).
#[local] Abbreviation rounds := (Cluster.rounds node).


(** A VM that can start: admitted, with an interface for each network, to run, and not being deleted. *)
Record startable (vm : VirtualMachine) : Prop := {
  sa_simple : simple_vm vm;
  sa_spec : wf_spec (Spec vm);
  sa_interfaces : ∀ net, net ∈ Networks (Spec vm) →
    is_Some (find_interface (Network_Name net) (Interfaces (Spec_Instance (Spec vm))));
  sa_policy : Spec_RunPolicy (Spec vm) ≠ RunPolicyHalted;
  sa_deletion : om_DeletionTimestamp (vm_meta vm) = None
}.


(** The VM has its finalizer, and its status was reset to start. *)
Definition started (vm : VirtualMachine) : Prop :=
  ContainsFinalizer (vm_meta vm) VMProtectionFinalizer = true ∧ PowerAction (Status vm) = VirtualMachinePowerActionUnset.

(** No pod has been found yet. *)
Definition unplaced (vm : VirtualMachine) : Prop := started vm ∧ NodeName (Status vm) = "".

(** How far the VM is: the number counts down to a running VM. *)
Inductive stage (vm : VirtualMachine) : option Pod → hypervisor → nat → Prop :=
| st_new : Phase (Status vm) = VirtualMachinePhaseUnset → ContainsFinalizer (vm_meta vm) VMProtectionFinalizer = false →
    should_run (Spec_RunPolicy (Spec vm)) VirtualMachinePhaseUnset (PowerAction (Status vm)) = true →
    stage vm None HvEmpty 8
| st_protected : Phase (Status vm) = VirtualMachinePhaseUnset → ContainsFinalizer (vm_meta vm) VMProtectionFinalizer = true →
    should_run (Spec_RunPolicy (Spec vm)) VirtualMachinePhaseUnset (PowerAction (Status vm)) = true →
    stage vm None HvEmpty 7
| st_pending : Phase (Status vm) = VirtualMachinePending → unplaced vm → stage vm None HvEmpty 6
| st_named : Phase (Status vm) = VirtualMachineScheduling → unplaced vm → stage vm None HvEmpty 5
| st_created p : Phase (Status vm) = VirtualMachineScheduling → started vm → own_pod vm p → pending p → stage vm (Some p) HvEmpty 4
| st_podRunning p : Phase (Status vm) = VirtualMachineScheduling → started vm → own_pod vm p → running_pod p →
    stage vm (Some p) HvEmpty 3
| st_scheduled p h : Phase (Status vm) = VirtualMachineScheduled → started vm → placed vm p → h ≠ HvRunning →
    stage vm (Some p) h 2
| st_booted p : Phase (Status vm) = VirtualMachineScheduled → started vm → placed vm p → stage vm (Some p) HvRunning 1
| st_running p : Phase (Status vm) = VirtualMachineRunning → started vm → placed vm p → stage vm (Some p) HvRunning 0.

Definition at_stage (n : nat) (w : cluster) : Prop := startable (cl_vm w) ∧ stage (cl_vm w) (cl_pod w) (cl_hv w) n.

(** Whose turn brings the VM on. *)
Definition mover (n : nat) : option actor :=
  match n with
  | O => None
  | 1%nat | 2%nat => Some (NodeDaemon node)
  | 4%nat => Some Kubelet
  | _ => Some Controller
  end.

#[local] Abbreviation moved := (Cluster.moved at_stage mover).
#[local] Abbreviation advanced := (Cluster.advanced at_stage mover).

(** ** Building the pod succeeds *)

Lemma GetPVC_yields ns v w :
  PVCName v ≠ "" → wp cenv (GetPVC ns v) w (yields (λ o, ∃ pvc, o = Some pvc) w).
Proof.
  unfold GetPVC, PVCName. intros Hn. rewrite decide_False by done. split; [done|]. intros [pvc|e] w' Hx; simpl in Hx.
  - destruct Hx as [_ ->]. split; [done|]. by exists pvc.
  - destruct Hx as [[Hnf _] Hw]. cbn. rewrite Hnf. by destruct Hw as [-> | ->].
Qed.

Lemma IsBlock_yields ns v w : PVCName v ≠ "" → wp cenv (IsBlock ns v) w (yields (λ _, True) w).
Proof.
  intros Hn. unfold IsBlock. eapply wp_yields; [by apply GetPVC_yields|by intros ? w' [pvc ->]|done].
Qed.

Lemma IsReady_yields ns v w : PVCName v ≠ "" → wp cenv (IsReady ns v) w (yields (λ b, b = true) w).
Proof.
  intros Hn. unfold IsReady. destruct (DataVolume (Volume_Source v)); [|done].
  eapply wp_yields; [by apply GetPVC_yields| |done]. intros ? w' [pvc ->]. split; [done|].
  intros r w1 Hr. simpl in Hr. by apply fallible_yields.
Qed.

Lemma add_vm_volumes_yields vm vs b blocks w :
  (∀ v, v ∈ vs → wf_volume v) → wp cenv (add_vm_volumes params vm vs b blocks) w (yields (λ _, True) w).
Proof.
  revert b blocks w. induction vs as [|v vs IH]; intros b blocks w Hvs; cbn [add_vm_volumes]; [done|].
  eapply (wp_yields _ _ _ (λ _, True)); [|intros [b' bl'] w' _; apply IH; set_solver|done].
  destruct (Hvs v ltac:(set_solver)) as [_ Hs]. unfold add_vm_volume.
  assert (Hclaim : PVCName v ≠ "" → wp cenv (add_claim vm v b) w (yields (λ _, True) w)).
  { intros Hn. unfold add_claim. eapply wp_yields; [by apply IsReady_yields| |done]. intros ? w1 ->.
    eapply wp_yields; [by apply IsBlock_yields| |done]. intros blk w2 _. by destruct (IsHotpluggable v). }
  remember (Volume_Source v) as src eqn:E. destruct Hs; try done; cbn;
    (eapply wp_yields; [apply Hclaim; unfold PVCName; by rewrite <- E| |done]); by intros [b' blk] w' _.
Qed.

Lemma add_vhost_user_yields iface nad b n : supported nad → ∃ x, add_vhost_user params iface (nad_Config nad) b n = Ok x.
Proof.
  intros (cfg & E & Ht). unfold add_vhost_user. rewrite E. repeat case_decide; eauto. naive_solver.
Qed.

Context {L : QuantityLaws K} (M : MetaLaws K).

Lemma add_multus_yields vm i iface m b n w : wp cenv (add_multus params vm i iface m b n) w (yields (λ _, True) w).
Proof.
  unfold add_multus. split; [done|]. intros r w' Hr. simpl in Hr. apply fallible_yields in Hr as [Hk Hr].
  eapply wp_mono; [intros ? ?; by apply yields_trans|]. cbn [pbind]. destruct r as [nad|e]; [|done].
  set (rn := default _ _). assert (∃ b', (if decide (rn = "") then Returned b else incrementContainerResource rn b) = Returned b') as [b' ->].
  { case_decide; [by exists b|]. destruct (incrementContainerResource_spec rn b) as (q & l & ->). eauto. }
  cbn [or_crash]. destruct (VhostUser (Binding iface)); [|done].
  edestruct (add_vhost_user_yields iface nad) as [[b1 n1] ->]; done.
Qed.

Lemma add_vm_networks_yields vm i nets b elems n w :
  (∀ net, net ∈ nets → is_Some (find_interface (Network_Name net) (Interfaces (Spec_Instance (Spec vm))))) →
  wp cenv (add_vm_networks params vm i nets b elems n) w (yields (λ _, True) w).
Proof.
  revert i b elems n w. induction nets as [|net nets IH]; intros i b elems n w Hn; cbn [add_vm_networks]; [done|].
  destruct (Hn net) as [iface ->]; [set_solver|]. destruct (Multus (Network_Source net)) as [m|]; [|apply IH; set_solver].
  eapply (wp_yields _ _ _ (λ _, True)); [apply add_multus_yields| |done]. intros [[b' el] n'] w' _. apply IH. set_solver.
Qed.

(** [json.Marshal] of the VM and of the networks does not fail. *)
Hypothesis marshals : (∀ vm, ∃ json, MarshalVM params vm = Ok json) ∧ (∀ l, ∃ json, MarshalNetworks params l = Ok json).

Lemma buildVMPod_yields vm w :
  startable vm → wp cenv (buildVMPod params vm) w
    (yields (λ r, (∃ b, fst r = finish params vm b) ∧ same_vm vm (snd r)) w).
Proof.
  intros [_ Hs Hi _ _]. unfold buildVMPod.
  destruct (incrementContainerResource_spec "devices.virtink.io/kvm" (initial vm)) as (q & l & ->). cbn [outcome_bind].
  edestruct (incrementContainerResource_spec "devices.virtink.io/tun") as (q' & l' & ->). cbn [or_crash].
  eapply (wp_yields _ _ _ (λ _, True)); [apply add_vm_volumes_yields; by apply Forall_forall, wfs_volumes| |done].
  intros [b blocks] w1 _. eapply (wp_yields _ _ _ (λ _, True)); [by apply add_vm_networks_yields| |done].
  intros [b' elems] w2 _. destruct marshals as [Hm Hn].
  assert (∃ b2, (match elems with [] => Ok b' | _ => match MarshalNetworks params elems with
      | Err e => Err (ErrFmt "marshal networks" e) | Ok json => Ok (set_annot "k8s.v1.cni.cncf.io/networks" json b') end end)
    = Ok b2) as [b2 ->].
  { destruct elems as [|el elems]; [by eexists|]. destruct (Hn (el :: elems)) as [json ->]. by eexists. }
  destruct (Hm (shared_vm vm b2)) as [json ->]. split; [done|]. split; [by eexists|]. apply shared_vm_same.
Qed.

(** ** What a stage depends on *)

Lemma at_stage_kept n w w' : kept w w' → at_stage n w → at_stage n w'.
Proof. intros (E1 & E2 & E3 & _). unfold at_stage. by rewrite E1, E2, E3. Qed.



Lemma stage_own_pod n w : at_stage n w → ∀ p, cl_pod w = Some p → own_pod (cl_vm w) p.
Proof. intros [_ Hs] p E. rewrite E in Hs. inversion Hs; subst; unfold placed in *; tauto. Qed.

(** A change of the status that keeps the VM simple. *)
Lemma startable_status vm s : startable vm → simple_vm (set_Status s vm) → startable (set_Status s vm).
Proof. intros [] Hs. by destruct vm; split. Qed.
#[local] Hint Resolve at_stage_kept : virtink.
Lemma not_gone w : startable (cl_vm w) → ¬ gone w.
Proof. intros Hs [Hd _]. rewrite (sa_deletion _ Hs) in Hd. by destruct Hd. Qed.

(** ** The steps of the VM controller *)







(** What [reconcile] leaves to [Reconcile]: the VM whose status is to be stored. *)
Definition reconciled (n : nat) (r : VirtualMachine * option goerror) (w1 : cluster) : Prop :=
  om_UID (vm_meta (fst r)) = om_UID (vm_meta (cl_vm w1)) ∧ moved Controller n (Status (fst r)) w1.

Lemma reconciled_kept n m w w1 vm e :
  at_stage n w → kept w w1 → om_UID (vm_meta vm) = om_UID (vm_meta (cl_vm w)) → at_stage m (store (Status vm) w) → (m ≤ n)%nat →
  (cl_failed w1 = false → mover n = Some Controller → (m < n)%nat) → reconciled n (vm, e) w1.
Proof.
  intros Hn Hk Hu Hm Hle Hlt. split; [|by eapply (moved_kept _ _ at_stage_kept)]. destruct Hk as (E & _). simpl. congruence.
Qed.

(** The turn failed, or was not the controller's, and the VM is as it was. *)
Lemma reconciled_same n w w1 vm e :
  at_stage n w → kept w w1 → om_UID (vm_meta vm) = om_UID (vm_meta (cl_vm w)) → Status vm = Status (cl_vm w) →
  (mover n = Some Controller → cl_failed w1 = true) → reconciled n (vm, e) w1.
Proof.
  intros Hn Hk Hu Es Hf. split; [destruct Hk as (E & _); simpl; congruence|]. simpl. rewrite Es. by apply (moved_same _ _ at_stage_kept).
Qed.

Lemma protect_moves w :
  at_stage 8 w → wp cenv (update_vm (set_meta (AddFinalizer (vm_meta (cl_vm w)) VMProtectionFinalizer) (cl_vm w))) w (reconciled 8).
Proof.
  intros Hn. set (vm1 := set_meta _ _). destruct (AddFinalizer_spec (MetaLaws := M) (vm_meta (cl_vm w)) VMProtectionFinalizer) as (l & El & Hl).
  assert (Es : set_Status (Status (cl_vm w)) vm1 = vm1) by (subst vm1; by destruct (cl_vm w)).
  assert (Eu : om_UID (vm_meta vm1) = om_UID (vm_meta (cl_vm w))) by (subst vm1; rewrite El; destruct (cl_vm w) as [[] ? ?]; done).
  assert (H7 : ∀ b, at_stage 7 (mkCluster vm1 (cl_pod w) (cl_hv w) b)).
  { intros b. destruct Hn as [Hs Hst]. destruct w as [vm po h f]. simpl in *. split; simpl.
    - destruct Hs as [[] ? ? ? ?]. subst vm1. rewrite El. destruct vm as [[] ? ?]. by split.
    - inversion Hst; subst. apply st_protected; [by destruct vm| |by destruct vm].
      rewrite (ContainsFinalizer_spec (MetaLaws := M)). apply bool_decide_true. simpl. rewrite El.
      destruct vm as [[] ? ?]. apply Hl. by left. }
  split; [done|]. intros r w1 Hr. simpl in Hr. rewrite Es in Hr. destruct r as [vm'|e]; cbn.
  - destruct Hr as [-> ->]. split; [done|]. split; [exists 7%nat; split; [lia|apply H7]|]. exists 7%nat.
    split_and!; [lia| |lia]. apply H7.
  - destruct Hr as [_ [-> | ->]].
    + apply (reconciled_same _ w); [done|by apply kept_fail|done|by rewrite <- Es; destruct (cl_vm w)|done].
    + split; [done|]. split; [exists 7%nat; split; [lia|apply H7]|]. exists 7%nat. split_and!; [lia|apply H7|lia].
Qed.

Lemma stopped_moves w : at_stage 7 w → wp cenv (reconcile_stopped (cl_vm w)) w (reconciled 7).
Proof.
  intros Hn. pose proof Hn as [Hs Hst]. inversion Hst as [|Hph Hfin Hrun Epod Ehv| | | | | | |].
  split; [done|]. intros r w1 Hr. simpl in Hr. apply fallible_yields in Hr as [Hk Hr]. destruct r as [l|e]; cbn.
  - rewrite (Hr eq_refl), <- Epod. cbn. rewrite Hph, Hrun. eapply (reconciled_kept _ 6); [done..| |lia|lia].
    destruct w as [[me sp []] po h f]; simpl in *. split; [apply (startable_status _ _ Hs); destruct Hs as [[] ? ? ? ?]; split; try done; by left|].
    subst. by constructor.
  - by apply (reconciled_same _ w).
Qed.

Lemma pending_moves w : at_stage 6 w → wp cenv (reconcile_pending (cl_vm w)) w (reconciled 6).
Proof.
  intros Hn. split; [done|]. intros name w1 ->. cbn. eapply (reconciled_kept _ 5); [done|done|done| |lia|lia].
  destruct Hn as [Hs Hst]. inversion Hst as [| |Hph Hst' Epod Ehv| | | | | |]. destruct w as [[me sp []] po h f]; simpl in *.
  split; [apply (startable_status _ _ Hs); by destruct Hs as [[] ? ? ? ?]|]. subst. by constructor.
Qed.

(** The pod that the API server stores is the VM's own, and waits for its node. *)
Lemma created_pod vm vm' b uid m :
  same_vm vm vm' → NodeName (Status vm) = "" →
  SetControllerReference SchemeGroupVersion VMKind (vm_meta vm')
    (set_NameNamespace (VMPodName (Status vm)) (om_Namespace (vm_meta vm')) (pod_meta (finish params vm b))) = Ok m →
  own_pod vm (set_pod_meta (set_UID uid m) (finish params vm b)) ∧ pending (set_pod_meta (set_UID uid m) (finish params vm b)).
Proof.
  intros Hs Hnode E. destruct (SetControllerReference_Ok (MetaLaws := M) _ _ _ _ _ E) as [(r & Hr & Hu & _) Hm].
  assert (Hdel : om_DeletionTimestamp m = None) by (apply (f_equal om_DeletionTimestamp) in Hm; by destruct m).
  split; [|split_and!; [by left..|by destruct m]]. unfold own_pod. simpl.
  assert (Hkey : ObjectKey (set_UID uid m) = mkNN (om_Namespace (vm_meta vm)) (VMPodName (Status vm))).
  { rewrite <- (sv_namespace _ _ Hs). apply (f_equal ObjectKey) in Hm. by destruct m. }
  split; [done|]. unfold IsControlledBy. rewrite (GetControllerOf_owners (MetaLaws := M) (set_UID uid m) m) by (by destruct m).
  rewrite Hr. split; [|by left]. apply bool_decide_true. rewrite Hu. apply (sv_uid _ _ Hs).
Qed.

Lemma create_moves w :
  at_stage 5 w → wp cenv (create_vm_pod (cl_vm w) (VMPodName (Status (cl_vm w))) "CreatedVMPod" (ErrWrap "build VM Pod") "VM Pod"
    (buildVMPod params (cl_vm w))) w (reconciled 5).
Proof.
  intros Hn. unfold create_vm_pod. wp_use buildVMPod_yields; [|apply Hn].
  intros [[pod vm']|e] w1 [Hk Hr]; [|by apply (reconciled_same _ w)]. simpl in Hr. destruct Hr as [[b ->] Hs].
  assert (Hs' := Hs). destruct Hs' as [_ _ Hu _ _ Hst _ _ _ _].
  destruct (SetControllerReference_free (MetaLaws := M) SchemeGroupVersion VMKind (vm_meta vm')
    (set_NameNamespace (VMPodName (Status (cl_vm w))) (om_Namespace (vm_meta vm')) (pod_meta (finish params (cl_vm w) b)))) as [m Em];
    [done|by apply (GetControllerOf_nil (MetaLaws := M))|]. change (pod_meta (set_pod_meta ?x ?y)) with x. rewrite Em.
  assert (Hnode : NodeName (Status (cl_vm w)) = "") by (destruct Hn as [_ Hstg]; by inversion Hstg as [| | |? []| | | | |]).
  assert (H4 : ∀ uid f, at_stage 4 (mkCluster (cl_vm w) (Some (set_pod_meta (set_UID uid m) (finish params (cl_vm w) b))) (cl_hv w) f)).
  { intros uid f. destruct (created_pod (cl_vm w) vm' b uid m Hs Hnode Em) as [Ho Hp]. destruct Hn as [Hsa Hstg]. split; [done|].
    inversion Hstg as [| | |Hph [Hsd _]| | | | |]; subst. by constructor. }
  destruct Hk as (Ev & Ep & Eh & _). assert (Enone : cl_pod w = None) by (destruct Hn as [_ Hstg]; by inversion Hstg).
  assert (Hdone : ∀ uid f e, reconciled 5 (vm', e)
    (mkCluster (cl_vm w1) (Some (set_pod_meta (set_UID uid m) (finish params (cl_vm w) b))) (cl_hv w1) f)).
  { intros uid f e. rewrite Ev, Eh. split; [done|]. split; [exists 4%nat; split; [lia|apply H4]|]. exists 4%nat. split_and!; [lia| |lia].
    simpl. rewrite Hst. specialize (H4 uid f). by destruct (cl_vm w). }
  split; [split; [congruence|rewrite Ev; apply (sa_deletion _ (proj1 Hn))]|]. intros r w2 [uid Hr]. destruct r as [e|].
  - destruct Hr as [_ [-> | ->]]; [|apply Hdone]. by apply (reconciled_same _ w).
  - simpl in Hr. subst w2. split; [done|]. intros [] w3 ->. apply Hdone.
Qed.



Lemma found_pod_stage n w p : at_stage n w → cl_pod w = Some p → at_stage n (store (Status (found_pod (cl_vm w) p)) w).
Proof.
  intros [Hs Hst] Ep. destruct w as [[me sp [ph pn pu nn pa mg cs vs]] po h f]. simpl in *. subst po. split; simpl.
  - apply (startable_status _ _ Hs). destruct Hs as [[] ? ? ? ?]. split; try done. simpl. inversion Hst; subst; unfold pending, placed, running_pod in *; tauto.
  - inversion Hst; subst; constructor; try done; unfold placed, own_pod, running_pod in *; simpl in *; tauto.
Qed.

(** The status that is to be stored makes a startable VM of the fetched one. *)
Lemma stage_startable n w vm : at_stage n (store (Status vm) w) → vm = set_Status (Status vm) (cl_vm w) → startable vm.
Proof. intros [Hs _] E. simpl in Hs. by rewrite E. Qed.


Lemma followed_stage n w p :
  at_stage n w → cl_pod w = Some p → (1 ≤ n)%nat →
  ∃ m, (m ≤ n)%nat ∧ at_stage m (store (Status (follow_pod_phase (found_pod (cl_vm w) p) p)) w) ∧
    (mover n = Some Controller → (m < n)%nat).
Proof.
  intros Hn Ep Hn1. pose proof (found_pod_stage n w p Hn Ep) as Hf. pose proof Hn as [_ Hst]. rewrite Ep in Hst. unfold follow_pod_phase.
  inversion Hst as [| | | |p' Hph Hsd Ho Hpe E1 E2 E3|p' Hph Hsd Ho Hr E1 E2 E3|p' h Hph Hsd Hp Hh E1 E2 E3|p' Hph Hsd Hp E1 E2 E3|]; subst; [..|lia].
  - exists 4%nat. split_and!; [lia| |done]. destruct Hpe as [[E|E] _]; by rewrite E.
  - exists 2%nat. split_and!; [lia| |lia]. pose proof Hr as [E _]. rewrite E.
    assert (Hb : bool_decide (Phase (Status (found_pod (cl_vm w) p)) = VirtualMachineScheduling) = true).
    { apply bool_decide_true. by destruct (cl_vm w) as [? ? []]. }
    rewrite Hb, (all_attached node) by (apply sa_simple; eapply stage_startable; [exact Hf|apply found_pod_set]). simpl.
    destruct Hf as [Hf _]. destruct w as [[me sp [ph pn pu nn pa mg cs vs]] po h f]. simpl in *. subst.
    split; simpl; [apply (startable_status _ _ Hf); by destruct Hf as [[] ? ? ? ?]|]. constructor; try done.
    destruct Ho as (? & ? & _). split_and!; try done; try apply Hr. by split_and!; [..|right].
  - exists 2%nat. split_and!; [lia| |done]. destruct Hp as (_ & [E _] & _). rewrite E.
    destruct (cl_vm w) as [? ? []]. simpl in *. subst. exact Hf.
  - exists 1%nat. split_and!; [lia| |done]. destruct Hp as (_ & [E _] & _). rewrite E.
    destruct (cl_vm w) as [? ? []]. simpl in *. subst. exact Hf.
Qed.

Lemma scheduling_moves n w p :
  at_stage n w → cl_pod w = Some p → (1 ≤ n)%nat → wp cenv (reconcile_scheduling params (cl_vm w)) w (reconciled n).
Proof.
  intros Hn Ep Hn1. pose proof (found_pod_stage n w p Hn Ep) as Hf. destruct (followed_stage n w p Hn Ep Hn1) as (m & Hle & Hm & Hlt).
  assert (Hvm2 : ∀ vm, follow_pod_phase (found_pod vm p) p = set_Status (Status (follow_pod_phase (found_pod vm p) p)) vm)
    by (intros vm; unfold follow_pod_phase; destruct vm as [? ? []]; repeat case_match; done).
  eapply wp_mono; [|apply (scheduling_steps params node); [done|by eapply stage_own_pod| |]].
  2: { apply sa_simple. eapply stage_startable; [done|apply found_pod_set]. }
  2: { apply sa_simple. eapply stage_startable; [exact Hm|apply Hvm2]. }
  intros [vm' e] w1 [Hk Hr]. simpl in Hr. destruct Hr as [(Ef & [-> | ->])| ->].
  - by apply (reconciled_same _ w).
  - eapply (reconciled_kept _ n _ _ _ _ Hn Hk); [by rewrite found_pod_set; destruct (cl_vm w)|done|lia|]. intros E. by rewrite Ef in E.
  - eapply (reconciled_kept _ m _ _ _ _ Hn Hk); [by rewrite Hvm2; destruct (cl_vm w)|done|lia|auto].
Qed.

Lemma naming_moves w : at_stage 5 w → wp cenv (reconcile_scheduling params (cl_vm w)) w (reconciled 5).
Proof.
  intros Hn. unfold reconcile_scheduling. wp_use get_vm_pod_yields; [|by apply (stage_own_pod 5)].
  intros [o|e] w1 [Hk Hr]; [|by apply (reconciled_same _ w)]. subst o. pose proof Hn as [_ Hst]. inversion Hst as [| | |Hph Hsd E1 E2| | | | |]. 
  rewrite Hph. rewrite decide_True by done. destruct Hk as (Ev & Ep & Eh & _). rewrite <- Ev. apply create_moves.
  unfold at_stage. by rewrite Ev, Ep, Eh.
Qed.


Lemma running_moves w : at_stage 0 w → wp cenv (reconcile_running params (cl_vm w)) w (reconciled 0).
Proof.
  intros Hn. pose proof Hn as [Hs Hst]. inversion Hst as [| | | | | | | |p Hph Hsd Hp E1 E2]. symmetry in E1.
  eapply wp_mono; [|apply (running_steps params node w p); [apply Hs|done|done|by apply (stage_own_pod 0)|apply Hp]].
  intros [vm' e] w1 [Hk [cs E]]. simpl in E. subst vm'. eapply (reconciled_kept _ 0 _ _ _ _ Hn Hk); [by destruct (cl_vm w)| |lia|done].
  destruct w as [[me sp []] po h f]; simpl in *. split; [apply (startable_status _ _ Hs); by destruct Hs as [[] ? ? ? ?]|]. simpl. subst po h. by constructor.
Qed.

Lemma reconcile_moves n w : at_stage n w → wp cenv (VmController.reconcile params (cl_vm w)) w (reconciled n).
Proof.
  intros Hn. pose proof Hn as [Hs Hst]. unfold VmController.reconcile. rewrite (sa_deletion _ Hs), bool_decide_false by (by intros []).
  cbn [negb andb]. unfold reconcile_phase.
  inversion Hst as [Hph Hfin _ E1 E2 E3|Hph Hfin _ E1 E2 E3|Hph Hfin E1 E2 E3|Hph Hfin E1 E2 E3|p Hph Hfin Ho Hp E1 E2 E3|p Hph Hfin Ho Hp E1 E2 E3
    |p h Hph Hfin Hp Hh E1 E2 E3|p Hph Hfin Hp E1 E2 E3|p Hph Hfin Hp E1 E2 E3]; subst n;
    repeat (apply proj1 in Hfin); rewrite Hfin; cbn [negb andb]; try rewrite Hph.
  - by apply protect_moves.
  - by apply stopped_moves.
  - by apply pending_moves.
  - by apply naming_moves.
  - by eapply scheduling_moves; [done|by symmetry|lia].
  - by eapply scheduling_moves; [done|by symmetry|lia].
  - by eapply scheduling_moves; [done|by symmetry|lia].
  - by eapply scheduling_moves; [done|by symmetry|lia].
  - by apply running_moves.
Qed.

Lemma moved_not_gone a n s w : moved a n s w → ¬ gone w.
Proof. intros [(m & _ & Hm) _]. apply not_gone, Hm. Qed.

Lemma controller_turn n w : at_stage n w → wp cenv (VmController.Reconcile params (vm_key w)) w (λ _ w', advanced Controller n w').
Proof.
  intros Hn. split; [done|]. intros r w0 Hr. simpl in Hr. rewrite decide_False in Hr by (apply not_gone, Hn).
  destruct r as [vm|e]; cbn [pbind].
  2: { destruct Hr as [_ [-> | ->]]; by eapply advanced_failed. }
  destruct Hr as [-> ->]. wp_use (reconcile_moves n); [|done]. intros [vm' rerr] w1 [Hu Hm]. split; [done|]. intros err w2 Hr. simpl in Hu, Hm.
  destruct (stored_advances _ _ _ at_stage_kept _ _ _ _ _ _ (moved_not_gone _ _ _ _ Hm) Hm Hr) as [Hst Ha]. clear Hr.
  assert (Hev : ∀ about ty re (res : Result * option goerror), wp cenv (call (Eventf about ty re) ;;; Ret res)%go w2 (λ _ w', advanced Controller n w')).
  { intros about ty re res. split; [done|]. by intros [] w3 ->. }
  destruct rerr as [re|]; [destruct err; (destruct (as_reconcileError re); [done|apply Hev])|]. destruct err as [e|]; [cbn; by destruct (IsConflict e)|].
  simpl in Hst. subst w2. pose proof Ha as (m & _ & Hm2 & _). cbn [pbind call]. wp_use gcVMPods_kept; [|by apply (stage_own_pod m)|done|done].
  intros [e|] w3 Hk; by eapply (advanced_kept _ _ at_stage_kept).
Qed.

(** ** The steps of the daemons *)




#[local] Abbreviation daemon := (NodeDaemon node).

(** From the phase Scheduled on, the pod runs where the status says. *)
Lemma stage_placed n w : (n ≤ 2)%nat → at_stage n w → ∃ p, cl_pod w = Some p ∧ placed (cl_vm w) p.
Proof. intros Hle [_ Hst]. inversion Hst; try lia; eauto. Qed.

Lemma stage_at_pod n w : (n ≤ 2)%nat → at_stage n w → at_pod w (chSocket (cl_vm w)).
Proof.
  intros Hle Hn. destruct (stage_placed n w Hle Hn) as (p & Ep & _ & [Hr _] & Hu & _). exists p. split_and!; [done..|].
  unfold chSocket, getVMDataDirPath, pod_socket. by rewrite Hu.
Qed.

(** Where the requests to the hypervisor lead. *)
Lemma created_stage w h : at_stage 2 w → h ≠ HvRunning → at_stage 2 (set_hv h w).
Proof.
  intros [Hs Hst] Hh. split; [done|]. inversion Hst as [| | | | | |p h' Hph Hsd Hp _ E1 E2| |]. simpl. rewrite <- E1. by constructor.
Qed.
Lemma booted_stage w : at_stage 2 w → at_stage 1 (set_hv HvRunning w).
Proof.
  intros [Hs Hst]. split; [done|]. inversion Hst as [| | | | | |p h' Hph Hsd Hp _ E1 E2| |]. simpl. rewrite <- E1. by constructor.
Qed.

(** Booting: the hypervisor has its VM, which is not booted yet. *)
Lemma boot_moves w :
  at_stage 2 w → cl_hv w = HvCreated →
  wp nenv (check (call (ChRequest (chSocket (cl_vm w)) VmBoot))) w (λ _ w1, cl_vm w1 = cl_vm w ∧ moved daemon 2 (Status (cl_vm w1)) w1).
Proof.
  intros Hn Eh. split; [split; [by eapply stage_at_pod|split; [done|apply (sa_deletion _ (proj1 Hn))]]|]. intros r w1 Hr. simpl in Hr. destruct r as [e|].
  - destruct Hr as [_ [-> | ->]]; (split; [done|]); [by eapply moved_to; [|done|by right]|].
    eapply (moved_to _ _ _ 2 1); [lia| |by right]. eapply at_stage_kept; [apply kept_fail|by apply booted_stage].
  - simpl in Hr. subst w1. split; [done|]. eapply (moved_to _ _ _ 2 1); [lia|by apply booted_stage|left; lia].
Qed.

Lemma create_and_boot_moves w :
  at_stage 2 w → cl_hv w = HvEmpty →
  wp nenv (create_and_boot (cl_vm w)) w (λ _ w1, cl_vm w1 = cl_vm w ∧ moved daemon 2 (Status (cl_vm w1)) w1).
Proof.
  intros Hn Eh. assert (Hfail : ∀ w', kept w w' → cl_failed w' = true → cl_vm w' = cl_vm w ∧ moved daemon 2 (Status (cl_vm w')) w').
  { intros w' Hk Hf. split; [apply Hk|]. eapply moved_to; [done|by eapply at_stage_kept|by right]. }
  unfold create_and_boot. eapply (wp_try _ _ _ _ _ (yields (λ c, ∃ c', c = Some c' ∧ is_Some (Config_MemorySize c')) w)).
  { split; [done|]. intros r w' Hr. simpl in Hr. by apply fallible_yields. }
  2: { intros e w' [Hk Hf]. by apply Hfail. }
  intros ? w1 [Hk1 (c & -> & size & Esize)]. eapply (wp_try _ _ _ _ _ (yields (λ _, True) w)).
  - eapply wp_mono; [intros ? ?; by apply yields_trans|]. destruct (_ ++ _); [done|].
    split; [done|]. intros r w2 Hr. simpl in Hr. apply fallible_yields in Hr as [Hk2 Hr]. cbn. destruct r as [pid|e]; [|done]. rewrite Esize.
    split; [done|]. intros err w3 Hr3. simpl in Hr3. apply may_fail_kept in Hr3 as [Hk3 Hf]. eapply yields_trans; [exact Hk2|].
    split; [done|]. destruct err; [eauto|done].
  - intros [] w2 [Hk2 _]. pose proof (at_stage_kept _ _ _ Hk2 Hn) as Hn2. destruct Hk2 as (Ev & Ep & Eh2 & Ef).
    rewrite <- Ev. split; [split; [by eapply stage_at_pod|split; [congruence|apply (sa_deletion _ (proj1 Hn2))]]|]. intros r w3 Hr. simpl in Hr.
    assert (Hc : at_stage 2 (set_hv HvCreated w2)) by (by apply created_stage). destruct r as [e|].
    + destruct Hr as [_ [-> | ->]]; (split; [done|]); (eapply moved_to; [done| |by right]); [done|].
      by eapply at_stage_kept; [apply kept_fail|].
    + simpl in Hr. subst w3. cbn [pbind]. by apply (boot_moves (set_hv HvCreated w2)).
  - intros e w' [Hk Hf]. by apply Hfail.
Qed.

(** The VM runs: its phase becomes Running. *)
Lemma run_stage w : at_stage 1 w → at_stage 0 (store (Status (upd_Status (set_Phase VirtualMachineRunning) (cl_vm w))) w).
Proof.
  intros [Hs Hst]. inversion Hst as [| | | | | | |p Hph Hsd Hp E1 E2|]. destruct w as [[me sp []] po h f]; simpl in *.
  split; [apply (startable_status _ _ Hs); by destruct Hs as [[] ? ? ? ?]|]. subst. by constructor.
Qed.

Lemma scheduled_moves n w :
  at_stage n w → n = 2%nat ∨ n = 1%nat →
  wp nenv (reconcile_scheduled (cl_vm w)) w (λ r w1, moved daemon n (Status (fst r)) w1).
Proof.
  intros Hn Hn12. unfold reconcile_scheduled. wp_use (mountHotplugVolumes_none params node); [|apply Hn].
  intros [vm1 e1] w1 (Hk1 & E1 & He1). simpl in E1. subst vm1. pose proof (at_stage_kept _ _ _ Hk1 Hn) as Hn1.
  destruct Hk1 as (Ev & _ & _ & _). rewrite <- Ev.
  assert (Hsame : ∀ w', kept w1 w' → cl_failed w' = true → moved daemon n (Status (cl_vm w1)) w').
  { intros w' Hk Hf. by apply (moved_same _ _ at_stage_kept). }
  destruct e1 as [e|]; [by apply Hsame; [|apply He1; eauto]|].
  split; [done|]. intros r w2 [_ Hr]. specialize (Hr (stage_at_pod n w1 ltac:(lia) Hn1)). cbn [pbind].
  destruct Hr as [Hr|(-> & Eh & e & -> & He)].
  2: { rewrite He. assert (n = 2%nat) as ->. { destruct Hn1 as [_ Hst]. rewrite Eh in Hst. destruct Hn12 as [->| ->]; [done|]. by inversion Hst. }
       unfold ok_vm. wp_use create_and_boot_moves; [|done..]. intros r w3 [E Hm]. simpl. by rewrite <- E. }
  destruct r as [info|e]; simpl in Hr.
  2: { destruct Hr as [[_ He] Hw]. rewrite He. by destruct Hw as [-> | ->]; apply Hsame. }
  destruct Hr as [Hi ->]. pose proof Hn1 as [_ Hst]. destruct Hn12 as [-> | ->].
  - inversion Hst as [| | | | | |p h Hph Hsd Hp Hh Ep Eh| |]. rewrite <- Eh in Hi. destruct h; [done| |done].
    simpl in Hi. rewrite Hi. rewrite decide_True by done. unfold ok_vm. wp_use boot_moves; [|done..].
    intros r w3 [E Hm]. simpl. by rewrite <- E.
  - inversion Hst as [| | | | | | |p Hph Hsd Hp Ep Eh|]. rewrite <- Eh in Hi. destruct Hi as [Hi _]. rewrite Hi.
    rewrite decide_False, decide_True by (done || by left). eapply (moved_kept _ _ at_stage_kept _ _ 0 _ w1); [done..|by apply run_stage|lia|lia].
Qed.

Lemma running_stays w :
  at_stage 0 w → wp nenv (reconcile_running_here (cl_vm w)) w (λ r w1, moved daemon 0 (Status (fst r)) w1).
Proof.
  intros Hn. assert (Hsame : ∀ w', kept w w' → moved daemon 0 (Status (cl_vm w)) w') by (intros w' Hk; by apply (moved_same _ _ at_stage_kept)).
  split; [done|]. intros r w1 [_ Hr]. specialize (Hr (stage_at_pod 0 w ltac:(lia) Hn)).
  pose proof Hn as [Hs Hst]. inversion Hst as [| | | | | | | |p Hph Hsd Hp Ep Eh]. rewrite <- Eh in Hr.
  destruct Hr as [Hr|(_ & ? & _)]; [|done]. apply fallible_yields in Hr as [Hk Hr]. cbn [pbind]. destruct r as [info|e]; [|by apply Hsame].
  destruct Hr as [-> [c Ec]]. rewrite decide_True by (by left). rewrite decide_False by apply (sa_policy _ Hs).
  rewrite decide_True by apply Hsd. unfold reconcileHotplugVolumes. wp_use (mountHotplugVolumes_none params node); [|apply Hs].
  intros [vm1 e1] w2 (Hk2 & E1 & _). simpl in E1. subst vm1. assert (Hk02 : kept w w2) by (by eapply kept_trans).
  destruct e1; [by apply Hsame|]. unfold addHotplugVolumesToVM, removeHotplugVolumesFromVM, info_disks. rewrite Ec.
  rewrite add_disks_none by apply (si_volumes _ _ (sa_simple _ Hs)). cbn [pbind].
  apply wp_seq. eapply (wp_mono _ _ _ (λ _ w', kept w w')); [by intros r w3 Hk3; apply Hsame|].
  eapply (wp_try _ _ _ _ _ (λ _ w', kept w w')); [| |done].
  - apply remove_disks_wp; [apply plain_kept| |done]. intros id w3 Hk3. split.
    + split; [|done]. destruct Hk3 as (Ev3 & Ep3 & _ & _). destruct (stage_at_pod 0 w ltac:(lia) Hn) as (p' & Ep' & ? & ?).
      exists p'. split_and!; [congruence|done..].
    + intros err w4 Hr4. simpl in Hr4. eapply kept_trans; [done|]. apply may_fail_kept with err. by destruct w3.
  - intros _ w3 Hk3. by apply (umountHotplugVolumes_wp nenv (kept w) (plain_kept params w)).
Qed.


Hypothesis node_named : node ≠ "".

Lemma daemon_reconcile_moves n' ip blocks n w :
  at_stage n w → wp nenv (Daemon.reconcile n' ip (cl_vm w) blocks) w (λ r w1, moved (NodeDaemon n') n (Status (fst (fst r))) w1).
Proof.
  intros Hn. pose proof Hn as [Hs Hst]. unfold Daemon.reconcile. destruct (concerned n' (cl_vm w)) eqn:Ec; cbn [negb].
  2: { apply (moved_same _ _ at_stage_kept _ _ w); [done..|]. intros Hm. exfalso. unfold concerned in Ec. rewrite (si_migration _ _ (sa_simple _ Hs)), orb_false_r in Ec.
       unfold mover in Hm. assert (n' = node ∧ (n = 1 ∨ n = 2)%nat) as [-> Hn12] by (repeat case_match; simplify_eq; auto).
       destruct (stage_placed n w ltac:(lia) Hn) as (p & _ & _ & _ & _ & Hnn). rewrite Hnn in Ec.
       by rewrite bool_decide_false, bool_decide_true in Ec. }
  assert (n' = node) as ->.
  { unfold concerned in Ec. rewrite (si_migration _ _ (sa_simple _ Hs)), orb_false_r in Ec. bools. destruct (si_node _ _ (sa_simple _ Hs)); congruence. }
  wp_use node_get_pod; [|by apply (stage_own_pod n)]. intros [p|e] w1 [Hk1 Hr].
  2: { apply (moved_same _ _ at_stage_kept _ _ w); [done..|]. intros Hm. destruct Hr as [Ep|?]; [|done]. rewrite Ep in Hst. by inversion Hst; subst. }
  rewrite (sa_deletion _ Hs), bool_decide_false by (by intros []). pose proof (at_stage_kept _ _ _ Hk1 Hn) as Hn1.
  assert (Hother : mover n ≠ Some daemon → moved daemon n (Status (cl_vm w)) w1) by (intros Hm; by apply (moved_same _ _ at_stage_kept _ _ w)).
  destruct Hk1 as (Ev & _ & _ & _). unfold with_blocks.
  rewrite Hr in Hst. inversion Hst as [| | | |p1 Hph Hsd Ho Hp E1 E2 E3|p1 Hph Hsd Ho Hp E1 E2 E3|p1 h Hph Hsd Hp Hh E1 E2 E3|p1 Hph Hsd Hp E1 E2 E3|p1 Hph Hsd Hp E1 E2 E3]; subst n;
    rewrite Hph.
  - by apply Hother.
  - by apply Hother.
  - rewrite <- Ev. wp_use (scheduled_moves 2); [|done|by left]. by intros [vm' e] w2 Hm.
  - rewrite <- Ev. wp_use (scheduled_moves 1); [|done|by right]. by intros [vm' e] w2 Hm.
  - rewrite (si_migration _ _ (sa_simple _ Hs)). destruct Hp as (_ & _ & _ & Hnn). rewrite Hnn, bool_decide_true by done.
    rewrite <- Ev. wp_use running_stays; [|done]. by intros [vm' e] w2 Hm.
Qed.

Lemma daemon_turn n' ip blocks n w :
  at_stage n w → wp nenv (Daemon.Reconcile n' ip (vm_key w) blocks) w (λ _ w', advanced (NodeDaemon n') n w').
Proof.
  intros Hn. split; [done|]. intros r w0 Hr. simpl in Hr. rewrite decide_False in Hr by (apply not_gone, Hn).
  destruct r as [vm|e]; cbn [pbind].
  2: { destruct Hr as [_ [-> | ->]]; by eapply advanced_failed. }
  destruct Hr as [-> ->]. wp_use (daemon_reconcile_moves n' ip blocks n); [|done]. intros [[vm' bl] rerr] w1 Hm. simpl in Hm.
  apply wp_seq. eapply (wp_mono _ _ _ (λ _ w', w' = w1)); [|by destruct rerr; [split; [done|]; intros [] w2 ->|]].
  intros _ ? ->. split; [done|]. intros err w2 Hr. destruct (stored_advances _ _ _ at_stage_kept _ _ _ _ _ _ (moved_not_gone _ _ _ _ Hm) Hm Hr) as [_ Ha].
  destruct rerr, err as [e|]; done.
Qed.

(** ** Turns and schedules *)

Lemma at_stage_fail n b w : at_stage n w → at_stage n (set_fail b w).
Proof. done. Qed.

(** A pod that runs takes the place of one with the same metadata. *)
Lemma running_stage n w p p' :
  at_stage n w → cl_pod w = Some p → pod_meta p' = pod_meta p → running_pod p' →
  at_stage (if decide (n = 4%nat) then 3 else n) (set_pod p' w).
Proof.
  intros [Hs Hst] Ep Em Hr. split; [done|]. simpl. rewrite Ep in Hst.
  inversion Hst; subst; simpl; constructor; try done; unfold placed, own_pod in *; rewrite Em; tauto.
Qed.

Lemma kubelet_advances n w w' : at_stage n w → kubelet_turn w w' → advanced Kubelet n w'.
Proof.
  intros Hn Ht. pose proof Hn as [Hs Hst].
  assert (Halive : ∀ p, cl_pod w = Some p → om_DeletionTimestamp (pod_meta p) = None).
  { intros p Ep. rewrite Ep in Hst. inversion Hst; subst; unfold placed, running_pod, pending in *; tauto. }
  destruct Ht as [b Ep|p p' Ep Hp Em Hp'|p p' b Ep _ Em Hr|p p' Ep [t Hd] _|p b Ep [t Hd]]; [| | |by rewrite (Halive p Ep) in Hd..].
  - exists n. split_and!; [done..|]. intros _ Hm. rewrite Ep in Hst. inversion Hst; by subst.
  - eapply advanced_failed; [done| |done]. split; [done|]. simpl. rewrite Ep in Hst.
    inversion Hst; subst; try (constructor; try done; unfold own_pod in *; rewrite Em; tauto);
      exfalso; unfold placed, running_pod, pending in *; intuition congruence.
  - exists (if decide (n = 4%nat) then 3 else n)%nat. split_and!; [case_decide; lia|by eapply at_stage_fail, running_stage|].
    intros _. unfold mover. repeat case_match; naive_solver lia.
Qed.

(** A new VM that its run policy starts. *)
Definition new_vm (vm : VirtualMachine) : Prop :=
  startable vm ∧ Status vm = emptyVMStatus ∧
  should_run (Spec_RunPolicy (Spec vm)) VirtualMachinePhaseUnset VirtualMachinePowerActionUnset = true.

Lemma new_vm_stage vm : new_vm vm → ∃ n, (n ≤ 8)%nat ∧ at_stage n (mkCluster vm None HvEmpty false).
Proof.
  intros (Hs & Est & Hr). destruct (ContainsFinalizer (vm_meta vm) VMProtectionFinalizer) eqn:Ef;
    [exists 7%nat; split; [lia|]; split; [done|]; apply st_protected|exists 8%nat; split; [lia|]; split; [done|]; apply st_new];
    simpl; by rewrite ?Est.
Qed.

(** Every turn from a stage is safe, and leads to one. *)
Lemma stage_turns n w : at_stage n w → safe_turns w ∧ ∀ a w', turn a w w' → advanced a n w'.
Proof.
  intros Hn%(at_stage_fail n false). apply turn_covered.
  - exact (controller_turn n (set_fail false w) Hn).
  - intros n' ip blocks. exact (daemon_turn n' ip blocks n (set_fail false w) Hn).
  - intros w'. by apply kubelet_advances.
Qed.

Lemma turn_advances a n w w' : at_stage n w → turn a w w' → advanced a n w'.
Proof. intros Hn. by apply stage_turns. Qed.

Lemma mover_some n : mover (S n) ≠ None.
Proof. by repeat (destruct n as [|n]; try done). Qed.
Lemma mover_actor n a : mover n = Some a → a = Controller ∨ a = Kubelet ∨ a = daemon.
Proof. unfold mover. repeat case_match; naive_solver. Qed.

(** C1: a new VM whose run policy starts it runs after eight rounds: whatever order the VM
    controller, the kubelet and the daemons take turns in, and whichever calls fail, before or after
    they took effect, no turn panics, deletes a pod, creates a second one, or creates or boots the
    VM twice or elsewhere than in its running pod; and once there were eight rounds in each of which
    every actor had a turn without a failure, the phase is Running, the hypervisor of the VM's own pod
    runs it, and the status names this pod and its node. *)
Theorem vm_starts vm l w :
  new_vm vm → turns l (mkCluster vm None HvEmpty false) w →
  safe_turns w ∧
  (rounds 8 l → Phase (Status (cl_vm w)) = VirtualMachineRunning ∧ cl_hv w = HvRunning ∧
    ∃ p, cl_pod w = Some p ∧ placed (cl_vm w) p).
Proof.
  intros Hv Ht. destruct (new_vm_stage vm Hv) as (n & Hn & Hst). split.
  - destruct (turns_monotone _ _ _ _ turn_advances _ _ _ _ Hst Ht) as (m & _ & Hm). by apply (stage_turns m).
  - intros Hr. destruct (rounds_advance _ _ _ _ turn_advances mover_some mover_actor 8 l n _ _ Hst Ht Hr) as (m & Hm & Hw).
    assert (m = 0%nat) as -> by lia. destruct Hw as [_ Hw]. inversion Hw; eauto 10.
Qed.

End StartUp.

(** ** A concrete start *)

Section Sample.
#[local] Existing Instance k8s_concrete.
#[local] Existing Instance k8s_concrete_laws.

Definition startVM : VirtualMachine := sampleVM [sampleDisk].

Lemma startVM_new : new_vm "node-1" startVM.
Proof.
  split_and!; [|done..]. split; try done; [split; try done|..].
  - by intros v ->%list_elem_of_singleton.
  - by left.
  - apply (ValidateVMSpec_nil _ []). vm_compute. reflexivity.
  - intros net ->%list_elem_of_singleton. by eexists.
Qed.

(** Eight rounds in which the daemon comes first, then the kubelet, then the controller. *)
Definition sample_run : list (actor * bool) * cluster := sample_rounds 8 (mkCluster startVM None HvEmpty false).

Lemma sample_trace : fst sample_run = concat (repeat clean_round 8).
Proof. vm_compute. reflexivity. Qed.

Lemma sample_run_turns : turns sampleParams "node-1" (fst sample_run) (mkCluster startVM None HvEmpty false) (snd sample_run).
Proof.
  destruct (new_vm_stage "node-1" startVM startVM_new) as (n & _ & Hn).
  apply (sample_rounds_turns (λ w, ∃ n, at_stage "node-1" n w)); [|by exists n]. clear n Hn. intros w [n Hn].
  destruct (stage_turns sampleParams "node-1" k8s_concrete_meta sample_marshals ltac:(done) n w Hn) as [Hs Ht]. split; [done|].
  intros a w' Ha. destruct (Ht a w' Ha) as (m & _ & Hm & _). by exists m.
Qed.

Lemma vm_starts_witness :
  Phase (Status (cl_vm (snd sample_run))) = VirtualMachineRunning ∧ cl_hv (snd sample_run) = HvRunning.
Proof.
  assert (Hr : rounds "node-1" 8 (fst sample_run)) by (rewrite sample_trace; apply clean_rounds).
  destruct (vm_starts sampleParams "node-1" k8s_concrete_meta sample_marshals ltac:(done) startVM _ _ startVM_new sample_run_turns) as [_ H].
  destruct (H Hr) as (Hp & Hh & _). split; [exact Hp|exact Hh].
Defined.

End Sample.
