(* ===== verification/ShutDown.v ===== *)
(** * Deleting a VM: the VM controller, the kubelet and the daemons together

    In the cluster of Cluster.v, a VM that is deleted at any point of its start-up, or while it runs,
    is gone after a bounded number of rounds in which each actor had one turn without a failure, and
    so is its pod. *)

From stdpp Require Import base gmap strings list sets fin_maps sorting.
From Stdlib Require Import ZArith Lia.
From S2P Require Import Prelude GoStd K8s ApiTypes Kube VmValidate PodBuild PodBuildProofs VmController VmControllerProofs Daemon DaemonProofs Cluster StartUp.
Open Scope Z_scope.

Section ShutDown.
Context `{K : K8s} (params : BuildParams) (node : string).
#[local] Abbreviation cenv := (Cluster.cenv params).
#[local] Abbreviation nenv := (Cluster.nenv params).
#[local] Abbreviation pending := (Cluster.pending node).
#[local] Abbreviation running_pod := (Cluster.running_pod node).
#[local] Abbreviation placed := (Cluster.placed node).
#[local] Abbreviation simple_vm := (Cluster.simple_vm node).
#[local] Abbreviation turn := (Cluster.turn params node).
#[local] Abbreviation turns := (Cluster.turns params node).
#[local] Abbreviation rounds := (Cluster.rounds node).
#[local] Abbreviation daemon := (NodeDaemon node).

(** ** The way out *)

(** A VM that is being deleted and is kept by its finalizer. *)
Record deleting (vm : VirtualMachine) : Prop := {
  de_simple : simple_vm vm;
  de_marked : is_Some (om_DeletionTimestamp (vm_meta vm));
  de_protected : ContainsFinalizer (vm_meta vm) VMProtectionFinalizer = true
}.

(** The VM's own pod, on its way to its node, there, or stopping. *)
Definition alive_pod (vm : VirtualMachine) (p : Pod) : Prop := own_pod vm p ∧ (pending p ∨ running_pod p).
Definition stopping_pod (vm : VirtualMachine) (p : Pod) : Prop :=
  own_pod vm p ∧ (Pod_NodeName (pod_Spec p) = "" ∨ Pod_NodeName (pod_Spec p) = node) ∧
  PodStatus_Phase (pod_Status p) ≠ PodUnknown ∧ Time_IsZero (om_DeletionTimestamp (pod_meta p)) = false.

(** How far the VM is: the number counts down to a VM that has no pod and no finalizer. *)
Inductive leaving (vm : VirtualMachine) : option Pod → nat → Prop :=
| lv_placed p : Phase (Status vm) ∈ [VirtualMachineScheduled; VirtualMachineRunning] → placed vm p → leaving vm (Some p) 5
| lv_alive p : Phase (Status vm) ∈ [VirtualMachineScheduling; VirtualMachineSucceeded] → alive_pod vm p → leaving vm (Some p) 4
| lv_stopping p :
    Phase (Status vm) ∈ [VirtualMachineScheduling; VirtualMachineScheduled; VirtualMachineSucceeded; VirtualMachineFailed] →
    stopping_pod vm p → leaving vm (Some p) 3
| lv_lost : Phase (Status vm) = VirtualMachineScheduled → leaving vm None 2
| lv_bare : deletable_phase (Phase (Status vm)) = true → leaving vm None 1.

Definition at_leave (n : nat) (w : cluster) : Prop :=
  match n with
  | O => gone w ∧ cl_pod w = None
  | _ => deleting (cl_vm w) ∧ leaving (cl_vm w) (cl_pod w) n
  end.

(** Whose turn brings the VM on. *)
Definition remover (n : nat) : option actor :=
  match n with
  | O => None
  | 3%nat => Some Kubelet
  | 5%nat => Some daemon
  | _ => Some Controller
  end.

#[local] Abbreviation moved := (Cluster.moved at_leave remover).
#[local] Abbreviation advanced := (Cluster.advanced at_leave remover).

Lemma at_leave_kept n w w' : kept w w' → at_leave n w → at_leave n w'.
Proof. intros (E1 & E2 & E3 & _). unfold at_leave, gone. by rewrite E1, E2. Qed.

Lemma at_leave_S n w : (1 ≤ n)%nat → at_leave n w ↔ deleting (cl_vm w) ∧ leaving (cl_vm w) (cl_pod w) n.
Proof. by destruct n; [lia|]. Qed.

Lemma deleting_stays w : deleting (cl_vm w) → ¬ gone w.
Proof. intros Hd [_ Hf]. by rewrite (de_protected _ Hd) in Hf. Qed.

(** A change of the status that keeps the VM simple. *)
Lemma deleting_status vm s : deleting vm → simple_vm (set_Status s vm) → deleting (set_Status s vm).
Proof. intros [] Hs. by destruct vm; split. Qed.

Lemma leaving_own n vm o : leaving vm o n → ∀ p, o = Some p → own_pod vm p.
Proof. intros Hl p ->. inversion Hl; subst; unfold Cluster.placed, alive_pod, stopping_pod in *; tauto. Qed.

Lemma leaving_node n vm o : leaving vm o n → ∀ p, o = Some p → Pod_NodeName (pod_Spec p) = "" ∨ Pod_NodeName (pod_Spec p) = node.
Proof.
  intros Hl p ->. inversion Hl; subst; unfold Cluster.placed, alive_pod, stopping_pod, Cluster.pending, Cluster.running_pod in *; tauto.
Qed.

(** What the status says of the pod's place may change. *)
Lemma own_pod_status vm p s :
  own_pod vm p → VMPodName s = VMPodName (Status vm) → (NodeName s = "" ∨ VMPodUID s = om_UID (pod_meta p)) → own_pod (set_Status s vm) p.
Proof. intros (Hk & Hc & _) En Hu. destruct vm as [me sp st]. unfold own_pod. simpl in *. by rewrite En. Qed.

(** ** The VM controller *)

(** What [reconcile] leaves to [Reconcile]. *)
Definition left_by (n : nat) (r : VirtualMachine * option goerror) (w1 : cluster) : Prop :=
  ((1 ≤ n)%nat ∧ at_leave 0 w1) ∨
  (deleting (cl_vm w1) ∧ om_UID (vm_meta (fst r)) = om_UID (vm_meta (cl_vm w1)) ∧ moved Controller n (Status (fst r)) w1).

(** Nothing has changed, and the VM is at stage [m] with the status to store. *)
Lemma left_kept n m w w1 vm e :
  (1 ≤ n)%nat → at_leave n w → kept w w1 → om_UID (vm_meta vm) = om_UID (vm_meta (cl_vm w)) → at_leave m (store (Status vm) w) → (m ≤ n)%nat →
  (cl_failed w1 = false → remover n = Some Controller → (m < n)%nat) → left_by n (vm, e) w1.
Proof.
  intros H1 Hn Hk Hu Hm Hle Hlt. right. pose proof (proj1 (at_leave_S n w H1) Hn) as [Hd _].
  split_and!; [destruct Hk as (E & _); by rewrite E|destruct Hk as (E & _); simpl; congruence|by eapply (moved_kept _ _ at_leave_kept)].
Qed.
Lemma left_same n w w1 vm e :
  (1 ≤ n)%nat → at_leave n w → kept w w1 → om_UID (vm_meta vm) = om_UID (vm_meta (cl_vm w)) → Status vm = Status (cl_vm w) →
  (remover n = Some Controller → cl_failed w1 = true) → left_by n (vm, e) w1.
Proof.
  intros H1 Hn Hk Hu Es Hf. eapply (left_kept n n w); try done. { by rewrite Es, store_same. }
  intros E Hm. by rewrite Hf in E.
Qed.

(** Pods that are stopping are not deleted again. *)
Lemma deleteAllVMPods_stopping w :
  (∀ p, cl_pod w = Some p → Time_IsZero (om_DeletionTimestamp (pod_meta p)) = false) →
  wp cenv (deleteAllVMPods (cl_vm w)) w (yields (λ b, b = bool_decide (cl_pod w = None)) w).
Proof.
  intros Hp. split; [done|]. intros r w1 Hr. simpl in Hr. apply fallible_yields in Hr as [Hk Hr]. destruct r as [l|e]; [|by split].
  cbn. rewrite (Hr eq_refl). destruct (cl_pod w) as [p|] eqn:E; cbn; [|by split].
  rewrite (Hp p eq_refl). cbn. by split.
Qed.

Lemma stopping_status w p s :
  deleting (cl_vm w) → cl_pod w = Some p → stopping_pod (cl_vm w) p →
  Phase s ∈ [VirtualMachineScheduling; VirtualMachineScheduled; VirtualMachineSucceeded; VirtualMachineFailed] →
  VMPodName s = VMPodName (Status (cl_vm w)) → (NodeName s = "" ∨ VMPodUID s = om_UID (pod_meta p)) → simple_vm (set_Status s (cl_vm w)) →
  at_leave 3 (store s w).
Proof.
  intros Hd Ep (Ho & Hn & Hk & Ht) Hph Hname Hu Hs. apply at_leave_S; [lia|]. split; [by apply deleting_status|].
  simpl. rewrite Ep. apply lv_stopping; [done|]. split; [by apply own_pod_status|done].
Qed.

(** The pod's place and phase, as the controller records them. *)
Lemma simple_found vm p :
  simple_vm vm → Pod_NodeName (pod_Spec p) = "" ∨ Pod_NodeName (pod_Spec p) = node → simple_vm (found_pod vm p).
Proof. intros [] Hn. destruct vm as [? ? []]. by split. Qed.

Lemma followed vm p :
  ∃ ph, follow_pod_phase vm p = upd_Status (set_Phase ph) vm ∧
    (ph = Phase (Status vm) ∨ Phase (Status vm) = VirtualMachineScheduling ∧ ph = VirtualMachineScheduled ∨
     PodStatus_Phase (pod_Status p) ∉ [PodPhaseUnset; PodPending; PodRunning] ∧
     (ph = VirtualMachineSucceeded ∨ ph = VirtualMachineFailed ∨ PodStatus_Phase (pod_Status p) = PodUnknown)).
Proof.
  assert (Hid : vm = upd_Status (set_Phase (Phase (Status vm))) vm) by (by destruct vm as [? ? []]). unfold follow_pod_phase.
  destruct (PodStatus_Phase (pod_Status p)); try (by eexists; split; [done|left]).
  - destruct (bool_decide _) eqn:Eb; cbn; [|by eexists; split; [done|left]]. apply bool_decide_eq_true in Eb.
    destruct (allHotplugVolumesAttached vm); eexists; (split; [done|]); [right; left|left]; done.
  - eexists. split; [done|]. right. right. split; [set_solver|by left].
  - eexists. split; [done|]. right. right. split; [set_solver|by right; left].
  - eexists. split; [done|]. right. right. split; [set_solver|by right; right].
Qed.

Lemma simple_phase vm ph : simple_vm vm → simple_vm (upd_Status (set_Phase ph) vm).
Proof. intros []. destruct vm as [? ? []]. by split. Qed.

(** While the pod stops, the status follows it. *)
Lemma stopping_steps w :
  at_leave 3 w → wp cenv (reconcile_phase params (cl_vm w)) w (λ r w1, kept w w1 ∧
    om_UID (vm_meta (fst r)) = om_UID (vm_meta (cl_vm w)) ∧ at_leave 3 (store (Status (fst r)) w)).
Proof.
  intros Hn. pose proof (proj1 (at_leave_S 3 w ltac:(lia)) Hn) as [Hd Hl]. inversion Hl as [| |p Hph Hp Ep| |]. symmetry in Ep.
  pose proof Hp as (Ho & Hnode & Hk & Hz). pose proof (simple_found _ p (de_simple _ Hd) Hnode) as Hs.
  destruct (followed (found_pod (cl_vm w) p) p) as (ph & Ef & Hph').
  assert (Hsched : wp cenv (reconcile_scheduling params (cl_vm w)) w (λ r w1, kept w w1 ∧
    om_UID (vm_meta (fst r)) = om_UID (vm_meta (cl_vm w)) ∧ at_leave 3 (store (Status (fst r)) w))).
  { eapply wp_mono; [|apply (scheduling_steps params node w p); [done..|by rewrite Ef; apply simple_phase]].
    intros r w1 [Hk1 Hr]. assert (Hf : at_leave 3 (store (Status (found_pod (cl_vm w) p)) w)).
    { apply (stopping_status w p); [done..| | | |by rewrite <- found_pod_set].
      - by destruct (cl_vm w) as [? ? []].
      - by destruct (cl_vm w) as [? ? []].
      - right. by destruct (cl_vm w) as [? ? []]. }
    destruct Hr as [(_ & [-> | ->])| ->]; [by rewrite store_same|by destruct (cl_vm w)|]. rewrite Ef.
    split_and!; [done|by destruct (cl_vm w)|]. apply (stopping_status w p); [done..| | | |].
    - destruct (cl_vm w) as [? ? []]. simpl in *. naive_solver set_solver.
    - by destruct (cl_vm w) as [? ? []].
    - right. by destruct (cl_vm w) as [? ? []].
    - pose proof (simple_phase _ ph Hs) as Hs'. destruct (cl_vm w) as [? ? []]. exact Hs'. }
  assert (Hstop : wp cenv (reconcile_stopped (cl_vm w)) w (λ r w1, kept w w1 ∧
    om_UID (vm_meta (fst r)) = om_UID (vm_meta (cl_vm w)) ∧ at_leave 3 (store (Status (fst r)) w))).
  { unfold reconcile_stopped. wp_use deleteAllVMPods_stopping; [|intros q Eq; congruence].
    intros [b|e] w1 [Hk1 Hb]; [rewrite Ep in Hb; subst b|]; (split_and!; [done..|]); cbn [fst]; by rewrite store_same. }
  unfold reconcile_phase. rewrite !elem_of_cons in Hph. destruct Hph as [E|[E|[E|[E|E]]]]; [rewrite E; done..|by apply elem_of_nil in E].
Qed.

(** A pod that stops, from the start of the turn on ([n] is 3) or since it was deleted in this turn ([n] is 4). *)
Lemma stopping_left n w :
  n = 3%nat ∨ n = 4%nat → at_leave 3 w → wp cenv (reconcile_phase params (cl_vm w)) w (left_by n).
Proof.
  intros Hn H3. pose proof (proj1 (at_leave_S 3 w ltac:(lia)) H3) as [Hd _]. eapply wp_mono; [|by apply stopping_steps].
  intros r w1 (Hk & Hu & Hm). right. pose proof Hk as (E & _). split_and!; [by rewrite E|congruence|]. split.
  - exists 3%nat. split; [lia|]. by eapply at_leave_kept.
  - exists 3%nat. split_and!; [lia|by eapply at_leave_kept; [apply kept_store|]|]. intros _. by destruct Hn as [-> | ->]; [|lia].
Qed.

Lemma marked vm : deleting vm → bool_decide (is_Some (om_DeletionTimestamp (vm_meta vm))) = true.
Proof. intros Hd. apply bool_decide_true, Hd. Qed.

Lemma stopping_moves w : at_leave 3 w → wp cenv (VmController.reconcile params (cl_vm w)) w (left_by 3).
Proof.
  intros Hn. pose proof (proj1 (at_leave_S 3 w ltac:(lia)) Hn) as [Hd Hl]. unfold VmController.reconcile. rewrite (marked _ Hd). cbn [negb andb].
  destruct (deletable_phase _); [|by apply stopping_left; [left|]]. inversion Hl as [| |p Hph Hp Ep| |]. symmetry in Ep.
  wp_use deleteAllVMPods_stopping; [|intros q Eq; destruct Hp as (_ & _ & _ & ?); congruence].
  intros [b|e] w1 [Hk Hb]; [|by apply (left_same _ w); [lia|..]]. rewrite Ep in Hb. subst b.
  assert (E : cl_vm w = cl_vm w1) by (symmetry; apply Hk). cbn. rewrite E. apply stopping_left; [by left|by eapply at_leave_kept].
Qed.

Context (M : MetaLaws K).

(** The pod is marked by the API server. *)
Lemma deleted_stage w p t :
  deleting (cl_vm w) → Phase (Status (cl_vm w)) ∈ [VirtualMachineScheduling; VirtualMachineSucceeded] → alive_pod (cl_vm w) p → t ≠ 0 →
  at_leave 3 (set_pod (set_pod_meta (set_DeletionTimestamp (Some t) (pod_meta p)) p) w).
Proof.
  intros Hd Hph [(Hkey & Hc & Hu) Hp] Ht. apply at_leave_S; [lia|]. split; [done|]. apply lv_stopping; [simpl; set_solver|]. split_and!.
  - split_and!; [etrans; [|exact Hkey]; by destruct p as [[] ? ?]| |by destruct p as [[] ? ?]].
    revert Hc. unfold IsControlledBy. by rewrite (GetControllerOf_owners (MetaLaws := M) (pod_meta (set_pod_meta _ p)) (pod_meta p)) by (by destruct p as [[] ? ?]).
  - destruct Hp as [(_ & ? & _)|(_ & ? & _)]; [by destruct p|right; by destruct p].
  - destruct p as [? ? st]. simpl in *. destruct Hp as [([E|E] & _)|(E & _)]; simpl in E; by rewrite E.
  - destruct p as [[] ? ?]. simpl. by apply Z.eqb_neq.
Qed.

Lemma alive_moves w : at_leave 4 w → wp cenv (VmController.reconcile params (cl_vm w)) w (left_by 4).
Proof.
  intros Hn. pose proof (proj1 (at_leave_S 4 w ltac:(lia)) Hn) as [Hd Hl]. inversion Hl as [|p Hph Hp Ep| | |]. symmetry in Ep.
  assert (Hdel : deletable_phase (Phase (Status (cl_vm w))) = true).
  { rewrite !elem_of_cons in Hph. destruct Hph as [E|[E|E]]; [by rewrite E..|by apply elem_of_nil in E]. }
  assert (Hz : om_DeletionTimestamp (pod_meta p) = None) by (destruct Hp as [_ [(_ & _ & ?)|(_ & _ & ?)]]; done).
  unfold VmController.reconcile. rewrite (marked _ Hd), Hdel. cbn [negb andb]. unfold deleteAllVMPods.
  split; [done|]. intros r w1 Hr. simpl in Hr. apply fallible_yields in Hr as [Hk Hr].
  destruct r as [l|e]; [|by apply (left_same _ w); [lia|..]]. rewrite (Hr eq_refl), Ep. cbn. rewrite Hz. cbn.
  destruct Hk as (Ev & Epw & Eh & Hf). split; [split_and!; [congruence|rewrite Ev; apply Hd|by rewrite Ev]|].
  intros r1 w2 (t & Ht & Hr1). set (p1 := set_pod_meta _ p) in Hr1.
  assert (H3 : at_leave 3 (set_pod p1 w1)) by (apply deleted_stage; by rewrite ?Ev).
  destruct r1 as [e|]; simpl in Hr1.
  - destruct Hr1 as [[He _] Hw]. cbn. rewrite He. cbn. right.
    destruct Hw as [-> | ->]; simpl; (split_and!; [by rewrite Ev|by rewrite Ev|]); rewrite <- Ev.
    + by apply (moved_to at_leave remover _ 4 4 (set_fail true w1)); [lia|by unfold at_leave; simpl; rewrite Ev, Epw|right].
    + by apply (moved_to at_leave remover _ 4 3 (set_fail true (set_pod p1 w1))); [lia| |right].
  - subst w2. cbn. split; [done|]. intros [] w3 ->. rewrite <- Ev. by apply (stopping_left 4 (set_pod p1 w1)); [right|].
Qed.

(** No pod is left: the finalizer goes. *)
Lemma freed_gone w :
  deleting (cl_vm w) → cl_pod w = None → ∀ f,
  at_leave 0 (mkCluster (set_meta (RemoveFinalizer (vm_meta (cl_vm w)) VMProtectionFinalizer) (cl_vm w)) (cl_pod w) (cl_hv w) f).
Proof.
  intros Hd Ep f. destruct (RemoveFinalizer_spec (MetaLaws := M) (vm_meta (cl_vm w)) VMProtectionFinalizer) as (l & El & Hl).
  split; [|done]. split; simpl; rewrite El.
  - destruct (de_marked _ Hd) as [t Et]. exists t. by destruct (cl_vm w) as [[] ? ?].
  - rewrite (ContainsFinalizer_spec (MetaLaws := M)). apply bool_decide_false.
    replace (om_Finalizers (set_Finalizers l (vm_meta (cl_vm w)))) with l by (by destruct (vm_meta (cl_vm w))). by intros [? _]%Hl.
Qed.

Lemma bare_moves w : at_leave 1 w → wp cenv (VmController.reconcile params (cl_vm w)) w (left_by 1).
Proof.
  intros Hn. pose proof (proj1 (at_leave_S 1 w ltac:(lia)) Hn) as [Hd Hl]. inversion Hl as [| | | |Hph Ep]. symmetry in Ep.
  unfold VmController.reconcile. rewrite (marked _ Hd), Hph. cbn [negb andb].
  wp_use deleteAllVMPods_stopping; [|intros q Eq; congruence]. intros [b|e] w1 [Hk Hb]; [|by apply (left_same _ w); [lia|..]]. rewrite Ep in Hb. subst b. cbn.
  set (vm1 := set_meta _ _). assert (Es : set_Status (Status (cl_vm w)) vm1 = vm1) by (subst vm1; by destruct (cl_vm w)).
  assert (Hgone : ∀ f, at_leave 0 (mkCluster vm1 (cl_pod w1) (cl_hv w1) f)).
  { intros f. subst vm1. destruct Hk as (Ev & Epw & _). rewrite <- Ev. apply freed_gone; [by rewrite Ev|congruence]. }
  assert (Ev : cl_vm w1 = cl_vm w) by apply Hk. split; [done|]. intros r w2 Hr. simpl in Hr. rewrite Ev, Es in Hr. destruct r as [vm'|e]; cbn.
  - destruct Hr as [_ ->]. left. by split.
  - destruct Hr as [_ [-> | ->]]; [|left; split; [lia|apply (Hgone true)]].
    apply (left_same _ w); [lia|done|by eapply kept_trans; [|apply kept_fail]| |by subst vm1; destruct (cl_vm w)|done].
    subst vm1. destruct (RemoveFinalizer_spec (MetaLaws := M) (vm_meta (cl_vm w)) VMProtectionFinalizer) as (l & El & _). rewrite El.
    by destruct (cl_vm w) as [[] ? ?].
Qed.

(** The pod is gone and the VM was still Scheduled: it has failed. *)
Lemma lost_moves w : at_leave 2 w → wp cenv (VmController.reconcile params (cl_vm w)) w (left_by 2).
Proof.
  intros Hn. pose proof (proj1 (at_leave_S 2 w ltac:(lia)) Hn) as [Hd Hl]. inversion Hl as [| | |Hph Ep|]. symmetry in Ep.
  unfold VmController.reconcile, reconcile_phase. rewrite (marked _ Hd), Hph. cbn [negb andb deletable_phase]. unfold reconcile_scheduling.
  wp_use get_vm_pod_yields; [|intros p; by rewrite Ep]. intros [o|e] w1 [Hk Hr]; [|by apply (left_same _ w); [lia|..]]. rewrite Ep in Hr. subst o.
  rewrite Hph, decide_False by done. eapply (left_kept 2 1 _ _ _ _ ltac:(lia) Hn Hk); [by destruct (cl_vm w)| |lia|lia].
  apply at_leave_S; [lia|]. split; [apply (deleting_status _ _ Hd), (simple_phase _ VirtualMachineFailed (de_simple _ Hd))|].
  simpl. rewrite Ep. apply lv_bare. by destruct (cl_vm w) as [? ? []].
Qed.

(** The daemon's turn comes first: the controller records where the pod is, and the conditions. *)
Lemma placed_moves w : at_leave 5 w → wp cenv (VmController.reconcile params (cl_vm w)) w (left_by 5).
Proof.
  intros Hn. pose proof (proj1 (at_leave_S 5 w ltac:(lia)) Hn) as [Hd Hl]. inversion Hl as [p Hph Hp Ep| | | |]. symmetry in Ep.
  pose proof Hp as (Ho & (Er & Enode & _) & Eu & En).
  assert (Efound : found_pod (cl_vm w) p = cl_vm w).
  { unfold found_pod. destruct (cl_vm w) as [? ? []]. unfold upd_Status. simpl in *. by rewrite Enode, <- Eu, <- En. }
  unfold VmController.reconcile, reconcile_phase. rewrite (marked _ Hd). cbn [negb andb].
  rewrite !elem_of_cons in Hph. destruct Hph as [E|[E|E]]; [..|by apply elem_of_nil in E]; rewrite E; cbn [deletable_phase].
  - assert (Efollow : follow_pod_phase (found_pod (cl_vm w) p) p = cl_vm w).
    { rewrite Efound. unfold follow_pod_phase. by rewrite Er, E. }
    eapply wp_mono; [|apply (scheduling_steps params node w p); [done..| |]; rewrite ?Efollow, ?Efound; apply Hd].
    intros [vm' e] w1 [Hk Hr]. rewrite Efollow, Efound in Hr. simpl in Hr. assert (vm' = cl_vm w) as -> by tauto. by apply (left_same _ w); [lia|..].
  - eapply wp_mono; [|apply (running_steps params node w p); [apply Hd|done..]].
    intros [vm' e] w1 [Hk [cs Er']]. simpl in Er'. subst vm'. eapply (left_kept 5 5 _ _ _ _ ltac:(lia) Hn Hk); [by destruct (cl_vm w)| |lia|done].
    apply at_leave_S; [lia|]. split.
    + apply (deleting_status _ _ Hd). destruct (de_simple _ Hd). destruct (cl_vm w) as [? ? []]. by split.
    + simpl. rewrite Ep. apply lv_placed; destruct (cl_vm w) as [? ? []]; simpl in *; [set_solver|done].
Qed.

Lemma reconcile_leaves n w : (1 ≤ n)%nat → at_leave n w → wp cenv (VmController.reconcile params (cl_vm w)) w (left_by n).
Proof.
  intros H1 Hn. pose proof (proj1 (at_leave_S n w H1) Hn) as [_ Hl]. inversion Hl; subst.
  - by apply placed_moves.
  - by apply alive_moves.
  - by apply stopping_moves.
  - by apply lost_moves.
  - by apply bare_moves.
Qed.

Lemma left_advances n vm w1 r w2 :
  deleting (cl_vm w1) → moved Controller n (Status vm) w1 → kube_answers params _ (UpdateVMStatus vm) w1 r w2 →
  may_fail w1 (store (Status vm) w1) r w2 ∧ advanced Controller n w2.
Proof. intros Hd. apply (stored_advances _ _ _ at_leave_kept). by apply deleting_stays. Qed.

Lemma controller_leaves n w : at_leave n w → wp cenv (VmController.Reconcile params (vm_key w)) w (λ _ w', advanced Controller n w').
Proof.
  intros Hn. split; [done|]. intros r w0 Hr. simpl in Hr. destruct n as [|n'].
  { destruct Hn as [Hg Ep]. rewrite decide_True in Hr by done. destruct Hr as [-> (e & -> & _)]. by exists 0%nat. }
  set (n := S n') in *. assert (H1 : (1 ≤ n)%nat) by lia. pose proof (proj1 (at_leave_S n w H1) Hn) as [Hd _].
  rewrite decide_False in Hr by (by apply deleting_stays). destruct r as [vm|e]; cbn [pbind].
  2: { destruct Hr as [_ [-> | ->]]; by apply (advanced_failed _ _ _ n n); [lia|eapply at_leave_kept; [apply kept_fail|]|]. }
  destruct Hr as [-> ->]. wp_use (reconcile_leaves n); [|done..].
  intros [vm' rerr] w1 [[_ H0]|(Hd1 & Hu & Hm)]; (split; [done|]); intros err w2 Hr.
  - simpl in Hr. pose proof H0 as [Hg _]. rewrite decide_True in Hr by done. destruct Hr as [-> (e & -> & He)].
    assert (Ha : advanced Controller n w1) by (exists 0%nat; split_and!; [lia|done|lia]).
    cbn [pbind]. destruct rerr as [re|]; [|by destruct (IsConflict e)]. destruct (as_reconcileError re); [done|]. split; [done|]. by intros [] w3 ->.
  - destruct (left_advances _ _ _ _ _ Hd1 Hm Hr) as [Hst Ha]. clear Hr. cbn [pbind].
    assert (Hev : ∀ about ty re (res : Result * option goerror), wp cenv (call (Eventf about ty re) ;;; Ret res)%go w2 (λ _ w', advanced Controller n w')).
    { intros about ty re res. split; [done|]. by intros [] w3 ->. }
    destruct rerr as [re|]; [destruct err; (destruct (as_reconcileError re); [done|apply Hev])|]. destruct err as [e|]; [by destruct (IsConflict e)|].
    simpl in Hst. subst w2. destruct Ha as (m & Hle & Hm2 & Hlt). wp_use gcVMPods_kept; [|..|done|done].
    { intros [e|] w3 Hk; (apply (advanced_kept _ _ at_leave_kept _ _ _ _ Hk); by exists m). }
    intros p Ep. destruct m as [|m]; [destruct Hm2; congruence|]. destruct Hm2 as [_ Hl]. by eapply leaving_own.
Qed.

(** ** The daemons *)

(** The status of a VM whose hypervisor has stopped. *)
Lemma succeeded_stage n w p :
  (3 ≤ n)%nat → at_leave n w → cl_pod w = Some p →
  at_leave (Nat.min n 4) (store (Status (upd_Status (set_Phase VirtualMachineSucceeded) (cl_vm w))) w).
Proof.
  intros H3 Hn Ep. pose proof (proj1 (at_leave_S n w ltac:(lia)) Hn) as [Hd Hl]. apply at_leave_S; [lia|].
  split; [apply (deleting_status _ _ Hd), (simple_phase _ VirtualMachineSucceeded (de_simple _ Hd))|].
  simpl. rewrite Ep in *. destruct (cl_vm w) as [? ? []]. inversion Hl as [q Hph Hp|q Hph Hp|q Hph Hp| |]; subst; simpl.
  - apply lv_alive; [simpl; set_solver|]. destruct Hp as (Ho & Hr & _). split; [done|by right].
  - apply lv_alive; [simpl; set_solver|done].
  - apply lv_stopping; [simpl; set_solver|done].
Qed.

(** Only the hypervisor and the note of a failure change. *)
Lemma at_leave_hv n w w' : at_leave n w → cl_vm w' = cl_vm w → cl_pod w' = cl_pod w → at_leave n w'.
Proof. intros Hn E1 E2. revert Hn. unfold at_leave, gone. by rewrite E1, E2. Qed.

Lemma deleting_moves n w p :
  (3 ≤ n)%nat → at_leave n w → cl_pod w = Some p → NodeName (Status (cl_vm w)) ≠ "" →
  wp nenv (reconcileDeletingVM (cl_vm w) p) w (λ r w1, deleting (cl_vm w1) ∧ moved daemon n (Status (fst r)) w1).
Proof.
  intros H3 Hn Ep Hnode. pose proof (proj1 (at_leave_S n w ltac:(lia)) Hn) as [Hd Hl].
  assert (Hfin : ∀ w1, cl_vm w1 = cl_vm w → cl_pod w1 = cl_pod w →
    wp nenv (ok_vm (upd_Status (set_Phase VirtualMachineSucceeded) (cl_vm w)) (cleanup (cl_vm w))) w1
      (λ r w2, deleting (cl_vm w2) ∧ moved daemon n (Status (fst r)) w2)).
  { intros w1 Ev Epw. eapply wp_mono; [|apply ok_vm_wp, (cleanup_wp nenv (kept w1) (plain_kept params w1)), kept_refl].
    intros r w2 [Hk ->]. split; [destruct Hk as (E & _); by rewrite E, Ev|].
    apply (moved_kept _ _ at_leave_kept _ _ (Nat.min n 4) _ w1); [by eapply at_leave_hv|done| |lia|].
    - rewrite <- Ev. apply (succeeded_stage n w1 p); [done|by eapply at_leave_hv|congruence].
    - intros _. unfold remover. repeat case_match; try done; lia. }
  unfold reconcileDeletingVM. case_decide as Er; [|by apply Hfin].
  assert (Hat : at_pod w (chSocket (cl_vm w))).
  { exists p. split_and!; [done..|]. destruct (leaving_own _ _ _ Hl p Ep) as (_ & _ & [?|Hu]); [done|].
    unfold chSocket, getVMDataDirPath, pod_socket. by rewrite Hu. }
  split; [split; [done|apply Hd]|]. intros r w1 Hr. simpl in Hr. cbn [pbind]. destruct r as [e|].
  - assert (Hw1 : cl_vm w1 = cl_vm w ∧ cl_pod w1 = cl_pod w ∧ cl_failed w1 = true) by (by destruct Hr as [_ [-> | ->]]).
    destruct Hw1 as (Ev & Epw & Ef). destruct (Strings.Contains _ _); [by apply Hfin|]. split; [by rewrite Ev|]. simpl. rewrite <- Ev.
    apply (moved_to _ _ _ n n); [done|by eapply at_leave_hv|by right].
  - simpl in Hr. subst w1. by apply Hfin.
Qed.

Hypothesis node_named : node ≠ "".

Lemma daemon_reconcile_leaves n' ip blocks n w :
  (1 ≤ n)%nat → at_leave n w → wp nenv (Daemon.reconcile n' ip (cl_vm w) blocks) w
    (λ r w1, deleting (cl_vm w1) ∧ moved (NodeDaemon n') n (Status (fst (fst r))) w1).
Proof.
  intros H1 Hn. pose proof (proj1 (at_leave_S n w H1) Hn) as [Hd Hl]. unfold Daemon.reconcile, concerned.
  rewrite (si_migration _ _ (de_simple _ Hd)), orb_false_r. destruct (bool_decide (NodeName (Status (cl_vm w)) = n')) eqn:Ehere.
  2: { rewrite andb_false_r. cbn [negb]. split; [done|]. apply (moved_same _ _ at_leave_kept _ _ w); [done..|]. intros Hm. exfalso.
       assert (n' = node ∧ n = 5%nat) as [-> ->] by (unfold remover in Hm; repeat case_match; naive_solver).
       inversion Hl as [p Hph (Ho & Hrp & Hu & En) Ep| | | |]. rewrite En in Ehere. by apply bool_decide_eq_false in Ehere. }
  apply bool_decide_eq_true in Ehere. destruct (bool_decide (NodeName (Status (cl_vm w)) = "")) eqn:Enone; cbn [negb andb].
  { apply bool_decide_eq_true in Enone. split; [done|]. apply (moved_same _ _ at_leave_kept _ _ w); [done..|]. intros Hm. exfalso. apply node_named.
    assert (n' = node) as -> by (unfold remover in Hm; repeat case_match; naive_solver). congruence. }
  apply bool_decide_eq_false in Enone. assert (n' = node) as -> by (destruct (si_node _ _ (de_simple _ Hd)); congruence).
  wp_use node_get_pod; [|by apply (leaving_own n)]. intros [p|e] w1 [Hk Hr].
  2: { split; [destruct Hk as (E & _); by rewrite E|]. apply (moved_same _ _ at_leave_kept _ _ w); [done..|]. intros Hm.
       destruct Hr as [Ep|?]; [|done]. rewrite Ep in Hl. by inversion Hl; subst. }
  rewrite (marked _ Hd). unfold with_blocks. destruct Hk as (Ev & Epw & Hk).
  assert (H3 : (3 ≤ n)%nat) by (rewrite Hr in Hl; inversion Hl; lia).
  rewrite <- Ev. wp_use (deleting_moves n w1 p); [|done|by eapply at_leave_hv|congruence|congruence]. by intros [vm' e] w2 Hm.
Qed.

Lemma daemon_leaves n' ip blocks n w :
  at_leave n w → wp nenv (Daemon.Reconcile n' ip (vm_key w) blocks) w (λ _ w', advanced (NodeDaemon n') n w').
Proof.
  intros Hn. split; [done|]. intros r w0 Hr. simpl in Hr. destruct n as [|n0].
  { destruct Hn as [Hg Ep]. rewrite decide_True in Hr by done. destruct Hr as [-> (e & -> & _)]. by exists 0%nat. }
  set (n := S n0) in *. assert (H1 : (1 ≤ n)%nat) by lia. pose proof (proj1 (at_leave_S n w H1) Hn) as [Hd _].
  rewrite decide_False in Hr by (by apply deleting_stays). destruct r as [vm|e]; cbn [pbind].
  2: { destruct Hr as [_ [-> | ->]]; by apply (advanced_failed _ _ _ n n); [lia|eapply at_leave_kept; [apply kept_fail|]|]. }
  destruct Hr as [-> ->]. wp_use (daemon_reconcile_leaves n' ip blocks n); [|done..]. intros [[vm' bl] rerr] w1 [Hd1 Hm]. simpl in Hm.
  apply wp_seq. eapply (wp_mono _ _ _ (λ _ w', w' = w1)); [|by destruct rerr; [split; [done|]; intros [] w2 ->|]].
  intros _ ? ->. split; [done|]. intros err w2 Hr.
  destruct (stored_advances _ _ _ at_leave_kept _ _ _ _ _ _ (deleting_stays _ Hd1) Hm Hr) as [_ Ha]. destruct rerr, err as [e|]; done.
Qed.

(** ** The kubelet *)

(** A pod with the same metadata, as far as it got. *)
Lemma own_pod_meta vm p p' : own_pod vm p → pod_meta p' = pod_meta p → own_pod vm p'.
Proof. unfold own_pod. by intros ? ->. Qed.

Lemma kubelet_leaves n w w' : at_leave n w → kubelet_turn node w w' → advanced Kubelet n w'.
Proof.
  intros Hn Ht. destruct Ht as [b Ep|p p' Ep Hp Em Hp'|p p' b Ep Hz Em Hr|p p' Ep [t Hd] Em En Hk|p b Ep [t Hd]].
  { exists n. split_and!; [done|by eapply at_leave_hv|]. intros _ Hm. exfalso. assert (n = 3%nat) as -> by (unfold remover in Hm; by repeat case_match).
    destruct Hn as [_ Hl]. rewrite Ep in Hl. by inversion Hl. }
  all: destruct n as [|n0]; [destruct Hn; congruence|]; set (n := S n0) in *; destruct Hn as [Hdel Hl]; rewrite Ep in Hl.
  - apply (advanced_failed _ _ _ n n); [done| |done]. split; [done|]. simpl.
    inversion Hl as [q Hph Hq|q Hph [Ho _]|q Hph (_ & _ & _ & Hq)| |]; subst.
    + destruct Hq as (_ & [E _] & _). destruct Hp as [[?|?] _]; congruence.
    + apply lv_alive; [done|]. split; [by eapply own_pod_meta|by left].
    + destruct Hp as (_ & _ & E). by rewrite E in Hq.
  - inversion Hl as [q Hph Hq|q Hph [Ho _]|q Hph (_ & _ & _ & Hq)| |]; subst; [..|by rewrite Hz in Hq].
    + exists 5%nat. split_and!; [done| |done]. split; [done|]. destruct Hq as (Ho & _ & Hu & Hnn). apply lv_placed; [done|].
      split; [by eapply own_pod_meta|]. by rewrite Em.
    + exists 4%nat. split_and!; [done| |done]. split; [done|]. apply lv_alive; [done|]. split; [by eapply own_pod_meta|by right].
  - apply (advanced_failed _ _ _ n n); [done| |done]. split; [done|]. simpl.
    inversion Hl as [q Hph Hq|q Hph [_ Hq]|q Hph (Ho & Hnn & _ & Hz)| |]; subst.
    + destruct Hq as (_ & (_ & _ & E) & _). by rewrite E in Hd.
    + destruct Hq as [(_ & _ & E)|(_ & _ & E)]; by rewrite E in Hd.
    + apply lv_stopping; [done|]. split_and!; [by eapply own_pod_meta|by rewrite En|done|by rewrite Em].
  - inversion Hl as [q Hph Hq|q Hph [_ Hq]|q Hph (Ho & Hnn & _ & Hz)| |]; subst.
    + destruct Hq as (_ & (_ & _ & E) & _). by rewrite E in Hd.
    + destruct Hq as [(_ & _ & E)|(_ & _ & E)]; by rewrite E in Hd.
    + rewrite !elem_of_cons in Hph. destruct (decide (Phase (Status (cl_vm w)) = VirtualMachineScheduled)) as [E|E].
      * exists 2%nat. split_and!; [lia|split; [done|by apply lv_lost]|lia].
      * exists 1%nat. split_and!; [lia|split; [done|apply lv_bare]|lia]. simpl.
        destruct Hph as [F|[F|[F|[F|F]]]]; [by rewrite F|done|by rewrite F..|by apply elem_of_nil in F].
Qed.

(** ** Deletion *)

Lemma leave_turns n w : at_leave n w → safe_turns params w ∧ ∀ a w', turn a w w' → advanced a n w'.
Proof.
  intros Hn. assert (Hn' : at_leave n (set_fail false w)) by (by eapply at_leave_hv). apply turn_covered.
  - exact (controller_leaves n (set_fail false w) Hn').
  - intros n' ip blocks. exact (daemon_leaves n' ip blocks n (set_fail false w) Hn').
  - intros w'. by apply kubelet_leaves.
Qed.

Lemma leave_advances a n w w' : at_leave n w → turn a w w' → advanced a n w'.
Proof. intros Hn. by apply leave_turns. Qed.

Lemma remover_some n : remover (S n) ≠ None.
Proof. by repeat (destruct n as [|n]; try done). Qed.
Lemma remover_actor n a : remover n = Some a → a = Controller ∨ a = Kubelet ∨ a = daemon.
Proof. unfold remover. repeat case_match; naive_solver. Qed.

(** The user deletes the VM: the API server marks it. *)
Definition mark (t : Z) (w : cluster) : cluster :=
  mkCluster (set_meta (set_DeletionTimestamp (Some t) (vm_meta (cl_vm w))) (cl_vm w)) (cl_pod w) (cl_hv w) (cl_failed w).

Lemma mark_meta t w : om_DeletionTimestamp (vm_meta (cl_vm (mark t w))) = Some t ∧
  om_Finalizers (vm_meta (cl_vm (mark t w))) = om_Finalizers (vm_meta (cl_vm w)).
Proof. by destruct w as [[[]]]. Qed.

Lemma mark_own t w p : own_pod (cl_vm w) p → own_pod (cl_vm (mark t w)) p.
Proof. by destruct w as [[[]]]. Qed.

(** Every stage of the start leads to one of the way out. *)
Lemma mark_leave t n w : at_stage node n w → ∃ m, (m ≤ 5)%nat ∧ at_leave m (mark t w).
Proof.
  intros [Hs Hst]. destruct (mark_meta t w) as [Et Ef].
  assert (Hfin : ContainsFinalizer (vm_meta (cl_vm (mark t w))) VMProtectionFinalizer = ContainsFinalizer (vm_meta (cl_vm w)) VMProtectionFinalizer)
    by (by rewrite !(ContainsFinalizer_spec (MetaLaws := M)), Ef).
  assert (Hdel : ContainsFinalizer (vm_meta (cl_vm w)) VMProtectionFinalizer = true → deleting (cl_vm (mark t w))).
  { intros Hc. split; [|by rewrite Et|congruence]. destruct (sa_simple _ _ Hs). by destruct w as [[[]]]. }
  pose proof (mark_own t w) as Ho.
  assert (Hgo : ∀ m, (1 ≤ m ≤ 5)%nat → ContainsFinalizer (vm_meta (cl_vm w)) VMProtectionFinalizer = true →
    leaving (cl_vm (mark t w)) (cl_pod w) m → ∃ m, (m ≤ 5)%nat ∧ at_leave m (mark t w)).
  { intros m Hm Hc Hl. exists m. split; [lia|]. apply at_leave_S; [lia|]. auto. }
  inversion Hst as [Hph Hf _ E1 E2|Hph Hf _ E1 E2|Hph [[Hf _] _] E1 E2|Hph [[Hf _] _] E1 E2|p Hph [Hf _] Hp Hpe E1 E2|p Hph [Hf _] Hp Hr E1 E2
    |p h Hph [Hf _] Hp Hh E1 E2|p Hph [Hf _] Hp E1 E2|p Hph [Hf _] Hp E1 E2]; rewrite <- E1 in *.
  - exists 0%nat. split; [lia|]. split; [|by symmetry]. split; [by rewrite Et|congruence].
  - apply (Hgo 1%nat); [lia|done|]. apply lv_bare. simpl. by rewrite Hph.
  - apply (Hgo 1%nat); [lia|done|]. apply lv_bare. simpl. by rewrite Hph.
  - apply (Hgo 1%nat); [lia|done|]. apply lv_bare. simpl. by rewrite Hph.
  - apply (Hgo 4%nat); [lia|done|]. apply lv_alive; [simpl; rewrite Hph; set_solver|split; [by apply Ho|by left]].
  - apply (Hgo 4%nat); [lia|done|]. apply lv_alive; [simpl; rewrite Hph; set_solver|split; [by apply Ho|by right]].
  - apply (Hgo 5%nat); [lia|done|]. apply lv_placed; [simpl; rewrite Hph; set_solver|]. destruct Hp as (? & ?). split; [by apply Ho|done].
  - apply (Hgo 5%nat); [lia|done|]. apply lv_placed; [simpl; rewrite Hph; set_solver|]. destruct Hp as (? & ?). split; [by apply Ho|done].
  - apply (Hgo 5%nat); [lia|done|]. apply lv_placed; [simpl; rewrite Hph; set_solver|]. destruct Hp as (? & ?). split; [by apply Ho|done].
Qed.

Context {L : QuantityLaws K}.
Hypothesis marshals : (∀ vm, ∃ json, MarshalVM params vm = Ok json) ∧ (∀ l, ∃ json, MarshalNetworks params l = Ok json).

(** C2: a VM that is deleted goes: whenever it is deleted, from before its first reconciliation to while it
    runs, and whatever order the VM controller, the kubelet and the daemons then take turns in, and
    whichever calls fail, before or after they took effect, no turn panics, creates a pod, or creates
    or boots the VM, or deletes the pod while the phase is Scheduled or Running, which is left to the
    daemon that stops the hypervisor; and once there were five rounds in each of which every actor had a turn without a failure,
    the finalizer is removed and no pod is left. *)
Theorem vm_goes vm l1 w1 t l2 w :
  new_vm node vm → turns l1 (mkCluster vm None HvEmpty false) w1 → turns l2 (mark t w1) w →
  safe_turns params w ∧ (rounds 5 l2 → gone w ∧ cl_pod w = None).
Proof.
  intros Hv Ht1 Ht2. destruct (new_vm_stage node vm Hv) as (n & _ & Hst).
  destruct (turns_monotone _ _ _ _ (turn_advances params node M marshals node_named) _ _ _ _ Hst Ht1) as (m & _ & Hm).
  destruct (mark_leave t m w1 Hm) as (k & Hk & Hl). split.
  - destruct (turns_monotone _ _ _ _ leave_advances _ _ _ _ Hl Ht2) as (j & _ & Hj). by apply (leave_turns j).
  - intros Hr. destruct (rounds_advance _ _ _ _ leave_advances remover_some remover_actor 5 l2 k _ _ Hl Ht2 Hr) as (j & Hj & Hw).
    by assert (j = 0%nat) as -> by lia.
Qed.

End ShutDown.

(** ** A concrete deletion *)

Section Sample.
#[local] Existing Instance k8s_concrete.
#[local] Existing Instance k8s_concrete_laws.

(** The VM of the concrete start is deleted while it runs. *)
Definition sample_end : list (actor * bool) * cluster := sample_rounds 5 (mark 1 (snd sample_run)).

Lemma sample_end_trace : fst sample_end = concat (repeat clean_round 5).
Proof. vm_compute. reflexivity. Qed.

Lemma sample_end_turns : turns sampleParams "node-1" (fst sample_end) (mark 1 (snd sample_run)) (snd sample_end).
Proof.
  apply (sample_rounds_turns (λ w, ∃ n, at_leave "node-1" n w)).
  - intros w [n Hn]. destruct (leave_turns sampleParams "node-1" k8s_concrete_meta ltac:(done) n w Hn) as [Hs Ht]. split; [done|].
    intros a w' Ha. destruct (Ht a w' Ha) as (m & _ & Hm & _). by exists m.
  - destruct (new_vm_stage "node-1" startVM startVM_new) as (n & _ & Hn).
    destruct (turns_monotone _ _ _ _ (turn_advances sampleParams "node-1" k8s_concrete_meta sample_marshals ltac:(done)) _ _ _ _ Hn sample_run_turns)
      as (m & _ & Hm).
    destruct (mark_leave "node-1" k8s_concrete_meta ltac:(done) 1 m _ Hm) as (k & _ & Hk). by exists k.
Qed.

Lemma vm_goes_witness : gone (snd sample_end) ∧ cl_pod (snd sample_end) = None.
Proof.
  assert (Hr : rounds "node-1" 5 (fst sample_end)) by (rewrite sample_end_trace; apply clean_rounds).
  destruct (vm_goes sampleParams "node-1" k8s_concrete_meta ltac:(done) sample_marshals startVM _ _ 1 _ _ startVM_new sample_run_turns sample_end_turns)
    as [_ H].
  exact (H Hr).
Defined.

End Sample.
