(* ===== verification/Rendezvous.v ===== *)
(** * The rendezvous of a migration

    The daemon of the target node opens a port that leads to the socket on which the target pod's
    hypervisor receives; it records the address in the VM's status.  The daemon of the source node
    opens a socket in the source pod that leads to the recorded address, and tells the source's
    hypervisor to send to it.  Here both daemons ([Daemon]) run with the relays of
    pkg/daemon/tcpproxy ([NodeUtil]) on one network, and the two sockets are shown to be
    connected when the source's hypervisor is told to send. *)

From stdpp Require Import base gmap strings list sets fin_maps.
From Stdlib Require Import Ascii ZArith Lia.
From S2P Require Import Prelude GoStd GoNet K8s ApiTypes Kube PodBuild PodBuildProofs VmController NodeUtil Daemon DaemonProofs.
Open Scope Z_scope.

(** ** The network *)

(** A place to connect to on a node: a unix socket, or a TCP port of its address ([None] for a port
    of another address, which other nodes do not see). *)
Abbreviation place := (string + option Z)%type.
Abbreviation endpoint := (string * place)%type.

Record network := mkNetwork {
  (** what the relays serve: a newer relay takes the place of an older one *)
  nw_routes : gmap endpoint dialer;
  (** the listeners of a node, by descriptor *)
  nw_listeners : gmap (string * Z) place
}.
Definition add_listener (node : string) (fd : Z) (l : place) (w : network) : network :=
  mkNetwork (nw_routes w) (<[(node, fd) := l]> (nw_listeners w)).
Definition add_route (e : endpoint) (d : dialer) (w : network) : network := mkNetwork (<[e := d]> (nw_routes w)) (nw_listeners w).

Section Rendezvous.
(** [proxy.Start], and the node that an address belongs to. *)
Context `{K : K8s} (proxy_Start : proxy_Start_type) (node_at : string → option string).

(** Where a connection to a socket of a node ends, through a relay to TCP and one back to a socket. *)
Definition connects (w : network) (node socket : string) : option (string * string) :=
  match nw_routes w !! (node, inl socket) with
  | Some (DialTLS addr) =>
      '(host, port) ← SplitHostPort addr;
      n ← node_at host;
      p ← Strconv.Atoi port;
      match nw_routes w !! (n, inr (Some p)) with
      | Some (DialSocket socket') => Some (n, socket')
      | _ => None
      end
  | _ => None
  end.

(** A listener on all addresses is seen at the node's own. *)
Definition all_addresses : string := "0.0.0.0:0".

(** The operating system of a node: a listener on port 0 gets a port that is free. *)
Definition sys_env (node : string) : env sysE network := mkEnv
  (λ X e w, match e with
            | ServeRoute fd _ => is_Some (nw_listeners w !! (node, fd))
            | _ => True
            end)
  (λ X e w, match e in sysE X return X → network → Prop with
     | ListenUnix path => λ r w', match r with Ok fd => w' = add_listener node fd (inl path) w | Err _ => w' = w end
     | ListenTLS addr => λ r w', match r with
         | Ok (fd, port) => 0 < port < 2 ^ 16 ∧ nw_routes w !! (node, inr (Some port)) = None ∧
             w' = add_listener node fd (inr (if decide (addr = all_addresses) then Some port else None)) w
         | Err _ => w' = w
         end
     | ServeRoute fd dial => λ _ w', ∃ l, nw_listeners w !! (node, fd) = Some l ∧ w' = add_route (node, l) dial w
     | _ => λ _ w', w' = w
     end) False.

(** The node of a daemon: a relay is what the relay provider makes of it; nothing is known of the
    other answers.  [may] says which migrations may be started, with the socket of the hypervisor
    and the URL it is given; a panic is not excluded here. *)
Inductive role := Receive | Send.
Definition relay_env (node : string) (may : role → string → string → network → Prop) : env nodeE network := mkEnv
  (λ X e w, match e with
            | GoReceiveMigration socket _ url => may Receive socket url w
            | GoSendMigration socket _ url => may Send socket url w
            | _ => True
            end)
  (λ X e w, match e in nodeE X return X → network → Prop with
     | RelayTCPToSocket ctx addr socket => λ r w',
         exec (sys_env node) (NodeUtil.RelayTCPToSocket proxy_Start ctx addr socket) w (Returned r) w'
     | RelaySocketToTCP ctx socket addr => λ r w',
         exec (sys_env node) (NodeUtil.RelaySocketToTCP proxy_Start ctx socket addr) w (Returned r) w'
     | _ => λ _ w', w' = w
     end) True.

(** A path in the hypervisor's container of a pod of the VM, and the path of the file on its node:
    the kubelet keeps an emptyDir volume below the directory of the pod. *)
Definition pod_file (vm : VirtualMachine) (uid path host : string) : Prop :=
  ∃ mount file, mount ∈ bd_mounts (initial vm) ∧ emptyDir (vm_Name mount) ∈ bd_volumes (initial vm) ∧
    path = (MountPath mount +:+ "/" +:+ file)%string ∧
    host = JoinPath [podDir uid ["volumes/kubernetes.io~empty-dir/" +:+ vm_Name mount +:+ "/"]; file].

(** ** The relays *)

Hypothesis documented : proxy_documented proxy_Start.

(** A port leads to the socket from now on, or nothing has changed. *)
Definition opened (node addr socket : string) (w : network) (r : result Z) (w' : network) : Prop :=
  match r with
  | Ok port => 0 < port < 2 ^ 16 ∧ nw_routes w !! (node, inr (Some port)) = None ∧
      nw_routes w' = <[(node, inr (if decide (addr = all_addresses) then Some port else None)) := DialSocket socket]> (nw_routes w)
  | Err _ => nw_routes w' = nw_routes w
  end.

Lemma RelayTCPToSocket_wp node ctx addr socket w :
  wp (sys_env node) (NodeUtil.RelayTCPToSocket proxy_Start ctx addr socket) w (opened node addr socket w).
Proof.
  split; [done|]. intros [] ? ->. cbn [pbind]. rewrite documented. unfold RelayTCPToSocket_listen. cbn.
  split; [done|]. intros [[fd port]|e] w1; [|by intros ->]. intros (Hp & Hfree & ->). cbn.
  split; [by rewrite lookup_insert_eq|]. intros [] w2 (l & Hl & ->). rewrite lookup_insert_eq in Hl. by injection Hl as <-.
Qed.

(** The socket leads to the address from now on, or nothing has changed. *)
Definition relayed (node socket addr : string) (w : network) (r : option goerror) (w' : network) : Prop :=
  match r with
  | None => nw_routes w' = <[(node, inl socket) := DialTLS addr]> (nw_routes w)
  | Some _ => nw_routes w' = nw_routes w
  end.

Lemma RelaySocketToTCP_wp node ctx socket addr w :
  wp (sys_env node) (NodeUtil.RelaySocketToTCP proxy_Start ctx socket addr) w (relayed node socket addr w).
Proof.
  split; [done|]. intros [] ? ->. cbn [pbind]. rewrite documented. unfold RelaySocketToTCP_listen. cbn.
  split; [done|]. intros [e|] ? ->; [done|]. cbn. split; [done|]. intros err ? ->.
  destruct err as [[e []]|]; [|done|]; (split; [done|]); (intros [fd|e'] w1 ->; [|done]); cbn;
    (split; [by rewrite lookup_insert_eq|]); intros [] w2 (l & Hl & ->); rewrite lookup_insert_eq in Hl; by injection Hl as <-.
Qed.

(** ** The daemons *)

(** A port that leads to a socket keeps leading to it, whatever else the daemon does on the node. *)
Definition leads (node : string) (port : Z) (socket : string) (w : network) : Prop :=
  nw_routes w !! (node, inr (Some port)) = Some (DialSocket socket).

Lemma leads_plain node may port socket X (e : nodeE X) :
  plain e = true → ok_call (relay_env node may) (leads node port socket) e.
Proof.
  intros He w Hw. split; [by destruct e|]. intros x w' Hx. destruct e; try done; simpl in Hx; try (by subst).
  - eapply wp_exec in Hx as (a & [= ->] & Ho); [|by intros []|apply RelayTCPToSocket_wp]. unfold opened in Ho. destruct a as [p|e]; unfold leads in *.
    + destruct Ho as (_ & Hfree & ->). rewrite lookup_insert_ne; [done|]. case_decide; intros E; simplify_eq.
    + by rewrite Ho.
  - eapply wp_exec in Hx as (a & [= ->] & Ho); [|by intros []|apply RelaySocketToTCP_wp]. unfold relayed in Ho. unfold leads in *.
    destruct a; rewrite Ho; [done|]. by rewrite lookup_insert_ne.
Qed.

Definition rx_socket (m : VirtualMachineStatusMigration) : string := JoinPath [getMigrationTargetVMSocketDirPath m; "rx.sock"].
Definition tx_socket (vm : VirtualMachine) : string := JoinPath [getVMDataDirPath vm; "tx.sock"].

(** The target is ready: the recorded port leads to its receiving socket. *)
Definition target_open (node ip : string) (m m' : VirtualMachineStatusMigration) (w : network) : Prop :=
  TargetNodeIP m' = ip ∧ 0 < TargetNodePort m' < 2 ^ 16 ∧ TargetVMPodUID m' = TargetVMPodUID m ∧
  leads node (TargetNodePort m') (rx_socket m) w.

Definition ready_means_open (node ip : string) (m : VirtualMachineStatusMigration) {A} (r : VirtualMachine * A) (w : network) : Prop :=
  ∀ m', Migration (Status (fst r)) = Some m' → Migration_Phase m' = VirtualMachineMigrationTargetReady → target_open node ip m m' w.

Lemma target_opened_wp node ip may vm m ctx b w :
  Migration (Status vm) = Some m → Migration_Phase m = VirtualMachineMigrationScheduled →
  wp (relay_env node may) (open_target ip vm m ctx (rx_socket m) b) w (ready_means_open node ip m).
Proof.
  intros Em Ep. assert (Hsame : ∀ vm' (x : option goerror + migrationControlBlock) w', Migration (Status vm') = Some m → ready_means_open node ip m (vm', x) w').
  { intros vm' x w' E m' E' Hr. simpl in E'. congruence. }
  split; [done|]. intros [e|] ? ->; [by apply Hsame|]. cbn [pbind]. split; [done|]. intros r w1 Hx.
  eapply wp_exec in Hx as (a & [= ->] & Ho); [|by intros []|apply RelayTCPToSocket_wp]. cbn [pbind]. destruct a as [port|e]; [|by apply Hsame].
  destruct Ho as (Hp & _ & Hroutes). rewrite decide_True in Hroutes by done.
  wp_use (mountHotplugVolumes_wp (relay_env node may) (leads node port (rx_socket m))); [|apply leads_plain|done|].
  2: { unfold leads. by rewrite Hroutes, lookup_insert_eq. }
  intros [vm1 [e|]] w2 [Hl (l & Evm & _)]; simpl in Evm; subst vm1; [by apply Hsame; destruct vm as [? ? []]|].
  intros m'. simpl. destruct vm as [me sp []]. simpl in *. subst. intros [= <-] _. by destruct m.
Qed.

Lemma poll_wp {W} (en : env nodeE W) (I : W → Prop) n cond w :
  (∀ w, I w → wp en cond w (λ _ w', I w')) → ok_call en I Sleep → I w → wp en (PollImmediate n cond) w (λ _ w', I w').
Proof.
  intros Hc Hs. revert w. induction n as [|n IH]; intros w Hw; cbn [PollImmediate]; (wp_use Hc; [|done]); intros [[]|e] w' Hw'; try done.
  apply (wp_ok en I); [done..|]. intros _ w2 Hw2. by apply IH.
Qed.

(** The socket of a pod's hypervisor and a URL that names, in its container, the given file of the node. *)
Definition url_of_file (vm : VirtualMachine) (uid file url : string) : Prop :=
  ∃ path, url = ("unix:" +:+ path)%string ∧ pod_file vm uid path file.

Lemma virtink_file vm uid file : pod_file vm uid ("/var/run/virtink/" +:+ file) (JoinPath [podDir uid ["volumes/kubernetes.io~empty-dir/virtink/"]; file]).
Proof. exists (mkVolumeMount "virtink" "/var/run/virtink" None), file. split_and!; [by left|by left|done|done]. Qed.

(** The target's hypervisor may be told to receive on the socket that the relay will lead to. *)
Definition may_receive_here (vm : VirtualMachine) (m : VirtualMachineStatusMigration) (r : role) (socket url : string) (_ : network) : Prop :=
  r = Receive ∧ socket = targetSocket m ∧ url_of_file vm (TargetVMPodUID m) (rx_socket m) url.

(** The source's hypervisor may be told to send to a socket that is connected to the target's. *)
Definition may_send_to (src tgt : string) (vm : VirtualMachine) (m : VirtualMachineStatusMigration) (r : role) (socket url : string)
    (w : network) : Prop :=
  r = Send ∧ socket = chSocket vm ∧ url_of_file vm (VMPodUID (Status vm)) (tx_socket vm) url ∧
  connects w src (tx_socket vm) = Some (tgt, rx_socket m).

Lemma receive_wp tgt ip vm m b w :
  Migration (Status vm) = Some m → Migration_Phase m = VirtualMachineMigrationScheduled →
  wp (relay_env tgt (may_receive_here vm m)) (migrate_receive ip vm m b) w (ready_means_open tgt ip m).
Proof.
  intros Em Ep. assert (Hfail : ∀ w', wp (relay_env tgt (may_receive_here vm m)) (Eventf_ vm EvWarning "FailedMigrate" ;;;
      Ret (fail_migration vm, inl (A := option goerror) (B := migrationControlBlock) None))%go w' (ready_means_open tgt ip m)).
  { intros w'. split; [done|]. intros [] ? -> m'. simpl. unfold fail_migration, upd_Migration. rewrite Em. destruct vm as [? ? []]. simpl. intros [= <-]. by destruct m. }
  unfold migrate_receive. apply wp_seq. eapply wp_mono; [|apply (poll_wp _ (λ _, True)); [by split|by split|done]].
  intros [e|] w1 _; [apply Hfail|]. split; [done|]. intros ctx w2 _. cbn [pbind]. split; [done|]. intros [[|]|e] w3 _; cbn [pbind].
  - by apply target_opened_wp.
  - split; [split_and!; [done..|]; exists "/var/run/virtink/rx.sock"; split; [done|apply virtink_file]|]. intros ch w4 _. cbn [pbind].
    apply wp_seq. eapply wp_mono; [|apply (poll_wp _ (λ _, True)); [|by split|done]].
    2: { intros w5 _. split; [done|]. intros [e|] w6 _; [done|]. by split. }
    intros [e|] w5 _; [apply Hfail|]. by apply target_opened_wp.
  - intros m' E Hr. simpl in E. congruence.
Qed.

(** What is dialed for a port of an address without colons and brackets is that port. *)
Definition plain_host (host : string) : Prop := ∀ c, c = ":"%char ∨ c = "["%char ∨ c = "]"%char → Strings.lacks c host.

Lemma dialed host port : plain_host host → 0 < port < 2 ^ 16 →
  SplitHostPort (host +:+ ":" +:+ Strconv.FormatInt port) = Some (host, Strconv.FormatInt port) ∧
  Strconv.Atoi (Strconv.FormatInt port) = Some port.
Proof.
  intros Hh Hp. split; [|apply Strconv.Atoi_FormatInt; lia]. apply SplitHostPort_plain. intros c Hc. split; [by apply Hh|].
  apply Strconv.digits_lacks; [apply Strconv.FormatInt_digits; lia|]. unfold Strconv.digit_char. by destruct Hc as [-> |[-> | ->]]; compute; intros [].
Qed.

Lemma source_sends_wp src tgt ip vm m m' b w :
  node_at ip = Some tgt → plain_host ip → target_open tgt ip m m' w →
  wp (relay_env src (may_send_to src tgt vm m)) (migrate_send vm m' b) w (λ _ _, True).
Proof.
  intros Hat Hplain (Eip & Hport & _ & Hleads). split; [done|]. intros ctx ? ->. cbn [pbind]. split; [done|]. intros r w1 Hx.
  eapply wp_exec in Hx as (a & [= ->] & Hr); [|by intros []|apply RelaySocketToTCP_wp]. cbn [pbind]. destruct a as [e|]; [done|]. simpl in Hr.
  split; [|done]. split_and!; [done..| |].
  - exists "/var/run/virtink/tx.sock". split; [done|apply virtink_file].
  - unfold connects. fold (tx_socket vm) in Hr. rewrite Hr, lookup_insert_eq. subst ip. destruct (dialed _ _ Hplain Hport) as [-> Ha].
    simpl. rewrite Hat. simpl. rewrite Ha. simpl. rewrite lookup_insert_ne by done. by rewrite Hleads.
Qed.

(** C12: the two daemons of a migration meet: when the target's daemon has made the target ready and
    the source's daemon starts the migration from the status that was stored, the target's hypervisor was
    told to receive on a socket of its pod, and the source's hypervisor is told to send to a
    socket of its pod that the relays connect to just that socket of the target pod on the target node, provided
    that the address of the target node has no colons (an IPv4 address or a name). *)
Theorem migration_rendezvous src tgt ip ip' vm m pod b w :
  Migration (Status vm) = Some m → Migration_Phase m = VirtualMachineMigrationScheduled → TargetNodeName m = tgt →
  node_at ip = Some tgt → plain_host ip →
  wp (relay_env tgt (may_receive_here vm m)) (migrate_step tgt ip vm pod m b) w (λ r w1,
    ∀ vm' m' pod' b', Migration (Status (fst r)) = Some m' → Migration (Status vm') = Some m' →
      Migration_Phase m' = VirtualMachineMigrationTargetReady → NodeName (Status vm') = src →
      wp (relay_env src (may_send_to src tgt vm' m)) (migrate_step src ip' vm' pod' m' b') w1 (λ _ _, True)).
Proof.
  intros Em Ep Et Hat Hplain. unfold migrate_step at 1. rewrite Ep, Et, bool_decide_true by done.
  eapply wp_mono; [|by apply receive_wp]. intros r w1 Hr vm' m' pod' b' E _ Hready Hsrc. specialize (Hr m' E Hready).
  unfold migrate_step. rewrite Hready, Hsrc, bool_decide_true by done. by eapply source_sends_wp.
Qed.

(** An IPv6 address is joined to the port without brackets: the address that is dialed is refused,
    and the socket that the source's hypervisor sends to leads nowhere. *)
Theorem ipv6_target_unreachable src vm m b w a r :
  TargetNodeIP m = (a +:+ ":" +:+ r)%string → Strings.lacks "["%char (TargetNodeIP m) → Strings.lacks ":"%char a →
  wp (relay_env src (λ ro _ _ w', ro = Send ∧ connects w' src (tx_socket vm) = None)) (migrate_send vm m b) w (λ _ _, True).
Proof.
  intros Eip Hb Hc. split; [done|]. intros ctx ? ->. cbn [pbind]. split; [done|]. intros x w1 Hx.
  eapply wp_exec in Hx as (e & [= ->] & Hr); [|by intros []|apply RelaySocketToTCP_wp]. cbn [pbind]. destruct e as [e|]; [done|]. simpl in Hr.
  split; [|done]. split; [done|]. unfold connects. fold (tx_socket vm) in Hr. rewrite Hr, lookup_insert_eq.
  rewrite Eip in Hb |- *. by rewrite SplitHostPort_colon.
Qed.

End Rendezvous.

(** ** A concrete migration *)

Section Sample.
#[local] Existing Instance k8s_concrete.

(** A proxy as documented. *)
Definition sample_proxy : proxy_Start_type := λ S listen routes s,
  match routes with
  | [(ipPort, dial)] =>
      (let! (l, s) := listen s "tcp" ipPort in
       match l with Err e => Ret (Some e, s) | Ok fd => call (ServeRoute fd dial) ;;; Ret (None, s) end)%go
  | _ => Ret (None, s)
  end.

Definition sample_node_at (ip : string) : option string := if decide (ip = "10.0.0.2") then Some "node-2" else None.

Definition sampleMigration : VirtualMachineStatusMigration :=
  mkStatusMigration "vmm-uid" VirtualMachineMigrationScheduled "node-2" "" 0 "vm-vm-x2" "uid-2" "".
Definition migratedVM (m : VirtualMachineStatusMigration) : VirtualMachine :=
  mkVM emptyMeta (VmValidate.sampleSpec []) (mkVMStatus VirtualMachineRunning "vm-vm-x1" "uid-1" "node-1" VirtualMachinePowerActionUnset (Some m) [] []).

(** The network after both daemons: the source's socket is connected to the target's. *)
Definition sample_network : network :=
  add_route ("node-1", inl (tx_socket (migratedVM sampleMigration))) (DialTLS "10.0.0.2:4242")
    (add_route ("node-2", inr (Some 4242)) (DialSocket (rx_socket sampleMigration)) (mkNetwork ∅ ∅)).
Example sample_connected :
  connects sample_node_at sample_network "node-1" "/var/lib/kubelet/pods/uid-1/volumes/kubernetes.io~empty-dir/virtink/tx.sock" =
  Some ("node-2", "/var/lib/kubelet/pods/uid-2/volumes/kubernetes.io~empty-dir/virtink/rx.sock").
Proof. vm_compute. reflexivity. Qed.

Lemma migration_rendezvous_witness :
  wp (relay_env sample_proxy "node-2" (may_receive_here (migratedVM sampleMigration) sampleMigration))
    (migrate_step "node-2" "10.0.0.2" (migratedVM sampleMigration) emptyPod sampleMigration emptyControlBlock) (mkNetwork ∅ ∅)
    (λ r w1, ∀ m', Migration (Status (fst r)) = Some m' → Migration_Phase m' = VirtualMachineMigrationTargetReady →
      wp (relay_env sample_proxy "node-1" (may_send_to sample_node_at "node-1" "node-2" (migratedVM m') sampleMigration))
        (migrate_step "node-1" "10.0.0.1" (migratedVM m') emptyPod m' emptyControlBlock) w1 (λ _ _, True)).
Proof.
  eapply wp_mono; [|eapply (migration_rendezvous sample_proxy sample_node_at (λ S listen ipPort dial s, eq_refl)
    "node-1" "node-2" "10.0.0.2" "10.0.0.1" (migratedVM sampleMigration) sampleMigration emptyPod emptyControlBlock)].
  - intros r w1 H m' E Hr. apply (H (migratedVM m') m' emptyPod emptyControlBlock E eq_refl Hr eq_refl).
  - reflexivity.
  - reflexivity.
  - reflexivity.
  - vm_compute. reflexivity.
  - intros c Hc. destruct Hc as [-> |[-> | ->]]; vm_compute; repeat (split; [discriminate|]); exact I.
Defined.

Lemma ipv6_target_unreachable_witness :
  wp (relay_env sample_proxy "node-1" (λ ro _ _ w', ro = Send ∧ connects sample_node_at w' "node-1" (tx_socket (migratedVM sampleMigration)) = None))
    (migrate_send (migratedVM sampleMigration)
      (mkStatusMigration "vmm-uid" VirtualMachineMigrationTargetReady "node-2" "fd00::2" 4242 "vm-vm-x2" "uid-2" "") emptyControlBlock)
    (mkNetwork ∅ ∅) (λ _ _, True).
Proof.
  apply (ipv6_target_unreachable sample_proxy sample_node_at (λ S listen ipPort dial s, eq_refl) _ _ _ _ _ "fd00" ":2").
  - reflexivity.
  - vm_compute; repeat (split; [discriminate|]); exact I.
  - vm_compute; repeat (split; [discriminate|]); exact I.
Defined.

End Sample.
