(* ===== verification/Schemes.v ===== *)
(** * Scheme registration

    A scheme of the Kubernetes libraries relates Go types to groups, versions and kinds; a client
    can only be asked for objects of types that its scheme knows.  The register.go files of the API
    packages add types to a scheme, and the [init] functions of the binaries, of the API server and
    of the clientset build their schemes with them.  The libraries are calls: what they add, they
    add to groups of their own. *)

From stdpp Require Import base gmap strings list sets fin_maps.
From Stdlib Require Import ZArith Lia.
From S2P Require Import Prelude GoStd K8s ApiTypes Kube ReplicaSet VmController Migration Daemon DaemonProofs.
Open Scope Z_scope.

Record GroupVersion := mkGV { gv_Group : string; gv_Version : string }.
#[export] Instance GroupVersion_eq_dec : EqDecision GroupVersion.
Proof. solve_decision. Defined.

(** A Go struct type: its package and its name, which is also its kind. *)
Abbreviation goType := (string * string)%type.

(** [runtime.NewScheme] makes a scheme; here a scheme is the package variable that holds it. *)
Inductive schemeE : Type → Type :=
| AddKnownTypes (scheme : string) (gv : GroupVersion) (types : list goType) : schemeE unit
| AddUnversionedTypes (scheme : string) (gv : GroupVersion) (types : list goType) : schemeE unit
(** [metav1.AddToGroupVersion] *)
| MetaAddToGroupVersion (scheme : string) (gv : GroupVersion) : schemeE unit
(** [AddToScheme] of client-go, of the data importer and of the network attachments *)
| ClientGoAddToScheme (scheme : string) : schemeE (option goerror)
| CdiAddToScheme (scheme : string) : schemeE (option goerror)
| NetAddToScheme (scheme : string) : schemeE (option goerror).

Abbreviation regprog := (prog schemeE).

(** [runtime.SchemeBuilder.AddToScheme]: all functions in order, up to the first error. *)
Fixpoint SchemeBuilder_AddToScheme (fs : list (string → regprog (option goerror))) (scheme : string) : regprog (option goerror) :=
  match fs with
  | [] => Ret None
  | f :: fs' =>
      (let! err := f scheme in
       match err with Some e => Ret (Some e) | None => SchemeBuilder_AddToScheme fs' scheme end)%go
  end.

(** [utilruntime.Must]. *)
Definition Must (p : regprog (option goerror)) : regprog unit :=
  (let! err := p in match err with Some e => Crash "Must" | None => Ret tt end)%go.

(** ** pkg/apis/virt *)

Module Virt.
Definition GroupName : string := "virt.virtink.smartx.com".
Definition package : string := "virt/v1alpha1".
Definition SchemeGroupVersion : GroupVersion := mkGV GroupName "v1alpha1".

(** [Kind] and [Resource]: a group and a name. *)
Definition Kind (kind : string) : string * string := (gv_Group SchemeGroupVersion, kind).
Definition Resource (resource : string) : string * string := (gv_Group SchemeGroupVersion, resource).

Definition types : list goType :=
  (λ n, (package, n)) <$> ["VirtualMachine"; "VirtualMachineList"; "VirtualMachineMigration"; "VirtualMachineMigrationList";
    "VirtualMachineReplicaSet"; "VirtualMachineReplicaSetList"].

Definition addKnownTypes (scheme : string) : regprog (option goerror) :=
  (call (AddKnownTypes scheme SchemeGroupVersion types) ;;;
   call (MetaAddToGroupVersion scheme SchemeGroupVersion) ;;; Ret None)%go.

Definition AddToScheme : string → regprog (option goerror) := SchemeBuilder_AddToScheme [addKnownTypes].
End Virt.

(** ** pkg/apis/subresources *)

Module Subresources.
Definition GroupName : string := "subresources.virt.virtink.smartx.com".
Definition package : string := "subresources/v1alpha1".
Definition SchemeGroupVersion : GroupVersion := mkGV GroupName "v1alpha1".
Definition Resource (resource : string) : string * string := (gv_Group SchemeGroupVersion, resource).
Definition VirtualMachineConsoleOptions : goType := (package, "VirtualMachineConsoleOptions").

Definition addKnownTypes (scheme : string) : regprog (option goerror) :=
  (call (AddKnownTypes scheme SchemeGroupVersion [VirtualMachineConsoleOptions]) ;;;
   call (MetaAddToGroupVersion scheme SchemeGroupVersion) ;;; Ret None)%go.

Definition AddToScheme : string → regprog (option goerror) := SchemeBuilder_AddToScheme [addKnownTypes].
Definition Install (scheme : string) : regprog unit := Must (AddToScheme scheme).
End Subresources.

(** ** The [init] functions *)

Definition v1 : GroupVersion := mkGV "" "v1".

(** cmd/virt-controller/main.go and cmd/virt-daemon/main.go. *)
Definition controller_init (scheme : string) : regprog unit :=
  (Must (call (ClientGoAddToScheme scheme)) ;;; Must (Virt.AddToScheme scheme) ;;;
   Must (call (CdiAddToScheme scheme)) ;;; Must (call (NetAddToScheme scheme)))%go.
Definition daemon_init (scheme : string) : regprog unit :=
  (Must (call (ClientGoAddToScheme scheme)) ;;; Must (Virt.AddToScheme scheme))%go.

(** pkg/apiserver/apiserver.go and pkg/apiserver/options/options.go: errors are dropped. *)
Definition meta_types : list goType := (λ n, ("meta/v1", n)) <$> ["Status"; "APIVersions"; "APIGroupList"; "APIGroup"; "APIResourceList"].
Definition apiserver_init (scheme : string) : regprog unit :=
  (let! _ := Subresources.AddToScheme scheme in
   call (MetaAddToGroupVersion scheme v1) ;;; call (AddUnversionedTypes scheme v1 meta_types))%go.
Definition options_init (scheme : string) : regprog unit :=
  (let! _ := Subresources.AddToScheme scheme in
   call (AddUnversionedTypes scheme v1 [Subresources.VirtualMachineConsoleOptions]))%go.

(** The clientset and its fake: a builder of one function, and their schemes. *)
Definition clientset_AddToScheme : string → regprog (option goerror) := SchemeBuilder_AddToScheme [Virt.AddToScheme].
Definition clientset_init (scheme : string) : regprog unit :=
  (call (MetaAddToGroupVersion scheme v1) ;;; Must (clientset_AddToScheme scheme))%go.
Definition fake_AddToScheme : string → regprog (option goerror) := SchemeBuilder_AddToScheme [Virt.AddToScheme].
Definition fake_init (scheme : string) : regprog unit :=
  (call (MetaAddToGroupVersion scheme v1) ;;; Must (fake_AddToScheme scheme))%go.

(** ** What is asked of a client *)

Definition virt (kind : string) : GroupVersion * string := (Virt.SchemeGroupVersion, kind).
Definition core (kind : string) : GroupVersion * string := (v1, kind).

Section Requests.
Context `{K8s}.

(** The group, version and kind of the object of a call. *)
Definition kube_kind {X} (e : kubeE X) : option (GroupVersion * string) :=
  match e with
  | GetVM _ | UpdateVM _ | UpdateVMStatus _ => Some (virt "VirtualMachine")
  | ListVMs _ => Some (virt "VirtualMachineList")
  | GetVMM _ | UpdateVMMStatus _ => Some (virt "VirtualMachineMigration")
  | ListVMMs _ => Some (virt "VirtualMachineMigrationList")
  | GetPod _ | CreatePod _ | DeletePod _ => Some (core "Pod")
  | ListPods _ | ListVMPods _ => Some (core "PodList")
  | GetPVC_ _ => Some (core "PersistentVolumeClaim")
  | GetNAD _ => Some (mkGV "k8s.cni.cncf.io" "v1", "NetworkAttachmentDefinition")
  | IsPopulated _ _ => Some (mkGV "cdi.kubevirt.io" "v1beta1", "DataVolume")
  | GenerateName _ | Eventf _ _ _ | Now => None
  end.

Definition node_kind {X} (e : nodeE X) : option (GroupVersion * string) :=
  match e with Kube e => kube_kind e | _ => None end.

Definition rs_kind {X} (e : rsE X) : option (GroupVersion * string) :=
  match e with
  | RS_Get _ | RS_StatusUpdate _ => Some (virt "VirtualMachineReplicaSet")
  | RS_ListVMs _ _ => Some (virt "VirtualMachineList")
  | RS_ListReplicaSets _ => Some (virt "VirtualMachineReplicaSetList")
  | RS_Create _ | RS_Delete _ => Some (virt "VirtualMachine")
  | _ => None
  end.
End Requests.

(** ** The schemes *)

(** The types registered with each scheme. *)
Abbreviation registry := (gmap (string * (string * string * string)) goType).

Definition gvk (gv : GroupVersion) (kind : string) : string * string * string := (gv_Group gv, gv_Version gv, kind).
Definition register (scheme : string) (gv : GroupVersion) (ts : list goType) (w : registry) : registry :=
  foldl (λ w t, <[(scheme, gvk gv (snd t)) := t]> w) w ts.

Definition knows (scheme : string) (k : GroupVersion * string) (w : registry) : Prop :=
  is_Some (w !! (scheme, gvk (fst k) (snd k))).

(** A library adds types of its own packages, in its own groups. *)
Definition own_package (p : string) : bool := bool_decide (p = Virt.package) || bool_decide (p = Subresources.package).
Definition own_group (g : string) : bool := bool_decide (g = Virt.GroupName) || bool_decide (g = Subresources.GroupName).
Definition library_adds (scheme : string) (w w' : registry) : Prop :=
  w ⊆ w' ∧ ∀ s g v k t, w' !! (s, (g, v, k)) = Some t → w !! (s, (g, v, k)) ≠ Some t →
    s = scheme ∧ own_group g = false ∧ own_package (fst t) = false.
(** The metadata types are added to the group and to the core group under their names, watch events in
    two forms. *)
Definition meta_kinds : list string :=
  ["WatchEvent"; "ListOptions"; "GetOptions"; "DeleteOptions"; "CreateOptions"; "UpdateOptions"; "PatchOptions";
   "Status"; "APIVersions"; "APIGroupList"; "APIGroup"; "APIResourceList"].
Definition meta_adds (scheme : string) (gv : GroupVersion) (w w' : registry) : Prop :=
  w ⊆ w' ∧ ∀ s g v k t, w' !! (s, (g, v, k)) = Some t → w !! (s, (g, v, k)) ≠ Some t →
    s = scheme ∧ (g = gv_Group gv ∨ g = "") ∧ k ∈ meta_kinds ∧ fst t = "meta/v1" ∧ (k ≠ "WatchEvent" → k = snd t).

(** The libraries.  Registering another type under a known kind panics, and so does an empty version. *)
Definition may_add (scheme : string) (gv : GroupVersion) (ts : list goType) (w : registry) : Prop :=
  gv_Version gv ≠ "" ∧ ∀ t t', t ∈ ts → w !! (scheme, gvk gv (snd t)) = Some t' → t' = t.

Definition core_kinds : list string := ["Pod"; "PodList"; "PersistentVolumeClaim"; "PersistentVolumeClaimList"].
Definition scheme_env : env schemeE registry := mkEnv
  (λ X e w, match e with AddKnownTypes s gv ts | AddUnversionedTypes s gv ts => may_add s gv ts w | _ => True end)
  (λ X e w, match e in schemeE X return X → registry → Prop with
     | AddKnownTypes s gv ts | AddUnversionedTypes s gv ts => λ _ w', w' = register s gv ts w
     | MetaAddToGroupVersion s gv => λ _ w', meta_adds s gv w w'
     | ClientGoAddToScheme s => λ r w', r = None ∧ library_adds s w w' ∧ ∀ k, k ∈ core_kinds → knows s (core k) w'
     | CdiAddToScheme s => λ r w', r = None ∧ library_adds s w w' ∧ knows s (mkGV "cdi.kubevirt.io" "v1beta1", "DataVolume") w'
     | NetAddToScheme s => λ r w', r = None ∧ library_adds s w w' ∧
         knows s (mkGV "k8s.cni.cncf.io" "v1", "NetworkAttachmentDefinition") w'
     end) False.

(** The scheme variable holds a new scheme. *)
Definition fresh (scheme : string) (w : registry) : Prop := ∀ k, w !! (scheme, k) = None.

(** Each virtink type has its kind, and no other: [SetControllerReference] finds the owner's kind. *)
Definition virt_kinds (scheme : string) (w : registry) : Prop :=
  (∀ t, t ∈ Virt.types → w !! (scheme, gvk Virt.SchemeGroupVersion (snd t)) = Some t) ∧
  ∀ g v k n, w !! (scheme, (g, v, k)) = Some (Virt.package, n) → (g, v, k) = gvk Virt.SchemeGroupVersion n.

(** ** Proofs: the schemes *)

Lemma knows_weaken scheme k w w' : w ⊆ w' → knows scheme k w → knows scheme k w'.
Proof. intros Hw [t Ht]. exists t. by eapply lookup_weaken. Qed.

Lemma register_lookup scheme gv ts w s k :
  NoDup (snd <$> ts) →
  register scheme gv ts w !! (s, k) =
    match find (λ t, bool_decide ((scheme, gvk gv (snd t)) = (s, k))) ts with Some t => Some t | None => w !! (s, k) end.
Proof.
  unfold register. revert w. induction ts as [|t ts IH]; intros w Hnd; [done|]. cbn [foldl find]. rewrite IH by by inversion Hnd.
  case_bool_decide as E.
  - destruct (find _ ts) as [t'|] eqn:Ef; [|by rewrite E, lookup_insert_eq]. exfalso. apply find_some in Ef as [Hin Hb]. bools.
    assert (snd t = snd t') as Es by (unfold gvk in *; congruence). inversion Hnd as [|? ? Hn _]; subst. apply Hn.
    rewrite Es. apply list_elem_of_fmap_2. by apply list_elem_of_In.
  - destruct (find _ ts); [done|]. by rewrite lookup_insert_ne.
Qed.

(** The virtink types after the registration of the package with a scheme that has none of their group. *)
Lemma virt_registered scheme w :
  (∀ g v k t, w !! (scheme, (g, v, k)) = Some t → own_group g = false ∧ own_package (fst t) = false) →
  virt_kinds scheme (register scheme Virt.SchemeGroupVersion Virt.types w).
Proof.
  intros Hw. assert (Hnd : NoDup (snd <$> Virt.types)) by (apply (bool_decide_unpack _); vm_compute; reflexivity). split.
  - intros t Ht. rewrite register_lookup by done.
    destruct (find _ _) as [t'|] eqn:Ef.
    + apply find_some in Ef as [Hin Hb]. bools. f_equal. unfold gvk in Hb. simplify_eq.
      apply list_elem_of_In in Hin. unfold Virt.types in *. apply list_elem_of_fmap in Ht as (n & -> & _), Hin as (n' & -> & _). simpl in *. congruence.
    + exfalso. eapply find_none in Ef; [|by apply list_elem_of_In]. by apply bool_decide_eq_false in Ef.
  - intros g v k n. rewrite register_lookup by done. destruct (find _ _) as [t'|] eqn:Ef.
    + apply find_some in Ef as [_ Hb]. bools. intros [= ->]. unfold gvk in *. simpl in *. congruence.
    + intros Ht. by apply Hw in Ht as [_ ?].
Qed.

Lemma virt_kinds_grow scheme w w' :
  w ⊆ w' → (∀ s g v k t, w' !! (s, (g, v, k)) = Some t → w !! (s, (g, v, k)) ≠ Some t → fst t ≠ Virt.package) →
  virt_kinds scheme w → virt_kinds scheme w'.
Proof.
  intros Hsub Hnew [Hk Hu]. split.
  - intros t Ht. eapply lookup_weaken; [by apply Hk|done].
  - intros g v k n Hw'. destruct (decide (w !! (scheme, (g, v, k)) = Some (Virt.package, n))); [by apply Hu|].
    by apply Hnew in Hw'.
Qed.
Lemma library_virt scheme s w w' : library_adds s w w' → virt_kinds scheme w → virt_kinds scheme w'.
Proof. intros [Hsub Hnew]. apply virt_kinds_grow; [done|]. intros s' g v k t H1 H2. destruct (Hnew _ _ _ _ _ H1 H2) as (_ & _ & Hp). intros E. by rewrite E in Hp. Qed.
Lemma meta_virt scheme s gv w w' : meta_adds s gv w w' → virt_kinds scheme w → virt_kinds scheme w'.
Proof. intros [Hsub Hnew]. apply virt_kinds_grow; [done|]. intros s' g v k t H1 H2. by destruct (Hnew _ _ _ _ _ H1 H2) as (_ & _ & _ & -> & _). Qed.

(** Registering the virtink types: allowed in a scheme without types of the group. *)
Lemma Virt_AddToScheme_wp scheme w :
  (∀ g v k t, w !! (scheme, (g, v, k)) = Some t → own_group g = false ∧ own_package (fst t) = false) →
  wp scheme_env (Virt.AddToScheme scheme) w (λ r w', r = None ∧ w ⊆ w' ∧ virt_kinds scheme w').
Proof.
  intros Hw. split; [split; [done|]|].
  { intros t t' _ Ht. by apply Hw in Ht as [? _]. }
  intros [] ? ->. split; [done|]. intros [] w2 Hm. cbn. split; [done|]. split; [|eapply meta_virt; [exact Hm|by apply virt_registered]].
  etrans; [|apply Hm]. apply map_subseteq_spec. intros [s [[g v] k]] t Ht. rewrite register_lookup by (apply (bool_decide_unpack _); vm_compute; reflexivity).
  destruct (find _ _) as [t'|] eqn:Ef; [|done]. exfalso. apply find_some in Ef as [_ Hb]. bools. unfold gvk in Hb. simplify_eq. by apply Hw in Ht as [? _].
Qed.

(** The kinds that client-go's registration brings stay known while others are added. *)
Lemma controller_init_wp scheme w :
  fresh scheme w → wp scheme_env (controller_init scheme) w (λ _ w', virt_kinds scheme w' ∧
    (∀ k, k ∈ core_kinds → knows scheme (core k) w') ∧
    knows scheme (mkGV "cdi.kubevirt.io" "v1beta1", "DataVolume") w' ∧
    knows scheme (mkGV "k8s.cni.cncf.io" "v1", "NetworkAttachmentDefinition") w').
Proof.
  intros Hf. unfold controller_init, Must. cbn [pbind call]. split; [done|]. intros r w1 (-> & [Hs1 Hn1] & Hc). cbn [pbind].
  apply wp_seq. apply wp_seq. eapply wp_mono; [|apply Virt_AddToScheme_wp].
  2: { intros g v k t Ht. eapply Hn1; [done|]. by rewrite Hf. }
  intros r w2 (-> & Hs2 & Hv2). cbn. split; [done|]. intros r w3 (-> & Ha3 & Hd). cbn. split; [done|]. intros r w4 (-> & Ha4 & Hn). cbn.
  assert (w1 ⊆ w4) as Hsub by (etrans; [done|]; etrans; [apply Ha3|apply Ha4]).
  split_and!; [by eapply library_virt, library_virt| |eapply knows_weaken; [apply Ha4|done]|done].
  intros k Hk. eapply knows_weaken; [done|by apply Hc].
Qed.

Lemma daemon_init_wp scheme w :
  fresh scheme w → wp scheme_env (daemon_init scheme) w (λ _ w', virt_kinds scheme w' ∧ ∀ k, k ∈ core_kinds → knows scheme (core k) w').
Proof.
  intros Hf. unfold daemon_init, Must. cbn [pbind call]. split; [done|]. intros r w1 (-> & [Hs1 Hn1] & Hc). cbn [pbind].
  apply wp_seq. eapply wp_mono; [|apply Virt_AddToScheme_wp].
  2: { intros g v k t Ht. eapply Hn1; [done|]. by rewrite Hf. }
  intros r w2 (-> & Hs2 & Hv2). cbn. split; [done|]. intros k Hk. eapply knows_weaken; [done|by apply Hc].
Qed.


(** The other schemes.  The metadata types were added first: they are in no group of virtink. *)
Lemma after_meta scheme w w' :
  fresh scheme w → meta_adds scheme v1 w w' →
  ∀ g v k t, w' !! (scheme, (g, v, k)) = Some t → own_group g = false ∧ own_package (fst t) = false.
Proof.
  intros Hf [_ Hn] g v k t Ht. destruct (Hn _ _ _ _ _ Ht) as (_ & Hg & _ & -> & _); [by rewrite Hf|].
  by destruct Hg as [-> | ->].
Qed.

Lemma clientset_init_wp scheme w : fresh scheme w → wp scheme_env (clientset_init scheme) w (λ _ w', virt_kinds scheme w').
Proof.
  intros Hf. unfold clientset_init, Must, clientset_AddToScheme. cbn [pbind call SchemeBuilder_AddToScheme]. split; [done|]. intros [] w1 Hm.
  apply wp_seq. apply wp_seq. eapply wp_mono; [|apply Virt_AddToScheme_wp; by eapply after_meta]. by intros r w2 (-> & _ & Hv).
Qed.

(** The console's options, after the registration of the subresources with a new scheme. *)
Lemma Subresources_AddToScheme_wp scheme w :
  fresh scheme w → wp scheme_env (Subresources.AddToScheme scheme) w (λ r w', r = None ∧
    (∀ g v k t, w' !! (scheme, (g, v, k)) = Some t → t = Subresources.VirtualMachineConsoleOptions ∧ g = Subresources.GroupName ∨
       k ∈ meta_kinds ∧ fst t = "meta/v1" ∧ (k ≠ "WatchEvent" → k = snd t)) ∧
    knows scheme (Subresources.SchemeGroupVersion, "VirtualMachineConsoleOptions") w').
Proof.
  intros Hf. split; [split; [done|]|]; [intros t t' _ Ht; by rewrite Hf in Ht|]. intros [] ? ->. split; [done|]. intros [] w2 [Hsub Hn]. cbn. split_and!; [done| |].
  - intros g v k t Ht. destruct (decide (register scheme Subresources.SchemeGroupVersion [Subresources.VirtualMachineConsoleOptions] w !! (scheme, (g, v, k)) = Some t)) as [E|E].
    + left. rewrite register_lookup in E by apply NoDup_singleton. simpl in E. case_bool_decide as Ek; [|by rewrite Hf in E].
      injection E as <-. unfold gvk in Ek. simpl in Ek. split; congruence.
    + right. destruct (Hn _ _ _ _ _ Ht E) as (_ & _ & ? & ? & ?). done.
  - eapply knows_weaken; [done|]. exists Subresources.VirtualMachineConsoleOptions. rewrite register_lookup by apply NoDup_singleton.
    simpl. by rewrite bool_decide_true.
Qed.

Lemma apiserver_init_wp scheme w :
  fresh scheme w → wp scheme_env (apiserver_init scheme) w (λ _ w', knows scheme (Subresources.SchemeGroupVersion, "VirtualMachineConsoleOptions") w').
Proof.
  intros Hf. unfold apiserver_init. apply wp_seq. eapply wp_mono; [|by apply Subresources_AddToScheme_wp]. intros r w1 (-> & Hw1 & Hk1).
  split; [done|]. intros [] w2 [Hsub Hn]. cbn [pbind].
  assert (Hw2 : ∀ k t, k ∈ snd <$> meta_types → w2 !! (scheme, gvk v1 k) = Some t → t = ("meta/v1", k)).
  { intros k t Hk Ht. assert (k ≠ "WatchEvent") by (intros ->; revert Hk; apply (bool_decide_unpack _); vm_compute; reflexivity).
    destruct (decide (w1 !! (scheme, gvk v1 k) = Some t)) as [E|E].
    - apply Hw1 in E as [[_ E]|(_ & E1 & E2)]; [done|]. destruct t. simpl in *. rewrite E1, E2 by done. done.
    - destruct (Hn _ _ _ _ _ Ht E) as (_ & _ & _ & E1 & E2). destruct t. simpl in *. rewrite E1, E2 by done. done. }
  split; [split; [done|]|].
  - intros t t' Ht Hl. apply Hw2 in Hl as ->; [|by apply list_elem_of_fmap_2]. unfold meta_types in Ht. by apply list_elem_of_fmap in Ht as (n & -> & _).
  - intros [] ? ->. eapply (knows_weaken _ _ w1); [|done]. etrans; [exact Hsub|]. apply map_subseteq_spec. intros [s [[g v] k]] t Ht.
    rewrite register_lookup by (apply (bool_decide_unpack _); vm_compute; reflexivity). destruct (find _ _) as [t'|] eqn:Ef; [|done].
    apply find_some in Ef as [Hin Hb]. bools. apply list_elem_of_In in Hin. unfold gvk in Hb. injection Hb as <- <- <- <-.
    apply Hw2 in Ht as ->; [|by apply list_elem_of_fmap_2]. unfold meta_types in Hin. by apply list_elem_of_fmap in Hin as (n & -> & _).
Qed.

Lemma options_init_wp scheme w :
  fresh scheme w → wp scheme_env (options_init scheme) w (λ _ w', knows scheme (Subresources.SchemeGroupVersion, "VirtualMachineConsoleOptions") w').
Proof.
  intros Hf. unfold options_init. apply wp_seq. eapply wp_mono; [|by apply Subresources_AddToScheme_wp]. intros r w1 (-> & Hw1 & Hk1).
  split; [split; [done|]|].
  - intros t t' ->%list_elem_of_singleton Hl. apply Hw1 in Hl as [[-> _]|(Hm & _)]; [done|]. exfalso. revert Hm. apply (bool_decide_unpack _). vm_compute. reflexivity.
  - intros [] ? ->. cbn [wp]. unfold knows. rewrite register_lookup by apply NoDup_singleton. simpl. by rewrite bool_decide_false.
Qed.

(** ** Proofs: what the daemon asks for *)

(** Every call that a program may make satisfies [P]. *)
Fixpoint all_calls {E A} (P : ∀ X, E X → Prop) (p : prog E A) : Prop :=
  match p with
  | Ret _ => True
  | Call e k => P _ e ∧ ∀ x, all_calls P (k x)
  | Crash _ => True
  end.

Section Asks.
Context {E : Type → Type} (P : ∀ X, E X → Prop).

Lemma all_bind {A B} (p : prog E A) (f : A → prog E B) : all_calls P p → (∀ a, all_calls P (f a)) → all_calls P (pbind p f).
Proof. induction p as [a|X e k IH|why]; simpl; [auto| |done]. intros [He Hk] Hf. split; auto. Qed.
Lemma all_tbind {A B} (p : prog E (result A)) (f : A → prog E (result B)) :
  all_calls P p → (∀ a, all_calls P (f a)) → all_calls P (tbind p f).
Proof. intros Hp Hf. apply all_bind; [done|]. by intros []. Qed.
Lemma all_check (p : prog E (option goerror)) : all_calls P p → all_calls P (check p).
Proof. intros Hp. by apply all_bind. Qed.
Lemma all_call {X} (e : E X) : P X e → all_calls P (call e).
Proof. by split. Qed.
End Asks.

Section DaemonAsks.
Context `{K : K8s}.

Definition daemon_kinds : list (GroupVersion * string) := [virt "VirtualMachine"; core "Pod"; core "PersistentVolumeClaim"].
Definition asks_known X (e : nodeE X) : Prop := match node_kind e with Some k => k ∈ daemon_kinds | None => True end.
Abbreviation asks := (all_calls asks_known).

(** Follow a program to its calls. *)
Ltac known := unfold asks_known; simpl; unfold daemon_kinds; try exact I; set_solver.
Ltac asks_step :=
  first
    [ progress intros
    | exact I
    | apply all_check
    | apply all_call; known
    | apply all_tbind
    | apply all_bind
    | match goal with |- context [match ?x with _ => _ end] => destruct x end ].
Ltac asks := repeat first [solve [eauto with asks] | asks_step].

Create HintDb asks.
Lemma kube_asks {X} (e : kubeE X) : asks_known X (Kube e) → asks (kube e).
Proof. by split. Qed.
Lemma Eventf_asks vm ty r : asks (Eventf_ vm ty r).
Proof. by split. Qed.
Lemma IsBlock_asks ns v : asks (IsBlock ns v).
Proof.
  unfold IsBlock, GetPVC. set (n := match PersistentVolumeClaim _ with Some _ => _ | None => _ end).
  apply all_bind; [|by intros [[]|]]. case_decide; [done|]. apply all_bind; [apply kube_asks; known|]. by intros [|e]; [|destruct (IsNotFound e)].
Qed.
Hint Resolve Eventf_asks IsBlock_asks : asks.

Lemma getVMMountRecord_asks uid : asks (getVMMountRecord uid).
Proof. unfold getVMMountRecord. asks. Qed.
Lemma writeVMMountRecord_asks uid r : asks (writeVMMountRecord uid r).
Proof. unfold writeVMMountRecord. asks. Qed.
Lemma removeVMMountRecord_asks uid : asks (removeVMMountRecord uid).
Proof. unfold removeVMMountRecord. asks. Qed.
Hint Resolve getVMMountRecord_asks writeVMMountRecord_asks removeVMMountRecord_asks : asks.
Lemma addVolumeToVMMountRecord_asks uid v t r : asks (addVolumeToVMMountRecord uid v t r).
Proof. unfold addVolumeToVMMountRecord. asks. Qed.
Lemma getBlockFileMajorMinor_asks p : asks (getBlockFileMajorMinor p).
Proof. unfold getBlockFileMajorMinor. asks. Qed.
Lemma isMounted_asks p : asks (isMounted p).
Proof. unfold isMounted. asks. Qed.
Lemma NewManager_asks vm : asks (NewManager vm).
Proof. unfold NewManager. asks. Qed.
Lemma getSource_asks v u : asks (getHotplugVolumeSourcePathOnHost v u).
Proof. unfold getHotplugVolumeSourcePathOnHost. asks. Qed.
Hint Resolve addVolumeToVMMountRecord_asks getBlockFileMajorMinor_asks isMounted_asks NewManager_asks getSource_asks : asks.
Lemma allow_device_asks vm a b : asks (allow_device vm a b).
Proof. unfold allow_device. asks. Qed.
Hint Resolve allow_device_asks : asks.
Lemma mountBlockVolume_asks vm v u vu r : asks (mountBlockVolume vm v u vu r).
Proof. unfold mountBlockVolume. asks. Qed.
Lemma mountFileSystemVolume_asks vm v u vu r : asks (mountFileSystemVolume vm v u vu r).
Proof. unfold mountFileSystemVolume. asks. Qed.
Hint Resolve mountBlockVolume_asks mountFileSystemVolume_asks : asks.

Lemma mount_volumes_asks l u vu r vm : asks (mount_volumes l u vu r vm).
Proof. revert vu r vm. induction l as [|v l IH]; intros vu r vm; cbn [mount_volumes]; asks. Qed.
Hint Resolve mount_volumes_asks : asks.
Lemma mountHotplugVolumes_asks vm u vu : asks (mountHotplugVolumes vm u vu).
Proof. unfold mountHotplugVolumes. asks. Qed.
Lemma umountHotplugVolume_asks vm v : asks (umountHotplugVolume vm v).
Proof. unfold umountHotplugVolume, isBlockFile. asks. Qed.
Hint Resolve mountHotplugVolumes_asks umountHotplugVolume_asks : asks.
Lemma umount_gone_asks vm l kept : asks (umount_gone vm l kept).
Proof. revert kept. induction l as [|v l IH]; intros kept; cbn [umount_gone]; asks. Qed.
Lemma umount_all_asks vm l : asks (umount_all vm l).
Proof. induction l as [|v l IH]; cbn [umount_all]; asks. Qed.
Hint Resolve umount_gone_asks umount_all_asks : asks.
Lemma umountHotplugVolumes_asks vm : asks (umountHotplugVolumes vm).
Proof. unfold umountHotplugVolumes. asks. Qed.
Lemma cleanup_asks vm : asks (cleanup vm).
Proof. unfold cleanup, umountAllHotplugVolumes. asks. Qed.
Lemma add_disks_asks l disks vm : asks (add_disks l disks vm).
Proof. revert vm. induction l as [|v l IH]; intros vm; cbn [add_disks]; asks. Qed.
Lemma remove_disks_asks vm l : asks (remove_disks vm l).
Proof. induction l as [|d l IH]; cbn [remove_disks]; asks. Qed.
Hint Resolve umountHotplugVolumes_asks cleanup_asks add_disks_asks remove_disks_asks : asks.
Lemma reconcileHotplugVolumes_asks vm info : asks (reconcileHotplugVolumes vm info).
Proof. unfold reconcileHotplugVolumes, addHotplugVolumesToVM, removeHotplugVolumesFromVM, info_disks. asks. Qed.
Lemma create_and_boot_asks vm : asks (create_and_boot vm).
Proof. unfold create_and_boot. asks. Qed.
Hint Resolve reconcileHotplugVolumes_asks create_and_boot_asks : asks.
Lemma reconcile_scheduled_asks vm : asks (reconcile_scheduled vm).
Proof. unfold reconcile_scheduled, ok_vm. asks. Qed.
Lemma power_action_asks vm : asks (power_action vm).
Proof. unfold power_action. asks. Qed.
Hint Resolve power_action_asks : asks.
Lemma reconcile_running_here_asks vm : asks (reconcile_running_here vm).
Proof. unfold reconcile_running_here. asks. Qed.
Lemma PollImmediate_asks n cond : asks cond → asks (PollImmediate n cond).
Proof. intros Hc. induction n as [|n IH]; cbn [PollImmediate]; asks. Qed.
Lemma open_target_asks ip vm m ctx rx b : asks (open_target ip vm m ctx rx b).
Proof. unfold open_target. asks. Qed.
Hint Resolve open_target_asks reconcile_scheduled_asks reconcile_running_here_asks : asks.
Lemma migrate_step_asks n ip vm pod m b : asks (migrate_step n ip vm pod m b).
Proof.
  assert (Hr : asks (migrate_receive ip vm m b)).
  { unfold migrate_receive. apply all_bind; [apply PollImmediate_asks; asks|]. intros [e|]; [asks|].
    do 2 (apply all_bind; [asks|intros ?]). destruct a0 as [[]|]; [asks| |asks]. apply all_bind; [asks|intros ?].
    apply all_bind; [apply PollImmediate_asks; unfold receive_ready; asks|asks]. }
  unfold migrate_step, migrate_send, migrate_sending, migrate_arrived, cancel_if. asks.
Qed.
Hint Resolve migrate_step_asks : asks.

Lemma daemon_asks n ip req blocks : asks (Daemon.Reconcile n ip req blocks).
Proof.
  unfold Daemon.Reconcile, Daemon.reconcile, with_blocks, reconcileDeletingVM, reconcile_migrating, ok_vm.
  repeat first [solve [eauto with asks] | apply kube_asks; known | asks_step].
Qed.

End DaemonAsks.

Lemma all_mono {E A} (P Q : ∀ X, E X → Prop) (p : prog E A) : (∀ X e, P X e → Q X e) → all_calls P p → all_calls Q p.
Proof. intros H. induction p as [a|X e k IH|why]; simpl; [done| |done]. intros [He Hk]. split; auto. Qed.

Lemma virt_knows scheme w kind : virt_kinds scheme w → bool_decide (kind ∈ snd <$> Virt.types) = true → knows scheme (virt kind) w.
Proof. intros [Hk _] Hb. bools. apply list_elem_of_fmap in Hb as (t & -> & Ht). exists t. by apply Hk. Qed.
Lemma core_knows scheme w kind :
  (∀ k, k ∈ core_kinds → knows scheme (core k) w) → bool_decide (kind ∈ core_kinds) = true → knows scheme (core kind) w.
Proof. intros Hk Hb. bools. by apply Hk. Qed.

(** The owner references that the controllers write name the registered kind. *)
Example virt_group_version : ApiTypes.SchemeGroupVersion = (gv_Group Virt.SchemeGroupVersion +:+ "/" +:+ gv_Version Virt.SchemeGroupVersion)%string.
Proof. done. Qed.

(** C24: every scheme is built without a panic, and each binary's scheme knows what the binary asks
    its client for: virt-controller's the kind of every call of its three controllers, virt-daemon's the
    kind of every call that a daemon's reconciliation may make, whatever it is answered; each virtink type is
    registered under its own kind only, in the binaries and the clientset; and the schemes of the API server
    know the options of the console. *)
Theorem schemes_complete `{K : K8s} scheme w :
  fresh scheme w →
  wp scheme_env (controller_init scheme) w (λ _ w', virt_kinds scheme w' ∧
    (∀ X (e : kubeE X) k, kube_kind e = Some k → knows scheme k w') ∧ (∀ X (e : rsE X) k, rs_kind e = Some k → knows scheme k w')) ∧
  wp scheme_env (daemon_init scheme) w (λ _ w', virt_kinds scheme w' ∧
    ∀ node ip req blocks, all_calls (λ X e, ∀ k, node_kind e = Some k → knows scheme k w') (Daemon.Reconcile node ip req blocks)) ∧
  wp scheme_env (clientset_init scheme) w (λ _ w', virt_kinds scheme w') ∧
  wp scheme_env (fake_init scheme) w (λ _ w', virt_kinds scheme w') ∧
  wp scheme_env (apiserver_init scheme) w (λ _ w', knows scheme (Subresources.SchemeGroupVersion, "VirtualMachineConsoleOptions") w') ∧
  wp scheme_env (options_init scheme) w (λ _ w', knows scheme (Subresources.SchemeGroupVersion, "VirtualMachineConsoleOptions") w').
Proof.
  intros Hf. split_and!; [| |by apply clientset_init_wp|by apply clientset_init_wp|by apply apiserver_init_wp|by apply options_init_wp].
  - eapply wp_mono; [|by apply controller_init_wp]. intros _ w' (Hv & Hc & Hd & Hn).
    split_and!; [exact Hv|..]; intros X e k; destruct e; cbn [kube_kind rs_kind]; (intros [= <-] || discriminate);
      match goal with
      | |- knows _ (virt _) _ => apply virt_knows; [exact Hv|vm_compute; reflexivity]
      | |- knows _ (core _) _ => apply core_knows; [exact Hc|vm_compute; reflexivity]
      | |- knows _ (_, "DataVolume") _ => exact Hd
      | |- knows _ (_, "NetworkAttachmentDefinition") _ => exact Hn
      end.
  - eapply wp_mono; [|by apply daemon_init_wp]. intros _ w' [Hv Hc]. split; [exact Hv|]. intros node ip req blocks.
    eapply all_mono; [|apply daemon_asks]. intros X e He k Ek. unfold asks_known, daemon_kinds in He. rewrite Ek in He.
    apply elem_of_cons in He as [-> |He]; [apply virt_knows; [exact Hv|vm_compute; reflexivity]|].
    apply elem_of_cons in He as [-> |He]; [|apply list_elem_of_singleton in He as ->]; (apply core_knows; [exact Hc|vm_compute; reflexivity]).
Qed.

Lemma schemes_complete_witness : ∃ w : registry, fresh "main.scheme" w ∧
  wp scheme_env (clientset_init "main.scheme") w (λ _ w', virt_kinds "main.scheme" w').
Proof. exists ∅. split; [intros k; apply lookup_empty|]. eapply (schemes_complete (K := k8s_concrete) "main.scheme" ∅). intros k. apply lookup_empty. Defined.
